(* ===== verification/_CoqProject ===== *)
-Q . S2P
Prelude.v
Carrier.v
JsNumber.v
MathLib.v
Canvas.v
Geometry.v
AppState.v
Render.v
AutoFit.v
Transfer.v
Playback.v
Controls.v
Contract.v
Export.v
Ingest.v
App.v
Timeline.v
Typing.v
Liveness.v
Sequencer.v
Index.v
Screen.v
Picture.v
Doubles.v
