(* ===== verification/Prelude.v ===== *)
(** * Face time-lapse aligner (src/script.js): verification development

    The program is a page that plays a sequence of face photographs as a
    time-lapse.  Its parts, all in src/script.js:

    - the two global objects [state] and [elements] (lines 6-40);
    - ingestion: [init], [handleFiles], [loadImage], [detectFace]
      (lines 43-80, 140-224), which load the detector, decode the files,
      run the detector on them and fill [state.images];
    - the renderer [renderFrame] with [getCentroid] (lines 249-320), which
      paints one frame so that the line between the eyes has a fixed place,
      direction and length on the canvas;
    - the fitter [autoFitZoom] (lines 322-434), which computes the largest
      zoom at which no photograph is cut by the border of the canvas;
    - the player [startPlayback] with its closure [loop], and [resetApp]
      (lines 226-247, 436-443), driven by the animation frames of the
      browser;
    - the controls installed by [setupEventListeners], and [setAlignMode]
      (lines 82-138);
    - the overlay [showLoading], [hideLoading] (lines 445-459);
    - the exporters [exportGif], [exportMp4] (lines 462-574), which paint
      every frame once for an encoder or a recorder.

    The controls write the settings [fps], [zoom], [alignEyes]; the player
    reads [fps] and calls the renderer; the renderer reads [zoom],
    [alignEyes] and the frames; the fitter reads the frames and writes
    [zoom], the slider and, when paused, the canvas; the exporters pause the
    player, call the renderer for every frame, and start the player again.

    ** Numeric model

    JavaScript numbers are IEEE doubles.  A number of the model is [num F]
    (file JsNumber), that is a finite value of a carrier [F], or one of
    [PInf], [NInf], [NaN]; the special values follow IEEE 754 and
    ECMAScript ([x / 0], [Infinity * 0], [x % 0], comparisons with [NaN],
    [Math.min] with [NaN], ...).  Zero is unsigned: every zero divisor of
    the source is a length, a square root or an image size, hence [+0], and
    no other operation of the source observes the sign of a zero.

    The carrier is a class of operations (file Carrier) with three
    instances.  At the real numbers [R] of the Standard Library the
    arithmetic on finite values is exact (no rounding, no overflow): the
    theorems are proved there.  At the rationals [Q] the definitions that
    do not call [Math.sqrt], [Math.atan2], [Math.cos] or [Math.sin] run by
    [vm_compute], and Transfer shows that they compute what the theorems
    are about.  At the primitive floats of the kernel (file Doubles), which
    are binary64 with the rounding of IEEE 754, every definition runs as
    it does in the browser.

    ** Files, in dependency order

    - Prelude: state transformers ([act], [;;], [when], [forEach],
      [reduce]), the lemmas on them (among them [forEach_iff]: a loop of
      guarded updates keeps a property exactly when every element allows
      it), lists updated by position ([putAt], [dropAt]) and sums over
      them, the tactics and the hint database [facecut].
    - Carrier: the class [Carrier] of field operations with comparison,
      integer injection and floor; instances [RCarrier] and
      [QCarrier]; reflection lemmas for the real instance and the tactics
      [runfold] and [rcases].
    - JsNumber: [num F], the operators [+ - * / % < > >=] of the language
      on it, [Math.min], [Math.max], [Math.floor], [Math.round], [parseInt]
      of the string of a number; array indexing by a number; the order
      [nle] on numbers and its lemmas.
    - MathLib: the interface [MathOps] ([Math.sqrt], [Math.atan2],
      [Math.cos], [Math.sin]), its contract [MathLaws] on the reals, and the
      Standard Library instance [StdMath] that discharges the contract.
    - Canvas: the canvas and its 2D context as the HTML standard specifies
      them: the current transformation matrix, the stack of saved states,
      the fill style and the list of paint operations; [translate],
      [scale], [rotate], [save], [restore], [fillRect], [drawImage];
      setting [width] or [height] resets the context.
    - Geometry: [Point], [getCentroid] (lines 317-320) and its theorems.
    - AppState: [State] (the object literal of lines 6-18 is [state_init]),
      [Elements] (the nodes the modelled functions write, by the property
      written), [World] (both), the data of a frame ([Item], [Detections],
      [Landmarks]), one setter per assignment of the source, [showLoading]
      and [hideLoading].
    - Render: [renderFrame] and the [const]s of its aligned branch
      ([leftEyeCenter], [dx], [angle], [eyesCenter], [eyesScale], ...),
      [drawAligned], [drawCentered], and the theorems on where a frame is
      painted.  Section Scenarios holds the concrete frames and states the
      examples of all files run on.
    - AutoFit: [autoFitZoom]: [corners], the two guarded updates per corner
      ([boundAxis], [boundCorner]), [maxScaleForThisImage], [safeZoom],
      the loop over the frames ([fitItem], [minSafeZoom]), [finalZoom],
      [clampedZoom], and the writes and the repaint.
    - Transfer: the embedding of a carrier in the reals ([Embedding], with
      the rationals as instance), the map [lift] it induces on numbers, and
      the lemmas that the operators, [Math.min], [Math.max], [Math.floor],
      [Math.round], [parseInt], [getCentroid], the letterbox and the loop
      of the solver over the corners commute with it (rewrite database
      [transfer]).
    - Playback: the browser's list of animation frame callbacks
      ([Browser], [requestAnimationFrame], [cancelAnimationFrame],
      [animationFrame]); [loop], with the body of its [if] as [advance];
      [startPlayback]; [resetApp]; the end of [handleFiles]
      ([handleFiles_finish], lines 198-209); the events of a page ([Event],
      [step], [run]).
    - Controls: the listeners of the two sliders ([onSpeedInput],
      [onZoomInput]), [setAlignMode], the closed set of inputs of a page
      ([Control], [Input], [session]).
    - Contract: the contracts of the specification for the landmark
      geometry, the frame transform builder and the auto-fit solver,
      written as functions of their inputs alone with the failures of the
      specification as values ([computeFaceGeometry], [buildTransform],
      [letterbox], [frameTransform], [autoFit], [Failure]); the abstraction
      from the data of the page to theirs ([geometryOf], [recordOf],
      [viewportOf]); the proofs that the functions of the code implement
      them.  The contracts model no line of the code: they are what the
      code is compared with.
    - Export: [exportGif] and [exportMp4] (lines 462-574): the pause of the
      player ([pausePlayback]), the loop of [exportGif] over the frames
      ([addFrames]) into the encoder ([Gif], [addFrame]), one turn of the
      loop of [exportMp4] ([videoTurn]), the type and the name of the
      video ([videoType], [recording], over the class [Recorder] of what
      [MediaRecorder.isTypeSupported] answers), the array [chunks] with
      the handler of [dataavailable] and its guard ([dataAvailable],
      [pushChunk]) and the blob made of it ([newBlob], [videoFile]), the
      end of an export ([exportDone]), the [catch] block after the loop
      ([stopFailed]); the page with the tasks it waits for ([Page],
      [Task], [resume], [progressed]) and all its events ([PageEvent],
      [pageStep], [pageRun]).  A blob is the list of its bytes.
    - Ingest: [init] by its writes ([init_start], [init_loaded],
      [init_failed], [init_worker]); [handleFiles] (lines 140-209): the
      filter on the files ([accepted], [isHeic], with the string functions
      it calls), the early returns ([proceeds]), the steps between its
      [await]s ([handleFiles_start], [handleFiles_turn],
      [handleFiles_push]), the function when nothing interrupts it
      ([handleFiles]) and as a list of events ([loading]) that animation
      frames are woven into ([woven]).  The three libraries a turn calls
      are the variables of Section Collaborators: [fileToProcess],
      [loadImage], [detectFace] and the [try] block of a turn
      ([processFile]) are functions of what they answer ([Settled],
      [Converted]).
    - App: the document as a whole.  [App] is the page of Export with the
      calls of [handleFiles] that wait at an [await] ([Load]: the files of
      the call and its [i]); [init] is the page after the synchronous part
      of [init]; [AppEvent] lists what the event loop can run next: the
      ends of the two downloads of [init], the four listeners of the drop
      zone and the file input ([onDragOver], [onDragLeave], [onDrop],
      [onChange]), an event of the page of Export, and the resumption of a
      load ([loadStep]); [appStep] runs one, [appRun] a sequence.
    - Timeline: the events on which the page may call [startPlayback]
      ([starts]), the pace the page has to keep ([keeps_pace]: an animation
      frame between two of them), what is known of the callbacks that wait
      ([timeline]) and what every listener and continuation does to it.
    - Typing: the kinds of value the fields hold ([is_rate], [is_zoom],
      [is_index], [is_percent], [decoded]), the invariant [wellformed] of
      the page, what the environment must deliver for it ([sound]), and
      the proof that every listener and continuation keeps it.
    - Liveness: the measure [rank] of what the page still waits for, the
      rounds of a fair schedule ([round]), and the proof that every
      service lowers the measure and nothing else raises it.
    - Sequencer: the contract of the specification for the playback
      sequencer, a record of an index, a rate, a flag and the time of the
      last frame shown with [start], [stop], [setFps], [setFrame] and
      [tick]; the commands of the player as tasks of the page ([perform],
      [performAll]); the relation [plays] between a page and a sequencer,
      and the simulation.
    - Index: the invariant [indexed] of the current frame over the whole
      document, kept by every listener and continuation ([steady],
      [steady_page], [rested]).
    - Screen: the three invariants of the document together ([watched]),
      and what a paint operation has to do to show a frame as the
      specification asks ([as_specified]).
    - Picture: what is seen at a point of the canvas ([seen]): of the
      paint operations, the latest first, those that cover the point
      ([covers]), down to the first opaque one ([opaque]); [black] is the
      rectangle [renderFrame] begins with; [shows] says that a list of
      operations lets one frame be seen and nothing else, [ready] what
      [renderFrame] needs of a state for that.
    - Doubles: the carrier [DCarrier] of binary64, the assumptions [Engine]
      on the four functions of [Math], the engine [LevelMath] that is
      defined only where ECMAScript fixes the result, the frames
      ([levelled]) on which every engine computes what it computes, and
      the positions of the slider checked one by one ([agrees]).

    ** Correspondence with the code

    Every function of script.js that is modelled keeps its name.  A function
    that mutates [state], [elements] or the canvas is a state transformer
    ([act (State F)], [act (World F)], [act (Ctx F)]); statements in
    sequence are composed with [;;], a [forEach] loop of the source is
    [forEach] with the source's callback as its body.  Local [const]s are
    [let]s or, where theorems speak about them, definitions of their own
    named as in the source.  An early [return] is the first branch of an
    [if].  A closure that the browser calls later ([loop]) is a record of
    what it captured ([Callback]: the handle of the request and the
    variable [lastTime]) kept in the state of the browser.  An [async]
    function is cut at its [await]s: the part before the first one is a
    function of the page, the parts after it are what [resume] (for the
    exporters) and [loadStep] (for [handleFiles]) do with the pending
    [Task] or [Load], which holds the variables that part reads.  Several
    calls can wait at once; the event that resumes one names it by its
    position.  A [try] whose body can fail where it builds an object of a
    library takes a boolean saying whether the object could be built; the
    [catch] block is the other branch.  A promise of a library is the value
    it settles with ([Fulfilled] or [Rejected]), and an [await] in a [try]
    is a [match] on it.  [addEventListener] is not a function of the model:
    the listener installed is the branch of [appStep] for its event.

    ** Theorems

    - Geometry: [getCentroid] is the mean of the cluster, lies in its
      bounding box, commutes with translations, and is a pair of [NaN] on
      the empty cluster.
    - Render: an aligned frame is painted under a similarity that maps the
      midpoint of the eyes to (50%, 40%) of the canvas and the two eyes to a
      horizontal segment of length [canvas.width * zoom] centred there; a
      frame with no detection is letterboxed inside the canvas, centred and
      with its aspect ratio; [renderFrame] leaves the state, the matrix and
      the stack of the context as it found them; an index that is no index
      paints nothing; the frame whose eyes coincide is painted at its own
      size whatever the zoom.
    - AutoFit: the bound of a frame is the greatest scale at which its four
      corners are painted inside the canvas, and [minSafeZoom] the greatest
      zoom, up to 1, at which this holds for every frame; the zoom stored is
      a whole number of hundredths in [0.10, 0.95] and the slider shows it;
      when the lower clamp did not act, [renderFrame] at the stored zoom
      paints the corners of every detected frame inside the canvas.  The
      cases the code does not guard (no detection at all, coincident eyes,
      a fit below the range of the slider) are theorems and examples of
      what it then does.
    - Playback: one animation frame of one loop shows the current frame and
      moves to its successor, or does nothing; frames spaced more than an
      interval apart show the frames in order and cyclically; the frame
      shown has its eyes on the target; [resetApp] stops the loop;
      [startPlayback] called twice before an animation frame leaves two
      loops running.
    - Contract: refinement.  The geometry the code computes from two
      clusters with points is the one of the specification; for every
      frame whose image has a size and whose eye centres differ,
      [renderFrame] paints every point where the transform of the contract
      puts it; on a canvas with a size and frames with distinct eye
      centres, one of them detected, the solver of the contract does not
      fail and [autoFitZoom] stores the zoom it returns
      ([autoFit_feasible]: that zoom is in the range of the slider).  The
      contracts are taken with the tolerance epsilon = 0; where the code
      leaves the specification (coincident eyes, no detection, empty
      cluster) the theorems of Render and AutoFit say what it does.
    - Sequencer: simulation.  Every sequence of starts, pauses, changes of
      rate and animation frames takes the page to the state the sequencer
      of the specification computes, off the instants that lie exactly one
      interval after the last frame shown; on such an instant the contract
      shows a frame and the page does not; a tick that shows a frame
      leaves it on the canvas under the transform of the contract.
    - Index: from [init] on, whatever happens, whenever no load waits and
      there are frames, [state.currentFrame] is the index of one.
    - Screen: the theorems above put together.  On every page the
      document reaches from [init], given sliders and libraries that
      deliver values of their kind, an animation frame between two starts
      of the player and frames whose eye centres differ: an animation
      frame that is due paints the current frame where the transform of
      the specification puts it and moves to the next frame; one that is
      not due paints nothing; a click on the GIF button hands the encoder
      every frame with the eyes on the target.
    - Picture: [renderFrame] paints the frame and nothing but the frame.
      At every point of the canvas, after [renderFrame], the image of the
      frame is seen over black where the transform of the specification
      puts the image and black alone elsewhere, whatever was painted
      before; the bars beside a letterboxed frame are black.  The same
      in every state with the setup of a ready one ([shot_shows]), hence:
      on every page the document reaches an animation frame that is due
      leaves that picture of the current frame ([reached_page_picture]);
      every frame of the GIF shows its own image and nothing of the frame
      before it ([exportGif_pictures]); and so does the canvas the
      recorder films, after every timer ([exportMp4_pictures]).
    - Doubles: on frames with level eyes the solver and the renderer of
      every engine that meets [Engine] are those of [LevelMath], so runs by
      [vm_compute] on doubles are theorems about every such engine; the
      clamp returns a double in [0.1, 1] whatever the rounding; the slider
      and the zoom agree at every position of the slider, where
      [Math.floor] in the place of [Math.round] would not; and the
      rounding shows: a frame whose exact zoom is 0.57 gets 0.56, because
      [0.6 * 0.95 * 100] is below 57 in doubles.
    - Transfer: the solver over the rationals computes what the solver
      over the reals is proved to compute, so a value obtained by
      [vm_compute] is a value of the function the theorems are about.
    - Controls: over every sequence of inputs of the player the page has
      at most one loop waiting (given an animation frame between two
      starts), the current frame stays an index, and the context stays
      plain, so the theorems on [renderFrame] apply to every frame the
      player paints (Timeline, Index and Typing extend the three to the
      whole document); the zoom slider reads back what [autoFitZoom] wrote;
      a change of rate neither skips a frame nor repeats one.
    - Ingest: a load leaves in [state.images] the frames of the files that
      could be processed, in the order of the files, whatever animation
      frames came in between (the steps of a load are morphisms of the
      equivalence [same_shell], which animation frames respect), and it
      leaves the player running from the first frame with one loop, or the
      page reset; [handleFiles] is the sequence of its steps; files that
      arrive while the player runs freeze it until the load ends; a file
      whose conversion, decoding or detection fails is skipped and changes
      nothing of what the other files give.
    - Export: the encoder gets one frame per image, in order, each with the
      delay [1000 / fps] and with the eyes on the same two points; the canvas
      recorded by [exportMp4] shows image [k] after [k] timers; while an
      export is pending the player is paused and animation frames change
      nothing, on pages that take one export at a time (an invariant of the
      reachable pages, by induction on the steps); when an export ends the
      player runs again exactly when it ran before, and the video offered
      holds every byte the recorder delivered, in the order of delivery;
      no chunk that is kept is empty, and a piece goes to the array of its
      own call ([dataAvailable_other]).  Theorems show what happens on
      pages that do not keep to this: files that arrive, a reset, a move
      of the zoom or of the speed slider during an export.  The fit and
      the export together: the GIF
      made after [autoFitZoom] shows every detected face whole and with its
      eyes on the target.
    - App: a run of the document without exports is a run of the player
      on the trace of its events ([appRun_traces]), so the theorems of
      Ingest hold for loads served as continuations: a load that is served
      to its end leaves the frames of its files and the player running
      ([load_ends]); a drop removes the mark of the drop zone.  From [init]
      on, on pages that take one export at a time and end no load during
      one, the player is paused whenever an export is pending.
    - Timeline: from [init] on, whatever the user does and whichever loads
      and exports run, at most one callback of the player waits, as long as
      an animation frame comes between two events that start the player;
      an export that fails at once right after a load shows that the
      condition is needed.
    - Typing: from [init] on, whatever happens, the rate, the zoom, the
      index and the progress bar hold values of their kind, the frames are
      as the libraries delivered them, the context is plain and the page
      shows the settings of [state], provided the sliders and the
      libraries deliver values of theirs; and, with no proviso, no chunk
      of a recording under way is empty ([app_chunks_solid]).
    - Liveness: on a schedule that serves the oldest export and the oldest
      load once in every round, with animation frames, reports of progress,
      recorders that cannot be stopped and services of other tasks in
      between, nothing is left pending after as many rounds as [rank]
      counts; every export has then offered at most one file, and exactly
      one when every recorder could be stopped.

    ** Bounds

    No definition needs fuel.  The loops of the source run over arrays and
    are structural recursions on lists.  The loop of the player does not
    recurse in the model: each animation frame is one event, and a run of
    the page is a finite list of events ([run], [session], [pageRun],
    [appRun]), over which the invariants are proved by induction; they
    hold for runs of every length.  Termination of what the page waits for
    is proved with the measure [rank]: one for every file a load has still
    to process, one for every frame a video has still to show and one more
    for its recorder, one for an encoder at work; a schedule of that many
    fair rounds is enough, and the events of a round are not bounded.
    Sizes of images and of the canvas are natural numbers without bound;
    the settings are bounded by the ranges of their sliders (1 to 60 frames
    per second, 10 to 100 hundredths of zoom), which Typing assumes of the
    values the sliders deliver.  On doubles an integer is exact below 2^53
    in absolute value, and a finite value of the carrier is a finite
    double as long as no operation overflows; the runs of Doubles stay
    within a canvas and images of 1000 pixels.

    ** Not modelled

    Rounding in the theorems: they are about exact arithmetic, and Doubles
    shows by a run that the zoom stored can differ by a hundredth; there
    is no bound on the error of the painted positions.  Overflow of
    doubles to [Infinity].  [Math.atan2], [Math.cos] and [Math.sin] on
    doubles away from zero, which ECMAScript leaves to the engine: the
    runs on doubles are of frames with level eyes.  What the face detector, the image
    decoder and the HEIC converter compute (libraries the source only
    calls: their answers are variables of a section, or given with the
    file as its [Outcome]); the three [await]s of one turn of the loop of
    [handleFiles] are one step of the page.  The download of the models of
    the detector and of the worker script in [init], of which the page
    sees the end only.  [preventDefault], [alert] and [console], which
    write nothing the program reads.  [toLowerCase] beyond the letters of
    ASCII.  Of the exporters: the encoding done by gif.js and by the
    MediaRecorder (the bytes of a piece of the recording come with the
    event that delivers it, and the GIF offered is the object with its
    frames) and the rate of the stream captured from the canvas;
    [renderFrame] does not throw in the model, so the [catch] block of
    [exportMp4] is entered when the recorder cannot be built or cannot
    be stopped, and never from inside the loop.  The style sheet: whether the
    overlay keeps the user from the controls while it is shown is not
    known to the model, which lets every event come at any time.
    The pixels of the canvas: a canvas is the list of its paint operations
    with the matrix each was painted under, and Picture says which of
    them are seen at a point; the colours of an image, the sampling of its
    bitmap and anti-aliasing are the browser's. *)

From Stdlib Require Import List ZArith Lia Bool.
Import ListNotations.

Set Implicit Arguments.

(** ** Tactics *)

(** Invert a hypothesis and clean up. *)
Ltac inv H := inversion H; subst; clear H.

(** Case analysis on the scrutinee of the first [match] or [if] of the goal. *)
Ltac destr_match :=
  match goal with
  | |- context [match ?x with _ => _ end] => let E := fresh "E" in destruct x eqn:E
  end.

(** The same in a hypothesis. *)
Ltac destr_match_in H :=
  match type of H with
  | context [match ?x with _ => _ end] => let E := fresh "E" in destruct x eqn:E
  end.

(** Split every conjunction of the goal. *)
Ltac split_all := repeat match goal with |- _ /\ _ => split end.

Create HintDb facecut discriminated.
Create Rewrite HintDb facecut.

(** ** State transformers

    A JavaScript function that returns nothing and mutates an object is a
    function from the object's state to its next state. *)

Declare Scope act_scope.
Delimit Scope act_scope with act.

Definition act (S : Type) : Type := S -> S.

Definition skip {S : Type} : act S := fun s => s.

Definition andThen {S : Type} (f g : act S) : act S := fun s => g (f s).

Notation "f ;; g" := (andThen f g) (at level 61, right associativity) : act_scope.

(** [if (b) f] with no else branch. *)
Definition when {S : Type} (b : bool) (f : act S) : act S :=
  if b then f else skip.

(** [xs.forEach(body)]: the body runs for every element, in order. *)
Definition forEach {A S : Type} (xs : list A) (body : A -> act S) : act S :=
  fun s => fold_left (fun s x => body x s) xs s.

(** [xs.reduce(f, init)]. *)
Definition reduce {A B : Type} (f : B -> A -> B) (init : B) (xs : list A) : B :=
  fold_left f xs init.

(** [for (let i = 0; i < n; i++) body(i)]. *)
Definition forUpTo {S : Type} (n : nat) (body : nat -> act S) : act S :=
  forEach (seq 0 n) body.

Section Acts.
Context {S : Type}.
Implicit Types f g h : act S.

Lemma andThen_apply f g (s : S) : andThen f g s = g (f s).
Proof. reflexivity. Qed.

Lemma andThen_assoc f g h : andThen (andThen f g) h = andThen f (andThen g h).
Proof. reflexivity. Qed.

Lemma andThen_skip_l f (s : S) : andThen skip f s = f s.
Proof. reflexivity. Qed.

Lemma andThen_skip_r f (s : S) : andThen f skip s = f s.
Proof. reflexivity. Qed.

Lemma when_true f : when true f = f.
Proof. reflexivity. Qed.

Lemma when_false f : when false f = skip.
Proof. reflexivity. Qed.

Lemma forEach_nil {A} (body : A -> act S) (s : S) : forEach [] body s = s.
Proof. reflexivity. Qed.

Lemma forEach_cons {A} (x : A) xs (body : A -> act S) (s : S) :
  forEach (x :: xs) body s = forEach xs body (body x s).
Proof. reflexivity. Qed.

Lemma forEach_app {A} (xs ys : list A) (body : A -> act S) (s : S) :
  forEach (xs ++ ys) body s = forEach ys body (forEach xs body s).
Proof. unfold forEach. apply fold_left_app. Qed.

(** A loop preserves what every iteration preserves. *)
Lemma forEach_invariant {A} (P : S -> Prop) (xs : list A) (body : A -> act S) :
  (forall x s, In x xs -> P s -> P (body x s)) ->
  forall s, P s -> P (forEach xs body s).
Proof.
  induction xs as [|x xs IH]; intros Hbody s Hs; [exact Hs|].
  rewrite forEach_cons. apply IH.
  - intros y t Hy. apply Hbody. now right.
  - apply Hbody; [now left | exact Hs].
Qed.

(** Two loops over the same elements agree when their bodies agree on them. *)
Lemma forEach_ext {A} (xs : list A) (b1 b2 : A -> act S) :
  (forall x s, In x xs -> b1 x s = b2 x s) ->
  forall s, forEach xs b1 s = forEach xs b2 s.
Proof.
  induction xs as [|x xs IH]; intros H s; [reflexivity|].
  rewrite !forEach_cons, (H x s) by now left.
  apply IH. intros y t Hy. apply H. now right.
Qed.

(** A loop over the images of a list is the loop over the list, the body
    applied to the images. *)
Lemma forEach_map {A B} (f : A -> B) (body : B -> act S) xs (s : S) :
  forEach (map f xs) body s = forEach xs (fun x => body (f x)) s.
Proof.
  revert s. induction xs as [|x xs IH]; intros s; [reflexivity|].
  simpl map. now rewrite !forEach_cons, IH.
Qed.

(** When every iteration keeps [Q] exactly for the elements that satisfy
    [P], the loop keeps [Q] exactly when all the elements satisfy [P]. *)
Lemma forEach_iff {A} (Q : S -> Prop) (P : A -> Prop) (body : A -> act S) xs :
  (forall x s, In x xs -> Q (body x s) <-> Q s /\ P x) ->
  forall s, Q (forEach xs body s) <-> Q s /\ Forall P xs.
Proof.
  induction xs as [|x xs IH]; intros H s.
  - rewrite forEach_nil. intuition.
  - rewrite forEach_cons, IH by (intros; apply H; simpl; auto).
    rewrite H, Forall_cons_iff by (simpl; auto). tauto.
Qed.

End Acts.

Section Reduce.
Context {A B : Type}.

Lemma reduce_nil (f : B -> A -> B) init : reduce f init [] = init.
Proof. reflexivity. Qed.

Lemma reduce_cons (f : B -> A -> B) init x xs :
  reduce f init (x :: xs) = reduce f (f init x) xs.
Proof. reflexivity. Qed.

Lemma reduce_app (f : B -> A -> B) init xs ys :
  reduce f init (xs ++ ys) = reduce f (reduce f init xs) ys.
Proof. unfold reduce. apply fold_left_app. Qed.

(** An accumulator invariant. *)
Lemma reduce_invariant (P : B -> Prop) (f : B -> A -> B) xs :
  (forall b x, In x xs -> P b -> P (f b x)) ->
  forall init, P init -> P (reduce f init xs).
Proof.
  induction xs as [|x xs IH]; intros Hf init Hi; [exact Hi|].
  rewrite reduce_cons. apply IH.
  - intros b y Hy. apply Hf. now right.
  - apply Hf; [now left | exact Hi].
Qed.

End Reduce.

#[export] Hint Rewrite @forEach_nil @forEach_cons @reduce_nil @reduce_cons : facecut.

(** ** Lists and options *)

Lemma nth_error_Some_lt {A} (l : list A) i x : nth_error l i = Some x -> i < length l.
Proof. intros H. apply nth_error_Some. congruence. Qed.

Lemma nth_error_seq_lt start len i :
  i < len -> nth_error (seq start len) i = Some (start + i).
Proof.
  revert start i. induction len as [|len IH]; intros start i Hi; [lia|].
  destruct i as [|i]; simpl; [f_equal; lia|].
  rewrite IH by lia. f_equal. lia.
Qed.

Lemma Forall_nth_error {A} (P : A -> Prop) l i x :
  Forall P l -> nth_error l i = Some x -> P x.
Proof.
  intros HF Hn. rewrite Forall_forall in HF. apply HF.
  eapply nth_error_In; eauto.
Qed.

(** The list without its element [k], and with [x] in the place of its
    element [k]. *)
Definition dropAt {A} (k : nat) (xs : list A) : list A :=
  firstn k xs ++ skipn (S k) xs.

Definition putAt {A} (k : nat) (x : A) (xs : list A) : list A :=
  firstn k xs ++ x :: skipn (S k) xs.

Lemma length_dropAt {A} k (xs : list A) :
  k < length xs -> length (dropAt k xs) = pred (length xs).
Proof.
  intros H. unfold dropAt. rewrite length_app, length_firstn, length_skipn. lia.
Qed.

Lemma length_putAt {A} k (x : A) xs :
  k < length xs -> length (putAt k x xs) = length xs.
Proof.
  intros H. unfold putAt. rewrite length_app, length_firstn. cbn [length].
  rewrite length_skipn. lia.
Qed.

Lemma nth_error_putAt {A} k (x : A) xs :
  k < length xs -> nth_error (putAt k x xs) k = Some x.
Proof.
  intros H. unfold putAt. rewrite nth_error_app2; rewrite length_firstn; [|lia].
  now replace (k - Nat.min k (length xs)) with 0 by lia.
Qed.

Lemma nth_error_putAt_other {A} k j (x : A) xs :
  k < length xs -> j <> k -> nth_error (putAt k x xs) j = nth_error xs j.
Proof.
  unfold putAt. revert j xs.
  induction k as [|k IH]; intros [|j] [|y xs] Hk H; cbn [length] in Hk;
    try reflexivity; try contradiction; try lia.
  cbn [firstn skipn app nth_error]. apply IH; [lia | congruence].
Qed.

(** The part of a list from an element on starts with the element. *)
Lemma skipn_nth_error {A} i (l : list A) x :
  nth_error l i = Some x -> skipn i l = x :: skipn (S i) l.
Proof.
  revert l. induction i as [|i IH]; intros [|y l] H; try discriminate.
  - now injection H as ->.
  - cbn [skipn]. now apply IH.
Qed.

(** The elements of a list with their indices. *)
Lemma nth_error_combine_seq {A} (l : list A) start i x :
  nth_error l i = Some x ->
  nth_error (combine (seq start (length l)) l) i = Some (start + i, x).
Proof.
  revert start i. induction l as [|y l IH]; intros start [|i] H; try discriminate.
  - injection H as ->. cbn. now rewrite Nat.add_0_r.
  - cbn [length seq combine nth_error]. rewrite (IH (S start) i H). f_equal. f_equal. lia.
Qed.

(** What holds of every element holds of every element of a part. *)
Lemma Forall_take {A} (P : A -> Prop) k xs : Forall P xs -> Forall P (firstn k xs).
Proof.
  intros H. apply Forall_forall. intros x Hx. rewrite Forall_forall in H.
  apply H. rewrite <- (firstn_skipn k xs). apply in_or_app. now left.
Qed.

Lemma Forall_drop {A} (P : A -> Prop) k xs : Forall P xs -> Forall P (skipn k xs).
Proof.
  intros H. apply Forall_forall. intros x Hx. rewrite Forall_forall in H.
  apply H. rewrite <- (firstn_skipn k xs). apply in_or_app. now right.
Qed.

(** Both keep what holds of every element. *)
Lemma Forall_dropAt {A} (P : A -> Prop) k xs : Forall P xs -> Forall P (dropAt k xs).
Proof.
  intros H. apply Forall_app. split; [now apply Forall_take | now apply Forall_drop].
Qed.

Lemma Forall_putAt {A} (P : A -> Prop) k x xs :
  P x -> Forall P xs -> Forall P (putAt k x xs).
Proof.
  intros Hx H. apply Forall_app. split; [now apply Forall_take|].
  constructor; [exact Hx | now apply Forall_drop].
Qed.

(** The sum of a measure over a list, an element dropped or replaced. *)
Lemma list_sum_dropAt {A} (f : A -> nat) k xs x :
  nth_error xs k = Some x ->
  list_sum (map f xs) = list_sum (map f (dropAt k xs)) + f x.
Proof.
  revert xs. induction k as [|k IH]; intros [|y xs] H; try discriminate.
  - injection H as ->. unfold dropAt. cbn. lia.
  - change (dropAt (S k) (y :: xs)) with (y :: dropAt k xs).
    pose proof (IH xs H) as E. cbn [map] in *. unfold list_sum in *. cbn [fold_right] in *. lia.
Qed.

Lemma list_sum_putAt {A} (f : A -> nat) k xs x y :
  nth_error xs k = Some x ->
  list_sum (map f (putAt k y xs)) + f x = list_sum (map f xs) + f y.
Proof.
  revert xs. induction k as [|k IH]; intros [|z xs] H; try discriminate.
  - injection H as ->. unfold putAt. cbn. lia.
  - change (putAt (S k) y (z :: xs)) with (z :: putAt k y xs).
    pose proof (IH xs H) as E. cbn [map] in *. unfold list_sum in *. cbn [fold_right] in *. lia.
Qed.

(** A measure that is nowhere larger has no larger sum. *)
Lemma list_sum_le {A} (f g : A -> nat) xs :
  (forall x, f x <= g x) -> list_sum (map f xs) <= list_sum (map g xs).
Proof.
  intros H. induction xs as [|x xs IH]; [reflexivity|].
  pose proof (H x). unfold list_sum in *. cbn [map fold_right] in *. lia.
Qed.

#[export] Hint Resolve nth_error_Some_lt : facecut.
