(* ===== verification/Carrier.v ===== *)
(** * Carrier: the finite values of a JavaScript number

    The operations the source applies to finite numbers, as a class, with two
    instances: the reals (the idealisation the theorems are about) and the
    rationals (on which the definitions run).  The class has no laws: the
    theorems are stated at [R], where [lra], [nra] and [field] apply once the
    class operations are unfolded ([runfold]). *)

From Stdlib Require Import ZArith QArith Qround Reals Zfloor Lra Lia Bool.
From S2P Require Import Prelude.

Set Implicit Arguments.

Declare Scope car_scope.
Delimit Scope car_scope with car.

Class Carrier (F : Type) : Type := {
  Fzero : F;
  Fone : F;
  Fadd : F -> F -> F;
  Fsub : F -> F -> F;
  Fmul : F -> F -> F;
  Fdiv : F -> F -> F;
  Fopp : F -> F;
  Fltb : F -> F -> bool;
  Feqb : F -> F -> bool;
  FofZ : Z -> F;
  Ffloor : F -> Z
}.

Notation "0" := Fzero : car_scope.
Notation "1" := Fone : car_scope.
Infix "+" := Fadd : car_scope.
Infix "-" := Fsub : car_scope.
Infix "*" := Fmul : car_scope.
Infix "/" := Fdiv : car_scope.
Notation "- x" := (Fopp x) : car_scope.
Infix "<?" := Fltb : car_scope.
Infix "=?" := Feqb : car_scope.

Section Derived.
Context {F : Type} {C : Carrier F}.
Local Open Scope car_scope.

(** [x <= y] on finite values: not [y < x]. *)
Definition Fleb (x y : F) : bool := negb (y <? x).

(** A decimal literal [n / d], such as [0.95 = 95 / 100]. *)
Definition Fdec (n d : Z) : F := FofZ n / FofZ d.

(** The sign of a finite value. *)
Definition Fsgn (x : F) : comparison :=
  if 0 <? x then Gt else if x <? 0 then Lt else Eq.

Definition Fmin (x y : F) : F := if y <? x then y else x.

Definition Fmax (x y : F) : F := if x <? y then y else x.

(** Is the value a non-negative integer, and which: the index of an array
    element. *)
Definition Findex (x : F) : option nat :=
  let k := Ffloor x in
  if (FofZ k =? x) && (0 <=? k)%Z then Some (Z.to_nat k) else None.

End Derived.

Infix "<=?" := Fleb : car_scope.

(** ** The real numbers *)

Definition Rltb (x y : R) : bool := if Rlt_dec x y then true else false.

Definition Reqb (x y : R) : bool := if Req_dec_T x y then true else false.

#[export] Instance RCarrier : Carrier R := {|
  Fzero := 0%R;
  Fone := 1%R;
  Fadd := Rplus;
  Fsub := Rminus;
  Fmul := Rmult;
  Fdiv := Rdiv;
  Fopp := Ropp;
  Fltb := Rltb;
  Feqb := Reqb;
  FofZ := IZR;
  Ffloor := Zfloor
|}.

(** ** The rationals *)

#[export] Instance QCarrier : Carrier Q | 10 := {|
  Fzero := 0%Q;
  Fone := 1%Q;
  Fadd := Qplus;
  Fsub := Qminus;
  Fmul := Qmult;
  Fdiv := Qdiv;
  Fopp := Qopp;
  Fltb := fun x y => negb (Qle_bool y x);
  Feqb := Qeq_bool;
  FofZ := inject_Z;
  Ffloor := Qfloor
|}.

(** Unfold the class operations at the real instance, so that the goal is
    stated with the operators of [R]. *)
Ltac runfold :=
  cbv [Fzero Fone Fadd Fsub Fmul Fdiv Fopp Fltb Feqb FofZ Ffloor
       Fleb Fdec Fsgn Fmin Fmax RCarrier] in *.

(** ** Reflection of the comparisons on the reals *)

Lemma Rltb_spec (x y : R) : BoolSpec (x < y)%R (y <= x)%R (Rltb x y).
Proof. unfold Rltb. destruct (Rlt_dec x y); constructor; lra. Qed.

Lemma Reqb_spec (x y : R) : BoolSpec (x = y) (x <> y) (Reqb x y).
Proof. unfold Reqb. destruct (Req_dec_T x y); constructor; assumption. Qed.

Lemma Rltb_true (x y : R) : (x < y)%R -> Rltb x y = true.
Proof. intros H. destruct (Rltb_spec x y); [reflexivity | lra]. Qed.

Lemma Rltb_false (x y : R) : (y <= x)%R -> Rltb x y = false.
Proof. intros H. destruct (Rltb_spec x y); [lra | reflexivity]. Qed.

Lemma Rltb_true_iff (x y : R) : Rltb x y = true <-> (x < y)%R.
Proof. destruct (Rltb_spec x y); split; intros; (lra || congruence). Qed.

Lemma Rltb_false_iff (x y : R) : Rltb x y = false <-> (y <= x)%R.
Proof. destruct (Rltb_spec x y); split; intros; (lra || congruence). Qed.

Lemma Reqb_true (x y : R) : x = y -> Reqb x y = true.
Proof. intros H. destruct (Reqb_spec x y); [reflexivity | contradiction]. Qed.

Lemma Reqb_false (x y : R) : x <> y -> Reqb x y = false.
Proof. intros H. destruct (Reqb_spec x y); [contradiction | reflexivity]. Qed.

Lemma Reqb_refl (x : R) : Reqb x x = true.
Proof. now apply Reqb_true. Qed.

#[export] Hint Rewrite Reqb_refl : facecut.

(** Decide every comparison of reals that occurs in the goal, closing the
    impossible side with [lra]. *)
Ltac rcases :=
  repeat match goal with
  | |- context [Rltb ?x ?y] => destruct (Rltb_spec x y); try lra
  | |- context [Reqb ?x ?y] => destruct (Reqb_spec x y); try lra
  end.

(** The same for the comparisons of one hypothesis. *)
Ltac rcases_in H :=
  repeat match type of H with
  | context [Rltb ?x ?y] => destruct (Rltb_spec x y); try lra
  | context [Reqb ?x ?y] => destruct (Reqb_spec x y); try lra
  end.

(** ** Quotients by a positive real *)

Lemma Rmult_div_cancel (a r : R) : (0 < r)%R -> (a / r * r = a)%R.
Proof. intros Hr. field. lra. Qed.

Lemma Rle_div_iff (s a r : R) : (0 < r)%R -> (s <= a / r <-> s * r <= a)%R.
Proof.
  intros Hr. pose proof (Rmult_div_cancel a Hr) as E. split; intros H.
  - rewrite <- E. apply Rmult_le_compat_r; lra.
  - apply Rmult_le_reg_r with r; [assumption|]. lra.
Qed.

Lemma Rdiv_le_iff (a r k : R) : (0 < r)%R -> (a / r <= k <-> a <= k * r)%R.
Proof.
  intros Hr. pose proof (Rmult_div_cancel a Hr) as E. split; intros H.
  - rewrite <- E. apply Rmult_le_compat_r; lra.
  - apply Rmult_le_reg_r with r; [assumption|]. lra.
Qed.

(** ** Floor and integers on the reals *)

Lemma Zfloor_IZR_iff (x : R) : IZR (Zfloor x) = x <-> exists k : Z, x = IZR k.
Proof.
  split.
  - intros H. exists (Zfloor x). now symmetry.
  - intros [k ->]. now rewrite ZfloorZ.
Qed.

Lemma Zfloor_div_exact (k d : Z) :
  (0 < d)%Z -> Zfloor (IZR (k * d) / IZR d) = k.
Proof.
  intros Hd. rewrite mult_IZR.
  replace (IZR k * IZR d / IZR d)%R with (IZR k); [apply ZfloorZ|].
  field. apply not_0_IZR. lia.
Qed.

(** An index read from a real is the natural number it denotes. *)
Lemma Findex_nat (n : nat) : Findex (IZR (Z.of_nat n)) = Some n.
Proof.
  unfold Findex. runfold. rewrite ZfloorZ, Reqb_refl.
  destruct (Z.leb_spec 0 (Z.of_nat n)); [|lia].
  simpl. now rewrite Nat2Z.id.
Qed.

Lemma Findex_Some (x : R) (n : nat) :
  Findex x = Some n -> x = IZR (Z.of_nat n).
Proof.
  unfold Findex. runfold.
  destruct (Reqb_spec (IZR (Zfloor x)) x) as [E|]; [|discriminate].
  destruct (Z.leb_spec 0 (Zfloor x)); [|discriminate].
  simpl. intros [= <-]. rewrite Z2Nat.id by assumption. now symmetry.
Qed.

(** ** The rationals run *)

Example Fdec_Q : Qeq_bool (Fdec 95 100) (19 # 20) = true.
Proof. vm_compute. reflexivity. Qed.

Example Findex_Q : Findex (inject_Z 3) = Some 3%nat /\ Findex (3 # 2) = None.
Proof. split; vm_compute; reflexivity. Qed.
