(* ===== verification/JsNumber.v ===== *)
(** * JsNumber: the numbers of the language

    A number is a finite value of the carrier or one of the three special
    values of IEEE 754.  The operators below are the ones script.js applies:
    [+ - * / %], unary [-], [< > <= >=], the truth value of a number, and
    [Math.min], [Math.max], [Math.floor], [Math.round].  On finite operands
    they are exact; on special operands they follow ECMAScript. *)

From Stdlib Require Import ZArith QArith Reals Zfloor Lra Lia Bool List.
From S2P Require Import Prelude.
From S2P Require Import Carrier.
Import ListNotations.

Set Implicit Arguments.

Declare Scope num_scope.
Delimit Scope num_scope with num.

Inductive num (F : Type) : Type :=
| Fin (x : F)
| PInf
| NInf
| NaN.

Arguments Fin {F} x.
Arguments PInf {F}.
Arguments NInf {F}.
Arguments NaN {F}.

Section Operators.
Context {F : Type} {C : Carrier F}.
Local Open Scope car_scope.
Implicit Types a b : num F.

(** [Number.isFinite]. *)
Definition finite a : bool :=
  match a with Fin _ => true | _ => false end.

Definition isNaN a : bool :=
  match a with NaN => true | _ => false end.

(** The infinity of a given sign; [NaN] for no sign ([0 * Infinity], [0 / 0]). *)
Definition inf_of (c : comparison) : num F :=
  match c with Gt => PInf | Lt => NInf | Eq => NaN end.

Definition ofZ (z : Z) : num F := Fin (FofZ z).

(** The number of elements of an array, and an unsigned attribute of the DOM. *)
Definition ofNat (n : nat) : num F := ofZ (Z.of_nat n).

Definition ofN (n : N) : num F := ofZ (Z.of_N n).

(** A decimal literal of the source. *)
Definition dec (n d : Z) : num F := Fin (Fdec n d).

Definition nneg a : num F :=
  match a with
  | Fin x => Fin (- x)
  | PInf => NInf
  | NInf => PInf
  | NaN => NaN
  end.

Definition nadd a b : num F :=
  match a, b with
  | Fin x, Fin y => Fin (x + y)
  | NaN, _ | _, NaN => NaN
  | PInf, NInf | NInf, PInf => NaN
  | PInf, _ | _, PInf => PInf
  | NInf, _ | _, NInf => NInf
  end.

Definition nsub a b : num F :=
  match a, b with
  | Fin x, Fin y => Fin (x - y)
  | _, _ => nadd a (nneg b)
  end.

Definition nmul a b : num F :=
  match a, b with
  | Fin x, Fin y => Fin (x * y)
  | NaN, _ | _, NaN => NaN
  | Fin x, PInf | PInf, Fin x => inf_of (Fsgn x)
  | Fin x, NInf | NInf, Fin x => inf_of (CompOpp (Fsgn x))
  | PInf, PInf | NInf, NInf => PInf
  | PInf, NInf | NInf, PInf => NInf
  end.

(** Division.  A zero divisor is [+0]: the quotient is the infinity of the
    sign of the dividend, [NaN] for [0 / 0]. *)
Definition ndiv a b : num F :=
  match a, b with
  | Fin x, Fin y => if y =? 0 then inf_of (Fsgn x) else Fin (x / y)
  | NaN, _ | _, NaN => NaN
  | Fin _, _ => Fin 0
  | PInf, Fin y => if y <? 0 then NInf else PInf
  | NInf, Fin y => if y <? 0 then PInf else NInf
  | _, _ => NaN
  end.

(** [a < b]: false when an operand is [NaN]. *)
Definition nltb a b : bool :=
  match a, b with
  | Fin x, Fin y => x <? y
  | NaN, _ | _, NaN => false
  | _, NInf => false
  | NInf, _ => true
  | PInf, _ => false
  | _, PInf => true
  end.

Definition ngtb a b : bool := nltb b a.

(** [a <= b]: false when an operand is [NaN], else not [b < a]. *)
Definition nleb a b : bool :=
  negb (isNaN a) && negb (isNaN b) && negb (nltb b a).

Definition ngeb a b : bool := nleb b a.

(** [a === b] on numbers. *)
Definition neqb a b : bool :=
  match a, b with
  | Fin x, Fin y => x =? y
  | PInf, PInf | NInf, NInf => true
  | _, _ => false
  end.

(** The truth value of a number: every number but [0] and [NaN]. *)
Definition truthy a : bool :=
  match a with
  | Fin x => negb (x =? 0)
  | NaN => false
  | _ => true
  end.

(** Rounding toward zero. *)
Definition Ftrunc (x : F) : F :=
  if x <? 0 then - FofZ (Ffloor (- x)) else FofZ (Ffloor x).

(** [a % b]: the remainder of the division truncated toward zero. *)
Definition nrem a b : num F :=
  match a, b with
  | Fin x, Fin y => if y =? 0 then NaN else Fin (x - y * Ftrunc (x / y))
  | Fin x, (PInf | NInf) => Fin x
  | _, _ => NaN
  end.

(** [Math.min(a, b)] and [Math.max(a, b)]: [NaN] when an operand is. *)
Definition Math_min a b : num F :=
  if isNaN a || isNaN b then NaN else if nltb b a then b else a.

Definition Math_max a b : num F :=
  if isNaN a || isNaN b then NaN else if nltb a b then b else a.

Definition Math_floor a : num F :=
  match a with Fin x => Fin (FofZ (Ffloor x)) | _ => a end.

(** [Math.round(a)]: the nearest integer, a half rounding up. *)
Definition Math_round a : num F :=
  match a with Fin x => Fin (FofZ (Ffloor (x + Fdec 1 2))) | _ => a end.

(** [parseInt(s)] for the string [s] that a number is written as: the digits
    before the point, [NaN] for [Infinity] and [NaN]. *)
Definition parseInt a : num F :=
  match a with Fin x => Fin (Ftrunc x) | _ => NaN end.

(** [xs[i]]: [undefined] unless [i] is a non-negative integer below the
    length. *)
Definition nindex a : option nat :=
  match a with Fin x => Findex x | _ => None end.

Definition array_get {A : Type} (xs : list A) (i : num F) : option A :=
  match nindex i with
  | Some k => nth_error xs k
  | None => None
  end.

End Operators.

Infix "+" := nadd : num_scope.
Infix "-" := nsub : num_scope.
Infix "*" := nmul : num_scope.
Infix "/" := ndiv : num_scope.
Infix "mod" := nrem : num_scope.
Notation "- a" := (nneg a) : num_scope.
Infix "<?" := nltb : num_scope.
Infix ">?" := ngtb : num_scope.
Infix "<=?" := nleb : num_scope.
Infix ">=?" := ngeb : num_scope.
Infix "=?" := neqb : num_scope.
Notation "0" := (ofZ 0) : num_scope.
Notation "1" := (ofZ 1) : num_scope.
Notation "'Infinity'" := PInf : num_scope.

(** ** Finite and special values *)

Section Shape.
Context {F : Type} {C : Carrier F}.
Implicit Types a b : num F.

Lemma finite_inv a : finite a = true -> exists x, a = Fin x.
Proof. destruct a; try discriminate. eauto. Qed.

Lemma finite_not_NaN a : finite a = true -> isNaN a = false.
Proof. now destruct a. Qed.

Lemma nadd_NaN_l b : nadd NaN b = NaN.
Proof. now destruct b. Qed.

Lemma nadd_NaN_r a : nadd a NaN = NaN.
Proof. now destruct a. Qed.

Lemma nmul_NaN_l b : nmul NaN b = NaN.
Proof. now destruct b. Qed.

Lemma nmul_NaN_r a : nmul a NaN = NaN.
Proof. now destruct a. Qed.

Lemma ndiv_NaN_l b : ndiv NaN b = NaN.
Proof. now destruct b. Qed.

Lemma ndiv_NaN_r a : ndiv a NaN = NaN.
Proof. now destruct a. Qed.

Lemma nsub_NaN_l b : nsub NaN b = NaN.
Proof. now destruct b. Qed.

Lemma nsub_NaN_r a : nsub a NaN = NaN.
Proof. now destruct a. Qed.

Lemma nltb_NaN_l b : nltb NaN b = false.
Proof. now destruct b. Qed.

Lemma nltb_NaN_r a : nltb a NaN = false.
Proof. now destruct a. Qed.

Lemma Math_min_NaN_l b : Math_min NaN b = NaN.
Proof. reflexivity. Qed.

Lemma Math_min_NaN_r a : Math_min a NaN = NaN.
Proof. unfold Math_min. now rewrite orb_true_r. Qed.

Lemma Math_min_PInf_l b : Math_min PInf b = b.
Proof. now destruct b. Qed.

(** [Math.min] returns one of its operands, or [NaN]. *)
Lemma Math_min_cases a b :
  Math_min a b = a \/ Math_min a b = b \/ Math_min a b = NaN.
Proof.
  unfold Math_min. destruct (isNaN a || isNaN b); [auto|].
  destruct (nltb b a); auto.
Qed.

Lemma Math_max_cases a b :
  Math_max a b = a \/ Math_max a b = b \/ Math_max a b = NaN.
Proof.
  unfold Math_max. destruct (isNaN a || isNaN b); [auto|].
  destruct (nltb a b); auto.
Qed.

Lemma array_get_ofNat {A} (xs : list A) (i : num F) k :
  nindex i = Some k -> array_get xs i = nth_error xs k.
Proof. unfold array_get. now intros ->. Qed.

Lemma array_get_NaN {A} (xs : list A) : array_get xs (@NaN F) = None.
Proof. reflexivity. Qed.

End Shape.

#[export] Hint Rewrite @nadd_NaN_l @nadd_NaN_r @nmul_NaN_l @nmul_NaN_r
  @ndiv_NaN_l @ndiv_NaN_r @nsub_NaN_l @nsub_NaN_r @nltb_NaN_l @nltb_NaN_r
  @Math_min_NaN_l @Math_min_NaN_r @Math_min_PInf_l : facecut.

(** ** Numbers over the reals *)

Section RealNumbers.
Local Open Scope R_scope.
Implicit Types a b c : num R.
Implicit Types x y z : R.

(** The finite value of a number, [0] for a special value. *)
Definition nval a : R := match a with Fin x => x | _ => 0 end.

(** [a <= b] as a proposition. *)
Definition nle a b : Prop := nleb a b = true.

Lemma ndiv_fin x y : y <> 0 -> ndiv (Fin x) (Fin y) = Fin (x / y).
Proof. intros H. simpl. runfold. now rewrite Reqb_false. Qed.

Lemma ndiv_pos_zero x : 0 < x -> ndiv (Fin x) (Fin 0) = PInf.
Proof. intros H. simpl. runfold. rewrite Reqb_refl. now rcases. Qed.

Lemma ndiv_zero_zero : ndiv (Fin 0) (Fin 0) = @NaN R.
Proof. simpl. runfold. rewrite Reqb_refl. now rcases. Qed.

Lemma nmul_PInf_zero : nmul PInf (Fin 0) = @NaN R.
Proof. simpl. runfold. now rcases. Qed.

Lemma nltb_fin x y : nltb (Fin x) (Fin y) = Rltb x y.
Proof. reflexivity. Qed.

Lemma nle_fin x y : nle (Fin x) (Fin y) <-> x <= y.
Proof.
  unfold nle, nleb. simpl. runfold. rewrite negb_true_iff.
  apply Rltb_false_iff.
Qed.

Lemma nle_PInf a : isNaN a = false -> nle a PInf.
Proof. now destruct a. Qed.

Lemma nle_fin_PInf x : nle (Fin x) PInf.
Proof. reflexivity. Qed.

Lemma nle_not_NaN_l a b : nle a b -> isNaN a = false.
Proof. now destruct a. Qed.

Lemma nle_not_NaN_r a b : nle a b -> isNaN b = false.
Proof. destruct a, b; simpl; try reflexivity; discriminate. Qed.

Lemma nle_refl a : isNaN a = false -> nle a a.
Proof.
  destruct a; intros H; try reflexivity; try discriminate.
  apply nle_fin. lra.
Qed.

Lemma nle_trans a b c : nle a b -> nle b c -> nle a c.
Proof.
  destruct a, b, c; try reflexivity; try discriminate.
  rewrite !nle_fin. lra.
Qed.

(** [a < b] and [b <= a] exclude each other, and one holds unless an
    operand is [NaN]. *)
Lemma nltb_nleb a b :
  isNaN a = false -> isNaN b = false -> nleb b a = negb (nltb a b).
Proof. unfold nleb. now intros -> ->. Qed.

Lemma Math_min_fin x y : Math_min (Fin x) (Fin y) = Fin (Rmin x y).
Proof.
  unfold Math_min, Rmin. simpl. runfold.
  destruct (Rltb_spec y x), (Rle_dec x y); f_equal; lra.
Qed.

Lemma Math_max_fin x y : Math_max (Fin x) (Fin y) = Fin (Rmax x y).
Proof.
  unfold Math_max, Rmax. simpl. runfold.
  destruct (Rltb_spec x y), (Rle_dec x y); f_equal; lra.
Qed.

(** [Math.min] is the greatest lower bound. *)
Lemma Math_min_glb a b c : nle c (Math_min a b) <-> nle c a /\ nle c b.
Proof.
  destruct a, b, c; unfold nle, Math_min, nleb; simpl; runfold; rcases;
    simpl; rcases; intuition (discriminate || lra).
Qed.

Lemma Math_min_le_l a b : isNaN a = false -> isNaN b = false -> nle (Math_min a b) a.
Proof.
  destruct a, b; intros; try discriminate; unfold nle, Math_min, nleb;
    simpl; runfold; rcases; simpl; rcases; reflexivity.
Qed.

Lemma Math_min_le_r a b : isNaN a = false -> isNaN b = false -> nle (Math_min a b) b.
Proof.
  destruct a, b; intros; try discriminate; unfold nle, Math_min, nleb;
    simpl; runfold; rcases; simpl; rcases; reflexivity.
Qed.

Lemma Math_min_not_NaN a b :
  isNaN a = false -> isNaN b = false -> isNaN (Math_min a b) = false.
Proof. intros Ha Hb. unfold Math_min. rewrite Ha, Hb. simpl. now destruct (nltb b a). Qed.

Lemma Math_floor_fin x : Math_floor (Fin x) = Fin (IZR (Zfloor x)).
Proof. reflexivity. Qed.

Lemma Math_floor_le x : nle (Math_floor (Fin x)) (Fin x).
Proof. rewrite Math_floor_fin. apply nle_fin. apply Zfloor_bound. Qed.

(** Rounding an integer gives it back. *)
Lemma Math_round_int (k : Z) : Math_round (Fin (IZR k)) = Fin (IZR k).
Proof.
  simpl. runfold. f_equal. f_equal. apply Zfloor_eq. lra.
Qed.

(** ** Integers: quotient, remainder, successor *)

Lemma Zfloor_quot (a b : Z) : (0 < b)%Z -> Zfloor (IZR a / IZR b) = (a / b)%Z.
Proof.
  intros Hb. pose proof (IZR_lt _ _ Hb) as Hb'.
  pose proof (Z.mul_div_le a b Hb) as Hlo. pose proof (Z.mul_succ_div_gt a b Hb) as Hhi.
  apply IZR_le in Hlo. apply IZR_lt in Hhi.
  rewrite mult_IZR in Hlo. rewrite mult_IZR, succ_IZR in Hhi.
  apply Zfloor_eq. split.
  - apply Rle_div_iff; lra.
  - apply Rmult_lt_reg_r with (IZR b); [assumption|].
    rewrite Rmult_div_cancel by assumption. lra.
Qed.

(** [%] on natural numbers is the remainder of the division. *)
Lemma nrem_nat (a b : nat) :
  b <> 0%nat -> nrem (ofNat a) (ofNat b : num R) = ofNat (a mod b).
Proof.
  intros Hb. unfold nrem, ofNat, ofZ, Ftrunc. runfold.
  assert (Hb' : (0 < Z.of_nat b)%Z) by lia. pose proof (IZR_lt _ _ Hb') as Hbr.
  assert (Ha : 0 <= IZR (Z.of_nat a)) by (apply IZR_le; lia).
  rewrite Reqb_false by lra.
  assert (Hq : 0 <= IZR (Z.of_nat a) / IZR (Z.of_nat b)) by (apply Rle_div_iff; lra).
  rewrite Rltb_false by assumption. rewrite Zfloor_quot by assumption.
  f_equal. rewrite Nat2Z.inj_mod, Z.mod_eq by lia. rewrite minus_IZR, mult_IZR. reflexivity.
Qed.

(** [x % 0] is [NaN]. *)
Lemma nrem_zero x : nrem (Fin x) (ofNat 0 : num R) = NaN.
Proof. unfold nrem, ofNat, ofZ. runfold. simpl. now rewrite Reqb_refl. Qed.

Lemma nadd_ofNat_1 (k : nat) : nadd (ofNat k) (ofZ 1 : num R) = ofNat (S k).
Proof. unfold nadd, ofNat, ofZ. runfold. rewrite Nat2Z.inj_succ, succ_IZR. reflexivity. Qed.

(** [parseInt] of an integer is the integer. *)
Lemma parseInt_int (k : Z) : parseInt (Fin (IZR k)) = Fin (IZR k).
Proof.
  unfold parseInt, Ftrunc. runfold. f_equal. destruct (Rltb_spec (IZR k) 0).
  - replace (- IZR k) with (IZR (- k)) by apply opp_IZR.
    rewrite ZfloorZ, opp_IZR. lra.
  - now rewrite ZfloorZ.
Qed.

(** A share of [s], rounded, is an integer from [0] to [s]:
    [Math.round(x * s)] for [x] between 0 and 1. *)
Lemma Math_round_share x (s : Z) :
  0 <= x <= 1 -> (0 <= s)%Z ->
  exists z : Z, Math_round (nmul (Fin x) (ofZ s)) = Fin (IZR z) /\ (0 <= z <= s)%Z.
Proof.
  intros Hx Hs. exists (Zfloor (x * IZR s + 1 / 2)). split; [reflexivity|].
  pose proof (Zfloor_bound (x * IZR s + 1 / 2)) as [Hlo Hhi].
  apply IZR_le in Hs. assert (0 <= x * IZR s <= IZR s) by nra.
  split; [apply Zfloor_lub; lra|].
  apply Z.lt_succ_r, lt_IZR. rewrite succ_IZR. lra.
Qed.

(** [Math.round(i / n * s)] for an index [i] of a list of [n] elements. *)
Lemma Math_round_ratio (i n : nat) (s : Z) :
  (i < n)%nat -> (0 <= s)%Z ->
  exists z : Z, Math_round (nmul (ndiv (ofNat i) (ofNat n)) (ofZ s)) = Fin (IZR z) /\
                (0 <= z <= s)%Z.
Proof.
  intros Hi Hs. unfold ofNat at 1 2. unfold ofZ at 1 2. runfold.
  assert (Hn : 0 < IZR (Z.of_nat n)) by (apply IZR_lt; lia).
  assert (H0 : 0 <= IZR (Z.of_nat i)) by (apply IZR_le; lia).
  assert (H1 : IZR (Z.of_nat i) <= IZR (Z.of_nat n)) by (apply IZR_le; lia).
  rewrite ndiv_fin by lra. apply Math_round_share; [|exact Hs].
  split; [apply Rle_div_iff; lra | apply Rdiv_le_iff; lra].
Qed.

Lemma nindex_ofNat (n : nat) : nindex (ofNat n : num R) = Some n.
Proof. apply Findex_nat. Qed.

Lemma array_get_nat {A} (xs : list A) (n : nat) :
  array_get xs (ofNat n : num R) = nth_error xs n.
Proof. unfold array_get. now rewrite nindex_ofNat. Qed.

End RealNumbers.

#[export] Hint Rewrite Math_min_fin Math_max_fin Math_floor_fin nltb_fin
  nindex_ofNat @array_get_nat : facecut.
#[export] Hint Resolve nle_fin_PInf nle_refl Math_floor_le : facecut.

(** ** The operators run on the rationals *)

Example div_by_zero_Q :
  ndiv (Fin 1%Q) (Fin 0%Q) = PInf /\ ndiv (Fin 0%Q) (Fin 0%Q) = NaN /\
  ndiv (Fin (-1)%Q) (Fin 0%Q) = NInf.
Proof. repeat split; vm_compute; reflexivity. Qed.

Example min_NaN_Q : Math_min (Fin 1%Q) NaN = NaN /\ nltb (Fin 1%Q) NaN = false.
Proof. split; reflexivity. Qed.

Example rem_Q : nrem (ofZ 7) (ofZ 3) = Fin 1%Q /\ nrem (ofZ 2) (ofZ 0) = @NaN Q.
Proof. split; vm_compute; reflexivity. Qed.
