(* ===== verification/MathLib.v ===== *)
(** * MathLib: [Math.sqrt], [Math.atan2], [Math.cos], [Math.sin]

    script.js only calls these functions; what it needs of them is stated as
    the contract [MathLaws] on the reals.  The theorems on [renderFrame] and
    [autoFitZoom] are proved against the contract; the instance [StdMath],
    built from the Standard Library's [sqrt], [atan], [cos] and [sin],
    discharges it. *)

From Stdlib Require Import ZArith Reals Lra Lia Bool.
From S2P Require Import Prelude.
From S2P Require Import Carrier.
From S2P Require Import JsNumber.

Set Implicit Arguments.

(** The functions on finite values. *)
Class MathOps (F : Type) : Type := {
  Fsqrt : F -> F;
  Fatan2 : F -> F -> F;
  Fcos : F -> F;
  Fsin : F -> F;
  Fpi : F
}.

Section Functions.
Context {F : Type} {C : Carrier F} {M : MathOps F}.
Local Open Scope car_scope.
Implicit Types a b : num F.

(** [Math.sqrt(a)]: [NaN] below zero. *)
Definition Math_sqrt a : num F :=
  match a with
  | Fin x => if x <? 0 then NaN else Fin (Fsqrt x)
  | PInf => PInf
  | _ => NaN
  end.

(** [Math.atan2(a, b)], the angle of the point [(b, a)].  With an infinite
    operand the result is a multiple of [pi / 4]. *)
Definition Math_atan2 a b : num F :=
  match a, b with
  | NaN, _ | _, NaN => NaN
  | Fin y, Fin x => Fin (Fatan2 y x)
  | Fin y, PInf => Fin 0
  | Fin y, NInf => if y <? 0 then Fin (- Fpi) else Fin Fpi
  | PInf, PInf => Fin (Fpi / FofZ 4)
  | PInf, NInf => Fin (FofZ 3 * Fpi / FofZ 4)
  | PInf, Fin _ => Fin (Fpi / FofZ 2)
  | NInf, PInf => Fin (- (Fpi / FofZ 4))
  | NInf, NInf => Fin (- (FofZ 3 * Fpi / FofZ 4))
  | NInf, Fin _ => Fin (- (Fpi / FofZ 2))
  end.

(** [Math.cos(a)] and [Math.sin(a)]: [NaN] unless [a] is finite. *)
Definition Math_cos a : num F :=
  match a with Fin x => Fin (Fcos x) | _ => NaN end.

Definition Math_sin a : num F :=
  match a with Fin x => Fin (Fsin x) | _ => NaN end.

End Functions.

(** ** The contract *)

Local Open Scope R_scope.

Class MathLaws (M : MathOps R) : Prop := {
  Fsqrt_nonneg : forall x, 0 <= x -> 0 <= Fsqrt x;
  Fsqrt_sqr : forall x, 0 <= x -> Fsqrt x * Fsqrt x = x;
  Fcos_sin_unit : forall t, Fcos t * Fcos t + Fsin t * Fsin t = 1;
  Fcos_opp : forall t, Fcos (- t) = Fcos t;
  Fsin_opp : forall t, Fsin (- t) = - Fsin t;
  Fcos_zero : Fcos 0 = 1;
  Fsin_zero : Fsin 0 = 0;
  Fatan2_cos : forall y x, Fcos (Fatan2 y x) * Fsqrt (x * x + y * y) = x;
  Fatan2_sin : forall y x, Fsin (Fatan2 y x) * Fsqrt (x * x + y * y) = y;
  Fatan2_origin : Fatan2 0 0 = 0
}.

(** ** What follows from the contract *)

Section Consequences.
Context {M : MathOps R} {L : MathLaws M}.

Lemma Fsqrt_zero : Fsqrt 0 = 0.
Proof.
  pose proof (Fsqrt_sqr (x := 0)) as H. specialize (H (Rle_refl 0)). nra.
Qed.

Lemma Fsqrt_pos x : 0 < x -> 0 < Fsqrt x.
Proof.
  intros Hx. pose proof (Fsqrt_nonneg (x := x)) as H1.
  pose proof (Fsqrt_sqr (x := x)) as H2. nra.
Qed.

(** The square root is the only non-negative solution. *)
Lemma Fsqrt_unique x r : 0 <= r -> r * r = x -> Fsqrt x = r.
Proof.
  intros Hr Hx. assert (Hx0 : 0 <= x) by nra.
  pose proof (Fsqrt_nonneg Hx0) as H1. pose proof (Fsqrt_sqr Hx0) as H2.
  nra.
Qed.

Lemma Fsqrt_square x : 0 <= x -> Fsqrt (x * x) = x.
Proof. intros H. now apply Fsqrt_unique. Qed.

Lemma sum_squares_nonneg x y : 0 <= x * x + y * y.
Proof. nra. Qed.

(** The distance of a point from the origin is zero only at the origin. *)
Lemma dist_zero_iff x y : Fsqrt (x * x + y * y) = 0 <-> x = 0 /\ y = 0.
Proof.
  split.
  - intros H. pose proof (Fsqrt_sqr (sum_squares_nonneg x y)) as H2.
    rewrite H in H2. split; nra.
  - intros [-> ->]. replace (0 * 0 + 0 * 0) with 0 by ring. apply Fsqrt_zero.
Qed.

Lemma dist_pos x y : x <> 0 \/ y <> 0 -> 0 < Fsqrt (x * x + y * y).
Proof.
  intros H. pose proof (Fsqrt_nonneg (sum_squares_nonneg x y)) as Hn.
  destruct (Req_dec (Fsqrt (x * x + y * y)) 0) as [E|E]; [|lra].
  apply dist_zero_iff in E. lra.
Qed.

(** Rotating by minus the angle of [(dx, dy)] uses the direction cosines of
    [(dx, -dy)]. *)
Lemma cos_neg_atan2 dy dx :
  Fcos (- Fatan2 dy dx) * Fsqrt (dx * dx + dy * dy) = dx.
Proof. rewrite Fcos_opp. apply Fatan2_cos. Qed.

Lemma sin_neg_atan2 dy dx :
  Fsin (- Fatan2 dy dx) * Fsqrt (dx * dx + dy * dy) = - dy.
Proof. rewrite Fsin_opp, Ropp_mult_distr_l_reverse. f_equal. apply Fatan2_sin. Qed.

End Consequences.

(** ** The Standard Library discharges the contract *)

(** The angle of the point [(x, y)], in [(-PI, PI]]. *)
Definition Ratan2 (y x : R) : R :=
  if Rltb 0 x then atan (y / x)
  else if Rltb x 0 then
    if Rltb y 0 then atan (y / x) - PI else atan (y / x) + PI
  else if Rltb 0 y then PI / 2
  else if Rltb y 0 then - (PI / 2)
  else 0.

#[export] Instance StdMath : MathOps R := {|
  Fsqrt := sqrt;
  Fatan2 := Ratan2;
  Fcos := cos;
  Fsin := sin;
  Fpi := PI
|}.

(** The hypotenuse of the triangle with legs [1] and [y / x]. *)
Lemma sqrt_one_plus_sqr y x :
  x <> 0 -> sqrt (1 + (y / x)²) = sqrt (x * x + y * y) / Rabs x.
Proof.
  intros Hx. assert (Ha : 0 < Rabs x) by now apply Rabs_pos_lt.
  apply sqrt_lem_1.
  - unfold Rsqr. assert (0 <= (y / x) * (y / x)) by nra. lra.
  - apply Rmult_le_pos; [apply sqrt_pos | left; now apply Rinv_0_lt_compat].
  - transitivity (sqrt (x * x + y * y) * sqrt (x * x + y * y) / (Rabs x * Rabs x)).
    + field. lra.
    + rewrite sqrt_sqrt by nra.
      replace (Rabs x * Rabs x) with (x * x)
        by (unfold Rabs; destruct (Rcase_abs x); ring).
      unfold Rsqr. now field.
Qed.

Lemma cos_atan_ratio y x :
  x <> 0 -> cos (atan (y / x)) * sqrt (x * x + y * y) = Rabs x.
Proof.
  intros Hx. rewrite cos_atan, sqrt_one_plus_sqr by assumption.
  assert (0 < Rabs x) by now apply Rabs_pos_lt.
  assert (0 < sqrt (x * x + y * y)) by (apply sqrt_lt_R0; nra).
  field. lra.
Qed.

Lemma sin_atan_ratio y x :
  x <> 0 -> sin (atan (y / x)) * sqrt (x * x + y * y) = y * Rabs x / x.
Proof.
  intros Hx. rewrite sin_atan, sqrt_one_plus_sqr by assumption.
  assert (0 < Rabs x) by now apply Rabs_pos_lt.
  assert (0 < sqrt (x * x + y * y)) by (apply sqrt_lt_R0; nra).
  field. lra.
Qed.

Lemma sqrt_sqr_abs y : sqrt (0 * 0 + y * y) = Rabs y.
Proof. replace (0 * 0 + y * y) with (y²) by (unfold Rsqr; ring). apply sqrt_Rsqr_abs. Qed.

(** Unfold [Ratan2] and split on the signs of its arguments. *)
Ltac atan2_cases x y :=
  unfold Ratan2;
  destruct (Rltb_spec 0 x), (Rltb_spec x 0); try lra;
  destruct (Rltb_spec y 0), (Rltb_spec 0 y); try lra.

Lemma Ratan2_right y x : 0 < x -> Ratan2 y x = atan (y / x).
Proof. intros H. unfold Ratan2. now rewrite Rltb_true. Qed.

Lemma Ratan2_left y x :
  x < 0 ->
  cos (Ratan2 y x) = - cos (atan (y / x)) /\ sin (Ratan2 y x) = - sin (atan (y / x)).
Proof.
  intros H. atan2_cases x y;
    rewrite ?cos_minus, ?cos_plus, ?sin_minus, ?sin_plus, cos_PI, sin_PI; lra.
Qed.

Lemma Ratan2_axis y :
  cos (Ratan2 y 0) = 0 /\ sin (Ratan2 y 0) * Rabs y = y \/ y = 0 /\ Ratan2 y 0 = 0.
Proof.
  atan2_cases 0 y; left;
    rewrite ?cos_neg, ?sin_neg, cos_PI2, sin_PI2; split; trivial;
    unfold Rabs; destruct (Rcase_abs y); lra.
Qed.

Lemma Ratan2_cos y x : cos (Ratan2 y x) * sqrt (x * x + y * y) = x.
Proof.
  destruct (Rtotal_order x 0) as [Hx | [-> | Hx]].
  - destruct (Ratan2_left y Hx) as [-> _].
    rewrite Ropp_mult_distr_l_reverse, cos_atan_ratio by lra.
    rewrite Rabs_left; lra.
  - destruct (Ratan2_axis y) as [[-> _] | [-> ->]]; [lra|].
    rewrite cos_0. replace (0 * 0 + 0 * 0) with 0 by ring. rewrite sqrt_0. lra.
  - rewrite Ratan2_right, cos_atan_ratio by lra. apply Rabs_right. lra.
Qed.

Lemma Ratan2_sin y x : sin (Ratan2 y x) * sqrt (x * x + y * y) = y.
Proof.
  destruct (Rtotal_order x 0) as [Hx | [-> | Hx]].
  - destruct (Ratan2_left y Hx) as [_ ->].
    rewrite Ropp_mult_distr_l_reverse, sin_atan_ratio by lra.
    rewrite Rabs_left by lra. field; lra.
  - rewrite sqrt_sqr_abs.
    destruct (Ratan2_axis y) as [[_ H] | [-> ->]]; [exact H|].
    rewrite sin_0. lra.
  - rewrite Ratan2_right, sin_atan_ratio by lra.
    rewrite Rabs_right by lra. field; lra.
Qed.

Lemma Ratan2_origin : Ratan2 0 0 = 0.
Proof. atan2_cases 0 0; reflexivity. Qed.

Lemma atan_sign t : (0 < t -> 0 < atan t) /\ (t <= 0 -> atan t <= 0).
Proof.
  split; intros H.
  - rewrite <- atan_0. now apply atan_increasing.
  - destruct H as [H | ->]; [|rewrite atan_0; lra].
    left. rewrite <- atan_0. now apply atan_increasing.
Qed.

(** The angle lies in [(-PI, PI]]. *)
Lemma Ratan2_range y x : - PI < Ratan2 y x <= PI.
Proof.
  pose proof PI_RGT_0. pose proof (atan_bound (y / x)) as [Hl Hu].
  pose proof (atan_sign (y / x)) as [Hp Hn].
  assert (Hq : x < 0 -> (y < 0 -> 0 < y / x) /\ (0 <= y -> y / x <= 0)).
  { intros Hx. assert (/ x < 0) by now apply Rinv_lt_0_compat.
    unfold Rdiv. split; intros; nra. }
  atan2_cases x y; try lra; destruct Hq as [Hq1 Hq2]; try lra;
    try (specialize (Hp (Hq1 ltac:(lra))); lra);
    try (specialize (Hn (Hq2 ltac:(lra))); lra).
Qed.

#[export] Instance StdMathLaws : MathLaws StdMath.
Proof.
  constructor; simpl.
  - intros x _. apply sqrt_pos.
  - intros x Hx. now apply sqrt_sqrt.
  - intros t. pose proof (sin2_cos2 t) as H. unfold Rsqr in H. lra.
  - apply cos_neg.
  - apply sin_neg.
  - apply cos_0.
  - apply sin_0.
  - apply Ratan2_cos.
  - apply Ratan2_sin.
  - apply Ratan2_origin.
Qed.

(** ** [Math.sqrt] and the trigonometric functions on finite numbers *)

Section FiniteMath.
Context {M : MathOps R}.

Lemma Math_sqrt_fin x : 0 <= x -> Math_sqrt (Fin x) = Fin (Fsqrt x).
Proof. intros H. simpl. runfold. now rewrite Rltb_false. Qed.

Lemma Math_sqrt_neg x : x < 0 -> Math_sqrt (Fin x) = NaN.
Proof. intros H. simpl. runfold. now rewrite Rltb_true. Qed.

Lemma Math_atan2_fin y x : Math_atan2 (Fin y) (Fin x) = Fin (Fatan2 y x).
Proof. reflexivity. Qed.

Lemma Math_atan2_NaN_l (b : num R) : Math_atan2 NaN b = NaN.
Proof. now destruct b. Qed.

Lemma Math_atan2_NaN_r (a : num R) : Math_atan2 a NaN = NaN.
Proof. now destruct a. Qed.

End FiniteMath.

#[export] Hint Rewrite @Math_atan2_fin @Math_atan2_NaN_l @Math_atan2_NaN_r : facecut.
