(* ===== verification/Canvas.v ===== *)
(** * Canvas: the 2D rendering context

    The part of [CanvasRenderingContext2D] that script.js drives, as the HTML
    standard specifies it.  The state of a context is its current
    transformation matrix, its fill style and the stack of states saved by
    [save]; what has been painted is kept as the list of paint operations,
    the newest first, each with the matrix and style it was painted under.

    The methods that take numbers do nothing when an argument is infinite or
    [NaN], as the standard requires. *)

From Stdlib Require Import ZArith Reals Lra Lia Bool List String.
From S2P Require Import Prelude.
From S2P Require Import Carrier.
From S2P Require Import JsNumber.
From S2P Require Import MathLib.
Import ListNotations.

Set Implicit Arguments.

(** An image element: its identity and its size in pixels. *)
Record Image : Type := {
  img_id : nat;
  img_width : N;
  img_height : N
}.

(** The matrix [[a c e; b d f; 0 0 1]]: a point [(x, y)] goes to
    [(a x + c y + e, b x + d y + f)]. *)
Record Matrix (F : Type) : Type := {
  ma : F; mb : F; mc : F; md : F; me : F; mf : F
}.

(** One paint operation: a filled rectangle, or an image drawn into a
    destination rectangle, in the coordinates that the matrix maps to the
    canvas. *)
Inductive Paint (F : Type) : Type :=
| FillRect (style : string) (m : Matrix F) (x y w h : F)
| DrawImage (img : Image) (m : Matrix F) (dx dy dw dh : F).

Record Ctx (F : Type) : Type := {
  ctm : Matrix F;
  fillStyle : string;
  saved : list (Matrix F * string);
  painted : list (Paint F)
}.

(** The canvas element: its size in pixels and its context. *)
Record Canvas (F : Type) : Type := {
  width : N;
  height : N;
  ctx : Ctx F
}.

Section Context2D.
Context {F : Type} {C : Carrier F} {M : MathOps F}.
Local Open Scope car_scope.

Definition mat_id : Matrix F :=
  {| ma := 1; mb := 0; mc := 0; md := 1; me := 0; mf := 0 |}.

(** [mat_mul m n] applies [n] first, then [m]. *)
Definition mat_mul (m n : Matrix F) : Matrix F :=
  {| ma := ma m * ma n + mc m * mb n;
     mb := mb m * ma n + md m * mb n;
     mc := ma m * mc n + mc m * md n;
     md := mb m * mc n + md m * md n;
     me := ma m * me n + mc m * mf n + me m;
     mf := mb m * me n + md m * mf n + mf m |}.

Definition mat_apply (m : Matrix F) (p : F * F) : F * F :=
  (ma m * fst p + mc m * snd p + me m, mb m * fst p + md m * snd p + mf m).

Definition mat_translate (x y : F) : Matrix F :=
  {| ma := 1; mb := 0; mc := 0; md := 1; me := x; mf := y |}.

Definition mat_scale (x y : F) : Matrix F :=
  {| ma := x; mb := 0; mc := 0; md := y; me := 0; mf := 0 |}.

Definition mat_rotate (angle : F) : Matrix F :=
  {| ma := Fcos angle; mb := Fsin angle;
     mc := - Fsin angle; md := Fcos angle; me := 0; mf := 0 |}.

(** The context of a canvas that has just been created or resized. *)
Definition ctx_init : Ctx F :=
  {| ctm := mat_id; fillStyle := "#000000"; saved := []; painted := [] |}.

Definition set_ctm (m : Matrix F) : act (Ctx F) := fun c =>
  {| ctm := m; fillStyle := fillStyle c; saved := saved c; painted := painted c |}.

(** Multiply the current matrix on the right: the new transformation acts
    on the coordinates before the ones already in place. *)
Definition transform (m : Matrix F) : act (Ctx F) := fun c =>
  set_ctm (mat_mul (ctm c) m) c.

Definition paint (p : Paint F) : act (Ctx F) := fun c =>
  {| ctm := ctm c; fillStyle := fillStyle c; saved := saved c;
     painted := p :: painted c |}.

(** [ctx.fillStyle = s]. *)
Definition set_fillStyle (s : string) : act (Ctx F) := fun c =>
  {| ctm := ctm c; fillStyle := s; saved := saved c; painted := painted c |}.

(** [ctx.save()]. *)
Definition save : act (Ctx F) := fun c =>
  {| ctm := ctm c; fillStyle := fillStyle c;
     saved := (ctm c, fillStyle c) :: saved c; painted := painted c |}.

(** [ctx.restore()]: nothing when no state is saved. *)
Definition restore : act (Ctx F) := fun c =>
  match saved c with
  | [] => c
  | (m, s) :: rest =>
      {| ctm := m; fillStyle := s; saved := rest; painted := painted c |}
  end.

(** [ctx.translate(x, y)]. *)
Definition translate (x y : num F) : act (Ctx F) :=
  match x, y with
  | Fin x, Fin y => transform (mat_translate x y)
  | _, _ => skip
  end.

(** [ctx.scale(x, y)]. *)
Definition scale (x y : num F) : act (Ctx F) :=
  match x, y with
  | Fin x, Fin y => transform (mat_scale x y)
  | _, _ => skip
  end.

(** [ctx.rotate(angle)]. *)
Definition rotate (angle : num F) : act (Ctx F) :=
  match angle with
  | Fin t => transform (mat_rotate t)
  | _ => skip
  end.

(** [ctx.fillRect(x, y, w, h)]: nothing when a side is zero. *)
Definition fillRect (x y w h : num F) : act (Ctx F) :=
  match x, y, w, h with
  | Fin x, Fin y, Fin w, Fin h =>
      if (w =? 0) || (h =? 0) then skip
      else fun c => paint (FillRect (fillStyle c) (ctm c) x y w h) c
  | _, _, _, _ => skip
  end.

(** An image with no pixels cannot be drawn. *)
Definition usable (img : Image) : bool :=
  negb (N.eqb (img_width img) 0) && negb (N.eqb (img_height img) 0).

(** [ctx.drawImage(img, dx, dy, dw, dh)]. *)
Definition drawImage5 (img : Image) (dx dy dw dh : num F) : act (Ctx F) :=
  match dx, dy, dw, dh with
  | Fin dx, Fin dy, Fin dw, Fin dh =>
      if usable img then fun c => paint (DrawImage img (ctm c) dx dy dw dh) c
      else skip
  | _, _, _, _ => skip
  end.

(** [ctx.drawImage(img, dx, dy)]: the image at its own size. *)
Definition drawImage3 (img : Image) (dx dy : num F) : act (Ctx F) :=
  drawImage5 img dx dy (ofN (img_width img)) (ofN (img_height img)).

(** Where a paint operation puts the point [(u, v)] of its source, given in
    pixels of the image (or of the rectangle): on the canvas. *)
Definition paint_point (p : Paint F) (u v : F) : F * F :=
  match p with
  | FillRect _ m x y _ _ => mat_apply m (x + u, y + v)
  | DrawImage img m dx dy dw dh =>
      mat_apply m (dx + u * dw / FofZ (Z.of_N (img_width img)),
                   dy + v * dh / FofZ (Z.of_N (img_height img)))
  end.

(** Lift a transformer of the context to the canvas. *)
Definition on_ctx (f : act (Ctx F)) : act (Canvas F) := fun cv =>
  {| width := width cv; height := height cv; ctx := f (ctx cv) |}.

(** [canvas.width = w] and [canvas.height = h]: setting a dimension clears
    the canvas and puts the context back in its initial state. *)
Definition set_width (w : N) : act (Canvas F) := fun cv =>
  {| width := w; height := height cv; ctx := ctx_init |}.

Definition set_height (h : N) : act (Canvas F) := fun cv =>
  {| width := width cv; height := h; ctx := ctx_init |}.

(** ** Arguments that are not finite *)

Lemma translate_skip x y : finite x = false -> translate x y = skip.
Proof. now destruct x. Qed.

Lemma scale_skip x y : finite x = false -> scale x y = skip.
Proof. now destruct x. Qed.

Lemma rotate_skip a : finite a = false -> rotate a = skip.
Proof. now destruct a. Qed.

Lemma drawImage5_skip img dx dy dw dh :
  finite dx && finite dy && finite dw && finite dh = false ->
  drawImage5 img dx dy dw dh = skip.
Proof. destruct dx, dy, dw, dh; simpl; intros; try reflexivity; discriminate. Qed.

(** ** What the transformation methods leave alone *)

(** A method that only changes the current matrix. *)
Definition only_ctm (f : act (Ctx F)) : Prop :=
  forall c, fillStyle (f c) = fillStyle c /\ saved (f c) = saved c /\
            painted (f c) = painted c.

Lemma only_ctm_skip : only_ctm skip.
Proof. now intros c. Qed.

Lemma only_ctm_transform m : only_ctm (transform m).
Proof. now intros c. Qed.

Lemma only_ctm_translate x y : only_ctm (translate x y).
Proof. destruct x, y; auto using only_ctm_skip, only_ctm_transform. Qed.

Lemma only_ctm_scale x y : only_ctm (scale x y).
Proof. destruct x, y; auto using only_ctm_skip, only_ctm_transform. Qed.

Lemma only_ctm_rotate a : only_ctm (rotate a).
Proof. destruct a; auto using only_ctm_skip, only_ctm_transform. Qed.

Lemma only_ctm_andThen f g : only_ctm f -> only_ctm g -> only_ctm (andThen f g).
Proof.
  intros Hf Hg c. unfold andThen.
  destruct (Hf c) as (? & ? & ?), (Hg (f c)) as (? & ? & ?).
  repeat split; congruence.
Qed.

(** ** Saving and restoring *)

(** A method that leaves the stack of saved states alone. *)
Definition keeps_saved (f : act (Ctx F)) : Prop :=
  forall c, saved (f c) = saved c.

Lemma keeps_saved_only_ctm f : only_ctm f -> keeps_saved f.
Proof. intros H c. apply H. Qed.

Lemma keeps_saved_paint p : keeps_saved (paint p).
Proof. now intros c. Qed.

Lemma keeps_saved_fillRect x y w h : keeps_saved (fillRect x y w h).
Proof.
  intros c. unfold fillRect. destruct x, y, w, h; try reflexivity.
  now destruct ((_ =? _) || (_ =? _)).
Qed.

Lemma keeps_saved_drawImage5 img dx dy dw dh : keeps_saved (drawImage5 img dx dy dw dh).
Proof.
  intros c. unfold drawImage5. destruct dx, dy, dw, dh; try reflexivity.
  now destruct (usable img).
Qed.

Lemma keeps_saved_drawImage3 img dx dy : keeps_saved (drawImage3 img dx dy).
Proof. apply keeps_saved_drawImage5. Qed.

Lemma keeps_saved_set_fillStyle s : keeps_saved (set_fillStyle s).
Proof. now intros c. Qed.

Lemma keeps_saved_andThen f g : keeps_saved f -> keeps_saved g -> keeps_saved (andThen f g).
Proof. intros Hf Hg c. unfold andThen. now rewrite Hg, Hf. Qed.

(** [save(); f; restore()] puts the matrix, the style and the stack back, and
    keeps what [f] painted. *)
Lemma save_restore f c :
  keeps_saved f ->
  let c' := andThen save (andThen f restore) c in
  ctm c' = ctm c /\ fillStyle c' = fillStyle c /\ saved c' = saved c /\
  painted c' = painted (f (save c)).
Proof.
  intros Hf. unfold andThen, restore. rewrite Hf. simpl. auto.
Qed.

(** ** Painting only adds *)

(** What was painted stays painted, below what is painted next. *)
Definition extends (c c' : Ctx F) : Prop :=
  exists more, painted c' = more ++ painted c.

Lemma extends_refl c : extends c c.
Proof. now exists []. Qed.

Lemma extends_trans c1 c2 c3 : extends c1 c2 -> extends c2 c3 -> extends c1 c3.
Proof.
  intros [m1 H1] [m2 H2]. exists (m2 ++ m1). now rewrite H2, H1, app_assoc.
Qed.

Lemma extends_same_painted c c' : painted c' = painted c -> extends c c'.
Proof. intros H. now exists []. Qed.

Lemma extends_paint p c : extends c (paint p c).
Proof. now exists [p]. Qed.

(** A method that only adds paint operations. *)
Definition adds_paint (f : act (Ctx F)) : Prop := forall c, extends c (f c).

Lemma adds_paint_only_ctm f : only_ctm f -> adds_paint f.
Proof. intros H c. apply extends_same_painted, H. Qed.

Lemma adds_paint_paint p : adds_paint (paint p).
Proof. intros c. apply extends_paint. Qed.

Lemma adds_paint_skip : adds_paint skip.
Proof. intros c. apply extends_refl. Qed.

Lemma adds_paint_set_fillStyle s : adds_paint (set_fillStyle s).
Proof. intros c. now apply extends_same_painted. Qed.

Lemma adds_paint_fillRect x y w h : adds_paint (fillRect x y w h).
Proof.
  intros c. unfold fillRect. destruct x, y, w, h; try apply extends_refl.
  destruct ((_ =? _) || (_ =? _)); [apply extends_refl | apply extends_paint].
Qed.

Lemma adds_paint_drawImage5 img dx dy dw dh : adds_paint (drawImage5 img dx dy dw dh).
Proof.
  intros c. unfold drawImage5. destruct dx, dy, dw, dh; try apply extends_refl.
  destruct (usable img); [apply extends_paint | apply extends_refl].
Qed.

Lemma adds_paint_drawImage3 img dx dy : adds_paint (drawImage3 img dx dy).
Proof. apply adds_paint_drawImage5. Qed.

Lemma adds_paint_andThen f g : adds_paint f -> adds_paint g -> adds_paint (andThen f g).
Proof. intros Hf Hg c. eapply extends_trans; [apply Hf | apply Hg]. Qed.

(** A method that leaves the matrix and the stack as they are and only adds
    paint: what a caller that relies on the state of the context may run. *)
Definition painter (f : act (Ctx F)) : Prop :=
  forall c, ctm (f c) = ctm c /\ saved (f c) = saved c /\ extends c (f c).

Lemma painter_skip : painter skip.
Proof. intros c. auto using extends_refl. Qed.

Lemma painter_set_fillStyle s : painter (set_fillStyle s).
Proof. intros c. repeat split. now apply extends_same_painted. Qed.

Lemma painter_fillRect x y w h : painter (fillRect x y w h).
Proof.
  intros c. split; [|split; [apply keeps_saved_fillRect | apply adds_paint_fillRect]].
  unfold fillRect. destruct x, y, w, h; try reflexivity.
  now destruct ((_ =? _) || (_ =? _)).
Qed.

Lemma painter_drawImage5 img dx dy dw dh : painter (drawImage5 img dx dy dw dh).
Proof.
  intros c.
  split; [|split; [apply keeps_saved_drawImage5 | apply adds_paint_drawImage5]].
  unfold drawImage5. destruct dx, dy, dw, dh; try reflexivity.
  now destruct (usable img).
Qed.

Lemma painter_andThen f g : painter f -> painter g -> painter (andThen f g).
Proof.
  intros Hf Hg c. unfold andThen.
  destruct (Hf c) as (H1 & H2 & H3), (Hg (f c)) as (H4 & H5 & H6).
  repeat split; try congruence. eapply extends_trans; eassumption.
Qed.

(** Whatever [f] does to the matrix, [save(); f; restore()] is a painter. *)
Lemma painter_bracket f :
  keeps_saved f -> adds_paint f -> painter (andThen save (andThen f restore)).
Proof.
  intros Hk Ha c. destruct (save_restore c Hk) as (H1 & _ & H3 & H4).
  repeat split; try assumption.
  destruct (Ha (save c)) as [more Hm]. exists more. now rewrite H4, Hm.
Qed.

End Context2D.

#[export] Hint Resolve only_ctm_skip only_ctm_transform only_ctm_translate
  only_ctm_scale only_ctm_rotate only_ctm_andThen keeps_saved_only_ctm
  keeps_saved_paint keeps_saved_fillRect keeps_saved_drawImage5
  keeps_saved_drawImage3 keeps_saved_set_fillStyle keeps_saved_andThen
  extends_refl extends_paint adds_paint_only_ctm adds_paint_paint
  adds_paint_skip adds_paint_set_fillStyle adds_paint_fillRect
  adds_paint_drawImage5 adds_paint_drawImage3 adds_paint_andThen
  painter_skip painter_set_fillStyle painter_fillRect painter_drawImage5
  painter_andThen painter_bracket : facecut.

(** ** Matrices over the reals *)

Section RealMatrices.
Local Open Scope R_scope.
Implicit Types m n k : Matrix R.
Implicit Types p q : R * R.
Implicit Types t tx ty sx sy : R.

Lemma mat_eq m n :
  ma m = ma n -> mb m = mb n -> mc m = mc n -> md m = md n ->
  me m = me n -> mf m = mf n -> m = n.
Proof. destruct m, n; simpl; intros; subst; reflexivity. Qed.

(** The product of two matrices acts as their composition. *)
Lemma mat_apply_mul m n p : mat_apply (mat_mul m n) p = mat_apply m (mat_apply n p).
Proof. destruct p as [x y]. unfold mat_apply, mat_mul. simpl. runfold. f_equal; ring. Qed.

Lemma mat_apply_id p : mat_apply mat_id p = p.
Proof. destruct p as [x y]. unfold mat_apply, mat_id. simpl. runfold. f_equal; ring. Qed.

Lemma mat_mul_assoc m n k : mat_mul (mat_mul m n) k = mat_mul m (mat_mul n k).
Proof. apply mat_eq; simpl; runfold; ring. Qed.

Lemma mat_mul_id_l m : mat_mul mat_id m = m.
Proof. apply mat_eq; simpl; runfold; ring. Qed.

Lemma mat_mul_id_r m : mat_mul m mat_id = m.
Proof. apply mat_eq; simpl; runfold; ring. Qed.

Lemma mat_apply_translate tx ty p :
  mat_apply (mat_translate tx ty) p = (fst p + tx, snd p + ty).
Proof. destruct p. unfold mat_apply. simpl. runfold. f_equal; ring. Qed.

Lemma mat_apply_scale sx sy p :
  mat_apply (mat_scale sx sy) p = (sx * fst p, sy * snd p).
Proof. destruct p. unfold mat_apply. simpl. runfold. f_equal; ring. Qed.

Lemma mat_apply_rotate {M : MathOps R} t p :
  mat_apply (mat_rotate t) p =
  (fst p * Fcos t - snd p * Fsin t, fst p * Fsin t + snd p * Fcos t).
Proof. destruct p. unfold mat_apply. simpl. runfold. f_equal; ring. Qed.

(** An affine map sends a point of a segment to the same point of the image
    segment: it keeps convex combinations. *)
Lemma mat_apply_convex m p q t :
  mat_apply m ((1 - t) * fst p + t * fst q, (1 - t) * snd p + t * snd q) =
  ((1 - t) * fst (mat_apply m p) + t * fst (mat_apply m q),
   (1 - t) * snd (mat_apply m p) + t * snd (mat_apply m q)).
Proof. destruct p, q. unfold mat_apply. simpl. runfold. f_equal; ring. Qed.

End RealMatrices.

#[export] Hint Rewrite mat_apply_mul mat_apply_id mat_mul_id_l mat_mul_id_r
  mat_apply_translate mat_apply_scale @mat_apply_rotate : facecut.
