(* ===== verification/Geometry.v ===== *)
(** * Geometry: points and the centroid of a cluster of landmarks

    [getCentroid] of script.js, with what it returns on the inputs the
    detector produces (a cluster of finite points) and on the empty
    cluster. *)

From Stdlib Require Import ZArith QArith Reals Lra Lia Bool List.
From S2P Require Import Prelude.
From S2P Require Import Carrier.
From S2P Require Import JsNumber.
Import ListNotations.

Set Implicit Arguments.

(** A point [{x, y}], in pixels of the image, [y] downward. *)
Record Point (F : Type) : Type := {
  px : num F;
  py : num F
}.

Section Centroid.
Context {F : Type} {C : Carrier F}.
Local Open Scope num_scope.

(** The point with finite coordinates. *)
Definition fpt (p : F * F) : Point F := {| px := Fin (fst p); py := Fin (snd p) |}.

Definition finite_point (p : Point F) : bool := finite (px p) && finite (py p).

(** The callback of the [reduce]: add a point to the running sum. *)
Definition addPoint (acc p : Point F) : Point F :=
  {| px := px acc + px p; py := py acc + py p |}.

Definition getCentroid (points : list (Point F)) : Point F :=
  let sum := reduce addPoint {| px := 0; py := 0 |} points in
  {| px := px sum / ofNat (length points);
     py := py sum / ofNat (length points) |}.

End Centroid.

(** ** The centroid over the reals *)

Section RealCentroid.
Local Open Scope R_scope.
Implicit Types l : list (R * R).
Implicit Types a b x y u v lo hi : R.

(** The sum of the numbers of a list. *)
Definition Rsum (xs : list R) : R := fold_right Rplus 0 xs.

(** Every number of a list lies between two bounds. *)
Definition between (lo hi : R) (xs : list R) : Prop :=
  Forall (fun x => lo <= x <= hi) xs.

Lemma Rsum_between lo hi xs :
  between lo hi xs -> INR (length xs) * lo <= Rsum xs <= INR (length xs) * hi.
Proof.
  induction 1 as [|x xs Hx _ IH].
  - simpl. lra.
  - change (length (x :: xs)) with (S (length xs)). rewrite S_INR. simpl. lra.
Qed.

Lemma Rsum_map_shift {A} (f : A -> R) w (xs : list A) :
  Rsum (map (fun p => f p + w) xs) = Rsum (map f xs) + INR (length xs) * w.
Proof.
  induction xs as [|p xs IH]; [simpl; lra|].
  change (length (p :: xs)) with (S (length xs)). rewrite S_INR. simpl.
  rewrite IH. lra.
Qed.

(** The running sum of the [reduce], started at any finite point. *)
Lemma reduce_addPoint l a b :
  reduce addPoint (fpt (a, b)) (map fpt l) =
  fpt (a + Rsum (map fst l), b + Rsum (map snd l)).
Proof.
  revert a b. induction l as [|[x y] l IH]; intros a b.
  - simpl. unfold fpt. simpl. f_equal; f_equal; lra.
  - simpl map. rewrite reduce_cons.
    change (addPoint (fpt (a, b)) (fpt (x, y))) with (fpt (a + x, b + y)).
    rewrite IH. unfold fpt. simpl. f_equal; f_equal; lra.
Qed.

Lemma IZR_length_pos {A} (xs : list A) : xs <> [] -> 0 < IZR (Z.of_nat (length xs)).
Proof.
  intros H. apply IZR_lt. destruct xs; [contradiction | simpl; lia].
Qed.

(** The mean of the coordinates of a cluster. *)
Definition mean l : R * R :=
  (Rsum (map fst l) / IZR (Z.of_nat (length l)),
   Rsum (map snd l) / IZR (Z.of_nat (length l))).

(** On a non-empty cluster of finite points the centroid is the point of the
    two means. *)
Lemma getCentroid_fin l : l <> [] -> getCentroid (map fpt l) = fpt (mean l).
Proof.
  intros Hl. unfold getCentroid, mean.
  change {| px := ofZ 0; py := ofZ 0 |} with (fpt (0, 0)).
  rewrite reduce_addPoint, length_map. unfold fpt, ofNat, ofZ. simpl fst. simpl snd.
  cbn [px py]. pose proof (IZR_length_pos Hl) as Hn.
  rewrite !ndiv_fin by (runfold; lra). f_equal; f_equal; runfold; f_equal; lra.
Qed.

Lemma mean_single x y : mean [(x, y)] = (x, y).
Proof. unfold mean. simpl. f_equal; field. Qed.

(** On a non-empty cluster of finite points each coordinate of the
    result of [getCentroid] is the sum of that coordinate over the cluster
    divided by the number of points. *)
Theorem getCentroid_mean l :
  l <> [] ->
  px (getCentroid (map fpt l)) = Fin (Rsum (map fst l) / INR (length l)) /\
  py (getCentroid (map fpt l)) = Fin (Rsum (map snd l) / INR (length l)).
Proof.
  intros Hl. rewrite getCentroid_fin by assumption. unfold mean.
  rewrite INR_IZR_INZ. now split.
Qed.

(** The centroid of no point is [{x: NaN, y: NaN}], the quotient
    [0 / 0]: the empty cluster is not an error. *)
Lemma getCentroid_nil : getCentroid (@nil (Point R)) = {| px := NaN; py := NaN |}.
Proof. unfold getCentroid. simpl. runfold. now rewrite Reqb_refl; rcases. Qed.

(** The centroid of one point is the point. *)
Lemma getCentroid_single x y : getCentroid [fpt (x, y)] = fpt (x, y).
Proof.
  change [fpt (x, y)] with (map (@fpt R) [(x, y)]).
  rewrite getCentroid_fin by discriminate.
  unfold mean, fpt. simpl. f_equal; f_equal; field.
Qed.

(** The centroid lies in the bounding box of the cluster. *)
Lemma getCentroid_in_box l x0 x1 y0 y1 :
  l <> [] -> between x0 x1 (map fst l) -> between y0 y1 (map snd l) ->
  exists cx cy, getCentroid (map fpt l) = fpt (cx, cy) /\
                x0 <= cx <= x1 /\ y0 <= cy <= y1.
Proof.
  intros Hl Hx Hy. rewrite getCentroid_fin by assumption. unfold mean.
  eexists _, _. split; [reflexivity|].
  pose proof (IZR_length_pos Hl) as Hn.
  apply Rsum_between in Hx. apply Rsum_between in Hy.
  rewrite length_map, INR_IZR_INZ in Hx, Hy.
  set (n := IZR (Z.of_nat (length l))) in *.
  assert (Hi : 0 < / n) by now apply Rinv_0_lt_compat.
  unfold Rdiv. split; split.
  all: apply Rmult_le_reg_r with n; [assumption|].
  all: rewrite ?Rmult_assoc, Rinv_l by lra; lra.
Qed.

(** Moving every point of the cluster by the same vector moves the
    centroid by that vector. *)
Lemma getCentroid_shift l u v :
  l <> [] ->
  let moved := map (fun p => (fst p + u, snd p + v)) l in
  px (getCentroid (map fpt moved)) = nadd (px (getCentroid (map fpt l))) (Fin u) /\
  py (getCentroid (map fpt moved)) = nadd (py (getCentroid (map fpt l))) (Fin v).
Proof.
  intros Hl moved.
  assert (Hm : moved <> []) by (subst moved; destruct l; [contradiction | discriminate]).
  rewrite !getCentroid_fin by assumption. subst moved. unfold mean.
  rewrite length_map, !map_map. cbn [px py fpt fst snd nadd]. runfold.
  pose proof (IZR_length_pos Hl) as Hn.
  rewrite (Rsum_map_shift fst u), (Rsum_map_shift snd v), INR_IZR_INZ.
  split; f_equal; field; lra.
Qed.

(** ** The theorems on a cluster of three points *)

Lemma getCentroid_mean_witness :
  let l := [(1, 1); (3, 2); (5, 6)] in
  px (getCentroid (map fpt l)) = Fin (Rsum (map fst l) / INR (length l)) /\
  py (getCentroid (map fpt l)) = Fin (Rsum (map snd l) / INR (length l)).
Proof. apply getCentroid_mean. discriminate. Defined.

Lemma getCentroid_in_box_witness :
  exists cx cy, getCentroid (map fpt [(1, 1); (3, 2); (5, 6)]) = fpt (cx, cy) /\
                1 <= cx <= 5 /\ 1 <= cy <= 6.
Proof.
  apply getCentroid_in_box; [discriminate | |];
    repeat (apply Forall_cons; [simpl; lra|]); apply Forall_nil.
Defined.

Lemma getCentroid_shift_witness :
  let l := [(1, 1); (3, 2); (5, 6)] in
  let moved := map (fun p => (fst p + 10, snd p + 20)) l in
  px (getCentroid (map fpt moved)) = nadd (px (getCentroid (map fpt l))) (Fin 10) /\
  py (getCentroid (map fpt moved)) = nadd (py (getCentroid (map fpt l))) (Fin 20).
Proof. apply getCentroid_shift. discriminate. Defined.

End RealCentroid.

(** ** The centroid runs on the rationals *)

Example getCentroid_Q :
  let c := getCentroid [fpt (1, 1); fpt (3, 2); fpt (5, 6)]%Q in
  (px c =? Fin 3%Q)%num = true /\ (py c =? Fin 3%Q)%num = true.
Proof. split; vm_compute; reflexivity. Qed.
