(* ===== verification/AppState.v ===== *)
(** * AppState: the two global objects of script.js

    [state] (the frames, the playback flags and settings, the canvas) and
    [elements] (the nodes of the page the functions write to), the data of a
    frame, and the loading overlay ([showLoading], [hideLoading]).

    [state.canvas], [state.ctx] and [elements.canvas] are one object in the
    source ([init] assigns one to the others): the model keeps it once, as
    the field [canvas] of the state, its context inside it. *)

From Stdlib Require Import ZArith Reals Lra Lia Bool List String.
From S2P Require Import Prelude.
From S2P Require Import Carrier.
From S2P Require Import JsNumber.
From S2P Require Import MathLib.
From S2P Require Import Canvas.
From S2P Require Import Geometry.
Import ListNotations.

Set Implicit Arguments.

(** What the detector returns for a face: the landmarks, of which the
    program reads the two clusters of eye points. *)
Record Landmarks (F : Type) : Type := {
  getLeftEye : list (Point F);
  getRightEye : list (Point F)
}.

Record Detections (F : Type) : Type := {
  landmarks : Landmarks F
}.

(** An element of [state.images]: the decoded image and the detection, which
    is absent when no face was found. *)
Record Item (F : Type) : Type := {
  original : Image;
  detections : option (Detections F)
}.

Record State (F : Type) : Type := {
  images : list (Item F);
  isModelLoaded : bool;
  isPlaying : bool;
  currentFrame : num F;
  fps : num F;
  zoom : num F;
  alignEyes : bool;
  canvas : Canvas F;
  animationId : option nat;
  gifWorkerBlob : option string
}.

(** The nodes of the page, by what the program writes to them: the class
    [hidden], the class [drag-over], the class [active], a text, a value, a
    width in percent. *)
Record Elements (F : Type) : Type := {
  uploadSection_hidden : bool;
  editorSection_hidden : bool;
  dropZone_dragOver : bool;
  fileInput_value : string;
  loadingOverlay_hidden : bool;
  loadingText : string;
  progressBarContainer_hidden : bool;
  progressBar_width : num F;
  speedValue : num F;
  zoomRange_value : num F;
  alignEyesBtn_active : bool;
  noAlignBtn_active : bool
}.

Record World (F : Type) : Type := {
  state : State F;
  elements : Elements F
}.

Section Setters.
Context {F : Type} {C : Carrier F}.

(** The object literal that declares [state], around the canvas of the page. *)
Definition state_init (cv : Canvas F) : State F :=
  {| images := []; isModelLoaded := false; isPlaying := false;
     currentFrame := ofZ 0; fps := ofZ 10; zoom := dec 25 100;
     alignEyes := true; canvas := cv; animationId := None;
     gifWorkerBlob := None |}.

Definition set_images (v : list (Item F)) : act (State F) := fun s =>
  {| images := v; isModelLoaded := isModelLoaded s; isPlaying := isPlaying s;
     currentFrame := currentFrame s; fps := fps s; zoom := zoom s;
     alignEyes := alignEyes s; canvas := canvas s;
     animationId := animationId s; gifWorkerBlob := gifWorkerBlob s |}.

Definition set_isModelLoaded (v : bool) : act (State F) := fun s =>
  {| images := images s; isModelLoaded := v; isPlaying := isPlaying s;
     currentFrame := currentFrame s; fps := fps s; zoom := zoom s;
     alignEyes := alignEyes s; canvas := canvas s;
     animationId := animationId s; gifWorkerBlob := gifWorkerBlob s |}.

Definition set_gifWorkerBlob (v : option string) : act (State F) := fun s =>
  {| images := images s; isModelLoaded := isModelLoaded s; isPlaying := isPlaying s;
     currentFrame := currentFrame s; fps := fps s; zoom := zoom s;
     alignEyes := alignEyes s; canvas := canvas s;
     animationId := animationId s; gifWorkerBlob := v |}.

Definition set_isPlaying (v : bool) : act (State F) := fun s =>
  {| images := images s; isModelLoaded := isModelLoaded s; isPlaying := v;
     currentFrame := currentFrame s; fps := fps s; zoom := zoom s;
     alignEyes := alignEyes s; canvas := canvas s;
     animationId := animationId s; gifWorkerBlob := gifWorkerBlob s |}.

Definition set_currentFrame (v : num F) : act (State F) := fun s =>
  {| images := images s; isModelLoaded := isModelLoaded s;
     isPlaying := isPlaying s; currentFrame := v; fps := fps s; zoom := zoom s;
     alignEyes := alignEyes s; canvas := canvas s;
     animationId := animationId s; gifWorkerBlob := gifWorkerBlob s |}.

Definition set_fps (v : num F) : act (State F) := fun s =>
  {| images := images s; isModelLoaded := isModelLoaded s;
     isPlaying := isPlaying s; currentFrame := currentFrame s; fps := v;
     zoom := zoom s; alignEyes := alignEyes s; canvas := canvas s;
     animationId := animationId s; gifWorkerBlob := gifWorkerBlob s |}.

Definition set_zoom (v : num F) : act (State F) := fun s =>
  {| images := images s; isModelLoaded := isModelLoaded s;
     isPlaying := isPlaying s; currentFrame := currentFrame s; fps := fps s;
     zoom := v; alignEyes := alignEyes s; canvas := canvas s;
     animationId := animationId s; gifWorkerBlob := gifWorkerBlob s |}.

Definition set_alignEyes (v : bool) : act (State F) := fun s =>
  {| images := images s; isModelLoaded := isModelLoaded s;
     isPlaying := isPlaying s; currentFrame := currentFrame s; fps := fps s;
     zoom := zoom s; alignEyes := v; canvas := canvas s;
     animationId := animationId s; gifWorkerBlob := gifWorkerBlob s |}.

Definition set_animationId (v : option nat) : act (State F) := fun s =>
  {| images := images s; isModelLoaded := isModelLoaded s;
     isPlaying := isPlaying s; currentFrame := currentFrame s; fps := fps s;
     zoom := zoom s; alignEyes := alignEyes s; canvas := canvas s;
     animationId := v; gifWorkerBlob := gifWorkerBlob s |}.

(** Run a transformer of the canvas on [state.canvas]. *)
Definition on_canvas (f : act (Canvas F)) : act (State F) := fun s =>
  {| images := images s; isModelLoaded := isModelLoaded s;
     isPlaying := isPlaying s; currentFrame := currentFrame s; fps := fps s;
     zoom := zoom s; alignEyes := alignEyes s; canvas := f (canvas s);
     animationId := animationId s; gifWorkerBlob := gifWorkerBlob s |}.

Definition on_state (f : act (State F)) : act (World F) := fun w =>
  {| state := f (state w); elements := elements w |}.

Definition on_elements (f : act (Elements F)) : act (World F) := fun w =>
  {| state := state w; elements := f (elements w) |}.

(** The class [drag-over] of the drop zone. *)
Definition set_dragOver (v : bool) : act (Elements F) := fun e =>
  {| uploadSection_hidden := uploadSection_hidden e;
     editorSection_hidden := editorSection_hidden e;
     dropZone_dragOver := v;
     fileInput_value := fileInput_value e;
     loadingOverlay_hidden := loadingOverlay_hidden e;
     loadingText := loadingText e;
     progressBarContainer_hidden := progressBarContainer_hidden e;
     progressBar_width := progressBar_width e; speedValue := speedValue e;
     zoomRange_value := zoomRange_value e;
     alignEyesBtn_active := alignEyesBtn_active e;
     noAlignBtn_active := noAlignBtn_active e |}.

(** The three writes of [showLoading] and the one of [hideLoading]. *)
Definition set_loading (hidden : bool) (text : string) : act (Elements F) := fun e =>
  {| uploadSection_hidden := uploadSection_hidden e;
     editorSection_hidden := editorSection_hidden e;
     dropZone_dragOver := dropZone_dragOver e;
     fileInput_value := fileInput_value e;
     loadingOverlay_hidden := hidden; loadingText := text;
     progressBarContainer_hidden := progressBarContainer_hidden e;
     progressBar_width := progressBar_width e; speedValue := speedValue e;
     zoomRange_value := zoomRange_value e;
     alignEyesBtn_active := alignEyesBtn_active e;
     noAlignBtn_active := noAlignBtn_active e |}.

Definition set_progress (hidden : bool) (w : num F) : act (Elements F) := fun e =>
  {| uploadSection_hidden := uploadSection_hidden e;
     editorSection_hidden := editorSection_hidden e;
     dropZone_dragOver := dropZone_dragOver e;
     fileInput_value := fileInput_value e;
     loadingOverlay_hidden := loadingOverlay_hidden e;
     loadingText := loadingText e;
     progressBarContainer_hidden := hidden; progressBar_width := w;
     speedValue := speedValue e; zoomRange_value := zoomRange_value e;
     alignEyesBtn_active := alignEyesBtn_active e;
     noAlignBtn_active := noAlignBtn_active e |}.

Definition set_zoomRange_value (v : num F) : act (Elements F) := fun e =>
  {| uploadSection_hidden := uploadSection_hidden e;
     editorSection_hidden := editorSection_hidden e;
     dropZone_dragOver := dropZone_dragOver e;
     fileInput_value := fileInput_value e;
     loadingOverlay_hidden := loadingOverlay_hidden e;
     loadingText := loadingText e;
     progressBarContainer_hidden := progressBarContainer_hidden e;
     progressBar_width := progressBar_width e; speedValue := speedValue e;
     zoomRange_value := v;
     alignEyesBtn_active := alignEyesBtn_active e;
     noAlignBtn_active := noAlignBtn_active e |}.

(** The class [hidden] of the two sections of the page. *)
Definition set_sections (upload editor : bool) : act (Elements F) := fun e =>
  {| uploadSection_hidden := upload; editorSection_hidden := editor;
     dropZone_dragOver := dropZone_dragOver e;
     fileInput_value := fileInput_value e;
     loadingOverlay_hidden := loadingOverlay_hidden e;
     loadingText := loadingText e;
     progressBarContainer_hidden := progressBarContainer_hidden e;
     progressBar_width := progressBar_width e; speedValue := speedValue e;
     zoomRange_value := zoomRange_value e;
     alignEyesBtn_active := alignEyesBtn_active e;
     noAlignBtn_active := noAlignBtn_active e |}.

Definition set_fileInput_value (v : string) : act (Elements F) := fun e =>
  {| uploadSection_hidden := uploadSection_hidden e;
     editorSection_hidden := editorSection_hidden e;
     dropZone_dragOver := dropZone_dragOver e;
     fileInput_value := v;
     loadingOverlay_hidden := loadingOverlay_hidden e;
     loadingText := loadingText e;
     progressBarContainer_hidden := progressBarContainer_hidden e;
     progressBar_width := progressBar_width e; speedValue := speedValue e;
     zoomRange_value := zoomRange_value e;
     alignEyesBtn_active := alignEyesBtn_active e;
     noAlignBtn_active := noAlignBtn_active e |}.

(** The number [speedValue] shows before the text [fps]. *)
Definition set_speedValue (v : num F) : act (Elements F) := fun e =>
  {| uploadSection_hidden := uploadSection_hidden e;
     editorSection_hidden := editorSection_hidden e;
     dropZone_dragOver := dropZone_dragOver e;
     fileInput_value := fileInput_value e;
     loadingOverlay_hidden := loadingOverlay_hidden e;
     loadingText := loadingText e;
     progressBarContainer_hidden := progressBarContainer_hidden e;
     progressBar_width := progressBar_width e; speedValue := v;
     zoomRange_value := zoomRange_value e;
     alignEyesBtn_active := alignEyesBtn_active e;
     noAlignBtn_active := noAlignBtn_active e |}.

(** The class [active] of the two alignment buttons. *)
Definition set_align_buttons (align noAlign : bool) : act (Elements F) := fun e =>
  {| uploadSection_hidden := uploadSection_hidden e;
     editorSection_hidden := editorSection_hidden e;
     dropZone_dragOver := dropZone_dragOver e;
     fileInput_value := fileInput_value e;
     loadingOverlay_hidden := loadingOverlay_hidden e;
     loadingText := loadingText e;
     progressBarContainer_hidden := progressBarContainer_hidden e;
     progressBar_width := progressBar_width e; speedValue := speedValue e;
     zoomRange_value := zoomRange_value e;
     alignEyesBtn_active := align; noAlignBtn_active := noAlign |}.

(** [showLoading(text, progress = -1)]. *)
Definition showLoading (text : string) (progress : num F) : act (World F) :=
  on_elements (fun e =>
    let e := set_loading false text e in
    if (progress >=? ofZ 0)%num then set_progress false progress e
    else set_progress true (progressBar_width e) e).

(** [showLoading(text)], the progress left to its default. *)
Definition showLoading1 (text : string) : act (World F) :=
  showLoading text (ofZ (-1)).

Definition hideLoading : act (World F) :=
  on_elements (fun e => set_loading true (loadingText e) e).

End Setters.
