(* ===== verification/Render.v ===== *)
(** * Render: [renderFrame]

    The function paints one frame: it clears the canvas, then draws the
    image either aligned on its eyes (when alignment is on and a face was
    detected) or centred and scaled to fit.  The [const]s of the aligned
    branch are definitions of their own, named as in the source, because
    [autoFitZoom] computes the same values and the theorems speak about
    them. *)

From Stdlib Require Import ZArith Reals Lra Lia Bool List String RelationClasses.
From S2P Require Import Prelude.
From S2P Require Import Carrier.
From S2P Require Import JsNumber.
From S2P Require Import MathLib.
From S2P Require Import Canvas.
From S2P Require Import Geometry.
From S2P Require Import AppState.
Import ListNotations.

Set Implicit Arguments.

Section RenderFrame.
Context {F : Type} {C : Carrier F} {M : MathOps F}.
Local Open Scope num_scope.

(** ** The geometry of the eyes *)

Definition leftEyeCenter (lm : Landmarks F) : Point F := getCentroid (getLeftEye lm).

Definition rightEyeCenter (lm : Landmarks F) : Point F := getCentroid (getRightEye lm).

Definition dx (lm : Landmarks F) : num F := px (rightEyeCenter lm) - px (leftEyeCenter lm).

Definition dy (lm : Landmarks F) : num F := py (rightEyeCenter lm) - py (leftEyeCenter lm).

Definition angle (lm : Landmarks F) : num F := Math_atan2 (dy lm) (dx lm).

Definition eyesCenter (lm : Landmarks F) : Point F :=
  {| px := (px (leftEyeCenter lm) + px (rightEyeCenter lm)) / ofZ 2;
     py := (py (leftEyeCenter lm) + py (rightEyeCenter lm)) / ofZ 2 |}.

Definition currentEyesDist (lm : Landmarks F) : num F :=
  Math_sqrt (dx lm * dx lm + dy lm * dy lm).

(** ** The placement on the canvas *)

Definition desiredEyesDist (cv : Canvas F) (zoom : num F) : num F :=
  ofN (width cv) * zoom.

(** The [scale] of the aligned branch. *)
Definition eyesScale (cv : Canvas F) (zoom : num F) (lm : Landmarks F) : num F :=
  desiredEyesDist cv zoom / currentEyesDist lm.

Definition targetX (cv : Canvas F) : num F := ofN (width cv) * dec 5 10.

Definition targetY (cv : Canvas F) : num F := ofN (height cv) * dec 4 10.

(** The aligned branch: the five calls between [save] and [restore] build
    the transformation, the image is drawn at its origin under it. *)
Definition drawAligned (cv : Canvas F) (zoom : num F) (img : Image)
    (lm : Landmarks F) : act (Ctx F) :=
  (save ;;
   (translate (targetX cv) (targetY cv) ;;
    scale (eyesScale cv zoom lm) (eyesScale cv zoom lm) ;;
    rotate (- angle lm) ;;
    translate (- px (eyesCenter lm)) (- py (eyesCenter lm)) ;;
    drawImage3 img 0 0) ;;
   restore)%act.

(** The [scale], [x] and [y] of the other branch. *)
Definition fitScale (cv : Canvas F) (img : Image) : num F :=
  Math_min (ofN (width cv) / ofN (img_width img))
           (ofN (height cv) / ofN (img_height img)).

Definition fitX (cv : Canvas F) (img : Image) : num F :=
  (ofN (width cv) - ofN (img_width img) * fitScale cv img) / ofZ 2.

Definition fitY (cv : Canvas F) (img : Image) : num F :=
  (ofN (height cv) - ofN (img_height img) * fitScale cv img) / ofZ 2.

Definition drawCentered (cv : Canvas F) (img : Image) : act (Ctx F) :=
  drawImage5 img (fitX cv img) (fitY cv img)
    (ofN (img_width img) * fitScale cv img)
    (ofN (img_height img) * fitScale cv img).

(** The two statements under the comment [Clear]. *)
Definition clear (cv : Canvas F) : act (Ctx F) :=
  (set_fillStyle "#000" ;;
   fillRect 0 0 (ofN (width cv)) (ofN (height cv)))%act.

(** What [renderFrame] does once it has the item. *)
Definition drawItem (cv : Canvas F) (zoom : num F) (align : bool)
    (item : Item F) : act (Ctx F) :=
  (clear cv ;;
   match align, detections item with
   | true, Some d => drawAligned cv zoom (original item) (landmarks d)
   | _, _ => drawCentered cv (original item)
   end)%act.

Definition renderFrame (index : num F) : act (State F) := fun st =>
  match array_get (images st) index with
  | None => st
  | Some item =>
      on_canvas (on_ctx (drawItem (canvas st) (zoom st) (alignEyes st) item)) st
  end.

(** The paint operation on top of the canvas: the last one. *)
Definition top_paint (st : State F) : option (Paint F) :=
  hd_error (painted (ctx (canvas st))).

(** ** The state of the context across a frame *)

Lemma painter_clear cv : painter (clear cv).
Proof. unfold clear. auto with facecut. Qed.

Lemma painter_drawAligned cv z img lm : painter (drawAligned cv z img lm).
Proof. unfold drawAligned. apply painter_bracket; auto 10 with facecut. Qed.

Lemma painter_drawCentered cv img : painter (drawCentered cv img).
Proof. unfold drawCentered. auto with facecut. Qed.

Lemma painter_drawItem cv z align item : painter (drawItem cv z align item).
Proof.
  unfold drawItem. apply painter_andThen; [apply painter_clear|].
  destruct align, (detections item);
    auto using painter_drawAligned, painter_drawCentered.
Qed.

(** [renderFrame] changes nothing but the canvas. *)
Lemma renderFrame_frame index st :
  let st' := renderFrame index st in
  images st' = images st /\ zoom st' = zoom st /\ alignEyes st' = alignEyes st /\
  isPlaying st' = isPlaying st /\ currentFrame st' = currentFrame st /\
  fps st' = fps st /\ animationId st' = animationId st /\
  width (canvas st') = width (canvas st) /\ height (canvas st') = height (canvas st).
Proof. unfold renderFrame. destruct (array_get _ _); simpl; auto 10. Qed.

(** Whatever the index and the frame, [renderFrame] leaves the matrix of
    the context and its stack of saved states as it found them, and only
    adds to what is painted. *)
Lemma renderFrame_context index st :
  let c := ctx (canvas st) in
  let c' := ctx (canvas (renderFrame index st)) in
  ctm c' = ctm c /\ saved c' = saved c /\ extends c c'.
Proof.
  unfold renderFrame. destruct (array_get _ _) as [item|]; cbn.
  - apply painter_drawItem.
  - auto using extends_refl.
Qed.

(** Two states with the same frames and settings and with canvases of the
    same size, whose contexts have the same matrix and stack: they differ
    in what is painted and in where the player is. *)
Definition same_setup (st st' : State F) : Prop :=
  images st' = images st /\ zoom st' = zoom st /\ alignEyes st' = alignEyes st /\
  fps st' = fps st /\
  width (canvas st') = width (canvas st) /\ height (canvas st') = height (canvas st) /\
  ctm (ctx (canvas st')) = ctm (ctx (canvas st)) /\
  saved (ctx (canvas st')) = saved (ctx (canvas st)).

#[export] Instance same_setup_equiv : Equivalence same_setup.
Proof.
  split.
  - intros st. repeat split.
  - intros st st' H. unfold same_setup in *. intuition congruence.
  - intros st1 st2 st3 H1 H2. unfold same_setup in *. intuition congruence.
Qed.

Lemma renderFrame_same_setup index st : same_setup st (renderFrame index st).
Proof.
  pose proof (renderFrame_frame index st) as Hf.
  pose proof (renderFrame_context index st) as Hc.
  cbn zeta in *. unfold same_setup. tauto.
Qed.

Lemma same_setup_target st st' :
  same_setup st st' ->
  targetX (canvas st') = targetX (canvas st) /\ targetY (canvas st') = targetY (canvas st) /\
  desiredEyesDist (canvas st') (zoom st') = desiredEyesDist (canvas st) (zoom st).
Proof.
  intros (_ & Hz & _ & _ & Hw & Hh & _). unfold targetX, targetY, desiredEyesDist.
  now rewrite Hz, Hw, Hh.
Qed.

(** [renderFrame] changes nothing but the picture: the frames, the
    settings and the size of the canvas stay, the matrix of the context and
    its stack of saved states are as before, and what was painted is still
    under what is painted now. *)
Theorem renderFrame_keeps_context index st :
  let st' := renderFrame index st in
  images st' = images st /\ zoom st' = zoom st /\ alignEyes st' = alignEyes st /\
  currentFrame st' = currentFrame st /\
  width (canvas st') = width (canvas st) /\ height (canvas st') = height (canvas st) /\
  ctm (ctx (canvas st')) = ctm (ctx (canvas st)) /\
  saved (ctx (canvas st')) = saved (ctx (canvas st)) /\
  extends (ctx (canvas st)) (ctx (canvas st')).
Proof.
  pose proof (renderFrame_frame index st) as Hf.
  pose proof (renderFrame_context index st) as Hc. cbn zeta in *. tauto.
Qed.

(** An index that is no index of the array ([NaN], a fraction, a
    negative number) or that is past its end paints nothing: the guard
    [if (!item) return]. *)
Theorem renderFrame_no_item (index : num F) (st : State F) :
  match nindex index with
  | Some k => List.length (images st) <= k
  | None => True
  end ->
  renderFrame index st = st.
Proof.
  unfold renderFrame, array_get. destruct (nindex index) as [k|]; [|reflexivity].
  intros H. apply nth_error_None in H. now rewrite H.
Qed.

End RenderFrame.

#[export] Hint Resolve painter_clear painter_drawAligned painter_drawCentered
  painter_drawItem : facecut.

(** ** The frame over the reals *)

Section RealRender.
Context {M : MathOps R} {L : MathLaws M}.
Local Open Scope R_scope.
Implicit Types Lp Rp : list (R * R).
Implicit Types cv : Canvas R.
Implicit Types z tx ty s a x y k h D c sn ddx ddy : R.

(** Landmarks whose two eye clusters are finite points. *)
Definition flm Lp Rp : Landmarks R :=
  {| getLeftEye := map fpt Lp; getRightEye := map fpt Rp |}.

Definition eyeDx Lp Rp : R := fst (mean Rp) - fst (mean Lp).

Definition eyeDy Lp Rp : R := snd (mean Rp) - snd (mean Lp).

Definition eyeDist Lp Rp : R :=
  Fsqrt (eyeDx Lp Rp * eyeDx Lp Rp + eyeDy Lp Rp * eyeDy Lp Rp).

Definition eyeAngle Lp Rp : R := Fatan2 (eyeDy Lp Rp) (eyeDx Lp Rp).

Definition eyeMid Lp Rp : R * R :=
  ((fst (mean Lp) + fst (mean Rp)) / 2, (snd (mean Lp) + snd (mean Rp)) / 2).

Definition imgW (img : Image) : R := IZR (Z.of_N (img_width img)).

Definition imgH (img : Image) : R := IZR (Z.of_N (img_height img)).

Definition canvasW cv : R := IZR (Z.of_N (width cv)).

Definition canvasH cv : R := IZR (Z.of_N (height cv)).

Lemma canvasW_nonneg cv : 0 <= canvasW cv.
Proof. apply IZR_le. lia. Qed.

Lemma canvasH_nonneg cv : 0 <= canvasH cv.
Proof. apply IZR_le. lia. Qed.

Lemma targetX_fin cv : targetX cv = Fin (canvasW cv * (5 / 10)).
Proof. reflexivity. Qed.

Lemma targetY_fin cv : targetY cv = Fin (canvasH cv * (4 / 10)).
Proof. reflexivity. Qed.

Lemma desiredEyesDist_fin cv z : desiredEyesDist cv (Fin z) = Fin (canvasW cv * z).
Proof. reflexivity. Qed.

Lemma on_eye_line tx ty k D c sn ddx ddy h :
  D <> 0 -> c * D = ddx -> sn * D = - ddy -> D * D = ddx * ddx + ddy * ddy ->
  tx + k / D * (h * ddx * c - h * ddy * sn) = tx + k * h /\
  ty + k / D * (h * ddx * sn + h * ddy * c) = ty.
Proof.
  intros HD Hc Hs HE. subst ddx.
  assert (Hy : ddy = - (sn * D)) by lra. subst ddy.
  assert (Hu : c * c + sn * sn = 1).
  { apply Rmult_eq_reg_r with (D * D); [|nra]. lra. }
  split.
  - replace (k / D * (h * (c * D) * c - h * - (sn * D) * sn))
      with (k * h * (c * c + sn * sn)) by (field; exact HD).
    rewrite Hu. ring.
  - field. exact HD.
Qed.

Section Eyes.
Variables Lp Rp : list (R * R).
Hypothesis HL : Lp <> [].
Hypothesis HR : Rp <> [].

Lemma leftEyeCenter_fin : leftEyeCenter (flm Lp Rp) = fpt (mean Lp).
Proof. now apply getCentroid_fin. Qed.

Lemma rightEyeCenter_fin : rightEyeCenter (flm Lp Rp) = fpt (mean Rp).
Proof. now apply getCentroid_fin. Qed.

Lemma dx_fin : dx (flm Lp Rp) = Fin (eyeDx Lp Rp).
Proof. unfold dx. now rewrite leftEyeCenter_fin, rightEyeCenter_fin. Qed.

Lemma dy_fin : dy (flm Lp Rp) = Fin (eyeDy Lp Rp).
Proof. unfold dy. now rewrite leftEyeCenter_fin, rightEyeCenter_fin. Qed.

Lemma angle_fin : angle (flm Lp Rp) = Fin (eyeAngle Lp Rp).
Proof. unfold angle. now rewrite dx_fin, dy_fin. Qed.

Lemma eyesCenter_fin : eyesCenter (flm Lp Rp) = fpt (eyeMid Lp Rp).
Proof.
  unfold eyesCenter. rewrite leftEyeCenter_fin, rightEyeCenter_fin.
  unfold fpt, eyeMid. cbn [px py fst snd nadd ofZ]. 
  unfold ofZ. rewrite !ndiv_fin by (runfold; lra). reflexivity.
Qed.

Lemma currentEyesDist_fin : currentEyesDist (flm Lp Rp) = Fin (eyeDist Lp Rp).
Proof.
  unfold currentEyesDist. rewrite dx_fin, dy_fin. cbn [nmul nadd].
  apply Math_sqrt_fin. runfold. nra.
Qed.

Lemma eyesScale_fin cv z :
  eyeDist Lp Rp <> 0 ->
  eyesScale cv (Fin z) (flm Lp Rp) = Fin (canvasW cv * z / eyeDist Lp Rp).
Proof.
  intros H. unfold eyesScale. rewrite currentEyesDist_fin, desiredEyesDist_fin.
  now apply ndiv_fin.
Qed.


(** ** The transformation of the aligned branch *)

(** What the four calls compose: move [e] to the origin, rotate by [- a],
    scale by [s], move the origin to [(tx, ty)]. *)
Definition alignMatrix tx ty s a (e : R * R) : Matrix R :=
  mat_mul (mat_translate tx ty)
    (mat_mul (mat_scale s s)
       (mat_mul (mat_rotate (- a)) (mat_translate (- fst e) (- snd e)))).

(** The same as a function on points: the formula of the comment in
    [autoFitZoom]. *)
Definition alignPoint tx ty s a (e p : R * R) : R * R :=
  (tx + s * ((fst p - fst e) * Fcos (- a) - (snd p - snd e) * Fsin (- a)),
   ty + s * ((fst p - fst e) * Fsin (- a) + (snd p - snd e) * Fcos (- a))).

Lemma alignMatrix_apply tx ty s a e p :
  mat_apply (alignMatrix tx ty s a e) p = alignPoint tx ty s a e p.
Proof.
  destruct e, p. unfold alignMatrix, alignPoint, mat_apply. simpl. runfold.
  f_equal; ring.
Qed.

(** The matrix under which the frame is drawn. *)
Definition frameMatrix cv z : Matrix R :=
  alignMatrix (canvasW cv * (5 / 10)) (canvasH cv * (4 / 10))
    (canvasW cv * z / eyeDist Lp Rp) (eyeAngle Lp Rp) (eyeMid Lp Rp).

Lemma drawAligned_paints cv z img (c : Ctx R) :
  eyeDist Lp Rp <> 0 -> usable img = true ->
  drawAligned cv (Fin z) img (flm Lp Rp) c =
  paint (DrawImage img (mat_mul (ctm c) (frameMatrix cv z)) 0 0
           (IZR (Z.of_N (img_width img))) (IZR (Z.of_N (img_height img)))) c.
Proof.
  intros Hd Hu. unfold drawAligned.
  rewrite targetX_fin, targetY_fin, eyesScale_fin, angle_fin, eyesCenter_fin by assumption.
  unfold andThen, drawImage3, drawImage5, restore, paint, frameMatrix, alignMatrix.
  cbn -[mat_mul mat_translate mat_scale mat_rotate]. rewrite Hu.
  cbn -[mat_mul mat_translate mat_scale mat_rotate].
  destruct c as [m fs sv pt]. cbn -[mat_mul mat_translate mat_scale mat_rotate].
  f_equal. f_equal. f_equal. now rewrite !mat_mul_assoc.
Qed.


(** A point of the eye line, at [h] times the eye vector from the midpoint,
    goes to the horizontal through the target, [h] times the desired
    distance from it. *)
Lemma alignPoint_eye_line tx ty k h q :
  eyeDist Lp Rp <> 0 ->
  q = (fst (eyeMid Lp Rp) + h * eyeDx Lp Rp, snd (eyeMid Lp Rp) + h * eyeDy Lp Rp) ->
  alignPoint tx ty (k / eyeDist Lp Rp) (eyeAngle Lp Rp) (eyeMid Lp Rp) q =
  (tx + k * h, ty).
Proof.
  intros HD ->. unfold alignPoint. cbn [fst snd].
  destruct (on_eye_line tx ty k h HD
              (cos_neg_atan2 (eyeDy Lp Rp) (eyeDx Lp Rp))
              (sin_neg_atan2 (eyeDy Lp Rp) (eyeDx Lp Rp))
              (Fsqrt_sqr (sum_squares_nonneg _ _))) as [Hx Hy].
  fold (eyeAngle Lp Rp) in Hx, Hy.
  f_equal; [etransitivity; [|exact Hx] | etransitivity; [|exact Hy]]; ring.
Qed.

Lemma eyeMid_left :
  mean Lp = (fst (eyeMid Lp Rp) + - (1 / 2) * eyeDx Lp Rp,
             snd (eyeMid Lp Rp) + - (1 / 2) * eyeDy Lp Rp).
Proof.
  unfold eyeMid, eyeDx, eyeDy. destruct (mean Lp), (mean Rp). simpl. f_equal; field.
Qed.

Lemma eyeMid_right :
  mean Rp = (fst (eyeMid Lp Rp) + 1 / 2 * eyeDx Lp Rp,
             snd (eyeMid Lp Rp) + 1 / 2 * eyeDy Lp Rp).
Proof.
  unfold eyeMid, eyeDx, eyeDy. destruct (mean Lp), (mean Rp). simpl. f_equal; field.
Qed.

Lemma eyeMid_mid :
  eyeMid Lp Rp = (fst (eyeMid Lp Rp) + 0 * eyeDx Lp Rp,
                  snd (eyeMid Lp Rp) + 0 * eyeDy Lp Rp).
Proof. destruct (eyeMid Lp Rp). simpl. f_equal; ring. Qed.

Lemma eyeDist_nonneg : 0 <= eyeDist Lp Rp.
Proof. apply Fsqrt_nonneg, sum_squares_nonneg. Qed.

(** Level eyes, the right one to the right: the rotation is by no angle. *)
Lemma eyeAngle_level :
  eyeDy Lp Rp = 0 -> 0 < eyeDx Lp Rp ->
  Fcos (- eyeAngle Lp Rp) = 1 /\ Fsin (- eyeAngle Lp Rp) = 0.
Proof.
  intros Hdy Hdx.
  pose proof (cos_neg_atan2 (eyeDy Lp Rp) (eyeDx Lp Rp)) as Hc.
  pose proof (sin_neg_atan2 (eyeDy Lp Rp) (eyeDx Lp Rp)) as Hs.
  fold (eyeAngle Lp Rp) in Hc, Hs. rewrite Hdy in Hc, Hs.
  replace (eyeDx Lp Rp * eyeDx Lp Rp + 0 * 0) with (eyeDx Lp Rp * eyeDx Lp Rp)
    in Hc, Hs by ring.
  rewrite Fsqrt_square in Hc, Hs by lra. split; nra.
Qed.

Lemma eyeDist_nonzero : mean Lp <> mean Rp -> eyeDist Lp Rp <> 0.
Proof.
  intros Hne Hz. apply dist_zero_iff in Hz. destruct Hz as [Hx Hy].
  apply Hne. unfold eyeDx, eyeDy in *. destruct (mean Lp), (mean Rp).
  simpl in *. f_equal; lra.
Qed.

Lemma eyeDist_zero : mean Lp = mean Rp -> eyeDist Lp Rp = 0.
Proof.
  intros E. apply dist_zero_iff. unfold eyeDx, eyeDy. rewrite E. split; ring.
Qed.

Lemma eyeDist_pos : mean Lp <> mean Rp -> 0 < eyeDist Lp Rp.
Proof.
  intros H. pose proof eyeDist_nonneg. pose proof (eyeDist_nonzero H). lra.
Qed.


End Eyes.

(** The distance of two eyes of one point each. *)
Lemma eyeDist_single x y u v r :
  0 <= r -> r * r = (u - x) * (u - x) + (v - y) * (v - y) ->
  eyeDist [(x, y)] [(u, v)] = r.
Proof.
  intros Hr Hd. unfold eyeDist, eyeDx, eyeDy. rewrite !mean_single. simpl.
  apply Fsqrt_unique; lra.
Qed.

Lemma canvasW_pos cv : width cv <> 0%N -> 0 < canvasW cv.
Proof. intros H. apply IZR_lt. lia. Qed.

(** ** Where a frame is painted *)

(** The coordinates of a point with finite coordinates. *)
Definition pt_val (p : Point R) : R * R := (nval (px p), nval (py p)).

(** Where a paint operation puts a point of its source. *)
Definition paint_at (p : Paint R) (q : R * R) : R * R := paint_point p (fst q) (snd q).

Lemma pt_val_fpt q : pt_val (fpt q) = q.
Proof. now destruct q. Qed.

Lemma usable_pos img :
  usable img = true ->
  0 < IZR (Z.of_N (img_width img)) /\ 0 < IZR (Z.of_N (img_height img)).
Proof.
  unfold usable. rewrite andb_true_iff, !negb_true_iff, !N.eqb_neq.
  intros [Hw Hh]. split; apply IZR_lt; lia.
Qed.

(** An image drawn at its origin and at its own size is placed by the
    matrix alone. *)
Lemma paint_at_drawImage3 img m q :
  usable img = true ->
  paint_at (DrawImage img m 0 0 (IZR (Z.of_N (img_width img)))
              (IZR (Z.of_N (img_height img)))) q = mat_apply m q.
Proof.
  intros Hu. destruct (usable_pos img Hu) as [Hw Hh]. destruct q as [u v].
  unfold paint_at, paint_point. cbn [fst snd]. runfold. f_equal. f_equal; field; lra.
Qed.

Lemma renderFrame_at (st : State R) i item :
  nth_error (images st) i = Some item ->
  renderFrame (ofNat i) st =
  on_canvas (on_ctx (drawItem (canvas st) (zoom st) (alignEyes st) item)) st.
Proof. intros H. unfold renderFrame. now rewrite array_get_nat, H. Qed.

Lemma clear_ctm cv (c : Ctx R) : ctm (clear cv c) = ctm c.
Proof. apply painter_clear. Qed.

Lemma clear_painted cv (c : Ctx R) :
  width cv <> 0%N /\ height cv <> 0%N -> ctm c = mat_id ->
  painted (clear cv c) =
  FillRect "#000" mat_id 0 0 (canvasW cv) (canvasH cv) :: painted c.
Proof.
  intros [Hw Hh] Hc. unfold clear, andThen, fillRect, ofN, ofZ. cbn. runfold.
  assert (canvasW cv <> 0) by (apply not_0_IZR; lia).
  assert (canvasH cv <> 0) by (apply not_0_IZR; lia).
  unfold canvasW, canvasH in *. rewrite !Reqb_false by assumption.
  cbn. now rewrite Hc.
Qed.

Section AlignedFrame.
Variables (st : State R) (i : nat) (img : Image) (Lp Rp : list (R * R)) (z : R).
Hypothesis Hitem :
  nth_error (images st) i =
  Some {| original := img; detections := Some {| landmarks := flm Lp Rp |} |}.
Hypothesis Halign : alignEyes st = true.
Hypothesis Hzoom : zoom st = Fin z.
Hypothesis HL : Lp <> [].
Hypothesis HR : Rp <> [].
Hypothesis Heyes : mean Lp <> mean Rp.
Hypothesis Husable : usable img = true.
Hypothesis Hctm : ctm (ctx (canvas st)) = mat_id.

(** The frame is two paint operations: black over the whole canvas, then
    the image under the frame matrix. *)
Lemma renderFrame_aligned_painted :
  width (canvas st) <> 0%N /\ height (canvas st) <> 0%N ->
  painted (ctx (canvas (renderFrame (ofNat i) st))) =
  DrawImage img (frameMatrix Lp Rp (canvas st) z) 0 0
    (IZR (Z.of_N (img_width img))) (IZR (Z.of_N (img_height img))) ::
  FillRect "#000" mat_id 0 0 (canvasW (canvas st)) (canvasH (canvas st)) ::
  painted (ctx (canvas st)).
Proof.
  intros Hsize. rewrite (renderFrame_at _ _ Hitem), Halign, Hzoom.
  unfold on_canvas, on_ctx, drawItem, andThen.
  cbn [canvas ctx detections original landmarks].
  rewrite drawAligned_paints by auto using eyeDist_nonzero.
  cbn [paint painted]. rewrite clear_ctm, Hctm, mat_mul_id_l. f_equal.
  now apply clear_painted.
Qed.

Lemma renderFrame_aligned_top :
  top_paint (renderFrame (ofNat i) st) =
  Some (DrawImage img (frameMatrix Lp Rp (canvas st) z) 0 0
          (IZR (Z.of_N (img_width img))) (IZR (Z.of_N (img_height img)))).
Proof.
  rewrite (renderFrame_at _ _ Hitem), Halign, Hzoom.
  unfold top_paint, on_canvas, on_ctx, drawItem, andThen.
  cbn [canvas ctx detections original landmarks].
  rewrite drawAligned_paints by auto using eyeDist_nonzero.
  cbn [paint painted hd_error]. now rewrite clear_ctm, Hctm, mat_mul_id_l.
Qed.

Lemma renderFrame_aligned_at q :
  exists p, top_paint (renderFrame (ofNat i) st) = Some p /\
            paint_at p q =
            alignPoint (canvasW (canvas st) * (5 / 10)) (canvasH (canvas st) * (4 / 10))
              (canvasW (canvas st) * z / eyeDist Lp Rp) (eyeAngle Lp Rp)
              (eyeMid Lp Rp) q.
Proof.
  eexists. split; [apply renderFrame_aligned_top|].
  rewrite paint_at_drawImage3 by assumption. apply alignMatrix_apply.
Qed.


(** The target of the eyes, as [renderFrame] computes it, is a pair of
    finite numbers. *)
Lemma target_fin :
  (nval (targetX (canvas st)), nval (targetY (canvas st))) =
  (canvasW (canvas st) * (5 / 10), canvasH (canvas st) * (4 / 10)).
Proof. now rewrite targetX_fin, targetY_fin. Qed.

Lemma renderFrame_eye_mid :
  exists p, top_paint (renderFrame (ofNat i) st) = Some p /\
            paint_at p (eyeMid Lp Rp) =
            (canvasW (canvas st) * (5 / 10), canvasH (canvas st) * (4 / 10)).
Proof.
  destruct (renderFrame_aligned_at (eyeMid Lp Rp)) as (p & Hp & Hq).
  exists p. split; [exact Hp|]. rewrite Hq.
  rewrite (alignPoint_eye_line _ _ _ (eyeDist_nonzero Heyes) (eyeMid_mid Lp Rp)).
  f_equal. ring.
Qed.

(** C2: the midpoint of the eyes is painted at 50% of the width and 40% of
    the height of the canvas. *)
Theorem renderFrame_centers_eyes :
  exists p, top_paint (renderFrame (ofNat i) st) = Some p /\
            paint_at p (pt_val (eyesCenter (flm Lp Rp))) =
            (nval (targetX (canvas st)), nval (targetY (canvas st))).
Proof.
  rewrite eyesCenter_fin, pt_val_fpt, target_fin by assumption.
  apply renderFrame_eye_mid.
Qed.

(** A paint operation shows the two eyes of [lm] where the frame wants
    them: on the horizontal line through the target, half the desired
    distance before it and half the desired distance after it. *)
Definition eyes_on_target (cv : Canvas R) (zoom : num R) (lm : Landmarks R)
    (p : Paint R) : Prop :=
  paint_at p (pt_val (leftEyeCenter lm)) =
  (nval (targetX cv) - nval (desiredEyesDist cv zoom) / 2, nval (targetY cv)) /\
  paint_at p (pt_val (rightEyeCenter lm)) =
  (nval (targetX cv) + nval (desiredEyesDist cv zoom) / 2, nval (targetY cv)).

Lemma renderFrame_eyes_on_target :
  exists p, top_paint (renderFrame (ofNat i) st) = Some p /\
            eyes_on_target (canvas st) (zoom st) (flm Lp Rp) p.
Proof.
  destruct (renderFrame_aligned_at (mean Lp)) as (p & Hp & Hl).
  destruct (renderFrame_aligned_at (mean Rp)) as (p' & Hp' & Hr).
  rewrite Hp in Hp'. injection Hp' as <-.
  exists p. split; [exact Hp|]. unfold eyes_on_target.
  rewrite leftEyeCenter_fin, rightEyeCenter_fin, !pt_val_fpt, Hl, Hr by assumption.
  rewrite (alignPoint_eye_line _ _ _ (eyeDist_nonzero Heyes) (eyeMid_left Lp Rp)).
  rewrite (alignPoint_eye_line _ _ _ (eyeDist_nonzero Heyes) (eyeMid_right Lp Rp)).
  rewrite Hzoom, targetX_fin, targetY_fin, desiredEyesDist_fin. cbn [nval].
  split; f_equal; field.
Qed.

(** C3: the centres of the two eyes are painted on one horizontal line, the
    left one half the desired distance before the target, the right one
    half the desired distance after it. *)
Theorem renderFrame_levels_eyes :
  exists p, top_paint (renderFrame (ofNat i) st) = Some p /\
    paint_at p (pt_val (leftEyeCenter (flm Lp Rp))) =
    (nval (targetX (canvas st)) - nval (desiredEyesDist (canvas st) (zoom st)) / 2,
     nval (targetY (canvas st))) /\
    paint_at p (pt_val (rightEyeCenter (flm Lp Rp))) =
    (nval (targetX (canvas st)) + nval (desiredEyesDist (canvas st) (zoom st)) / 2,
     nval (targetY (canvas st))).
Proof. exact renderFrame_eyes_on_target. Qed.


(** The square of the distance of two points. *)
Definition sqdist (p q : R * R) : R :=
  (fst p - fst q) * (fst p - fst q) + (snd p - snd q) * (snd p - snd q).

(** C18: the frame is painted under a similarity: all distances of the image
    are multiplied by the scale, so the face is neither sheared nor
    stretched. *)
Theorem renderFrame_similarity q1 q2 :
  exists p s, top_paint (renderFrame (ofNat i) st) = Some p /\
    eyesScale (canvas st) (zoom st) (flm Lp Rp) = Fin s /\
    sqdist (paint_at p q1) (paint_at p q2) = s * s * sqdist q1 q2.
Proof.
  destruct (renderFrame_aligned_at q1) as (p & Hp & H1).
  destruct (renderFrame_aligned_at q2) as (p' & Hp' & H2).
  rewrite Hp in Hp'. injection Hp' as <-.
  exists p, (canvasW (canvas st) * z / eyeDist Lp Rp).
  split; [exact Hp|]. split.
  - rewrite Hzoom. apply eyesScale_fin; auto using eyeDist_nonzero.
  - rewrite H1, H2. unfold sqdist, alignPoint. cbn [fst snd].
    pose proof (Fcos_sin_unit (- eyeAngle Lp Rp)) as Hu.
    set (c := Fcos _) in *. set (sn := Fsin _) in *.
    set (s := canvasW _ * z / _).
    replace (s * s * _) with
      (s * s * (c * c + sn * sn) *
       ((fst q1 - fst q2) * (fst q1 - fst q2) + (snd q1 - snd q2) * (snd q1 - snd q2)))
      by (rewrite Hu; ring).
    ring.
Qed.

(** When the eyes are level already the frame is only scaled and moved:
    no rotation. *)
Theorem renderFrame_level_eyes_unrotated q :
  dy (flm Lp Rp) = Fin 0 -> nltb (Fin 0) (dx (flm Lp Rp)) = true ->
  exists p s, top_paint (renderFrame (ofNat i) st) = Some p /\
    eyesScale (canvas st) (zoom st) (flm Lp Rp) = Fin s /\
    paint_at p q =
    (nval (targetX (canvas st)) + s * (fst q - nval (px (eyesCenter (flm Lp Rp)))),
     nval (targetY (canvas st)) + s * (snd q - nval (py (eyesCenter (flm Lp Rp))))).
Proof.
  rewrite dx_fin, dy_fin by assumption. intros [= Hdy] Hdx.
  apply Rltb_true_iff in Hdx.
  destruct (renderFrame_aligned_at q) as (p & Hp & Hq).
  exists p, (canvasW (canvas st) * z / eyeDist Lp Rp).
  split; [exact Hp|]. split.
  - rewrite Hzoom. apply eyesScale_fin; auto using eyeDist_nonzero.
  - rewrite Hq, eyesCenter_fin, targetX_fin, targetY_fin by assumption.
    unfold alignPoint. cbn [fst snd nval px py fpt].
    destruct (eyeAngle_level Hdy Hdx) as [Hc1 Hs0].
    rewrite Hc1, Hs0. f_equal; ring.
Qed.

End AlignedFrame.

(** ** The frame that is not aligned *)

Lemma fitScale_fin cv img :
  usable img = true ->
  fitScale cv img = Fin (Rmin (canvasW cv / imgW img) (canvasH cv / imgH img)).
Proof.
  intros Hu. destruct (usable_pos img Hu) as [Hw Hh].
  unfold fitScale, ofN, ofZ. rewrite !ndiv_fin by (runfold; lra).
  apply Math_min_fin.
Qed.

(** The scale of the letterbox: the image scaled by it fits the canvas, and
    fills it in one direction. *)
Lemma Rmin_fit W H w h :
  0 <= W -> 0 <= H -> 0 < w -> 0 < h ->
  let s := Rmin (W / w) (H / h) in
  0 <= s /\ w * s <= W /\ h * s <= H /\ (w * s = W \/ h * s = H).
Proof.
  intros HW HH Hw Hh s.
  assert (Ha : w * (W / w) = W) by (field; lra).
  assert (Hb : h * (H / h) = H) by (field; lra).
  assert (0 <= W / w) by (apply Rmult_le_pos; [lra | left; now apply Rinv_0_lt_compat]).
  assert (0 <= H / h) by (apply Rmult_le_pos; [lra | left; now apply Rinv_0_lt_compat]).
  subst s. unfold Rmin. destruct (Rle_dec (W / w) (H / h)); repeat split; nra.
Qed.

(** The real number that [fitScale] computes. *)
Definition fitS cv (img : Image) : R :=
  Rmin (canvasW cv / imgW img) (canvasH cv / imgH img).

Lemma fitS_fit cv img :
  usable img = true ->
  0 <= fitS cv img /\ imgW img * fitS cv img <= canvasW cv /\
  imgH img * fitS cv img <= canvasH cv /\
  (imgW img * fitS cv img = canvasW cv \/ imgH img * fitS cv img = canvasH cv).
Proof.
  intros Hu. destruct (usable_pos img Hu) as [Hw Hh].
  apply Rmin_fit; auto using canvasW_nonneg, canvasH_nonneg.
Qed.

(** A destination rectangle under the identity matrix: the pixel [(u, v)]
    of the image goes to the corner plus [k] times [(u, v)]. *)
Lemma paint_point_scaled img x y k u v :
  usable img = true ->
  paint_point (DrawImage img mat_id x y (imgW img * k) (imgH img * k)) u v =
  (x + k * u, y + k * v).
Proof.
  intros Hu. destruct (usable_pos img Hu) as [Hw Hh].
  cbn [paint_point]. rewrite mat_apply_id. runfold.
  fold (imgW img) (imgH img) in *. f_equal; field; lra.
Qed.

Section CenteredFrame.
Variables (st : State R) (i : nat) (item : Item R).
Hypothesis Hitem : nth_error (images st) i = Some item.
Hypothesis Hcase : alignEyes st = false \/ detections item = None.
Hypothesis Husable : usable (original item) = true.
Hypothesis Hctm : ctm (ctx (canvas st)) = mat_id.

Lemma drawItem_centered (c : Ctx R) :
  drawItem (canvas st) (zoom st) (alignEyes st) item c =
  drawCentered (canvas st) (original item) (clear (canvas st) c).
Proof.
  unfold drawItem, andThen.
  destruct Hcase as [-> | ->]; [reflexivity | now destruct (alignEyes st)].
Qed.

Lemma renderFrame_centered_top :
  let img := original item in
  let s := fitS (canvas st) img in
  top_paint (renderFrame (ofNat i) st) =
  Some (DrawImage img mat_id
          ((canvasW (canvas st) - imgW img * s) / 2)
          ((canvasH (canvas st) - imgH img * s) / 2)
          (imgW img * s) (imgH img * s)).
Proof.
  intros img s. rewrite (renderFrame_at _ _ Hitem).
  unfold top_paint, on_canvas, on_ctx. cbn [canvas ctx].
  rewrite drawItem_centered. unfold drawCentered, drawImage5, fitX, fitY.
  rewrite (fitScale_fin (canvas st) _ Husable).
  unfold ofN, ofZ. cbn [nmul nsub]. rewrite !ndiv_fin by (runfold; lra).
  rewrite Husable. cbn [paint painted hd_error]. now rewrite clear_ctm, Hctm.
Qed.

(** The frame is two paint operations: black over the whole canvas, then
    the image in its letterbox. *)
Lemma renderFrame_centered_painted :
  width (canvas st) <> 0%N /\ height (canvas st) <> 0%N ->
  let img := original item in
  let s := fitS (canvas st) img in
  painted (ctx (canvas (renderFrame (ofNat i) st))) =
  DrawImage img mat_id
    ((canvasW (canvas st) - imgW img * s) / 2)
    ((canvasH (canvas st) - imgH img * s) / 2)
    (imgW img * s) (imgH img * s) ::
  FillRect "#000" mat_id 0 0 (canvasW (canvas st)) (canvasH (canvas st)) ::
  painted (ctx (canvas st)).
Proof.
  intros Hsize img s. rewrite (renderFrame_at _ _ Hitem).
  unfold on_canvas, on_ctx. cbn [canvas ctx].
  rewrite drawItem_centered. unfold drawCentered, drawImage5, fitX, fitY.
  rewrite (fitScale_fin (canvas st) _ Husable).
  unfold ofN, ofZ. cbn [nmul nsub]. rewrite !ndiv_fin by (runfold; lra).
  rewrite Husable. cbn [paint painted]. rewrite clear_ctm, Hctm. f_equal.
  now apply clear_painted.
Qed.

(** C26: every pixel of a frame that is not aligned is painted inside the
    canvas. *)
Theorem renderFrame_letterbox_inside u v :
  0 <= u <= imgW (original item) -> 0 <= v <= imgH (original item) ->
  exists p, top_paint (renderFrame (ofNat i) st) = Some p /\
    0 <= fst (paint_point p u v) <= canvasW (canvas st) /\
    0 <= snd (paint_point p u v) <= canvasH (canvas st).
Proof.
  intros Hu Hv. eexists. split; [apply renderFrame_centered_top|].
  rewrite paint_point_scaled by assumption. cbn [fst snd].
  destruct (fitS_fit (canvas st) _ Husable) as (H0 & H1 & H2 & _).
  split; split; nra.
Qed.

(** The frame that is not aligned is centred on the canvas, keeps the
    proportions of the image, and fills the canvas in width or in height. *)
Theorem renderFrame_letterbox_fit :
  exists p k, top_paint (renderFrame (ofNat i) st) = Some p /\
    fitScale (canvas st) (original item) = Fin k /\
    paint_point p (imgW (original item) / 2) (imgH (original item) / 2) =
    (canvasW (canvas st) / 2, canvasH (canvas st) / 2) /\
    (forall u v, paint_point p u v =
       (fst (paint_point p 0 0) + k * u, snd (paint_point p 0 0) + k * v)) /\
    (imgW (original item) * k = canvasW (canvas st) \/
     imgH (original item) * k = canvasH (canvas st)).
Proof.
  eexists. exists (fitS (canvas st) (original item)).
  split; [apply renderFrame_centered_top|].
  split; [now apply fitScale_fin|].
  destruct (fitS_fit (canvas st) _ Husable) as (_ & _ & _ & H3).
  repeat split; [| intros u v | exact H3];
    rewrite !paint_point_scaled by assumption; cbn [fst snd]; f_equal; field.
Qed.

End CenteredFrame.

(** ** The frame whose eyes coincide *)

(** A quotient by zero is never finite. *)
Lemma ndiv_zero_not_finite x : finite (ndiv (Fin x) (Fin 0)) = false.
Proof.
  simpl. runfold. rewrite Reqb_refl. now destruct (Rltb 0 x), (Rltb x 0).
Qed.

Lemma mat_rotate_zero : mat_rotate (- 0) = mat_id.
Proof.
  unfold mat_rotate, mat_id. runfold.
  rewrite Fcos_opp, Fsin_opp, Fcos_zero, Fsin_zero. f_equal; ring.
Qed.

Section CoincidentEyes.
Variables (st : State R) (i : nat) (img : Image) (Lp Rp : list (R * R)) (z : R).
Hypothesis Hitem :
  nth_error (images st) i =
  Some {| original := img; detections := Some {| landmarks := flm Lp Rp |} |}.
Hypothesis Halign : alignEyes st = true.
Hypothesis Hzoom : zoom st = Fin z.
Hypothesis HL : Lp <> [].
Hypothesis HR : Rp <> [].
Hypothesis Hsame : mean Lp = mean Rp.
Hypothesis Husable : usable img = true.
Hypothesis Hctm : ctm (ctx (canvas st)) = mat_id.

Lemma eyesScale_coincident : finite (eyesScale (canvas st) (zoom st) (flm Lp Rp)) = false.
Proof.
  unfold eyesScale. rewrite Hzoom, currentEyesDist_fin, desiredEyesDist_fin by assumption.
  rewrite eyeDist_zero by assumption. apply ndiv_zero_not_finite.
Qed.

Lemma angle_coincident : angle (flm Lp Rp) = Fin 0.
Proof.
  rewrite angle_fin by assumption. unfold eyeAngle, eyeDx, eyeDy. rewrite Hsame.
  rewrite !Rminus_diag. f_equal. apply Fatan2_origin.
Qed.

(** C31: when the two eye centres coincide the scale is a quotient by zero,
    [ctx.scale] ignores it, and the image is painted at its own size, not
    rotated, its eye point on the target: neither scaled to the zoom nor
    letterboxed. *)
Theorem renderFrame_coincident_eyes q :
  exists p, top_paint (renderFrame (ofNat i) st) = Some p /\
    finite (eyesScale (canvas st) (zoom st) (flm Lp Rp)) = false /\
    paint_at p q =
    (nval (targetX (canvas st)) + (fst q - nval (px (eyesCenter (flm Lp Rp)))),
     nval (targetY (canvas st)) + (snd q - nval (py (eyesCenter (flm Lp Rp))))).
Proof.
  pose proof eyesScale_coincident as Hs.
  rewrite (renderFrame_at _ _ Hitem), Halign.
  unfold top_paint, on_canvas, on_ctx, drawItem, drawAligned.
  cbn [canvas ctx detections original landmarks].
  rewrite scale_skip, angle_coincident, eyesCenter_fin, targetX_fin, targetY_fin
    by assumption.
  unfold andThen, skip, drawImage3, drawImage5, restore. cbn [nneg fpt px py ofZ ofN].
  rewrite Husable. cbn -[clear mat_mul mat_translate mat_rotate mat_apply eyeMid].
  rewrite clear_ctm, Hctm, mat_rotate_zero.
  eexists. split; [reflexivity|]. split; [exact Hs|].
  rewrite paint_at_drawImage3 by assumption. rewrite !mat_mul_id_l, mat_mul_id_r.
  rewrite mat_apply_mul, !mat_apply_translate. destruct q. cbn [fst snd].
  f_equal; ring.
Qed.

End CoincidentEyes.

End RealRender.

(** ** Scenarios

    The frames of the scenarios of the specification, on which the theorems
    above are applied: two faces with level eyes 200 pixels apart on a
    square canvas, a frame with no detection on a canvas twice as wide as
    high, and a frame whose two eyes coincide. *)

Section Scenarios.
Local Open Scope R_scope.

Definition imgA : Image := {| img_id := 0; img_width := 1000; img_height := 1000 |}.
Definition lmA1 : Landmarks R := flm [(400, 500)] [(600, 500)].
Definition lmA2 : Landmarks R := flm [(300, 500)] [(500, 500)].
Definition itemA (lm : Landmarks R) : Item R :=
  {| original := imgA; detections := Some {| landmarks := lm |} |}.
Definition canvasA : Canvas R := {| width := 1000; height := 1000; ctx := ctx_init |}.
Definition stateA : State R := set_images [itemA lmA1; itemA lmA2] (state_init canvasA).

Lemma eyesA1 : mean [(400, 500)] <> mean [(600, 500)].
Proof. rewrite !mean_single. intros [= H]. lra. Qed.

Lemma renderFrame_centers_eyes_witness :
  exists p, top_paint (renderFrame (ofNat 0) stateA) = Some p /\
            paint_at p (pt_val (eyesCenter lmA1)) =
            (nval (targetX (canvas stateA)), nval (targetY (canvas stateA))).
Proof.
  apply (renderFrame_centers_eyes (L := StdMathLaws) stateA 0 (img := imgA) (z := 25 / 100));
    [reflexivity | reflexivity | reflexivity | discriminate | discriminate
    | exact eyesA1 | reflexivity | reflexivity].
Defined.

Lemma eyesA1_dx : dx lmA1 = Fin 200.
Proof.
  unfold lmA1. rewrite dx_fin by discriminate. unfold eyeDx.
  rewrite !mean_single. f_equal. simpl. lra.
Qed.

Lemma eyesA1_dy : dy lmA1 = Fin 0.
Proof.
  unfold lmA1. rewrite dy_fin by discriminate. unfold eyeDy.
  rewrite !mean_single. f_equal. simpl. lra.
Qed.

(** Scenario A of the specification: both frames are scaled by 1.25. *)
Example scenario_A_scale :
  eyesScale canvasA (zoom stateA) lmA1 = Fin (5 / 4) /\
  eyesScale canvasA (zoom stateA) lmA2 = Fin (5 / 4).
Proof.
  assert (H1 : eyeDist [(400, 500)] [(600, 500)] = 200) by (apply eyeDist_single; lra).
  assert (H2 : eyeDist [(300, 500)] [(500, 500)] = 200) by (apply eyeDist_single; lra).
  change (zoom stateA) with (@Fin R (25 / 100)). unfold lmA1, lmA2.
  rewrite !eyesScale_fin by (try discriminate; rewrite ?H1, ?H2; lra).
  rewrite H1, H2. unfold canvasW. simpl. split; f_equal; lra.
Qed.

Lemma renderFrame_levels_eyes_witness :
  exists p, top_paint (renderFrame (ofNat 0) stateA) = Some p /\
    paint_at p (pt_val (leftEyeCenter lmA1)) =
    (nval (targetX (canvas stateA)) - nval (desiredEyesDist (canvas stateA) (zoom stateA)) / 2,
     nval (targetY (canvas stateA))) /\
    paint_at p (pt_val (rightEyeCenter lmA1)) =
    (nval (targetX (canvas stateA)) + nval (desiredEyesDist (canvas stateA) (zoom stateA)) / 2,
     nval (targetY (canvas stateA))).
Proof.
  apply (renderFrame_levels_eyes (L := StdMathLaws) stateA 0 (img := imgA) (z := 25 / 100));
    [reflexivity | reflexivity | reflexivity | discriminate | discriminate
    | exact eyesA1 | reflexivity | reflexivity].
Defined.

Lemma renderFrame_similarity_witness :
  exists p s, top_paint (renderFrame (ofNat 0) stateA) = Some p /\
    eyesScale (canvas stateA) (zoom stateA) lmA1 = Fin s /\
    sqdist (paint_at p (0, 0)) (paint_at p (1000, 1000)) = s * s * sqdist (0, 0) (1000, 1000).
Proof.
  apply (renderFrame_similarity (L := StdMathLaws) stateA 0 (img := imgA) (z := 25 / 100));
    [reflexivity | reflexivity | reflexivity | discriminate | discriminate
    | exact eyesA1 | reflexivity | reflexivity].
Defined.

Lemma renderFrame_level_eyes_unrotated_witness :
  exists p s, top_paint (renderFrame (ofNat 0) stateA) = Some p /\
    eyesScale (canvas stateA) (zoom stateA) lmA1 = Fin s /\
    paint_at p (1000, 1000) =
    (nval (targetX (canvas stateA)) + s * (1000 - nval (px (eyesCenter lmA1))),
     nval (targetY (canvas stateA)) + s * (1000 - nval (py (eyesCenter lmA1)))).
Proof.
  apply (renderFrame_level_eyes_unrotated (L := StdMathLaws) stateA 0 (img := imgA)
           (z := 25 / 100) (Lp := [(400, 500)]) (Rp := [(600, 500)]));
    [reflexivity | reflexivity | reflexivity | discriminate | discriminate
    | exact eyesA1 | reflexivity | reflexivity | exact eyesA1_dy
    | fold lmA1; rewrite eyesA1_dx; apply Rltb_true; lra].
Defined.

(** A frame with no detection, wider than the canvas is high. *)
Definition imgB : Image := {| img_id := 1; img_width := 1000; img_height := 1000 |}.
Definition itemB : Item R := {| original := imgB; detections := None |}.
Definition canvasB : Canvas R := {| width := 1000; height := 500; ctx := ctx_init |}.
Definition stateB : State R := set_images [itemB] (state_init canvasB).

Lemma renderFrame_letterbox_inside_witness :
  exists p, top_paint (renderFrame (ofNat 0) stateB) = Some p /\
    0 <= fst (paint_point p 1000 1000) <= canvasW (canvas stateB) /\
    0 <= snd (paint_point p 1000 1000) <= canvasH (canvas stateB).
Proof.
  apply (renderFrame_letterbox_inside stateB 0 (item := itemB));
    [reflexivity | now right | reflexivity | reflexivity
    | unfold imgW; simpl; lra | unfold imgH; simpl; lra].
Defined.

Lemma renderFrame_letterbox_fit_witness :
  exists p k, top_paint (renderFrame (ofNat 0) stateB) = Some p /\
    fitScale (canvas stateB) (original itemB) = Fin k /\
    paint_point p (imgW (original itemB) / 2) (imgH (original itemB) / 2) =
    (canvasW (canvas stateB) / 2, canvasH (canvas stateB) / 2) /\
    (forall u v, paint_point p u v =
       (fst (paint_point p 0 0) + k * u, snd (paint_point p 0 0) + k * v)) /\
    (imgW (original itemB) * k = canvasW (canvas stateB) \/
     imgH (original itemB) * k = canvasH (canvas stateB)).
Proof.
  apply (renderFrame_letterbox_fit stateB 0 (item := itemB));
    [reflexivity | now right | reflexivity | reflexivity].
Defined.

Lemma renderFrame_no_item_witness : renderFrame (ofNat 2) stateA = stateA.
Proof.
  apply renderFrame_no_item. rewrite nindex_ofNat. simpl. lia.
Defined.

(** A frame whose two eyes were detected at the same point. *)
Definition lmC : Landmarks R := flm [(500, 500)] [(500, 500)].
Definition stateC : State R := set_images [itemA lmC] (state_init canvasA).

Lemma renderFrame_coincident_eyes_witness :
  exists p, top_paint (renderFrame (ofNat 0) stateC) = Some p /\
    finite (eyesScale (canvas stateC) (zoom stateC) lmC) = false /\
    paint_at p (0, 0) =
    (nval (targetX (canvas stateC)) + (0 - nval (px (eyesCenter lmC))),
     nval (targetY (canvas stateC)) + (0 - nval (py (eyesCenter lmC)))).
Proof.
  apply (renderFrame_coincident_eyes (L := StdMathLaws) stateC 0 (img := imgA)
           (z := 25 / 100) (Lp := [(500, 500)]) (Rp := [(500, 500)]))
    with (q := (0, 0));
    [reflexivity | reflexivity | reflexivity | discriminate | discriminate
    | reflexivity | reflexivity | reflexivity].
Defined.

(** A page, as the editor shows it, around each of the states. *)
Definition pageA : Elements R :=
  {| uploadSection_hidden := true; editorSection_hidden := false;
     dropZone_dragOver := false;
     fileInput_value := EmptyString; loadingOverlay_hidden := true;
     loadingText := EmptyString; progressBarContainer_hidden := true;
     progressBar_width := Fin 0; speedValue := Fin 10; zoomRange_value := Fin 25;
     alignEyesBtn_active := true; noAlignBtn_active := false |}.

Definition worldA : World R := {| state := stateA; elements := pageA |}.

Definition worldB : World R := {| state := stateB; elements := pageA |}.

Definition worldC : World R := {| state := stateC; elements := pageA |}.

End Scenarios.
