(* ===== verification/AutoFit.v ===== *)
(** * AutoFit: the zoom at which no frame leaves the canvas

    [autoFitZoom] of script.js: for every frame with a detection, the largest
    scale at which the four corners of the image stay inside the canvas under
    the transform of [renderFrame]; the smallest of the zooms these scales
    amount to; the margin, the rounding to the step of the slider and the
    clamp to its range; the writes to the state and to the slider, and the
    repaint.

    The theorems characterise the bound of a frame as the greatest scale that
    keeps the four corners inside, lift this to the whole list, and tie the
    zoom [autoFitZoom] stores to what [renderFrame] then paints. *)

From Stdlib Require Import ZArith QArith Reals Zfloor Lra Lia Bool List String.
From S2P Require Import Prelude.
From S2P Require Import Carrier.
From S2P Require Import JsNumber.
From S2P Require Import MathLib.
From S2P Require Import Canvas.
From S2P Require Import Geometry.
From S2P Require Import AppState.
From S2P Require Import Render.
Import ListNotations.

Set Implicit Arguments.

Section AutoFit.
Context {F : Type} {C : Carrier F} {M : MathOps F}.
Local Open Scope num_scope.

(** The array [corners] of an image. *)
Definition corners (img : Image) : list (Point F) :=
  [ {| px := 0; py := 0 |};
    {| px := ofN (img_width img); py := 0 |};
    {| px := ofN (img_width img); py := ofN (img_height img) |};
    {| px := 0; py := ofN (img_height img) |} ].

(** The two [if ... else if] of one axis: a corner at [rot] along the axis
    lands on [scale * rot + target], which stays within [0, extent] up to
    the bound the branch takes the minimum with. *)
Definition boundAxis (extent target rot : num F) : act (num F) :=
  fun maxScaleForThisImage =>
    if rot >? 0 then Math_min maxScaleForThisImage ((extent - target) / rot)
    else if rot <? 0 then Math_min maxScaleForThisImage (- target / rot)
    else maxScaleForThisImage.

(** The callback of [corners.forEach]. *)
Definition boundCorner (cv : Canvas F) (eyesCenter : Point F) (cos sin : num F)
    (p : Point F) : act (num F) :=
  let relX := px p - px eyesCenter in
  let relY := py p - py eyesCenter in
  let rotX := relX * cos - relY * sin in
  let rotY := relX * sin + relY * cos in
  (boundAxis (ofN (width cv)) (targetX cv) rotX ;;
   boundAxis (ofN (height cv)) (targetY cv) rotY)%act.

(** [maxScaleForThisImage] once the corners have been visited. *)
Definition maxScaleForThisImage (cv : Canvas F) (img : Image)
    (lm : Landmarks F) : num F :=
  forEach (corners img)
    (boundCorner cv (eyesCenter lm) (Math_cos (- angle lm)) (Math_sin (- angle lm)))
    Infinity.

Definition safeZoom (cv : Canvas F) (img : Image) (lm : Landmarks F) : num F :=
  maxScaleForThisImage cv img lm * currentEyesDist lm / ofN (width cv).

(** The callback of [state.images.forEach]: a frame with no detection
    returns at once. *)
Definition fitItem (cv : Canvas F) (item : Item F) : act (num F) :=
  fun minSafeZoom =>
    match detections item with
    | None => minSafeZoom
    | Some d => Math_min minSafeZoom (safeZoom cv (original item) (landmarks d))
    end.

(** [minSafeZoom] once the frames have been visited. *)
Definition minSafeZoom (cv : Canvas F) (items : list (Item F)) : num F :=
  forEach items (fitItem cv) 1.

Definition finalZoom (minSafeZoom : num F) : num F :=
  Math_floor (minSafeZoom * dec 95 100 * ofZ 100) / ofZ 100.

Definition clampedZoom (finalZoom : num F) : num F :=
  Math_max (dec 1 10) (Math_min 1 finalZoom).

(** The zoom the function stores. *)
Definition fittedZoom (st : State F) : num F :=
  clampedZoom (finalZoom (minSafeZoom (canvas st) (images st))).

Definition autoFitZoom : act (World F) := fun w =>
  if (List.length (images (state w)) =? 0)%nat then w
  else
    (showLoading1 "Calculating optimal zoom..." ;;
     (fun w =>
        let z := fittedZoom (state w) in
        (on_state (set_zoom z) ;;
         on_elements (set_zoomRange_value (Math_round (z * ofZ 100))))%act w) ;;
     hideLoading ;;
     (fun w =>
        if isPlaying (state w) then w
        else on_state (renderFrame (currentFrame (state w))) w))%act w.

End AutoFit.

(** ** What a run of the function does to the state *)

Section Run.
Context {F : Type} {C : Carrier F} {M : MathOps F}.

Ltac autofit_run :=
  unfold andThen, showLoading1, showLoading, hideLoading, on_state, on_elements, when;
  cbn [state elements set_zoom isPlaying currentFrame set_loading set_progress
       set_zoomRange_value loadingOverlay_hidden zoomRange_value negb].

(** With no frame the function returns at once: nothing is written. *)
Lemma autoFitZoom_empty (w : World F) : images (state w) = [] -> autoFitZoom w = w.
Proof. intros H. unfold autoFitZoom. now rewrite H. Qed.

(** Otherwise the state gets the fitted zoom and, unless the player runs,
    the current frame is painted again. *)
Lemma autoFitZoom_state (w : World F) :
  images (state w) <> [] ->
  state (autoFitZoom w) =
  when (negb (isPlaying (state w))) (renderFrame (currentFrame (state w)))
    (set_zoom (fittedZoom (state w)) (state w)).
Proof.
  intros H. unfold autoFitZoom. destruct (images (state w)) eqn:E; [contradiction|].
  autofit_run. now destruct (isPlaying (state w)).
Qed.

(** The overlay is hidden again and the slider shows the zoom in
    hundredths. *)
Lemma autoFitZoom_elements (w : World F) :
  images (state w) <> [] ->
  let e := elements (autoFitZoom w) in
  loadingOverlay_hidden e = true /\
  zoomRange_value e = Math_round (nmul (fittedZoom (state w)) (ofZ 100)).
Proof.
  intros H. unfold autoFitZoom. destruct (images (state w)) eqn:E; [contradiction|].
  autofit_run. now destruct (isPlaying (state w)).
Qed.

(** What [autoFitZoom] leaves as it was, and the zoom it stores. *)
Lemma autoFitZoom_frame (w : World F) :
  images (state w) <> [] ->
  let st := state w in
  let st' := state (autoFitZoom w) in
  images st' = images st /\ zoom st' = fittedZoom st /\
  alignEyes st' = alignEyes st /\
  width (canvas st') = width (canvas st) /\ height (canvas st') = height (canvas st) /\
  ctm (ctx (canvas st')) = ctm (ctx (canvas st)).
Proof.
  intros H st st'. subst st'. rewrite autoFitZoom_state by assumption. fold st.
  destruct (isPlaying st); cbn [negb]; rewrite ?when_true, ?when_false.
  - unfold skip. cbn. tauto.
  - pose proof (renderFrame_frame (currentFrame st) (set_zoom (fittedZoom st) st)) as Hf.
    pose proof (renderFrame_context (currentFrame st) (set_zoom (fittedZoom st) st)) as Hc.
    cbn zeta in Hf, Hc. cbn [set_zoom images zoom alignEyes canvas] in Hf, Hc. intuition.
Qed.

End Run.

Section RealAutoFit.
Context {M : MathOps R} {L : MathLaws M}.
Local Open Scope R_scope.
Implicit Types cv : Canvas R.
Implicit Types E T r s t m k : R.

Definition inside cv (q : R * R) : Prop :=
  0 <= fst q <= canvasW cv /\ 0 <= snd q <= canvasH cv.

Lemma boundAxis_glb E T r s (m : num R) :
  0 <= T <= E -> 0 <= s ->
  nle (Fin s) (boundAxis (Fin E) (Fin T) (Fin r) m) <->
  nle (Fin s) m /\ 0 <= T + s * r <= E.
Proof.
  intros HT Hs. unfold boundAxis, ngtb. change (ofZ 0) with (@Fin R 0).
  rewrite !nltb_fin. cbn [nsub nneg]. runfold.
  destruct (Rltb_spec 0 r) as [Hr|Hr]; [|destruct (Rltb_spec r 0) as [Hr'|Hr']].
  - rewrite ndiv_fin, Math_min_glb, nle_fin, Rle_div_iff by lra.
    assert (0 <= s * r) by nra. intuition lra.
  - rewrite ndiv_fin, Math_min_glb, nle_fin by lra.
    replace (- T / r) with (T / - r) by (field; lra).
    rewrite Rle_div_iff by lra. assert (s * r <= 0) by nra. intuition lra.
  - assert (r = 0) by lra. subst r. rewrite Rmult_0_r, Rplus_0_r. intuition lra.
Qed.

Lemma boundCorner_glb cv (e p : R * R) c sn s (m : num R) :
  0 <= s ->
  nle (Fin s) (boundCorner cv (fpt e) (Fin c) (Fin sn) (fpt p) m) <->
  nle (Fin s) m /\
  inside cv (canvasW cv * (5 / 10) + s * ((fst p - fst e) * c - (snd p - snd e) * sn),
             canvasH cv * (4 / 10) + s * ((fst p - fst e) * sn + (snd p - snd e) * c)).
Proof.
  intros Hs. unfold boundCorner, inside. rewrite andThen_apply, targetX_fin, targetY_fin.
  pose proof (canvasW_nonneg cv). pose proof (canvasH_nonneg cv).
  cbn [fpt px py nsub nmul nadd fst snd]. runfold.
  change (ofN (width cv)) with (Fin (canvasW cv)).
  change (ofN (height cv)) with (Fin (canvasH cv)).
  rewrite !boundAxis_glb by lra. tauto.
Qed.

(** The corners of an image, as pairs of reals. *)
Definition cornersR (img : Image) : list (R * R) :=
  [(0, 0); (imgW img, 0); (imgW img, imgH img); (0, imgH img)].

Lemma corners_fin img : corners img = map fpt (cornersR img).
Proof. reflexivity. Qed.

(** Where [renderFrame] puts a point of the image of a frame, at a scale. *)
Definition place cv Lp Rp s (p : R * R) : R * R :=
  alignPoint (canvasW cv * (5 / 10)) (canvasH cv * (4 / 10)) s
    (eyeAngle Lp Rp) (eyeMid Lp Rp) p.

(** At scale [s] the four corners of the image are inside the canvas. *)
Definition fits cv Lp Rp img s : Prop :=
  Forall (fun p => inside cv (place cv Lp Rp s p)) (cornersR img).

(** A scale is at most the bound of a frame exactly when the four corners
    of the frame are inside the canvas at that scale. *)
Lemma maxScaleForThisImage_fits cv img Lp Rp s :
  Lp <> [] -> Rp <> [] -> 0 <= s ->
  nle (Fin s) (maxScaleForThisImage cv img (flm Lp Rp)) <-> fits cv Lp Rp img s.
Proof.
  intros HL HR Hs. unfold maxScaleForThisImage, fits.
  rewrite eyesCenter_fin, angle_fin, corners_fin, forEach_map by assumption.
  rewrite (forEach_iff (nle (Fin s))
             (fun p => inside cv (place cv Lp Rp s p))).
  - pose proof (nle_fin_PInf s). tauto.
  - intros p m _. apply boundCorner_glb; assumption.
Qed.

Lemma place_zero cv Lp Rp p :
  place cv Lp Rp 0 p = (canvasW cv * (5 / 10), canvasH cv * (4 / 10)).
Proof. unfold place, alignPoint. f_equal; ring. Qed.

(** The target is inside the canvas, so every image fits at scale 0. *)
Lemma fits_zero cv Lp Rp img : fits cv Lp Rp img 0.
Proof.
  pose proof (canvasW_nonneg cv). pose proof (canvasH_nonneg cv).
  apply Forall_forall. intros p _. rewrite place_zero. unfold inside. simpl. lra.
Qed.

(** An image that has a width does not fit at every scale: two corners are
    [s * imgW] apart on the canvas. *)
Lemma fits_bounded cv Lp Rp img s :
  fits cv Lp Rp img s -> 0 <= s -> s * imgW img <= canvasW cv + canvasH cv.
Proof.
  unfold fits, cornersR. intros Hf Hs.
  inversion_clear Hf as [|? ? [H0 H0'] Hf1]. inversion_clear Hf1 as [|? ? [H1 H1'] _].
  unfold place, alignPoint in *. cbn [fst snd] in *.
  pose proof (Fcos_sin_unit (- eyeAngle Lp Rp)) as Hu.
  pose proof (canvasW_nonneg cv). pose proof (canvasH_nonneg cv).
  set (c := Fcos (- eyeAngle Lp Rp)) in *. set (sn := Fsin (- eyeAngle Lp Rp)) in *.
  set (k := s * imgW img).
  assert (Hx : - canvasW cv <= k * c <= canvasW cv) by (subst k; lra).
  assert (Hy : - canvasH cv <= k * sn <= canvasH cv) by (subst k; lra).
  assert (Hk : k * k = k * c * (k * c) + k * sn * (k * sn))
    by (transitivity (k * k * (c * c + sn * sn)); [rewrite Hu|]; ring).
  nra.
Qed.

(** A number that bounds [0] from above and does not bound some [b >= 0] is
    finite and non-negative. *)
Lemma nle_zero_fin (a : num R) b :
  nle (Fin 0) a -> ~ nle (Fin b) a -> exists k, a = Fin k /\ 0 <= k.
Proof.
  intros H0 Hb. destruct a as [k| | |]; try discriminate H0.
  - exists k. split; [reflexivity | now apply nle_fin].
  - destruct Hb. apply nle_fin_PInf.
Qed.

Section Frame.
Variables (cv : Canvas R) (img : Image) (Lp Rp : list (R * R)).
Hypothesis HL : Lp <> [].
Hypothesis HR : Rp <> [].
Hypothesis Husable : usable img = true.

(** The bound of a frame is a finite, non-negative scale. *)
Lemma maxScaleForThisImage_fin :
  exists k, maxScaleForThisImage cv img (flm Lp Rp) = Fin k /\ 0 <= k.
Proof.
  destruct (usable_pos _ Husable) as [Hw _]. fold (imgW img) in Hw.
  pose proof (canvasW_nonneg cv). pose proof (canvasH_nonneg cv).
  set (b := (canvasW cv + canvasH cv + 1) / imgW img).
  assert (Hb : 0 <= b) by (apply Rle_div_iff; lra).
  apply nle_zero_fin with b.
  - apply maxScaleForThisImage_fits; [assumption..|lra|apply fits_zero].
  - rewrite maxScaleForThisImage_fits by assumption. intros Hf.
    apply fits_bounded in Hf; [|assumption].
    replace (b * imgW img) with (canvasW cv + canvasH cv + 1) in Hf
      by (subst b; field; lra).
    lra.
Qed.

(** C7: the bound of a frame is the greatest scale at which its four
    corners are painted inside the canvas: the frame fits at
    [maxScaleForThisImage] and at no greater scale. *)
Theorem maxScaleForThisImage_glb :
  exists k, maxScaleForThisImage cv img (flm Lp Rp) = Fin k /\ 0 <= k /\
            fits cv Lp Rp img k /\
            forall s, 0 <= s -> fits cv Lp Rp img s -> s <= k.
Proof.
  destruct maxScaleForThisImage_fin as (k & Hk & Hk0). exists k.
  split; [assumption|]. split; [assumption|]. split.
  - apply maxScaleForThisImage_fits; try assumption. rewrite Hk. now apply nle_fin, Rle_refl.
  - intros s Hs Hf. apply maxScaleForThisImage_fits in Hf; try assumption.
    rewrite Hk in Hf. now apply nle_fin.
Qed.

(** The zoom of a frame is its bound, in units of the width of the canvas. *)
Lemma safeZoom_fin :
  width cv <> 0%N ->
  exists k, maxScaleForThisImage cv img (flm Lp Rp) = Fin k /\ 0 <= k /\
            safeZoom cv img (flm Lp Rp) = Fin (k * eyeDist Lp Rp / canvasW cv).
Proof.
  intros HW. destruct maxScaleForThisImage_fin as (k & Hk & Hk0).
  exists k. split; [assumption|]. split; [assumption|].
  unfold safeZoom. rewrite Hk, currentEyesDist_fin by assumption.
  change (ofN (width cv)) with (Fin (canvasW cv)). cbn [nmul]. runfold.
  apply ndiv_fin. pose proof (canvasW_pos _ HW). lra.
Qed.

(** The zoom of a frame bounds exactly the zooms at which it fits. *)
Lemma safeZoom_glb t :
  width cv <> 0%N -> mean Lp <> mean Rp -> 0 <= t ->
  nle (Fin t) (safeZoom cv img (flm Lp Rp)) <->
  fits cv Lp Rp img (canvasW cv * t / eyeDist Lp Rp).
Proof.
  intros HW Heyes Ht. destruct (safeZoom_fin HW) as (k & Hk & Hk0 & Hz).
  pose proof (canvasW_pos _ HW) as HW'. pose proof (eyeDist_pos Heyes) as Hd.
  assert (Hs : 0 <= canvasW cv * t / eyeDist Lp Rp) by (apply Rle_div_iff; nra).
  rewrite <- maxScaleForThisImage_fits, Hz, Hk, !nle_fin by assumption.
  rewrite Rle_div_iff, Rdiv_le_iff by assumption. split; intros; lra.
Qed.

End Frame.

(** ** The frames of the list *)

Definition eyesL (lm : Landmarks R) : list (R * R) := map pt_val (getLeftEye lm).
Definition eyesR (lm : Landmarks R) : list (R * R) := map pt_val (getRightEye lm).

(** The detector returned two non-empty clusters of finite points. *)
Definition measured (lm : Landmarks R) : Prop :=
  getLeftEye lm <> [] /\ getRightEye lm <> [] /\
  forallb finite_point (getLeftEye lm) = true /\
  forallb finite_point (getRightEye lm) = true.

Lemma fpt_pt_val (p : Point R) : finite_point p = true -> fpt (pt_val p) = p.
Proof. destruct p as [[x| | |] [y| | |]]; now try discriminate. Qed.

Lemma map_fpt_pt_val (ps : list (Point R)) :
  forallb finite_point ps = true -> map fpt (map pt_val ps) = ps.
Proof.
  induction ps as [|p ps IH]; [reflexivity|]. simpl.
  intros [Hp Hps]%andb_prop. now rewrite fpt_pt_val, IH.
Qed.

Lemma measured_flm lm :
  measured lm -> lm = flm (eyesL lm) (eyesR lm) /\ eyesL lm <> [] /\ eyesR lm <> [].
Proof.
  intros (HL & HR & FL & FR). unfold flm, eyesL, eyesR.
  rewrite !map_fpt_pt_val by assumption. destruct lm as [l r]. simpl in *.
  split; [reflexivity|]. now destruct l, r.
Qed.

(** A frame with a detection has a usable image and measured landmarks. *)
Definition measured_item (item : Item R) : Prop :=
  match detections item with
  | None => True
  | Some d => usable (original item) = true /\ measured (landmarks d)
  end.

(** The two eye centres of a frame with a detection differ. *)
Definition apart_item (item : Item R) : Prop :=
  match detections item with
  | None => True
  | Some d => mean (eyesL (landmarks d)) <> mean (eyesR (landmarks d))
  end.

(** At zoom [t] the corners of a frame with a detection are inside the
    canvas. *)
Definition frame_fits cv t (item : Item R) : Prop :=
  match detections item with
  | None => True
  | Some d =>
      fits cv (eyesL (landmarks d)) (eyesR (landmarks d)) (original item)
        (canvasW cv * t / eyeDist (eyesL (landmarks d)) (eyesR (landmarks d)))
  end.

(** A zoom between 0 and 1. *)
Definition unit_zoom (a : num R) : Prop := exists m, a = Fin m /\ 0 <= m <= 1.

(** The zoom of a frame with a detection is at least [t]. *)
Definition item_allows cv t (item : Item R) : Prop :=
  match detections item with
  | None => True
  | Some d => nle (Fin t) (safeZoom cv (original item) (landmarks d))
  end.

(** The smallest zoom bounds exactly the zooms every frame allows, whatever
    the frames are. *)
Lemma minSafeZoom_allows cv items t :
  nle (Fin t) (minSafeZoom cv items) <-> t <= 1 /\ Forall (item_allows cv t) items.
Proof.
  unfold minSafeZoom. rewrite (forEach_iff (nle (Fin t)) (item_allows cv t)).
  - change (ofZ 1) with (@Fin R 1). now rewrite nle_fin.
  - intros item a _. unfold fitItem, item_allows.
    destruct (detections item); [apply Math_min_glb | tauto].
Qed.

Section Frames.
Variable cv : Canvas R.
Hypothesis HW : width cv <> 0%N.

Lemma item_allows_fits item t :
  measured_item item -> apart_item item -> 0 <= t ->
  item_allows cv t item <-> frame_fits cv t item.
Proof.
  unfold item_allows, measured_item, apart_item, frame_fits. intros Hm Ha Ht.
  destruct (detections item) as [d|]; [|tauto].
  destruct Hm as [Hu Hm]. destruct (measured_flm Hm) as (E & HL & HR).
  rewrite E at 1. now rewrite safeZoom_glb.
Qed.

Lemma fitItem_unit item a :
  measured_item item -> unit_zoom a -> unit_zoom (fitItem cv item a).
Proof.
  intros Hm (m & -> & Hm01). unfold fitItem, measured_item in *.
  destruct (detections item) as [d|]; [|now exists m].
  destruct Hm as [Hu Hm]. destruct (measured_flm Hm) as (E & HL & HR).
  rewrite E. edestruct safeZoom_fin as (k & _ & Hk & ->); [exact HL | exact HR | exact Hu | exact HW |].
  rewrite Math_min_fin. eexists. split; [reflexivity|].
  pose proof (canvasW_pos _ HW). pose proof (eyeDist_nonneg (eyesL (landmarks d)) (eyesR (landmarks d))).
  assert (0 <= k * eyeDist (eyesL (landmarks d)) (eyesR (landmarks d)) / canvasW cv)
    by (apply Rle_div_iff; nra).
  unfold Rmin. destruct Rle_dec; lra.
Qed.

Variable items : list (Item R).
Hypothesis Hmeasured : Forall measured_item items.

Lemma minSafeZoom_unit : unit_zoom (minSafeZoom cv items).
Proof.
  unfold minSafeZoom. apply forEach_invariant.
  - intros item a Hin. apply fitItem_unit. eapply Forall_forall; eassumption.
  - exists 1. split; [reflexivity | lra].
Qed.

(** Over frames that are measured and whose eyes are apart, a zoom is at
    most [minSafeZoom] exactly when it is at most 1 and every frame fits at
    it. *)
Lemma minSafeZoom_fits t :
  Forall apart_item items -> 0 <= t ->
  nle (Fin t) (minSafeZoom cv items) <-> t <= 1 /\ Forall (frame_fits cv t) items.
Proof.
  intros Hap Ht. rewrite minSafeZoom_allows.
  enough (Forall (item_allows cv t) items <-> Forall (frame_fits cv t) items) by tauto.
  rewrite !Forall_forall in *.
  split; intros H item Hin; apply (item_allows_fits item); auto.
Qed.

(** C6: over frames that are measured and whose eyes are apart,
    [minSafeZoom] is the greatest zoom, not above 1, at which the four
    corners of every frame with a detection are painted inside the canvas. *)
Theorem minSafeZoom_glb :
  Forall apart_item items ->
  exists m, minSafeZoom cv items = Fin m /\ 0 <= m <= 1 /\
            Forall (frame_fits cv m) items /\
            forall t, 0 <= t <= 1 -> Forall (frame_fits cv t) items -> t <= m.
Proof.
  intros Hap. destruct minSafeZoom_unit as (m & E & Hm01). exists m.
  split; [assumption|]. split; [assumption|]. split.
  - apply minSafeZoom_fits with (t := m); [assumption | lra |].
    rewrite E. now apply nle_fin, Rle_refl.
  - intros t Ht Hf. apply nle_fin. rewrite <- E. apply minSafeZoom_fits; tauto || lra.
Qed.

End Frames.

(** ** The margin, the rounding and the clamp *)

(** The zoom in hundredths after the margin and the rounding down. *)
Definition finalZ m : Z := Zfloor (m * (95 / 100) * 100).

Lemma finalZoom_fin m : finalZoom (Fin m) = Fin (IZR (finalZ m) / 100).
Proof. unfold finalZoom. cbn [nmul dec ofZ Math_floor]. runfold. apply ndiv_fin. lra. Qed.

Lemma finalZ_bounds m :
  0 <= m <= 1 -> (0 <= finalZ m <= 95)%Z /\ IZR (finalZ m) / 100 <= m * (95 / 100).
Proof.
  intros Hm. unfold finalZ. pose proof (Zfloor_bound (m * (95 / 100) * 100)) as [Hlo Hhi].
  split; [split|lra].
  - apply Z.lt_succ_r, lt_IZR. rewrite succ_IZR. lra.
  - apply le_IZR. lra.
Qed.

Lemma clampedZoom_fin (n : Z) :
  clampedZoom (Fin (IZR n / 100)) = Fin (IZR (Z.max 10 (Z.min 100 n)) / 100).
Proof.
  unfold clampedZoom. change (ofZ 1) with (@Fin R 1). change (dec 1 10) with (@Fin R (1 / 10)).
  rewrite Math_min_fin, Math_max_fin. f_equal.
  destruct (Z_le_gt_dec n 10) as [H1|H1], (Z_le_gt_dec 100 n) as [H2|H2]; try lia.
  all: rewrite ?(Z.min_l 100 n), ?(Z.min_r 100 n), ?Z.max_l, ?Z.max_r by lia.
  all: try apply IZR_le in H1; try apply IZR_le in H2.
  all: try apply Z.gt_lt, IZR_lt in H1; try apply Z.gt_lt, IZR_lt in H2.
  all: unfold Rmin, Rmax; repeat destruct Rle_dec; lra.
Qed.

(** The zoom [autoFitZoom] stores is a whole number of hundredths between
    0.10 and 0.95, and the slider is set to that number. *)
Lemma fittedZoom_fin (st : State R) :
  width (canvas st) <> 0%N -> Forall measured_item (images st) ->
  exists m, minSafeZoom (canvas st) (images st) = Fin m /\ 0 <= m <= 1 /\
            fittedZoom st = Fin (IZR (Z.max 10 (finalZ m)) / 100).
Proof.
  intros HW Hm. destruct (minSafeZoom_unit _ HW Hm) as (m & E & Hm01).
  exists m. split; [assumption|]. split; [assumption|].
  unfold fittedZoom. rewrite E, finalZoom_fin, clampedZoom_fin.
  destruct (finalZ_bounds Hm01) as [Hz _]. now rewrite Z.min_r by lia.
Qed.

(** ** From the corners to the whole image, and to what is painted *)

(** An affine function that is within bounds at the four corners of a
    rectangle is within bounds on the rectangle. *)
Lemma affine_box a b c lo hi w h u v :
  lo <= a <= hi -> lo <= a + b * w <= hi ->
  lo <= a + b * w + c * h <= hi -> lo <= a + c * h <= hi ->
  0 <= u <= w -> 0 <= v <= h ->
  lo <= a + b * u + c * v <= hi.
Proof.
  intros. destruct (Rle_dec 0 b), (Rle_dec 0 c); split; nra.
Qed.

Lemma fits_whole_image cv Lp Rp img s u v :
  fits cv Lp Rp img s -> 0 <= u <= imgW img -> 0 <= v <= imgH img ->
  inside cv (place cv Lp Rp s (u, v)).
Proof.
  unfold fits, cornersR. intros Hf Hu Hv.
  repeat match goal with H : Forall _ (_ :: _) |- _ => inversion_clear H end.
  unfold inside, place, alignPoint in *. cbn [fst snd] in *.
  set (c := Fcos (- eyeAngle Lp Rp)) in *. set (sn := Fsin (- eyeAngle Lp Rp)) in *.
  destruct (eyeMid Lp Rp) as [ex ey]. cbn [fst snd] in *.
  split.
  - replace (_ + _) with
      (canvasW cv * (5 / 10) + s * (- ex * c + ey * sn) + s * c * u + - (s * sn) * v) by ring.
    apply affine_box with (w := imgW img) (h := imgH img); lra.
  - replace (_ + _) with
      (canvasH cv * (4 / 10) + s * (- ex * sn - ey * c) + s * sn * u + s * c * v) by ring.
    apply affine_box with (w := imgW img) (h := imgH img); lra.
Qed.

(** When the clamp does not raise it, the stored zoom is at most the
    smallest of the zooms of the frames. *)
Lemma fittedZoom_safe (st : State R) :
  width (canvas st) <> 0%N -> Forall measured_item (images st) ->
  nle (dec 1 10) (finalZoom (minSafeZoom (canvas st) (images st))) ->
  exists z, fittedZoom st = Fin z /\ 0 <= z /\
            nle (Fin z) (minSafeZoom (canvas st) (images st)).
Proof.
  intros HW Hm Hlow. destruct (fittedZoom_fin st HW Hm) as (m & E & Hm01 & Ez).
  rewrite E, finalZoom_fin in Hlow. change (dec 1 10) with (@Fin R (1 / 10)) in Hlow.
  apply nle_fin in Hlow. destruct (finalZ_bounds Hm01) as [_ Hf].
  assert (H10 : (10 <= finalZ m)%Z) by (apply le_IZR; lra).
  rewrite Z.max_r in Ez by assumption.
  eexists. split; [exact Ez|]. rewrite E, nle_fin. lra.
Qed.

Lemma eyes_flm Lp Rp : eyesL (flm Lp Rp) = Lp /\ eyesR (flm Lp Rp) = Rp.
Proof.
  assert (H : forall l : list (R * R), map pt_val (map fpt l) = l).
  { intros l. rewrite map_map. rewrite <- (map_id l) at 2. apply map_ext. now intros []. }
  unfold eyesL, eyesR, flm. cbn. now rewrite !H.
Qed.

(** What the hypotheses on the list say of one frame with a detection. *)
Lemma detected_item items i img Lp Rp :
  Forall measured_item items -> Forall apart_item items ->
  nth_error items i =
    Some {| original := img; detections := Some {| landmarks := flm Lp Rp |} |} ->
  usable img = true /\ Lp <> [] /\ Rp <> [] /\ mean Lp <> mean Rp.
Proof.
  intros Hm Ha Hi. pose proof (Forall_nth_error _ Hm Hi) as Hm'.
  pose proof (Forall_nth_error _ Ha Hi) as Ha'.
  unfold measured_item, apart_item in *. cbn [detections landmarks original] in Hm', Ha'.
  destruct Hm' as [Hu Hm']. apply measured_flm in Hm' as (_ & HL & HR).
  destruct (eyes_flm Lp Rp) as [EL ER]. rewrite EL, ER in Ha'.
  rewrite EL in HL. rewrite ER in HR. tauto.
Qed.

Section Fitted.
Variables (w : World R) (i : nat) (img : Image) (Lp Rp : list (R * R)).
Hypothesis HW : width (canvas (state w)) <> 0%N.
Hypothesis Hmeasured : Forall measured_item (images (state w)).
Hypothesis Hapart : Forall apart_item (images (state w)).
Hypothesis Halign : alignEyes (state w) = true.
Hypothesis Hctm : ctm (ctx (canvas (state w))) = mat_id.
Hypothesis Hitem :
  nth_error (images (state w)) i =
  Some {| original := img; detections := Some {| landmarks := flm Lp Rp |} |}.
Hypothesis Hlow :
  nle (dec 1 10) (finalZoom (minSafeZoom (canvas (state w)) (images (state w)))).

(** At the stored zoom the corners of the frame are inside the canvas. *)
Lemma fittedZoom_fits :
  exists z, fittedZoom (state w) = Fin z /\
            fits (canvas (state w)) Lp Rp img
              (canvasW (canvas (state w)) * z / eyeDist Lp Rp).
Proof.
  destruct (fittedZoom_safe (state w) HW Hmeasured Hlow) as (z & Ez & Hz0 & Hsafe).
  exists z. split; [assumption|].
  apply minSafeZoom_fits in Hsafe; try assumption. destruct Hsafe as [_ Hall].
  pose proof (Forall_nth_error _ Hall Hitem) as Hf. unfold frame_fits in Hf.
  cbn [detections landmarks original] in Hf.
  destruct (eyes_flm Lp Rp) as [EL ER]. now rewrite EL, ER in Hf.
Qed.

(** C1: after [autoFitZoom], when the clamp to the range of the slider did
    not raise the zoom, [renderFrame] paints every point of every frame with
    a detection inside the canvas: nothing of the image is cut. *)
Theorem autoFitZoom_keeps_frame_inside u v :
  0 <= u <= imgW img -> 0 <= v <= imgH img ->
  exists p, top_paint (renderFrame (ofNat i) (state (autoFitZoom w))) = Some p /\
            inside (canvas (state w)) (paint_at p (u, v)).
Proof.
  intros Hu Hv.
  assert (Hne : images (state w) <> []) by (intros E; rewrite E in Hitem; now destruct i).
  destruct (autoFitZoom_frame w Hne) as (Hi & Hz & Ha & Hw' & Hh' & Hc).
  destruct (detected_item _ Hmeasured Hapart Hitem) as (Hus & HL & HR & Heyes).
  destruct fittedZoom_fits as (z & Ez & Hfit).
  pose proof Hitem as Hit. rewrite <- Hi in Hit.
  rewrite Halign in Ha. rewrite Ez in Hz. rewrite Hctm in Hc.
  destruct (renderFrame_aligned_at _ _ Hit Ha Hz HL HR Heyes Hus Hc (u, v))
    as (p & Hp & Hat).
  exists p. split; [assumption|]. rewrite Hat. unfold canvasW, canvasH.
  rewrite Hw', Hh'. exact (fits_whole_image Hfit Hu Hv).
Qed.

End Fitted.

(** ** What the function stores *)

Lemma Math_round_hundredths (n : Z) :
  Math_round (nmul (Fin (IZR n / 100)) (ofZ 100)) = Fin (IZR n).
Proof.
  cbn [nmul ofZ]. runfold. replace (IZR n / 100 * 100) with (IZR n) by field.
  apply Math_round_int.
Qed.

(** The zoom [autoFitZoom] stores, in hundredths, and the slider. *)
Lemma autoFitZoom_hundredths (w : World R) :
  images (state w) <> [] -> width (canvas (state w)) <> 0%N ->
  Forall measured_item (images (state w)) ->
  exists n : Z, (10 <= n <= 95)%Z /\
    zoom (state (autoFitZoom w)) = Fin (IZR n / 100) /\
    zoomRange_value (elements (autoFitZoom w)) = Fin (IZR n).
Proof.
  intros Hne HW Hm. destruct (fittedZoom_fin (state w) HW Hm) as (m & _ & Hm01 & Ez).
  destruct (finalZ_bounds Hm01) as [Hz _].
  destruct (autoFitZoom_frame w Hne) as (_ & Hzoom & _).
  destruct (autoFitZoom_elements w Hne) as [_ Hslider].
  exists (Z.max 10 (finalZ m)). split; [lia|].
  rewrite Hzoom, Hslider, Ez. split; [reflexivity | apply Math_round_hundredths].
Qed.

(** C20: the zoom [autoFitZoom] stores is a whole number of hundredths
    between 0.10 and 0.95, the slider is set to that number, and the overlay
    is hidden again. *)
Theorem autoFitZoom_slider (w : World R) :
  images (state w) <> [] -> width (canvas (state w)) <> 0%N ->
  Forall measured_item (images (state w)) ->
  exists n : Z, (10 <= n <= 95)%Z /\
    zoom (state (autoFitZoom w)) = Fin (IZR n / 100) /\
    zoomRange_value (elements (autoFitZoom w)) = Fin (IZR n) /\
    loadingOverlay_hidden (elements (autoFitZoom w)) = true.
Proof.
  intros Hne HW Hm. destruct (autoFitZoom_hundredths w Hne HW Hm) as (n & Hn & Hz & Hs).
  destruct (autoFitZoom_elements w Hne) as [Hh _]. exists n. auto.
Qed.

(** With no detection at all the loop leaves [minSafeZoom] at 1. *)
Lemma minSafeZoom_no_detection cv (items : list (Item R)) :
  Forall (fun item => detections item = None) items -> minSafeZoom cv items = ofZ 1.
Proof.
  intros H. unfold minSafeZoom. apply forEach_invariant with (P := fun a => a = ofZ 1);
    [|reflexivity].
  intros item a Hin ->. unfold fitItem.
  rewrite Forall_forall in H. now rewrite (H item Hin).
Qed.

Lemma finalZ_hundredths (k : Z) : finalZ (IZR k / 95) = k.
Proof.
  unfold finalZ. replace (IZR k / 95 * (95 / 100) * 100) with (IZR k) by field.
  apply ZfloorZ.
Qed.

(** C38: when no frame has a detection [autoFitZoom] stores 0.95, the margin
    applied to the start value 1, and sets the slider to 95; it does not
    leave the zoom as it was. *)
Theorem autoFitZoom_no_detection (w : World R) :
  images (state w) <> [] ->
  Forall (fun item => detections item = None) (images (state w)) ->
  zoom (state (autoFitZoom w)) = Fin (95 / 100) /\
  zoomRange_value (elements (autoFitZoom w)) = Fin 95.
Proof.
  intros Hne Hnone.
  destruct (autoFitZoom_frame w Hne) as (_ & Hzoom & _).
  destruct (autoFitZoom_elements w Hne) as [_ Hslider].
  assert (Ez : fittedZoom (state w) = Fin (IZR 95 / 100)).
  { unfold fittedZoom. rewrite minSafeZoom_no_detection by assumption.
    change (ofZ 1) with (@Fin R 1). rewrite finalZoom_fin.
    replace 1 with (IZR 95 / 95) by field. now rewrite finalZ_hundredths, clampedZoom_fin. }
  rewrite Hzoom, Hslider, Ez. split; [reflexivity | apply Math_round_hundredths].
Qed.

(** ** Coincident eyes *)

Section Coincident.
Variables (w : World R) (i : nat) (img : Image) (Lp Rp : list (R * R)).
Hypothesis HW : width (canvas (state w)) <> 0%N.
Hypothesis Hmeasured : Forall measured_item (images (state w)).
Hypothesis Hitem :
  nth_error (images (state w)) i =
  Some {| original := img; detections := Some {| landmarks := flm Lp Rp |} |}.
Hypothesis Hsame : mean Lp = mean Rp.

(** The zoom of a frame whose eyes coincide is 0. *)
Lemma safeZoom_coincident :
  safeZoom (canvas (state w)) img (flm Lp Rp) = Fin 0.
Proof.
  pose proof (Forall_nth_error _ Hmeasured Hitem) as Hm. unfold measured_item in Hm.
  cbn [detections landmarks original] in Hm. destruct Hm as [Hu Hm].
  apply measured_flm in Hm as (_ & HL & HR). destruct (eyes_flm Lp Rp) as [EL ER].
  rewrite EL in HL. rewrite ER in HR.
  destruct (safeZoom_fin (canvas (state w)) img HL HR Hu HW) as (k & _ & _ & ->).
  rewrite (eyeDist_zero Hsame). f_equal. pose proof (canvasW_pos _ HW). field. lra.
Qed.

(** C32: one frame whose two eye centres coincide is not left out of the
    loop: its zoom is 0, and [autoFitZoom] stores the minimum of the slider,
    0.10, whatever the other frames are. *)
Theorem autoFitZoom_coincident_eyes :
  zoom (state (autoFitZoom w)) = Fin (10 / 100) /\
  zoomRange_value (elements (autoFitZoom w)) = Fin 10.
Proof.
  assert (Hne : images (state w) <> []) by (intros E; rewrite E in Hitem; now destruct i).
  destruct (autoFitZoom_frame w Hne) as (_ & Hzoom & _).
  destruct (autoFitZoom_elements w Hne) as [_ Hslider].
  destruct (fittedZoom_fin (state w) HW Hmeasured) as (m & Em & Hm01 & Ez).
  assert (Hle : nle (Fin m) (minSafeZoom (canvas (state w)) (images (state w))))
    by (rewrite Em; now apply nle_fin, Rle_refl).
  apply minSafeZoom_allows in Hle as [_ Hall].
  pose proof (Forall_nth_error _ Hall Hitem) as Hi. unfold item_allows in Hi.
  cbn [detections landmarks original] in Hi. rewrite safeZoom_coincident in Hi.
  apply nle_fin in Hi. assert (m = IZR 0 / 95) by lra. subst m.
  rewrite finalZ_hundredths in Ez. change (Z.max 10 0) with 10%Z in Ez.
  rewrite Hzoom, Hslider, Ez. split; [reflexivity | apply Math_round_hundredths].
Qed.

End Coincident.

(** ** The zoom of a frame and the distance of its eyes *)

(** The bound of a frame depends on the landmarks through the eye point and
    the angle only. *)
Lemma maxScaleForThisImage_ext cv img (lm lm' : Landmarks R) :
  eyesCenter lm = eyesCenter lm' -> angle lm = angle lm' ->
  maxScaleForThisImage cv img lm = maxScaleForThisImage cv img lm'.
Proof. unfold maxScaleForThisImage. now intros -> ->. Qed.

Section EyeDistance.
Variables (cv : Canvas R) (img : Image) (Lp Rp Lp' Rp' : list (R * R)).
Hypothesis HW : width cv <> 0%N.
Hypothesis Husable : usable img = true.
Hypothesis HL : Lp <> [].
Hypothesis HR : Rp <> [].
Hypothesis HL' : Lp' <> [].
Hypothesis HR' : Rp' <> [].
Hypothesis Hcenter : eyesCenter (flm Lp Rp) = eyesCenter (flm Lp' Rp').
Hypothesis Hangle : angle (flm Lp Rp) = angle (flm Lp' Rp').

(** For a given eye point and angle the zoom of a frame is
    proportional to the distance of the eyes: eyes closer together give a
    smaller zoom, not a larger one. *)
Theorem safeZoom_proportional :
  exists k, 0 <= k /\
    safeZoom cv img (flm Lp Rp) = Fin (k * eyeDist Lp Rp) /\
    safeZoom cv img (flm Lp' Rp') = Fin (k * eyeDist Lp' Rp').
Proof.
  destruct (safeZoom_fin cv img HL HR Husable HW) as (k & Ek & Hk & Ez).
  destruct (safeZoom_fin cv img HL' HR' Husable HW) as (k' & Ek' & _ & Ez').
  rewrite <- (maxScaleForThisImage_ext _ _ Hcenter Hangle), Ek in Ek'.
  injection Ek' as <-. pose proof (canvasW_pos _ HW) as HWp.
  exists (k / canvasW cv). split; [apply Rle_div_iff; lra|].
  rewrite Ez, Ez'. split; f_equal; field; lra.
Qed.

End EyeDistance.

(** ** Computing the zoom of given frames *)

(** With level eyes the placement is a scaling about the eye point. *)
Lemma place_level cv Lp Rp s p :
  eyeDy Lp Rp = 0 -> 0 < eyeDx Lp Rp ->
  place cv Lp Rp s p =
  (canvasW cv * (5 / 10) + s * (fst p - fst (eyeMid Lp Rp)),
   canvasH cv * (4 / 10) + s * (snd p - snd (eyeMid Lp Rp))).
Proof.
  intros Hdy Hdx. destruct (eyeAngle_level Hdy Hdx) as [Hc Hs].
  unfold place, alignPoint. rewrite Hc, Hs. f_equal; ring.
Qed.

Lemma measured_item_flm img Lp Rp :
  usable img = true -> Lp <> [] -> Rp <> [] ->
  measured_item {| original := img; detections := Some {| landmarks := flm Lp Rp |} |}.
Proof.
  intros Hu HL HR. split; [assumption|]. unfold measured, flm. cbn.
  assert (H : forall l : list (R * R), forallb finite_point (map fpt l) = true)
    by (induction l; [reflexivity | assumption]).
  rewrite !H. now destruct Lp, Rp.
Qed.

Lemma apart_item_flm img Lp Rp :
  mean Lp <> mean Rp ->
  apart_item {| original := img; detections := Some {| landmarks := flm Lp Rp |} |}.
Proof.
  intros H. unfold apart_item. cbn [detections landmarks].
  destruct (eyes_flm Lp Rp) as [-> ->]. assumption.
Qed.

(** The smallest zoom is the one zoom at which the frames fit and above
    which they do not. *)
Lemma minSafeZoom_eq cv items m :
  width cv <> 0%N -> Forall measured_item items -> Forall apart_item items ->
  0 <= m <= 1 -> Forall (frame_fits cv m) items ->
  (forall t, m < t <= 1 -> ~ Forall (frame_fits cv t) items) ->
  minSafeZoom cv items = Fin m.
Proof.
  intros HW Hm Ha Hm01 Hfit Hmax.
  destruct (minSafeZoom_unit cv HW Hm) as (m' & E & Hm'01).
  assert (H1 : nle (Fin m) (minSafeZoom cv items))
    by (apply minSafeZoom_fits; tauto || lra).
  assert (H2 : nle (Fin m') (minSafeZoom cv items))
    by (rewrite E; now apply nle_fin, Rle_refl).
  apply minSafeZoom_fits in H2 as [_ H2]; try tauto.
  rewrite E in H1 |- *. apply nle_fin in H1. f_equal.
  destruct (Rle_lt_or_eq_dec _ _ H1) as [Hlt|]; [|congruence].
  destruct (Hmax m'); [lra | assumption].
Qed.

(** A zoom of at least 10/95 survives the margin, the rounding and the
    clamp. *)
Lemma finalZoom_low (a : num R) t :
  unit_zoom a -> nle (Fin t) a -> 10 / 95 <= t -> nle (dec 1 10) (finalZoom a).
Proof.
  intros (m & -> & Hm01) Ht%nle_fin Hlow. rewrite finalZoom_fin.
  change (dec 1 10) with (@Fin R (1 / 10)). apply nle_fin.
  assert (H : (10 <= finalZ m)%Z) by (apply Zfloor_lub; lra).
  apply IZR_le in H. lra.
Qed.

(** A frame with one point for each eye, the two level. *)
Definition level_item (img : Image) x y u : Item R :=
  {| original := img; detections := Some {| landmarks := flm [(x, y)] [(u, y)] |} |}.

Lemma frame_fits_level cv img x y u t :
  x < u ->
  frame_fits cv t (level_item img x y u) <->
  Forall (fun p => inside cv
            (canvasW cv * (5 / 10) + canvasW cv * t / (u - x) * (fst p - (x + u) / 2),
             canvasH cv * (4 / 10) + canvasW cv * t / (u - x) * (snd p - y)))
    (cornersR img).
Proof.
  intros Hxu. unfold frame_fits, level_item, fits. cbn [detections landmarks original].
  destruct (eyes_flm [(x, y)] [(u, y)]) as [-> ->].
  rewrite (eyeDist_single (x := x) (y := y) (u := u) (v := y) (r := u - x)) by (lra || ring).
  assert (E : forall s p, place cv [(x, y)] [(u, y)] s p =
            (canvasW cv * (5 / 10) + s * (fst p - (x + u) / 2),
             canvasH cv * (4 / 10) + s * (snd p - y))).
  { intros s p. rewrite place_level; unfold eyeDy, eyeDx, eyeMid;
      rewrite !mean_single; cbn [fst snd]; [f_equal; field | lra | lra]. }
  split; apply Forall_impl; intros p; now rewrite E.
Qed.

(** The stored zoom, from the smallest zoom and its hundredths after the
    margin. *)
Lemma fittedZoom_of (st : State R) m (n : Z) :
  minSafeZoom (canvas st) (images st) = Fin m ->
  IZR n <= m * 95 < IZR n + 1 ->
  fittedZoom st = Fin (IZR (Z.max 10 (Z.min 100 n)) / 100).
Proof.
  intros E Hn. unfold fittedZoom. rewrite E, finalZoom_fin.
  replace (finalZ m) with n; [apply clampedZoom_fin|].
  symmetry. apply Zfloor_eq. lra.
Qed.

End RealAutoFit.

(** ** Scenarios *)

Section ScenarioFit.
Local Open Scope R_scope.

Ltac each :=
  repeat match goal with
         | |- Forall _ (_ :: _) => apply Forall_cons
         | |- Forall _ [] => apply Forall_nil
         end.

Ltac corners_inside :=
  unfold cornersR, inside, canvasW, canvasH, imgW, imgH;
  cbn [width height canvasA imgA img_width img_height Z.of_N fst snd].

Ltac frames :=
  cbn [images set_images state_init state stateA stateB stateC worldA worldB worldC];
  each.

Lemma stateA_measured : Forall measured_item (images stateA).
Proof. frames; apply measured_item_flm; reflexivity || discriminate. Qed.

Lemma stateA_apart : Forall apart_item (images stateA).
Proof.
  frames; apply apart_item_flm; rewrite !mean_single; intros [= H]; lra.
Qed.

Lemma stateA_fits t : 0 <= t <= 16 / 100 -> Forall (frame_fits canvasA t) (images stateA).
Proof.
  intros Ht. frames.
  - change (itemA lmA1) with (level_item imgA 400 500 600).
    rewrite frame_fits_level by lra. corners_inside. each; simpl; lra.
  - change (itemA lmA2) with (level_item imgA 300 500 500).
    rewrite frame_fits_level by lra. corners_inside. each; simpl; lra.
Qed.

Lemma stateA_fits_max t : 16 / 100 < t <= 1 -> ~ Forall (frame_fits canvasA t) (images stateA).
Proof.
  intros Ht H. cbn [images set_images stateA] in H. inversion_clear H as [|? ? H1 _].
  change (itemA lmA1) with (level_item imgA 400 500 600) in H1.
  rewrite frame_fits_level in H1 by lra. revert H1. corners_inside.
  intros H1. inversion_clear H1 as [|? ? [_ H0] _]. simpl in H0. lra.
Qed.

(** Scenario A: the smallest zoom of the two frames is 0.16, cut by the top
    edge of the canvas; the function stores 0.15 and sets the slider to 15. *)
Lemma stateA_minSafeZoom : minSafeZoom canvasA (images stateA) = Fin (16 / 100).
Proof.
  apply minSafeZoom_eq; try discriminate; try lra.
  - apply stateA_measured.
  - apply stateA_apart.
  - apply stateA_fits; lra.
  - apply stateA_fits_max.
Qed.

(** On the two frames of scenario A [autoFitZoom] stores the zoom 0.15
    and sets the slider to 15. *)
Example scenario_A_autoFit :
  zoom (state (autoFitZoom worldA)) = Fin (15 / 100) /\
  zoomRange_value (elements (autoFitZoom worldA)) = Fin 15.
Proof.
  assert (Hne : images (state worldA) <> []) by discriminate.
  destruct (autoFitZoom_frame worldA Hne) as (_ & Hzoom & _).
  destruct (autoFitZoom_elements worldA Hne) as [_ Hslider].
  assert (Ez : fittedZoom (state worldA) = Fin (IZR 15 / 100)).
  { rewrite (fittedZoom_of (state worldA) 15 stateA_minSafeZoom) by lra.
    reflexivity. }
  rewrite Hzoom, Hslider, Ez. split; [reflexivity | apply Math_round_hundredths].
Qed.

Lemma autoFitZoom_empty_witness :
  autoFitZoom {| state := state_init canvasA; elements := pageA |} =
  {| state := state_init canvasA; elements := pageA |}.
Proof. apply (autoFitZoom_empty (M := StdMath)). reflexivity. Defined.

Lemma maxScaleForThisImage_glb_witness :
  exists k, maxScaleForThisImage canvasA imgA lmA1 = Fin k /\ 0 <= k /\
            fits canvasA [(400, 500)] [(600, 500)] imgA k /\
            forall s, 0 <= s -> fits canvasA [(400, 500)] [(600, 500)] imgA s -> s <= k.
Proof.
  apply (maxScaleForThisImage_glb (L := StdMathLaws) canvasA imgA
           (Lp := [(400, 500)]) (Rp := [(600, 500)]));
    [discriminate | discriminate | reflexivity].
Defined.

Lemma minSafeZoom_glb_witness :
  exists m, minSafeZoom canvasA (images stateA) = Fin m /\ 0 <= m <= 1 /\
            Forall (frame_fits canvasA m) (images stateA) /\
            forall t, 0 <= t <= 1 -> Forall (frame_fits canvasA t) (images stateA) -> t <= m.
Proof.
  apply (minSafeZoom_glb (L := StdMathLaws) canvasA);
    [discriminate | exact stateA_measured | exact stateA_apart].
Defined.

Lemma stateA_low :
  nle (dec 1 10) (finalZoom (minSafeZoom (canvas (state worldA)) (images (state worldA)))).
Proof.
  apply finalZoom_low with (t := 16 / 100); [| |lra].
  - apply minSafeZoom_unit; [discriminate | exact stateA_measured].
  - apply (minSafeZoom_fits (L := StdMathLaws) canvasA);
      [discriminate | exact stateA_measured | exact stateA_apart | lra |].
    split; [lra | apply stateA_fits; lra].
Qed.

Lemma autoFitZoom_keeps_frame_inside_witness :
  exists p, top_paint (renderFrame (ofNat 0) (state (autoFitZoom worldA))) = Some p /\
            inside (canvas (state worldA)) (paint_at p (1000, 1000)).
Proof.
  apply (autoFitZoom_keeps_frame_inside (L := StdMathLaws) worldA 0
           (img := imgA) (Lp := [(400, 500)]) (Rp := [(600, 500)]));
    [discriminate | exact stateA_measured | exact stateA_apart | reflexivity
    | reflexivity | reflexivity | exact stateA_low
    | unfold imgW; simpl; lra | unfold imgH; simpl; lra].
Defined.

Lemma autoFitZoom_slider_witness :
  exists n : Z, (10 <= n <= 95)%Z /\
    zoom (state (autoFitZoom worldA)) = Fin (IZR n / 100) /\
    zoomRange_value (elements (autoFitZoom worldA)) = Fin (IZR n) /\
    loadingOverlay_hidden (elements (autoFitZoom worldA)) = true.
Proof.
  apply (autoFitZoom_slider (L := StdMathLaws) worldA);
    [discriminate | discriminate | exact stateA_measured].
Defined.

Lemma autoFitZoom_no_detection_witness :
  zoom (state (autoFitZoom worldB)) = Fin (95 / 100) /\
  zoomRange_value (elements (autoFitZoom worldB)) = Fin 95.
Proof.
  apply (autoFitZoom_no_detection (M := StdMath) worldB); [discriminate|].
  frames. reflexivity.
Defined.

Lemma autoFitZoom_coincident_eyes_witness :
  zoom (state (autoFitZoom worldC)) = Fin (10 / 100) /\
  zoomRange_value (elements (autoFitZoom worldC)) = Fin 10.
Proof.
  apply (autoFitZoom_coincident_eyes (L := StdMathLaws) worldC 0
           (img := imgA) (Lp := [(500, 500)]) (Rp := [(500, 500)]));
    [discriminate
    | frames; apply measured_item_flm; reflexivity || discriminate
    | reflexivity | reflexivity].
Defined.

(** The eyes of the first frame of scenario A, half as far apart. *)
Lemma safeZoom_proportional_witness :
  exists k, 0 <= k /\
    safeZoom canvasA imgA (flm [(400, 500)] [(600, 500)]) =
      Fin (k * eyeDist [(400, 500)] [(600, 500)]) /\
    safeZoom canvasA imgA (flm [(450, 500)] [(550, 500)]) =
      Fin (k * eyeDist [(450, 500)] [(550, 500)]).
Proof.
  apply (safeZoom_proportional (L := StdMathLaws) canvasA imgA);
    try discriminate; try reflexivity.
  - rewrite !eyesCenter_fin by discriminate. unfold eyeMid. rewrite !mean_single.
    simpl. f_equal; f_equal; lra.
  - rewrite !angle_fin by discriminate. unfold eyeAngle, eyeDy, eyeDx.
    rewrite !mean_single. simpl. f_equal. rewrite !Ratan2_right by lra.
    f_equal. lra.
Defined.

(** ** A frame alone on the canvas of scenario A *)

Section LoneFrame.
Variables (img : Image) (x y u : R).
Hypothesis Hxu : x < u.
Hypothesis Husable : usable img = true.

Definition lone_state : State R := set_images [level_item img x y u] (state_init canvasA).

Definition lone_world : World R := {| state := lone_state; elements := pageA |}.

Lemma lone_measured : Forall measured_item (images lone_state).
Proof.
  cbn [images set_images lone_state]. each.
  apply measured_item_flm; assumption || discriminate.
Qed.

Lemma lone_apart : Forall apart_item (images lone_state).
Proof.
  cbn [images set_images lone_state]. each.
  apply apart_item_flm. rewrite !mean_single. intros [= H]. lra.
Qed.

(** The smallest zoom of the frame is the zoom at which it fits and above
    which it does not. *)
Lemma lone_minSafeZoom m :
  0 <= m <= 1 -> frame_fits canvasA m (level_item img x y u) ->
  (forall t, m < t <= 1 -> ~ frame_fits canvasA t (level_item img x y u)) ->
  minSafeZoom canvasA (images lone_state) = Fin m.
Proof.
  intros Hm Hfit Hmax.
  apply minSafeZoom_eq; auto using lone_measured, lone_apart; try discriminate.
  - cbn [images set_images lone_state]. now each.
  - intros t Ht H. inversion_clear H. now apply (Hmax t).
Qed.

(** What the function stores and what the repaint does to the top left
    corner of the image. *)
Lemma lone_autoFit m (n : Z) :
  minSafeZoom canvasA (images lone_state) = Fin m ->
  IZR n <= m * 95 < IZR n + 1 ->
  let z := IZR (Z.max 10 (Z.min 100 n)) / 100 in
  zoom (state (autoFitZoom lone_world)) = Fin z /\
  exists p, top_paint (renderFrame (ofNat 0) (state (autoFitZoom lone_world))) = Some p /\
            paint_at p (0, 0) =
            (500 + 1000 * z / (u - x) * (0 - (x + u) / 2),
             400 + 1000 * z / (u - x) * (0 - y)).
Proof.
  intros Em Hn z.
  assert (Hne : images (state lone_world) <> []) by discriminate.
  destruct (autoFitZoom_frame lone_world Hne) as (Hi & Hz & Ha & Hw & Hh & Hc).
  rewrite (fittedZoom_of (state lone_world) n Em Hn) in Hz. fold z in Hz.
  split; [assumption|].
  assert (Hd : eyeDist [(x, y)] [(u, y)] = u - x) by (apply eyeDist_single; lra || ring).
  edestruct (renderFrame_aligned_at (L := StdMathLaws) (state (autoFitZoom lone_world)) 0
               (img := img) (Lp := [(x, y)]) (Rp := [(u, y)]) (z := z)) as (p & Hp & Hat);
    [now rewrite Hi | exact Ha | exact Hz | discriminate | discriminate
    | rewrite !mean_single; intros [= H]; lra | exact Husable | exact Hc |].
  exists p. split; [exact Hp|]. rewrite Hat, Hd. unfold canvasW, canvasH.
  rewrite Hw, Hh.
  change (alignPoint _ _ ?s _ _ ?q) with (place canvasA [(x, y)] [(u, y)] s q).
  rewrite place_level; unfold eyeDy, eyeDx, eyeMid; rewrite !mean_single;
    cbn [fst snd]; [|lra..].
  unfold canvasW, canvasH. simpl. f_equal; field; lra.
Qed.

End LoneFrame.

(** Decide [frame_fits] of a level frame on the canvas of scenario A. *)
Ltac level_fits :=
  rewrite frame_fits_level by lra; unfold cornersR, inside, canvasW, canvasH, imgW, imgH;
  cbn [width height canvasA img_width img_height Z.of_N fst snd].

Ltac level_fits_in H :=
  rewrite frame_fits_level in H by lra;
  unfold cornersR, inside, canvasW, canvasH, imgW, imgH in H;
  cbn [width height canvasA img_width img_height Z.of_N fst snd] in H.

(** Scenario B: a small image, inside the canvas at scale 1.  The bound of
    the frame is a scale of 8, which is a zoom of 0.16: the function stores
    0.15, not the maximum of the slider. *)
Definition imgS : Image := {| img_id := 2; img_width := 100; img_height := 100 |}.

(** The small image of scenario B is inside the canvas at scale 1, and
    [autoFitZoom] stores 0.15 for it, not 0.95. *)
Example scenario_B_autoFit :
  fits canvasA [(40, 50)] [(60, 50)] imgS 1 /\
  zoom (state (autoFitZoom (lone_world imgS 40 50 60))) = Fin (15 / 100).
Proof.
  split.
  - assert (H : frame_fits canvasA (2 / 100) (level_item imgS 40 50 60))
      by (level_fits; each; simpl; lra).
    unfold frame_fits, level_item in H. cbn [detections landmarks original] in H.
    destruct (eyes_flm [(40, 50)] [(60, 50)]) as [EL ER]. rewrite EL, ER in H.
    rewrite (eyeDist_single (r := 20)) in H by lra.
    replace (canvasW canvasA * (2 / 100) / 20) with 1 in H
      by (unfold canvasW; simpl; lra).
    exact H.
  - assert (Em : minSafeZoom canvasA (images (lone_state imgS 40 50 60)) = Fin (16 / 100)).
    { apply lone_minSafeZoom; [lra | reflexivity | lra | level_fits; each; simpl; lra |].
      intros t Ht H. level_fits_in H. inversion_clear H as [|? ? [_ H0] _].
      simpl in H0. lra. }
    assert (Hxu : 40 < 60) by lra.
    destruct (lone_autoFit imgS 50 Hxu eq_refl 15 Em) as [Hz _]; [lra | exact Hz].
Qed.

(** C33: the clamp can undo the fit.  Eyes 10 pixels apart in the image of
    scenario A: the smallest zoom is 0.008, the rounding makes it 0, the
    clamp 0.1, and at that zoom the top left corner of the image is painted
    far outside the canvas. *)
Example autoFitZoom_clamp_overflow :
  zoom (state (autoFitZoom (lone_world imgA 495 500 505))) = Fin (10 / 100) /\
  exists p,
    top_paint (renderFrame (ofNat 0) (state (autoFitZoom (lone_world imgA 495 500 505))))
      = Some p /\
    paint_at p (0, 0) = (- 4500, - 4600).
Proof.
  assert (Em : minSafeZoom canvasA (images (lone_state imgA 495 500 505)) = Fin (8 / 1000)).
  { apply lone_minSafeZoom; [lra | reflexivity | lra | level_fits; each; simpl; lra |].
    intros t Ht H. level_fits_in H. inversion_clear H as [|? ? [_ H0] _].
    simpl in H0. lra. }
  assert (Hxu : 495 < 505) by lra.
  destruct (lone_autoFit imgA 500 Hxu eq_refl 0 Em) as [Hz (p & Hp & Hat)]; [lra|].
  split; [exact Hz|]. exists p. split; [exact Hp|]. rewrite Hat.
  change (Z.max 10 (Z.min 100 0)) with 10%Z. f_equal; lra.
Qed.

(** Eyes 750 pixels apart in the image of scenario A: the smallest zoom is
    0.6, cut by the top edge, and with the margin the function stores
    0.57. *)
Example scenario_E_autoFit :
  zoom (state (autoFitZoom (lone_world imgA 100 500 850))) = Fin (57 / 100).
Proof.
  assert (Em : minSafeZoom canvasA (images (lone_state imgA 100 500 850)) = Fin (6 / 10)).
  { apply lone_minSafeZoom; [lra | reflexivity | lra | level_fits; each; simpl; lra |].
    intros t Ht H. level_fits_in H. inversion_clear H as [|? ? [_ H0] _].
    simpl in H0. lra. }
  assert (Hxu : 100 < 850) by lra.
  destruct (lone_autoFit imgA 500 Hxu eq_refl 57 Em) as [Hz _]; [lra | exact Hz].
Qed.

End ScenarioFit.

(** ** The bounds run on the rationals *)

Section RunQ.
Local Open Scope Q_scope.

Definition canvasQ : Canvas Q := {| width := 1000; height := 1000; ctx := ctx_init |}.

(** The first frame of scenario A, its rotation given: the bound is 4/5, cut
    by the top edge. *)
Example maxScale_Q :
  neqb (forEach (corners imgA)
          (boundCorner canvasQ (fpt (500, 500)) (Fin 1) (Fin 0)) PInf)
       (Fin (4 # 5)) = true.
Proof. vm_compute. reflexivity. Qed.

(** A corner on the axis of rotation bounds nothing. *)
Example boundAxis_zero_Q : boundAxis (Fin 1000) (Fin 500) (Fin 0) PInf = PInf.
Proof. vm_compute. reflexivity. Qed.

(** The margin, the rounding and the clamp: 0.16 becomes 0.15, 0.008 becomes
    0.1, 1 becomes 0.95, and [NaN] stays [NaN]. *)
Example clampedZoom_Q :
  neqb (clampedZoom (finalZoom (Fin (16 # 100)))) (Fin (15 # 100)) = true /\
  neqb (clampedZoom (finalZoom (Fin (8 # 1000)))) (Fin (1 # 10)) = true /\
  neqb (clampedZoom (finalZoom (Fin 1))) (Fin (95 # 100)) = true /\
  isNaN (clampedZoom (finalZoom (@NaN Q))) = true.
Proof. repeat split; vm_compute; reflexivity. Qed.

End RunQ.
