(* ===== verification/Transfer.v ===== *)
(** * Transfer: from the rationals to the reals

    The theorems are stated over the real numbers, the runs are computed
    over the rationals.  This file relates the two: a carrier that embeds in
    the reals, with the laws of the embedding as a class, the rationals as
    its instance, and the proof that the arithmetic of JavaScript numbers
    and the functions of the solver built from it commute with the
    embedding.  What a run over the rationals returns is therefore what the
    definition over the reals denotes. *)

From Stdlib Require Import ZArith QArith Qround Qreals Reals Zfloor Lra Lia Bool List.
From S2P Require Import Prelude.
From S2P Require Import Carrier.
From S2P Require Import JsNumber.
From S2P Require Import MathLib.
From S2P Require Import Canvas.
From S2P Require Import Geometry.
From S2P Require Import AppState.
From S2P Require Import Render.
From S2P Require Import AutoFit.
Import ListNotations.

Set Implicit Arguments.

(** A carrier whose operations are those of the reals on the image of an
    embedding. *)
Class Embedding (F : Type) {C : Carrier F} : Type := {
  toR : F -> R;
  toR_zero : toR Fzero = 0%R;
  toR_add : forall x y, toR (Fadd x y) = (toR x + toR y)%R;
  toR_sub : forall x y, toR (Fsub x y) = (toR x - toR y)%R;
  toR_mul : forall x y, toR (Fmul x y) = (toR x * toR y)%R;
  toR_div : forall x y, toR y <> 0%R -> toR (Fdiv x y) = (toR x / toR y)%R;
  toR_opp : forall x, toR (Fopp x) = (- toR x)%R;
  toR_ltb : forall x y, Fltb x y = Rltb (toR x) (toR y);
  toR_eqb : forall x y, Feqb x y = Reqb (toR x) (toR y);
  toR_ofZ : forall z, toR (FofZ z) = IZR z;
  toR_floor : forall x, Ffloor x = Zfloor (toR x)
}.

Arguments Embedding F {C}.

(** ** The rationals *)

Lemma Q2R_inject_Z z : Q2R (inject_Z z) = IZR z.
Proof. unfold Q2R, inject_Z. cbn. now rewrite Rinv_1, Rmult_1_r. Qed.

Lemma Qfloor_Zfloor q : Qfloor q = Zfloor (Q2R q).
Proof.
  pose proof (Qle_Rle _ _ (Qfloor_le q)) as H1. pose proof (Qlt_Rlt _ _ (Qlt_floor q)) as H2.
  rewrite Q2R_inject_Z in H1, H2. rewrite plus_IZR in H2.
  symmetry. apply Zfloor_eq. lra.
Qed.

Lemma Qltb_Rltb x y : negb (Qle_bool y x) = Rltb (Q2R x) (Q2R y).
Proof.
  destruct (Rltb_spec (Q2R x) (Q2R y)) as [H|H], (Qle_bool y x) eqn:E; try reflexivity.
  - apply Qle_bool_iff, Qle_Rle in E. lra.
  - apply Rle_Qle, Qle_bool_iff in H. congruence.
Qed.

Lemma Qeqb_Reqb x y : Qeq_bool x y = Reqb (Q2R x) (Q2R y).
Proof.
  destruct (Reqb_spec (Q2R x) (Q2R y)) as [H|H], (Qeq_bool x y) eqn:E; try reflexivity.
  - apply eqR_Qeq, Qeq_bool_iff in H. congruence.
  - apply Qeq_bool_iff, Qeq_eqR in E. contradiction.
Qed.

#[export, refine] Instance QEmbedding : Embedding Q := {| toR := Q2R |}.
Proof.
  - apply RMicromega.Q2R_0.
  - apply Q2R_plus.
  - apply Q2R_minus.
  - apply Q2R_mult.
  - intros x y Hy. apply Q2R_div. intros E. apply Qeq_eqR in E.
    rewrite RMicromega.Q2R_0 in E. contradiction.
  - apply Q2R_opp.
  - intros x y. apply Qltb_Rltb.
  - apply Qeqb_Reqb.
  - apply Q2R_inject_Z.
  - apply Qfloor_Zfloor.
Defined.

#[export, refine] Instance REmbedding : Embedding R := {| toR := fun x => x |}.
Proof. all: reflexivity. Defined.

(** ** The numbers of JavaScript *)

Section Lift.
Context {F : Type} {C : Carrier F} {E : Embedding F}.
Implicit Types a b : num F.
Implicit Types x y : F.

(** A number over the carrier, as a number over the reals. *)
Definition lift a : num R :=
  match a with
  | Fin x => Fin (toR x)
  | PInf => PInf
  | NInf => NInf
  | NaN => NaN
  end.

Definition liftP (p : Point F) : Point R := {| px := lift (px p); py := lift (py p) |}.

Lemma toR_eq0 x : Feqb x Fzero = Reqb (toR x) 0.
Proof. now rewrite toR_eqb, toR_zero. Qed.

Lemma toR_lt0 x : Fltb x Fzero = Rltb (toR x) 0.
Proof. now rewrite toR_ltb, toR_zero. Qed.

Lemma toR_gt0 x : Fltb Fzero x = Rltb 0 (toR x).
Proof. now rewrite toR_ltb, toR_zero. Qed.

Lemma toR_sgn x : Fsgn x = Fsgn (toR x).
Proof. unfold Fsgn. now rewrite toR_gt0, toR_lt0. Qed.

Lemma toR_dec n d : d <> 0%Z -> toR (Fdec n d) = Fdec n d.
Proof.
  intros Hd. unfold Fdec. rewrite toR_div, !toR_ofZ; [reflexivity|].
  rewrite toR_ofZ. now apply not_0_IZR.
Qed.

Lemma toR_trunc x : toR (Ftrunc x) = Ftrunc (toR x).
Proof.
  unfold Ftrunc. rewrite toR_lt0. change (Fltb (toR x) Fzero) with (Rltb (toR x) 0).
  destruct (Rltb _ _); rewrite ?toR_opp, toR_ofZ, toR_floor, ?toR_opp; reflexivity.
Qed.

Lemma lift_inf_of (s : comparison) : lift (inf_of s) = inf_of s.
Proof. now destruct s. Qed.

Lemma lift_isNaN a : isNaN (lift a) = isNaN a.
Proof. now destruct a. Qed.

Lemma lift_nneg a : lift (nneg a) = nneg (lift a).
Proof. destruct a; cbn; now rewrite ?toR_opp. Qed.

Lemma lift_nadd a b : lift (nadd a b) = nadd (lift a) (lift b).
Proof. destruct a, b; cbn; now rewrite ?toR_add. Qed.

Lemma lift_nsub a b : lift (nsub a b) = nsub (lift a) (lift b).
Proof. destruct a, b; cbn; now rewrite ?toR_sub. Qed.

Lemma lift_nmul a b : lift (nmul a b) = nmul (lift a) (lift b).
Proof.
  destruct a, b; cbn [nmul lift]; rewrite ?toR_mul, ?toR_sgn, ?lift_inf_of; reflexivity.
Qed.

Lemma lift_ndiv a b : lift (ndiv a b) = ndiv (lift a) (lift b).
Proof.
  destruct a as [x| | |], b as [y| | |]; cbn [ndiv lift]; rewrite ?toR_zero;
    try reflexivity.
  - rewrite toR_eq0. change (Feqb (toR y) Fzero) with (Reqb (toR y) 0).
    destruct (Reqb_spec (toR y) 0); [now rewrite lift_inf_of, toR_sgn|].
    cbn [lift]. now rewrite toR_div.
  - rewrite toR_lt0. change (Fltb (toR y) Fzero) with (Rltb (toR y) 0).
    now destruct (Rltb _ _).
  - rewrite toR_lt0. change (Fltb (toR y) Fzero) with (Rltb (toR y) 0).
    now destruct (Rltb _ _).
Qed.

Lemma lift_nltb a b : nltb (lift a) (lift b) = nltb a b.
Proof. destruct a, b; cbn; now rewrite ?toR_ltb. Qed.

Lemma lift_ngtb a b : ngtb (lift a) (lift b) = ngtb a b.
Proof. apply lift_nltb. Qed.

Lemma lift_ofZ z : lift (ofZ z) = ofZ z.
Proof. cbn. now rewrite toR_ofZ. Qed.

Lemma lift_ofN n : lift (ofN n) = ofN n.
Proof. apply lift_ofZ. Qed.

Lemma lift_dec n d : d <> 0%Z -> lift (dec n d) = dec n d.
Proof. intros Hd. cbn [dec lift]. now rewrite toR_dec. Qed.

Lemma lift_Math_min a b : lift (Math_min a b) = Math_min (lift a) (lift b).
Proof. unfold Math_min. rewrite !lift_isNaN, lift_nltb. now destruct (_ || _), (nltb b a). Qed.

Lemma lift_Math_max a b : lift (Math_max a b) = Math_max (lift a) (lift b).
Proof. unfold Math_max. rewrite !lift_isNaN, lift_nltb. now destruct (_ || _), (nltb a b). Qed.

Lemma lift_Math_floor a : lift (Math_floor a) = Math_floor (lift a).
Proof. destruct a; cbn; now rewrite ?toR_ofZ, ?toR_floor. Qed.

Lemma lift_Math_round a : lift (Math_round a) = Math_round (lift a).
Proof.
  destruct a; cbn [Math_round lift]; try reflexivity.
  now rewrite toR_ofZ, toR_floor, toR_add, toR_dec.
Qed.

Lemma lift_parseInt a : lift (parseInt a) = parseInt (lift a).
Proof. destruct a; cbn [parseInt lift]; now rewrite ?toR_trunc. Qed.

End Lift.

Create Rewrite HintDb transfer.
#[export] Hint Rewrite @lift_nneg @lift_nadd @lift_nsub @lift_nmul @lift_ndiv @lift_nltb
  @lift_ngtb @lift_ofZ @lift_ofN @lift_Math_min @lift_Math_max @lift_Math_floor
  @lift_Math_round @lift_parseInt @lift_isNaN : transfer.
#[export] Hint Rewrite @lift_dec using discriminate : transfer.

(** ** The solver *)

Section Solver.
Context {F : Type} {C : Carrier F} {E : Embedding F}.
Implicit Types a b : num F.

Lemma lift_if (c : bool) a b : lift (if c then a else b) = if c then lift a else lift b.
Proof. now destruct c. Qed.

(** The comparisons with [0]. *)
Lemma lift_gt0 a : ngtb (lift a) (ofZ 0) = ngtb a (ofZ 0).
Proof. now rewrite <- (lift_ofZ (F := F) 0), lift_ngtb. Qed.

Lemma lift_lt0 a : nltb (lift a) (ofZ 0) = nltb a (ofZ 0).
Proof. now rewrite <- (lift_ofZ (F := F) 0), lift_nltb. Qed.

(** A loop commutes with the embedding when its body does. *)
Lemma lift_forEach {A B} (h : A -> B) (xs : list A)
    (f : A -> act (num F)) (g : B -> act (num R)) :
  (forall x a, lift (f x a) = g (h x) (lift a)) ->
  forall a, lift (forEach xs f a) = forEach (map h xs) g (lift a).
Proof.
  intros H. induction xs as [|x xs IH]; intros a; [reflexivity|].
  cbn [map]. now rewrite !forEach_cons, IH, H.
Qed.

Lemma lift_boundAxis extent target rot a :
  lift (boundAxis extent target rot a) =
  boundAxis (lift extent) (lift target) (lift rot) (lift a).
Proof.
  unfold boundAxis. rewrite !lift_if, lift_gt0, lift_lt0.
  now autorewrite with transfer.
Qed.

(** The centroid of a cluster. *)
Lemma lift_addPoint (p q : Point F) : liftP (addPoint p q) = addPoint (liftP p) (liftP q).
Proof. unfold addPoint, liftP. cbn [px py]. now rewrite !lift_nadd. Qed.

Lemma lift_getCentroid (points : list (Point F)) :
  liftP (getCentroid points) = getCentroid (map liftP points).
Proof.
  unfold getCentroid. rewrite length_map.
  assert (H : forall acc, liftP (reduce addPoint acc points) =
                          reduce addPoint (liftP acc) (map liftP points)).
  { induction points as [|p ps IH]; intros acc; [reflexivity|].
    cbn [map]. now rewrite !reduce_cons, IH, lift_addPoint. }
  replace {| px := ofZ 0; py := ofZ 0 |} with (liftP {| px := ofZ 0; py := ofZ 0 |})
    by (unfold liftP; cbn [px py]; now rewrite !lift_ofZ).
  rewrite <- H. unfold liftP, ofNat. cbn [px py]. now rewrite !lift_ndiv, !lift_ofZ.
Qed.

(** Two canvases of one size. *)
Variable cv : Canvas F.
Variable cvR : Canvas R.
Hypothesis same_width : width cvR = width cv.
Hypothesis same_height : height cvR = height cv.

Lemma lift_targetX : lift (targetX cv) = targetX cvR.
Proof. unfold targetX. autorewrite with transfer. now rewrite same_width. Qed.

Lemma lift_targetY : lift (targetY cv) = targetY cvR.
Proof. unfold targetY. autorewrite with transfer. now rewrite same_height. Qed.

Lemma lift_boundCorner (e : Point F) c s (p : Point F) a :
  lift (boundCorner cv e c s p a) =
  boundCorner cvR (liftP e) (lift c) (lift s) (liftP p) (lift a).
Proof.
  unfold boundCorner, andThen. cbn zeta. rewrite !lift_boundAxis.
  autorewrite with transfer. rewrite lift_targetX, lift_targetY.
  now rewrite same_width, same_height.
Qed.

Lemma lift_corners img : map liftP (corners (F := F) img) = corners img.
Proof. unfold corners, liftP. cbn [map px py]. now rewrite !lift_ofN, !lift_ofZ. Qed.



(** The letterbox placement. *)
Lemma lift_fitScale img : lift (fitScale cv img) = fitScale cvR img.
Proof. unfold fitScale. autorewrite with transfer. now rewrite same_width, same_height. Qed.

Lemma lift_fitX img : lift (fitX cv img) = fitX cvR img.
Proof. unfold fitX. autorewrite with transfer. now rewrite lift_fitScale, same_width. Qed.

Lemma lift_fitY img : lift (fitY cv img) = fitY cvR img.
Proof. unfold fitY. autorewrite with transfer. now rewrite lift_fitScale, same_height. Qed.

Lemma lift_corner_loop img (e : Point F) c s a :
  lift (forEach (corners img) (boundCorner cv e c s) a) =
  forEach (corners img) (boundCorner cvR (liftP e) (lift c) (lift s)) (lift a).
Proof.
  rewrite <- (lift_corners img). apply lift_forEach. intros p b. apply lift_boundCorner.
Qed.


End Solver.

(** ** Scenarios *)

Section ScenarioTransfer.


Lemma Q2R_whole z : Q2R (z # 1) = IZR z.
Proof. apply Q2R_inject_Z. Qed.

(** The run over the rationals, read over the reals: in the first frame
    of scenario A, the eyes level, the bound on the scale is 4/5. *)
Example maxScale_from_run :
  forEach (corners imgA) (boundCorner canvasA (fpt (500, 500)%R) (Fin 1%R) (Fin 0%R)) PInf
  = Fin (4 / 5)%R.
Proof.
  pose proof (lift_corner_loop (E := QEmbedding) canvasQ canvasA eq_refl eq_refl
                imgA (fpt (500, 500)%Q) (Fin 1%Q) (Fin 0%Q) PInf) as H.
  match type of H with lift ?q = _ =>
    let v := eval vm_compute in q in change q with v in H
  end.
  unfold liftP, fpt in H. cbn [lift px py fst snd toR QEmbedding] in H.
  rewrite !Q2R_whole in H.
  etransitivity; [symmetry; exact H|]. f_equal. unfold Q2R. cbn. lra.
Qed.

End ScenarioTransfer.
