(* ===== verification/Playback.v ===== *)
(** * Playback: the loop that shows the frames, and what stops it

    [startPlayback] of script.js with its inner function [loop], and
    [resetApp].  The loop lives in the browser: each call of
    [requestAnimationFrame] leaves a callback that the browser runs at the
    next animation frame, with the time of the frame.  The model keeps the
    callbacks that wait, each with the variable [lastTime] of the call of
    [startPlayback] it belongs to, and runs them when an animation frame
    comes.  What happens to the page is a sequence of events: animation
    frames and calls of the functions. *)

From Stdlib Require Import ZArith Reals Zfloor Lra Lia Bool List String.
From S2P Require Import Prelude.
From S2P Require Import Carrier.
From S2P Require Import JsNumber.
From S2P Require Import MathLib.
From S2P Require Import Canvas.
From S2P Require Import Geometry.
From S2P Require Import AppState.
From S2P Require Import Render.
Import ListNotations.

Set Implicit Arguments.

(** A callback that waits for the next animation frame: the handle
    [requestAnimationFrame] returned for it, and the variable [lastTime] of
    the closure [loop]. *)
Record Callback (F : Type) : Type := {
  handle : nat;
  lastTime : num F
}.

(** The page in its browser: the two global objects, the callbacks that
    wait, and the handle the next request gets.  Handles are not 0. *)
Record Browser (F : Type) : Type := {
  world : World F;
  callbacks : list (Callback F);
  nextHandle : nat
}.

Section Playback.
Context {F : Type} {C : Carrier F} {M : MathOps F}.
Local Open Scope num_scope.

Definition on_world (f : act (World F)) : act (Browser F) := fun b =>
  {| world := f (world b); callbacks := callbacks b; nextHandle := nextHandle b |}.

(** [requestAnimationFrame(loop)], for the closure with this [lastTime]:
    the callback joins the end of the list; the result is its handle. *)
Definition requestAnimationFrame (lt : num F) (b : Browser F) : nat * Browser F :=
  (nextHandle b,
   {| world := world b;
      callbacks := callbacks b ++ [{| handle := nextHandle b; lastTime := lt |}];
      nextHandle := S (nextHandle b) |}).

Definition cancelAnimationFrame (id : nat) : act (Browser F) := fun b =>
  {| world := world b;
     callbacks := filter (fun cb => negb (Nat.eqb (handle cb) id)) (callbacks b);
     nextHandle := nextHandle b |}.

(** [if (state.animationId) cancelAnimationFrame(state.animationId)]:
    [null] and [0] are not true. *)
Definition cancelPending : act (Browser F) := fun b =>
  match animationId (state (world b)) with
  | Some (S n) => cancelAnimationFrame (S n) b
  | _ => b
  end.

(** The two statements of [loop] that show a frame and move to the next. *)
Definition advance : act (State F) := fun st =>
  let st := renderFrame (currentFrame st) st in
  set_currentFrame ((currentFrame st + 1) mod ofNat (List.length (images st))) st.

(** [loop(timestamp)], in the closure whose variable [lastTime] holds
    [lastTime]. *)
Definition loop (lastTime timestamp : num F) : act (Browser F) := fun b =>
  if negb (isPlaying (state (world b))) then b
  else
    let interval := ofZ 1000 / fps (state (world b)) in
    let due := timestamp - lastTime >? interval in
    let b := if due then on_world (on_state advance) b else b in
    let lastTime := if due then timestamp else lastTime in
    let (id, b) := requestAnimationFrame lastTime b in
    on_world (on_state (set_animationId (Some id))) b.

Definition startPlayback : act (Browser F) := fun b =>
  let b := cancelPending b in
  let b := on_world (on_state (set_isPlaying true ;; set_currentFrame 0)%act) b in
  snd (requestAnimationFrame 0 b).

Definition resetApp : act (Browser F) := fun b =>
  let b := on_world (on_state (set_isPlaying false)) b in
  let b := cancelPending b in
  on_world (on_state (set_images []) ;;
            on_elements (set_sections false true ;;
                         set_fileInput_value EmptyString))%act b.

(** The end of [handleFiles], after the loop over the files has filled
    [state.images]: the canvas takes the size of the first image and the
    player starts, or, with no image, the page goes back to the upload. *)
Definition handleFiles_finish : act (Browser F) := fun b =>
  match images (state (world b)) with
  | firstItem :: _ =>
      let firstImg := original firstItem in
      startPlayback
        (on_world (on_state (on_canvas (set_width (img_width firstImg) ;;
                                        set_height (img_height firstImg))) ;;
                   hideLoading)%act b)
  | [] => resetApp b
  end.

(** An animation frame at time [timestamp]: the browser runs the callbacks
    that waited, in the order of their requests; the requests they make wait
    for the next frame. *)
Definition animationFrame (timestamp : num F) : act (Browser F) := fun b =>
  forEach (callbacks b) (fun cb => loop (lastTime cb) timestamp)
    {| world := world b; callbacks := []; nextHandle := nextHandle b |}.

End Playback.

(** What happens to the page. *)
Inductive Event (F : Type) : Type :=
| Frame (timestamp : num F)
| Start
| Reset
| Loaded
| Act (f : act (World F)).

Arguments Start {F}.
Arguments Reset {F}.
Arguments Loaded {F}.

Section Events.
Context {F : Type} {C : Carrier F} {M : MathOps F}.

Definition step (e : Event F) : act (Browser F) :=
  match e with
  | Frame t => animationFrame t
  | Start => startPlayback
  | Reset => resetApp
  | Loaded => handleFiles_finish
  | Act f => on_world f
  end.

(** The events of a list, the first one first. *)
Definition run (es : list (Event F)) : act (Browser F) := forEach es step.

End Events.

(** ** What the loop does *)

Section Timeline.
Context {F : Type} {C : Carrier F} {M : MathOps F}.
Implicit Types b : Browser F.
Implicit Types t lt : num F.

(** No callback waits. *)
Definition quiet b : Prop := callbacks b = [].

(** One callback waits. *)
Definition single b : Prop := exists cb, callbacks b = [cb].

(** A handle is known when it is below the next one. *)
Definition known b (id : option nat) : Prop :=
  match id with Some n => n < nextHandle b | None => True end.

(** The handles of the callbacks and the one in [state.animationId] are
    known, and the next one is not 0. *)
Definition fresh b : Prop :=
  nextHandle b <> 0 /\ Forall (fun cb => handle cb < nextHandle b) (callbacks b) /\
  known b (animationId (state (world b))).

(** One callback waits and [state.animationId] holds its handle. *)
Definition tracked b : Prop :=
  exists cb, callbacks b = [cb] /\
             animationId (state (world b)) = Some (handle cb) /\ handle cb <> 0.

(** The timeline is at rest or in the hands of [state.animationId]. *)
Definition settled b : Prop := fresh b /\ (quiet b \/ tracked b).

(** [startPlayback] has run and no animation frame has come since. *)
Definition started b : Prop := fresh b /\ single b.

(** Is the frame due: [timestamp - lastTime > interval]. *)
Definition due lt t (st : State F) : bool :=
  ngtb (nsub t lt) (ndiv (ofZ 1000) (fps st)).

Lemma loop_stopped lt t b : isPlaying (state (world b)) = false -> loop lt t b = b.
Proof. intros H. unfold loop. now rewrite H. Qed.

(** [loop] while the player runs: the frame is shown and left behind when it
    is due, and in any case the closure waits for the next animation frame,
    its handle in [state.animationId]. *)
Lemma loop_playing lt t b :
  isPlaying (state (world b)) = true ->
  loop lt t b =
  {| world :=
       {| state := set_animationId (Some (nextHandle b))
                     (if due lt t (state (world b)) then advance (state (world b))
                      else state (world b));
          elements := elements (world b) |};
     callbacks := callbacks b ++
       [{| handle := nextHandle b;
           lastTime := if due lt t (state (world b)) then t else lt |}];
     nextHandle := S (nextHandle b) |}.
Proof.
  intros H. unfold loop, due. rewrite H. cbn [negb].
  now destruct (ngtb (nsub t lt) (ndiv (ofZ 1000) (fps (state (world b))))).
Qed.

Lemma advance_frame (st : State F) :
  images (advance st) = images st /\ isPlaying (advance st) = isPlaying st /\
  fps (advance st) = fps st /\ animationId (advance st) = animationId st /\
  zoom (advance st) = zoom st /\ alignEyes (advance st) = alignEyes st.
Proof.
  unfold advance. pose proof (renderFrame_frame (currentFrame st) st) as H.
  cbn zeta in H. cbn [set_currentFrame images isPlaying fps animationId zoom alignEyes].
  tauto.
Qed.

(** The frames stop as soon as the player is stopped: every callback that
    waited returns at its guard and none waits any more. *)
Lemma animationFrame_stopped t b :
  isPlaying (state (world b)) = false ->
  animationFrame t b =
  {| world := world b; callbacks := []; nextHandle := nextHandle b |}.
Proof.
  intros H. unfold animationFrame.
  apply forEach_invariant with (P := fun b' => b' = _); [|reflexivity].
  intros cb b' _ ->. now apply loop_stopped.
Qed.

(** One callback, player running: after the animation frame one callback
    waits again and [state.animationId] holds its handle. *)
Lemma animationFrame_single t b cb :
  callbacks b = [cb] -> isPlaying (state (world b)) = true ->
  animationFrame t b =
  {| world :=
       {| state := set_animationId (Some (nextHandle b))
                     (if due (lastTime cb) t (state (world b))
                      then advance (state (world b)) else state (world b));
          elements := elements (world b) |};
     callbacks :=
       [{| handle := nextHandle b;
           lastTime := if due (lastTime cb) t (state (world b)) then t
                       else lastTime cb |}];
     nextHandle := S (nextHandle b) |}.
Proof.
  intros Hcb Hp. unfold animationFrame. rewrite Hcb, forEach_cons, forEach_nil.
  now rewrite loop_playing.
Qed.

(** ** One timeline *)

(** An action of the page that does not write [state.animationId]. *)
Definition keeps_timeline (f : act (World F)) : Prop :=
  forall w, animationId (state (f w)) = animationId (state w).

Lemma fresh_on_world f b : keeps_timeline f -> fresh b -> fresh (on_world f b).
Proof. intros Hf (H0 & Hall & Hid). unfold fresh, known. cbn. now rewrite Hf. Qed.

Lemma fresh_request lt b :
  fresh b -> fresh (snd (requestAnimationFrame lt b)).
Proof.
  intros (H0 & Hall & Hid). split; [discriminate|].
  cbn [snd requestAnimationFrame callbacks nextHandle world]. split.
  - apply Forall_app. split.
    + revert Hall. apply Forall_impl. intros cb Hcb. lia.
    + apply Forall_cons; [cbn; lia | apply Forall_nil].
  - unfold known in *. destruct (animationId _); cbn; lia.
Qed.

Lemma cancelPending_world b : world (cancelPending b) = world b.
Proof. unfold cancelPending. now destruct (animationId _) as [[|n]|]. Qed.

Lemma cancelPending_nextHandle b : nextHandle (cancelPending b) = nextHandle b.
Proof. unfold cancelPending. now destruct (animationId _) as [[|n]|]. Qed.

(** What [cancelPending] leaves is part of what waited. *)
Lemma cancelPending_incl b : incl (callbacks (cancelPending b)) (callbacks b).
Proof.
  unfold cancelPending. destruct (animationId _) as [[|n]|]; try apply incl_refl.
  intros cb Hin. now apply filter_In in Hin.
Qed.

Lemma fresh_cancelPending b : fresh b -> fresh (cancelPending b).
Proof.
  intros (H0 & Hall & Hid). unfold fresh, known.
  rewrite cancelPending_nextHandle, cancelPending_world. repeat split; try assumption.
  rewrite Forall_forall in *. intros cb Hin. now apply Hall, cancelPending_incl.
Qed.

Lemma startPlayback_spec b :
  startPlayback b =
  {| world := on_state (set_isPlaying true ;; set_currentFrame (ofZ 0))%act (world b);
     callbacks := callbacks (cancelPending b) ++
                  [{| handle := nextHandle b; lastTime := ofZ 0 |}];
     nextHandle := S (nextHandle b) |}.
Proof.
  unfold startPlayback. cbn. now rewrite cancelPending_world, cancelPending_nextHandle.
Qed.

(** From a settled timeline [cancelPending] leaves no callback. *)
Lemma cancelPending_settled b : settled b -> quiet (cancelPending b).
Proof.
  intros [_ [Hq|(cb & Hcb & Hid & Hne)]]; unfold quiet, cancelPending in *.
  - destruct (animationId _) as [[|n]|]; cbn [cancelAnimationFrame callbacks];
      now rewrite Hq.
  - rewrite Hid. destruct (handle cb) as [|n] eqn:E; [contradiction|].
    cbn [cancelAnimationFrame callbacks]. rewrite Hcb. cbn [filter].
    now rewrite E, Nat.eqb_refl.
Qed.

(** [startPlayback] on a settled timeline: one callback waits, the player
    runs, the first frame is the current one. *)
Lemma startPlayback_started b :
  settled b ->
  started (startPlayback b) /\
  isPlaying (state (world (startPlayback b))) = true /\
  currentFrame (state (world (startPlayback b))) = ofZ 0 /\
  images (state (world (startPlayback b))) = images (state (world b)).
Proof.
  intros Hs. pose proof (cancelPending_settled Hs) as Hq. destruct Hs as [Hf _].
  apply fresh_cancelPending in Hf. unfold startPlayback, started, single.
  split; [split|].
  - apply fresh_request, fresh_on_world; [now intros w | assumption].
  - cbn. unfold quiet in Hq. rewrite Hq. cbn. eauto.
  - cbn. rewrite cancelPending_world. auto.
Qed.

(** An animation frame settles the timeline, whether [startPlayback] has
    just run or not. *)
Lemma animationFrame_settled t b :
  fresh b -> quiet b \/ single b -> settled (animationFrame t b).
Proof.
  intros (H0 & Hall & Hid) Hcase. destruct (isPlaying (state (world b))) eqn:Hp.
  - destruct Hcase as [Hq|[cb Hcb]].
    + unfold animationFrame. rewrite Hq. cbn. split; [|now left]. repeat split; auto.
    + rewrite (animationFrame_single _ _ Hcb Hp). split; [repeat split|right].
      * discriminate.
      * apply Forall_cons; [cbn; lia | apply Forall_nil].
      * cbn. lia.
      * eexists. cbn. repeat split. assumption.
  - rewrite animationFrame_stopped by assumption. split; [|now left]. repeat split; auto.
Qed.

Lemma run_cons (e : Event F) es b : run (e :: es) b = run es (step e b).
Proof. reflexivity. Qed.

Lemma run_app (es es' : list (Event F)) b : run (es ++ es') b = run es' (run es b).
Proof. apply forEach_app. Qed.

(** At most one callback waits. *)
Definition loose b : Prop := fresh b /\ (quiet b \/ single b).

Lemma settled_loose b : settled b -> loose b.
Proof.
  intros [Hf [Hq|(cb & Hcb & _)]]; split; auto. right. now exists cb.
Qed.

Lemma started_loose b : started b -> loose b.
Proof. intros [Hf Hs]. split; auto. Qed.

(** Part of at most one callback is at most one callback. *)
Lemma incl_loose (l l' : list (Callback F)) :
  NoDup l -> incl l l' -> l' = [] \/ (exists cb, l' = [cb]) ->
  l = [] \/ exists cb, l = [cb].
Proof.
  intros Hnd Hin [->|[cb ->]].
  - left. destruct l as [|x l]; [reflexivity|]. destruct (Hin x). now left.
  - destruct l as [|x [|y l]]; [now left | right; now exists x |].
    exfalso. inversion_clear Hnd as [|? ? Hx _]. apply Hx.
    destruct (Hin x) as [<-|[]]; [now left|].
    destruct (Hin y) as [<-|[]]; [right; now left | now left].
Qed.

Lemma cancelPending_loose b : loose b -> loose (cancelPending b).
Proof.
  intros [Hf Hc]. split; [now apply fresh_cancelPending|].
  apply incl_loose with (callbacks b); [|apply cancelPending_incl|assumption].
  unfold cancelPending. destruct (animationId _) as [[|n]|];
    cbn [cancelAnimationFrame callbacks]; try apply NoDup_filter;
    destruct Hc as [->|[cb ->]]; repeat constructor; auto.
Qed.

Lemma on_world_settled f b : keeps_timeline f -> settled b -> settled (on_world f b).
Proof.
  intros Hf [Hfr [Hq|(cb & Hcb & Hid & Hne)]]; split; auto using fresh_on_world.
  right. exists cb. cbn. now rewrite Hf.
Qed.

Lemma on_world_loose f b : keeps_timeline f -> loose b -> loose (on_world f b).
Proof. intros Hf [Hfr Hc]. split; auto using fresh_on_world. Qed.

Lemma resetApp_callbacks b : callbacks (resetApp b) = callbacks (cancelPending
  (on_world (on_state (set_isPlaying false)) b)).
Proof. reflexivity. Qed.

(** What [resetApp] does to the two global objects. *)
Lemma resetApp_world b :
  world (resetApp b) =
  (on_state (set_isPlaying false ;; set_images []) ;;
   on_elements (set_sections false true ;; set_fileInput_value EmptyString))%act (world b).
Proof. unfold resetApp. cbn. now rewrite cancelPending_world. Qed.

(** [resetApp] stops the player and empties the list of frames; on a
    settled timeline no callback is left. *)
Lemma resetApp_settled b :
  settled b ->
  quiet (resetApp b) /\ fresh (resetApp b) /\
  isPlaying (state (world (resetApp b))) = false /\
  images (state (world (resetApp b))) = [].
Proof.
  intros Hs.
  assert (Hs' : settled (on_world (on_state (set_isPlaying false)) b))
    by (apply on_world_settled; [now intros w | assumption]).
  pose proof (cancelPending_settled Hs') as Hq. destruct Hs' as [Hf _].
  apply fresh_cancelPending in Hf. unfold quiet. rewrite resetApp_callbacks.
  split; [assumption|]. split; [exact Hf|].
  unfold resetApp. cbn. rewrite cancelPending_world. cbn. auto.
Qed.

Lemma resetApp_loose b : loose b -> loose (resetApp b).
Proof.
  intros Hl. apply (on_world_loose (f := on_state (set_isPlaying false))) in Hl;
    [|now intros w].
  apply cancelPending_loose in Hl. destruct Hl as [(H0 & Hall & Hid) Hc].
  split; [|exact Hc]. repeat split; assumption.
Qed.

(** The end of [handleFiles] on a settled timeline leaves at most one
    callback. *)
Lemma handleFiles_finish_loose b : settled b -> loose (handleFiles_finish b).
Proof.
  intros Hs. unfold handleFiles_finish. destruct (images (state (world b))) as [|item items].
  - destruct (resetApp_settled Hs) as (Hq & Hf & _). split; auto.
  - apply started_loose, startPlayback_started, on_world_settled; [now intros w | assumption].
Qed.

(** The events come at the pace of the animation frames: between two
    [startPlayback] there is an animation frame.  The flag says whether
    [startPlayback] has run since the last one. *)
Fixpoint paced (afterStart : bool) (es : list (Event F)) : bool :=
  match es with
  | [] => true
  | Frame _ :: es => paced false es
  | Start :: es => negb afterStart && paced true es
  | Loaded :: es => negb afterStart && paced true es
  | Reset :: es => paced afterStart es
  | Act _ :: es => paced afterStart es
  end.

(** The actions among the events leave the timeline alone. *)
Definition tame (e : Event F) : Prop :=
  match e with Act f => keeps_timeline f | _ => True end.

Lemma step_paced e b (afterStart : bool) :
  tame e -> (if afterStart then loose b else settled b) ->
  match e with Start | Loaded => afterStart = false | _ => True end ->
  let afterStart' :=
    match e with Frame _ => false | Start | Loaded => true | _ => afterStart end in
  if afterStart' then loose (step e b) else settled (step e b).
Proof.
  intros Ht Hb Hs. destruct e as [t| | | |f]; cbn [step].
  - apply animationFrame_settled; destruct afterStart;
      try apply settled_loose in Hb; apply Hb.
  - subst afterStart. now apply started_loose, startPlayback_started.
  - destruct afterStart; [now apply resetApp_loose|].
    destruct (resetApp_settled Hb) as (Hq & Hf & _). split; auto.
  - subst afterStart. now apply handleFiles_finish_loose.
  - destruct afterStart; [now apply on_world_loose | now apply on_world_settled].
Qed.

Lemma run_paced es : forall b (afterStart : bool),
  Forall tame es -> paced afterStart es = true ->
  (if afterStart then loose b else settled b) -> loose (run es b).
Proof.
  induction es as [|e es IH]; intros b a Ht Hp Hb.
  - destruct a; [exact Hb | now apply settled_loose].
  - inversion_clear Ht as [|? ? He Hes]. unfold run. rewrite forEach_cons.
    pose proof (step_paced e b a He Hb) as Hstep.
    destruct e as [t| | | |f]; cbn [paced] in Hp; cbn zeta in Hstep.
    + apply (IH _ false); auto; exact (Hstep I).
    + apply andb_prop in Hp as [Ha Hp]. destruct a; [discriminate|].
      apply (IH _ true); auto; exact (Hstep eq_refl).
    + apply (IH _ a); auto; exact (Hstep I).
    + apply andb_prop in Hp as [Ha Hp]. destruct a; [discriminate|].
      apply (IH _ true); auto; exact (Hstep eq_refl).
    + apply (IH _ a); auto; exact (Hstep I).
Qed.

(** A single timeline: from a settled timeline, events at the pace of the
    animation frames never leave more than one callback waiting. *)
Theorem run_one_timeline es b :
  settled b -> Forall tame es -> paced false es = true ->
  (List.length (callbacks (run es b)) <= 1)%nat.
Proof.
  intros Hb Ht Hp. destruct (run_paced b false Ht Hp Hb) as [_ [Hq|[cb Hcb]]].
  - unfold quiet in Hq. rewrite Hq. cbn. lia.
  - rewrite Hcb. cbn. lia.
Qed.

End Timeline.

Section RealPlayback.
Context {M : MathOps R}.
Local Open Scope R_scope.
Implicit Types b : Browser R.
Implicit Types st : State R.

(** [state.currentFrame] is the index of a frame. *)
Definition valid_frame st : Prop :=
  exists k, currentFrame st = ofNat k /\ (k < List.length (images st))%nat.

(** Showing a frame and moving on: the frame shown is the current one, the
    next one is its successor, the first after the last. *)
Lemma advance_next st k :
  currentFrame st = ofNat k -> (k < List.length (images st))%nat ->
  currentFrame (advance st) = ofNat (S k mod List.length (images st)) /\
  canvas (advance st) = canvas (renderFrame (ofNat k) st).
Proof.
  intros Hk Hlt. unfold advance. rewrite Hk.
  destruct (renderFrame_frame (ofNat k) st) as (Hi & _ & _ & _ & Hc & _).
  cbn [set_currentFrame currentFrame canvas]. rewrite Hi, Hc, Hk.
  split; [|reflexivity]. rewrite nadd_ofNat_1. apply nrem_nat. lia.
Qed.

Lemma advance_valid st : valid_frame st -> valid_frame (advance st).
Proof.
  intros (k & Hk & Hlt). destruct (advance_next st Hk Hlt) as [Hn _].
  destruct (advance_frame st) as (Hi & _). unfold valid_frame. rewrite Hi, Hn.
  eexists. split; [reflexivity|]. apply Nat.mod_upper_bound. lia.
Qed.

(** With no frame in the list the next index is [NaN]. *)
Lemma advance_no_frames st : images st = [] -> currentFrame (advance st) = NaN.
Proof.
  intros Hi. unfold advance.
  destruct (renderFrame_frame (currentFrame st) st) as (Hi' & _ & _ & _ & Hc & _).
  cbn [set_currentFrame currentFrame]. rewrite Hi', Hc, Hi.
  destruct (currentFrame st); try reflexivity. apply nrem_zero.
Qed.

(** ** When a frame is due *)

Lemma due_fin st lt t f :
  fps st = Fin f -> f <> 0 -> due (Fin lt) (Fin t) st = Rltb (1000 / f) (t - lt).
Proof.
  intros Hf Hf0. unfold due, ngtb. rewrite Hf. change (ofZ 1000) with (@Fin R 1000).
  now rewrite ndiv_fin.
Qed.

(** The comparison is strict: a frame that comes exactly one interval after
    the last one shown is not due. *)
Lemma due_exact st lt t f :
  fps st = Fin f -> 0 < f -> t - lt = 1000 / f -> due (Fin lt) (Fin t) st = false.
Proof.
  intros Hf Hf0 E. rewrite due_fin with (f := f) by (assumption || lra). apply Rltb_false. lra.
Qed.

(** At 0 frames per second, and at [NaN], no frame is ever due. *)
Lemma due_never st lt t :
  fps st = Fin 0 \/ fps st = NaN -> due (Fin lt) (Fin t) st = false.
Proof.
  intros [Hf|Hf]; unfold due, ngtb; rewrite Hf; change (ofZ 1000) with (@Fin R 1000).
  - now rewrite ndiv_pos_zero by lra.
  - reflexivity.
Qed.

(** ** The index stays an index *)

Lemma loop_valid_frame lt t b :
  valid_frame (state (world b)) ->
  valid_frame (state (world (loop lt t b))) /\
  images (state (world (loop lt t b))) = images (state (world b)).
Proof.
  intros Hv. destruct (isPlaying (state (world b))) eqn:Hp.
  - rewrite loop_playing by assumption. cbn [world state].
    destruct (due lt t (state (world b))); cbn [set_animationId images currentFrame].
    + destruct (advance_frame (state (world b))) as (Hi & _).
      apply advance_valid in Hv. split; [exact Hv | exact Hi].
    + split; [exact Hv | reflexivity].
  - rewrite loop_stopped by assumption. auto.
Qed.

Lemma animationFrame_valid_frame t b :
  valid_frame (state (world b)) ->
  valid_frame (state (world (animationFrame t b))) /\
  images (state (world (animationFrame t b))) = images (state (world b)).
Proof.
  intros Hv. unfold animationFrame.
  apply forEach_invariant with
    (P := fun b' => valid_frame (state (world b')) /\
                    images (state (world b')) = images (state (world b))).
  - intros cb b' _ [Hv' Hi']. destruct (loop_valid_frame (lastTime cb) t b' Hv') as [H1 H2].
    split; [assumption | congruence].
  - auto.
Qed.

(** An action of the page that changes neither the frames nor the index. *)
Definition keeps_frames (f : act (World R)) : Prop :=
  forall w, images (state (f w)) = images (state w) /\
            currentFrame (state (f w)) = currentFrame (state w).

(** The events that show frames: all but [resetApp], the actions leaving
    the frames alone. *)
Definition showing (e : Event R) : Prop :=
  match e with Reset => False | Act f => keeps_frames f | _ => True end.

Lemma step_valid_frame e b :
  showing e -> images (state (world b)) <> [] -> valid_frame (state (world b)) ->
  valid_frame (state (world (step e b))) /\
  images (state (world (step e b))) = images (state (world b)).
Proof.
  intros He Hne Hv. destruct e as [t| | | |f]; cbn [step]; try contradiction.
  - now apply animationFrame_valid_frame.
  - unfold startPlayback. cbn. rewrite cancelPending_world. split; [|reflexivity].
    exists 0%nat. split; [reflexivity|]. destruct (images _); [contradiction | cbn; lia].
  - unfold handleFiles_finish. destruct (images (state (world b))) as [|item items] eqn:E;
      [contradiction|].
    rewrite startPlayback_spec. unfold andThen, valid_frame.
    cbn [world state on_world on_state on_canvas hideLoading on_elements images
         currentFrame set_isPlaying set_currentFrame]. rewrite E.
    split; [|reflexivity]. exists 0%nat. split; [reflexivity | cbn; lia].
  - destruct (He (world b)) as [Hi Hc]. unfold valid_frame. cbn [on_world world].
    now rewrite Hi, Hc.
Qed.

(** While frames are shown, [state.currentFrame] is the index of a frame,
    however many loops run and whatever the times of the animation frames. *)
Theorem run_valid_frame es : forall b,
  Forall showing es -> images (state (world b)) <> [] ->
  valid_frame (state (world b)) ->
  valid_frame (state (world (run es b))) /\
  images (state (world (run es b))) = images (state (world b)).
Proof.
  induction es as [|e es IH]; intros b Hes Hne Hv; [auto|].
  inversion_clear Hes as [|? ? He Hes']. rewrite run_cons.
  destruct (step_valid_frame e b He Hne Hv) as [Hv' Hi'].
  destruct (IH (step e b) Hes') as [Hv'' Hi'']; [now rewrite Hi' | assumption |].
  split; [exact Hv'' | congruence].
Qed.

(** ** One animation frame of one loop *)

Section OneLoop.
Variables (b : Browser R) (cb : Callback R) (k : nat) (t : num R).
Hypothesis Hcb : callbacks b = [cb].
Hypothesis Hplaying : isPlaying (state (world b)) = true.
Hypothesis Hk : currentFrame (state (world b)) = ofNat k.
Hypothesis Hlt : (k < List.length (images (state (world b))))%nat.

(** Whatever the rate and the time: the frame either stays, and nothing is
    painted, or it is painted and its successor becomes the current one.  No
    frame is skipped and none is shown twice in a row by one animation
    frame. *)
Theorem animationFrame_shows_next :
  let st := state (world b) in
  let st' := state (world (animationFrame t b)) in
  if due (lastTime cb) t st
  then currentFrame st' = ofNat (S k mod List.length (images st)) /\
       canvas st' = canvas (renderFrame (ofNat k) st) /\
       map (@lastTime R) (callbacks (animationFrame t b)) = [t]
  else currentFrame st' = ofNat k /\ canvas st' = canvas st /\
       map (@lastTime R) (callbacks (animationFrame t b)) = [lastTime cb].
Proof.
  intros st st'. subst st st'. rewrite (animationFrame_single t b Hcb Hplaying).
  cbn [world state callbacks map lastTime].
  destruct (due (lastTime cb) t (state (world b)));
    cbn [set_animationId currentFrame canvas].
  - destruct (advance_next _ Hk Hlt) as [Hn Hc]. auto.
  - auto.
Qed.

End OneLoop.

(** ** The frames in their order *)

(** Every time of the list comes more than one interval after the one
    before, the first after [lt]. *)
Fixpoint spaced (f lt : R) (ts : list R) : Prop :=
  match ts with
  | [] => True
  | t :: ts => 1000 / f < t - lt /\ spaced f t ts
  end.

Definition frames (ts : list R) : list (Event R) := map (fun t => Frame (Fin t)) ts.

(** One loop whose every animation frame is due. *)
Lemma frames_cycle f ts : forall b cb k lt,
  callbacks b = [cb] -> lastTime cb = Fin lt ->
  isPlaying (state (world b)) = true -> fps (state (world b)) = Fin f -> 0 < f ->
  currentFrame (state (world b)) = ofNat k ->
  (k < List.length (images (state (world b))))%nat ->
  spaced f lt ts ->
  currentFrame (state (world (run (frames ts) b))) =
  ofNat ((k + List.length ts) mod List.length (images (state (world b)))).
Proof.
  induction ts as [|t ts IH]; intros b cb k lt Hcb Hl Hp Hf Hf0 Hk Hlt Hsp.
  - cbn. rewrite Nat.add_0_r, Nat.mod_small by assumption. exact Hk.
  - destruct Hsp as [Hdue Hsp]. cbn [frames map]. fold (frames ts). rewrite run_cons.
    cbn [step]. rewrite (animationFrame_single _ b Hcb Hp), Hl.
    rewrite due_fin with (f := f) by (assumption || lra). rewrite Rltb_true by lra.
    destruct (advance_next _ Hk Hlt) as [Hn _].
    destruct (advance_frame (state (world b))) as (Hi & Hp' & Hf' & _).
    erewrite (IH _ _ (S k mod List.length (images (state (world b)))) t);
      cbn [callbacks world state set_animationId images isPlaying fps currentFrame lastTime];
      rewrite ?Hi, ?Hp', ?Hf'; try reflexivity; try eassumption.
    + f_equal. cbn [List.length]. rewrite Nat.Div0.add_mod_idemp_l. f_equal. lia.
    + apply Nat.mod_upper_bound. lia.
Qed.

(** After [startPlayback], animation frames that come more than an interval
    apart show the frames in their order, round and round: after [j] of them
    the current frame is [j mod n]. *)
Theorem playback_cycle b f ts :
  settled b -> images (state (world b)) <> [] ->
  fps (state (world b)) = Fin f -> 0 < f -> spaced f 0 ts ->
  currentFrame (state (world (run (Start :: frames ts) b))) =
  ofNat (List.length ts mod List.length (images (state (world b)))).
Proof.
  intros Hs Hne Hf Hf0 Hsp. rewrite run_cons. cbn [step].
  destruct (startPlayback_started Hs) as ([_ [cb Hcb]] & Hp & Hk & Hi).
  assert (Hl : lastTime cb = Fin 0).
  { unfold startPlayback in Hcb. cbn in Hcb.
    apply (f_equal (@rev _)) in Hcb. rewrite rev_app_distr in Hcb. cbn in Hcb.
    now injection Hcb as <- _. }
  assert (Hf' : fps (state (world (startPlayback b))) = Fin f)
    by (unfold startPlayback; cbn; now rewrite cancelPending_world).
  assert (Hlt : (0 < List.length (images (state (world (startPlayback b)))))%nat)
    by (rewrite Hi; destruct (images (state (world b))); [contradiction | cbn; lia]).
  erewrite frames_cycle with (cb := cb) (lt := 0) (k := 0%nat) (f := f);
    try eassumption. now rewrite Hi.
Qed.

(** C29: after [resetApp] on a settled timeline no animation frame paints or
    changes anything: the page stays as [resetApp] left it. *)
Theorem resetApp_stops b ts :
  settled b -> world (run (Reset :: frames ts) b) = world (resetApp b).
Proof.
  intros Hs. rewrite run_cons. cbn [step].
  destruct (resetApp_settled Hs) as (_ & _ & Hp & _). revert Hp.
  generalize (resetApp b). clear. induction ts as [|t ts IH]; intros b Hp; [reflexivity|].
  cbn [frames map]. fold (frames ts). rewrite run_cons. cbn [step].
  rewrite animationFrame_stopped by assumption. now rewrite IH.
Qed.

(** A loop whose frame is due, seen from outside. *)
Lemma loop_due b f lt t k :
  isPlaying (state (world b)) = true -> fps (state (world b)) = Fin f -> 0 < f ->
  1000 / f < t - lt ->
  currentFrame (state (world b)) = ofNat k ->
  (k < List.length (images (state (world b))))%nat ->
  let b' := loop (Fin lt) (Fin t) b in
  isPlaying (state (world b')) = true /\ fps (state (world b')) = Fin f /\
  images (state (world b')) = images (state (world b)) /\
  currentFrame (state (world b')) = ofNat (S k mod List.length (images (state (world b)))) /\
  List.length (callbacks b') = S (List.length (callbacks b)).
Proof.
  intros Hp Hf Hf0 Hdue Hk Hlt b'. subst b'. rewrite loop_playing by assumption.
  rewrite due_fin with (f := f) by (assumption || lra). rewrite Rltb_true by lra.
  destruct (advance_next _ Hk Hlt) as [Hn _].
  destruct (advance_frame (state (world b))) as (Hi & Hp' & Hf' & _).
  cbn [world state callbacks set_animationId isPlaying fps images currentFrame].
  rewrite Hp', Hf', Hi, Hn, length_app. cbn. repeat split; auto. lia.
Qed.

(** [cancelPending] cancels nothing when no callback has the handle in
    [state.animationId]. *)
Lemma cancelPending_untracked b :
  (forall cb, In cb (callbacks b) -> animationId (state (world b)) <> Some (handle cb)) ->
  cancelPending b = b.
Proof.
  intros H. unfold cancelPending. destruct (animationId _) as [[|n]|] eqn:E; try reflexivity.
  unfold cancelAnimationFrame. destruct b as [w cbs nh]. cbn in *. f_equal.
  apply forallb_filter_id, forallb_forall. intros cb Hin.
  apply negb_true_iff, Nat.eqb_neq. intros Heq. apply (H cb Hin). now rewrite Heq.
Qed.

(** C34: [startPlayback] twice with no animation frame between: the first loop
    is not cancelled, two loops wait, and the next animation frame shows two
    frames, the first under the second, and moves on by two. *)
Theorem startPlayback_twice b f t :
  settled b -> images (state (world b)) <> [] ->
  fps (state (world b)) = Fin f -> 0 < f -> 1000 / f < t ->
  let b' := run [Start; Start; Frame (Fin t)] b in
  List.length (callbacks b') = 2%nat /\
  currentFrame (state (world b')) = ofNat (2 mod List.length (images (state (world b)))).
Proof.
  intros Hs Hne Hf Hf0 Ht b'. subst b'. rewrite !run_cons. cbn [run forEach fold_left step].
  pose proof (cancelPending_settled Hs) as Hq. destruct Hs as [(Hn0 & _ & Hid) _].
  unfold quiet in Hq.
  assert (Hc1 : cancelPending (startPlayback b) = startPlayback b).
  { apply cancelPending_untracked. rewrite (startPlayback_spec b), Hq.
    intros cb [<-|[]]. cbn. unfold known in Hid.
    destruct (animationId _); [|discriminate]. intros [= ->]. lia. }
  assert (Hlen : (0 < List.length (images (state (world b))))%nat)
    by (destruct (images (state (world b))); [contradiction | cbn; lia]).
  rewrite (startPlayback_spec (startPlayback b)), Hc1, (startPlayback_spec b), Hq.
  unfold animationFrame. cbn [callbacks app forEach fold_left lastTime world nextHandle].
  cbn [on_state state elements andThen]. change (ofZ 0) with (@Fin R 0).
  set (b0 := {| world := _; callbacks := []; nextHandle := _ |}).
  destruct (loop_due b0 (f := f) (lt := 0) (t := t) (k := 0))
    as (Hp1 & Hf1 & Hi1 & Hk1 & Hl1); try (reflexivity || assumption || lra).
  destruct (loop_due (loop (Fin 0) (Fin t) b0) (f := f) (lt := 0) (t := t)
              (k := 1 mod List.length (images (state (world b)))))
    as (Hp2 & Hf2 & Hi2 & Hk2 & Hl2); try (assumption || lra).
  { rewrite Hi1. apply Nat.mod_upper_bound. cbn. lia. }
  rewrite Hl2, Hl1, Hk2, Hi1. split; [reflexivity|]. cbn [b0 world state images set_currentFrame set_isPlaying].
  f_equal. change 2%nat with (1 + 1)%nat. change (S ?x) with (1 + x)%nat.
  now rewrite Nat.Div0.add_mod_idemp_r.
Qed.

End RealPlayback.

(** ** The context of the canvas along the events *)

Section Context.
Context {F : Type} {C : Carrier F} {M : MathOps F}.
Implicit Types b : Browser F.

(** The context is as the render functions expect it: the identity for
    matrix, nothing saved. *)
Definition plain (w : World F) : Prop :=
  ctm (ctx (canvas (state w))) = mat_id /\ saved (ctx (canvas (state w))) = [].

(** An action of the page that leaves the context plain. *)
Definition keeps_plain (f : act (World F)) : Prop := forall w, plain w -> plain (f w).

Lemma renderFrame_plain index (w : World F) :
  plain w -> plain (on_state (renderFrame index) w).
Proof.
  intros [Hc Hs]. destruct (renderFrame_context index (state w)) as (Hc' & Hs' & _).
  unfold plain. cbn [on_state state]. now rewrite Hc', Hs'.
Qed.

Lemma loop_plain lt t b : plain (world b) -> plain (world (loop lt t b)).
Proof.
  intros Hp. destruct (isPlaying (state (world b))) eqn:E.
  - rewrite loop_playing by assumption. destruct (due lt t (state (world b))); [|exact Hp].
    apply (renderFrame_plain (currentFrame (state (world b)))) in Hp. exact Hp.
  - now rewrite loop_stopped.
Qed.

Lemma animationFrame_plain t b : plain (world b) -> plain (world (animationFrame t b)).
Proof.
  intros Hp. unfold animationFrame.
  apply forEach_invariant with (P := fun b' => plain (world b')); [|exact Hp].
  intros cb b' _. apply loop_plain.
Qed.

(** When frames were loaded the end of [handleFiles] gives the canvas the
    size of the first image, which puts the context in its initial state,
    hides the overlay and starts the player at the first frame. *)
Theorem handleFiles_finish_ready b item items :
  images (state (world b)) = item :: items ->
  let b' := handleFiles_finish b in
  width (canvas (state (world b'))) = img_width (original item) /\
  height (canvas (state (world b'))) = img_height (original item) /\
  ctx (canvas (state (world b'))) = ctx_init /\
  isPlaying (state (world b')) = true /\
  currentFrame (state (world b')) = ofZ 0 /\
  images (state (world b')) = item :: items /\
  loadingOverlay_hidden (elements (world b')) = true.
Proof.
  intros Hi b'. subst b'. unfold handleFiles_finish. rewrite Hi, startPlayback_spec.
  cbn. auto 10.
Qed.

(** With no frame loaded it is [resetApp]. *)
Lemma handleFiles_finish_none b :
  images (state (world b)) = [] -> handleFiles_finish b = resetApp b.
Proof. intros Hi. unfold handleFiles_finish. now rewrite Hi. Qed.

(** The actions among the events leave the context plain. *)
Definition orderly (e : Event F) : Prop :=
  match e with Act f => keeps_plain f | _ => True end.

Lemma step_plain e b : orderly e -> plain (world b) -> plain (world (step e b)).
Proof.
  intros He Hp. destruct e as [t| | | |f]; cbn [step].
  - now apply animationFrame_plain.
  - rewrite startPlayback_spec. exact Hp.
  - unfold resetApp. cbn. rewrite cancelPending_world. exact Hp.
  - unfold handleFiles_finish. destruct (images (state (world b))).
    + unfold resetApp. cbn. rewrite cancelPending_world. exact Hp.
    + rewrite startPlayback_spec. split; reflexivity.
  - now apply He.
Qed.

(** Whatever happens to the page, [renderFrame] finds the context as it
    left it: once plain, always plain. *)
Theorem run_plain es : forall b,
  Forall orderly es -> plain (world b) -> plain (world (run es b)).
Proof.
  induction es as [|e es IH]; intros b Hes Hp; [exact Hp|].
  inversion_clear Hes as [|? ? He Hes']. rewrite run_cons.
  apply IH; [assumption | now apply step_plain].
Qed.

End Context.

(** ** Scenarios *)

Section ScenarioPlay.
Local Open Scope R_scope.

(** The page of scenario A in a browser where no callback waits. *)
Definition browserA : Browser R :=
  {| world := worldA; callbacks := []; nextHandle := 1 |}.

Lemma browserA_settled : settled browserA.
Proof.
  split; [|now left]. split; [discriminate|]. split; [apply Forall_nil | exact I].
Qed.

Ltac events :=
  repeat match goal with
         | |- Forall _ (_ :: _) => apply Forall_cons
         | |- Forall _ [] => apply Forall_nil
         end; cbn [tame showing orderly]; try exact I.

(** A change of the rate between two animation frames. *)
Definition slowDown : act (World R) := on_state (set_fps (Fin 2)).

(** A session: the player starts, the rate changes, the page is reset and
    new frames are loaded. *)
Definition sessionA : list (Event R) :=
  [Start; Frame (Fin 200); Act slowDown; Frame (Fin 400); Reset; Frame (Fin 600); Loaded].

Lemma run_one_timeline_witness :
  (List.length (callbacks (run sessionA browserA)) <= 1)%nat.
Proof.
  apply (run_one_timeline (M := StdMath));
    [exact browserA_settled | unfold sessionA; events; now intros w | reflexivity].
Defined.

Lemma run_valid_frame_witness :
  let es := [Start; Frame (Fin 200); Act slowDown; Frame (Fin 400)] in
  valid_frame (state (world (run es browserA))) /\
  images (state (world (run es browserA))) = images (state (world browserA)).
Proof.
  apply (run_valid_frame (M := StdMath));
    [events; now intros w | discriminate | exists 0%nat; split; [reflexivity | cbn; lia]].
Defined.

Lemma animationFrame_shows_next_witness :
  let b := startPlayback browserA in
  let cb := {| handle := 1; lastTime := ofZ 0 |} in
  let st := state (world b) in
  let st' := state (world (animationFrame (Fin 200) b)) in
  if due (lastTime cb) (Fin 200) st
  then currentFrame st' = ofNat (1 mod List.length (images st)) /\
       canvas st' = canvas (renderFrame (ofNat 0) st) /\
       map (@lastTime R) (callbacks (animationFrame (Fin 200) b)) = [Fin 200]
  else currentFrame st' = ofNat 0 /\ canvas st' = canvas st /\
       map (@lastTime R) (callbacks (animationFrame (Fin 200) b)) = [lastTime cb].
Proof.
  apply (animationFrame_shows_next (M := StdMath) (startPlayback browserA)
           (cb := {| handle := 1; lastTime := ofZ 0 |}) (k := 0) (Fin 200));
    [reflexivity | reflexivity | reflexivity | cbn; lia].
Defined.

Lemma playback_cycle_witness :
  currentFrame (state (world (run (Start :: frames [200; 400; 600]) browserA))) =
  ofNat (3 mod 2).
Proof.
  apply (@playback_cycle StdMath browserA 10 [200; 400; 600]);
    [exact browserA_settled | discriminate | reflexivity | lra | cbn; lra].
Defined.

Lemma resetApp_stops_witness :
  world (run (Reset :: frames [200; 400]) browserA) = world (resetApp browserA).
Proof. apply (resetApp_stops (M := StdMath)). exact browserA_settled. Defined.

Lemma startPlayback_twice_witness :
  let b' := run [Start; Start; Frame (Fin 200)] browserA in
  List.length (callbacks b') = 2%nat /\
  currentFrame (state (world b')) = ofNat (2 mod 2).
Proof.
  apply (@startPlayback_twice StdMath browserA 10 200);
    [exact browserA_settled | discriminate | reflexivity | lra | lra].
Defined.

Lemma due_exact_witness : due (Fin 0) (Fin 100) stateA = false.
Proof. apply due_exact with (f := 10); [reflexivity | lra | lra]. Defined.

Lemma advance_no_frames_witness :
  currentFrame (advance (state_init canvasA)) = NaN.
Proof. apply (advance_no_frames (M := StdMath)). reflexivity. Defined.

Lemma handleFiles_finish_ready_witness :
  let b' := handleFiles_finish browserA in
  width (canvas (state (world b'))) = img_width (original (itemA lmA1)) /\
  height (canvas (state (world b'))) = img_height (original (itemA lmA1)) /\
  ctx (canvas (state (world b'))) = ctx_init /\
  isPlaying (state (world b')) = true /\
  currentFrame (state (world b')) = ofZ 0 /\
  images (state (world b')) = [itemA lmA1; itemA lmA2] /\
  loadingOverlay_hidden (elements (world b')) = true.
Proof. apply (handleFiles_finish_ready browserA). reflexivity. Defined.

Lemma run_plain_witness :
  plain (world (run [Loaded; Frame (Fin 200); Act slowDown; Frame (Fin 400)] browserA)).
Proof.
  apply (run_plain (M := StdMath)); [|split; reflexivity].
  events. intros w Hw. exact Hw.
Defined.

End ScenarioPlay.

(** ** What the player shows *)

Section Shown.
Context {M : MathOps R} {L : MathLaws M}.
Local Open Scope R_scope.
Variables (b : Browser R) (cb : Callback R) (k : nat) (t : num R).
Variables (img : Image) (Lp Rp : list (R * R)) (z : R).
Hypothesis Hcb : callbacks b = [cb].
Hypothesis Hplaying : isPlaying (state (world b)) = true.
Hypothesis Hdue : due (lastTime cb) t (state (world b)) = true.
Hypothesis Hk : currentFrame (state (world b)) = ofNat k.
Hypothesis Hitem :
  nth_error (images (state (world b))) k =
  Some {| original := img; detections := Some {| landmarks := flm Lp Rp |} |}.
Hypothesis Halign : alignEyes (state (world b)) = true.
Hypothesis Hzoom : zoom (state (world b)) = Fin z.
Hypothesis HL : Lp <> [].
Hypothesis HR : Rp <> [].
Hypothesis Heyes : mean Lp <> mean Rp.
Hypothesis Husable : usable img = true.
Hypothesis Hplain : plain (world b).

(** The player shows the faces eye on eye.  When the loop finds a frame
    due, what is on top of the canvas after the animation frame is the image
    of the current frame, the midpoint of its eyes at 50% of the width and
    40% of the height of the canvas, and the next frame is the current
    one. *)
Theorem playback_centers_eyes :
  let st := state (world b) in
  let st' := state (world (animationFrame t b)) in
  currentFrame st' = ofNat (S k mod List.length (images st)) /\
  exists p, top_paint st' = Some p /\
            paint_at p (pt_val (eyesCenter (flm Lp Rp))) =
            (nval (targetX (canvas st)), nval (targetY (canvas st))).
Proof.
  intros st st'. subst st st'.
  pose proof (nth_error_Some_lt _ _ Hitem) as Hlt.
  rewrite (animationFrame_single t b Hcb Hplaying), Hdue.
  destruct (advance_next _ Hk Hlt) as [Hn Hc].
  cbn [world state set_animationId currentFrame]. split; [exact Hn|].
  destruct Hplain as [Hctm _].
  destruct (renderFrame_eye_mid (state (world b)) k Hitem Halign Hzoom HL HR Heyes Husable
              Hctm)
    as (p & Hp & Hat).
  exists p. rewrite eyesCenter_fin, pt_val_fpt, target_fin by assumption.
  split; [|exact Hat]. unfold top_paint in *.
  cbn [set_animationId canvas]. now rewrite Hc.
Qed.

End Shown.

Section ScenarioShown.
Local Open Scope R_scope.

Lemma playback_centers_eyes_witness :
  let b := startPlayback browserA in
  let st := state (world b) in
  let st' := state (world (animationFrame (Fin 200) b)) in
  currentFrame st' = ofNat (1 mod List.length (images st)) /\
  exists p, top_paint st' = Some p /\
            paint_at p (pt_val (eyesCenter lmA1)) =
            (nval (targetX (canvas st)), nval (targetY (canvas st))).
Proof.
  apply (playback_centers_eyes (L := StdMathLaws) (startPlayback browserA)
           (cb := {| handle := 1; lastTime := ofZ 0 |}) (k := 0) (Fin 200)
           (img := imgA) (Lp := [(400, 500)]) (Rp := [(600, 500)]) (z := 25 / 100));
    [reflexivity | reflexivity | | reflexivity | reflexivity | reflexivity | reflexivity
    | discriminate | discriminate | exact eyesA1 | reflexivity | split; reflexivity].
  cbn [lastTime]. change (ofZ 0) with (@Fin R 0).
  rewrite due_fin with (f := 10) by (reflexivity || lra). apply Rltb_true. lra.
Defined.

End ScenarioShown.
