(* ===== verification/Controls.v ===== *)
(** * Controls: the handlers of the sliders and of the alignment buttons

    The two [input] listeners that [setupEventListeners] installs on
    [speedRange] and [zoomRange], and [setAlignMode].  The value of a slider
    reaches the handler as the string of a number; the model passes the
    number.  The other listeners call functions modelled elsewhere:
    [autoFitZoom] and [resetApp] here, the exporters in [Export], the
    listeners of the drop zone and of the file input in [App].

    The theorems say what each handler writes, that the zoom slider and
    [autoFitZoom] agree, and that the handlers are actions the theorems on
    the playback allow between animation frames. *)

From Stdlib Require Import ZArith Reals Zfloor Lra Lia Bool List String.
From S2P Require Import Prelude.
From S2P Require Import Carrier.
From S2P Require Import JsNumber.
From S2P Require Import MathLib.
From S2P Require Import Canvas.
From S2P Require Import Geometry.
From S2P Require Import AppState.
From S2P Require Import Render.
From S2P Require Import AutoFit.
From S2P Require Import Playback.
Import ListNotations.

Set Implicit Arguments.

Section Controls.
Context {F : Type} {C : Carrier F} {M : MathOps F}.
Local Open Scope num_scope.

(** The listener of [speedRange]: [value] is [e.target.value]. *)
Definition onSpeedInput (value : num F) : act (World F) :=
  (on_state (set_fps (parseInt value)) ;;
   (fun w => on_elements (set_speedValue (fps (state w))) w))%act.

(** The listener of [zoomRange]. *)
Definition onZoomInput (value : num F) : act (World F) :=
  (on_state (set_zoom (parseInt value / ofZ 100)) ;;
   (fun w =>
      if negb (isPlaying (state w)) && (0 <? List.length (images (state w)))%nat
      then on_state (renderFrame (currentFrame (state w))) w
      else w))%act.

Definition setAlignMode (align : bool) : act (World F) :=
  (on_state (set_alignEyes align) ;;
   on_elements (set_align_buttons align (negb align)))%act.

End Controls.

(** What the user does with the controls. *)
Inductive Control (F : Type) : Type :=
| SpeedInput (value : num F)
| ZoomInput (value : num F)
| AlignMode (align : bool)
| AutoFit.

Arguments AlignMode {F}.
Arguments AutoFit {F}.

Section ControlEvents.
Context {F : Type} {C : Carrier F} {M : MathOps F}.

Definition control (c : Control F) : act (World F) :=
  match c with
  | SpeedInput v => onSpeedInput v
  | ZoomInput v => onZoomInput v
  | AlignMode a => setAlignMode a
  | AutoFit => autoFitZoom
  end.

Ltac render_frame :=
  match goal with
  | |- context [renderFrame ?i ?s] =>
      let H := fresh "H" in
      pose proof (renderFrame_frame i s) as H; cbn zeta in H;
      cbn [set_zoom images currentFrame isPlaying animationId] in H
  end.

(** What the controls leave alone: the frames, the index of the current
    one, the player's flag and the handle of the waiting callback. *)
Lemma control_frame (c : Control F) (w : World F) :
  let st := state w in
  let st' := state (control c w) in
  images st' = images st /\ currentFrame st' = currentFrame st /\
  isPlaying st' = isPlaying st /\ animationId st' = animationId st.
Proof.
  destruct c as [v|v|a|]; cbn [control]; unfold onSpeedInput, onZoomInput, setAlignMode,
    andThen, on_state, on_elements; cbn [state]; auto.
  - cbn [set_zoom isPlaying images currentFrame].
    destruct (negb (isPlaying (state w)) && _); cbn [state]; auto.
    render_frame. tauto.
  - unfold autoFitZoom. destruct (List.length (images (state w)) =? 0)%nat; [auto|].
    unfold andThen, showLoading1, showLoading, hideLoading, on_state, on_elements.
    cbn [state set_zoom isPlaying currentFrame].
    destruct (isPlaying (state w)) eqn:E;
      cbn [state set_zoom images currentFrame isPlaying animationId]; rewrite ?E; auto.
    render_frame. rewrite E in *. tauto.
Qed.

Lemma control_tame c : tame (Act (control c)).
Proof. intros w. apply (control_frame c w). Qed.

Lemma control_plain c : orderly (Act (control c)).
Proof.
  intros w Hp. destruct c as [v|v|a|]; cbn [control].
  - exact Hp.
  - unfold onZoomInput, andThen.
    set (w1 := on_state (set_zoom _) w). assert (Hp1 : plain w1) by exact Hp.
    destruct (negb _ && _); [now apply renderFrame_plain | exact Hp1].
  - exact Hp.
  - unfold autoFitZoom. destruct (List.length (images (state w)) =? 0)%nat; [exact Hp|].
    unfold andThen. set (w1 := hideLoading _). assert (Hp1 : plain w1) by exact Hp.
    destruct (isPlaying (state w1)); [exact Hp1 | now apply renderFrame_plain].
Qed.

(** [setAlignMode] writes the flag and the two buttons, one of which is
    active, and paints nothing: the canvas shows the old alignment until a
    frame is painted for another reason. *)
Theorem setAlignMode_writes (align : bool) (w : World F) :
  let w' := setAlignMode align w in
  alignEyes (state w') = align /\
  alignEyesBtn_active (elements w') = align /\
  noAlignBtn_active (elements w') = negb align /\
  canvas (state w') = canvas (state w).
Proof. cbn. auto. Qed.

(** The listener of the speed slider stores the integer part of the value
    and shows it. *)
Lemma onSpeedInput_writes (v : num F) (w : World F) :
  let w' := onSpeedInput v w in
  fps (state w') = parseInt v /\ speedValue (elements w') = parseInt v /\
  canvas (state w') = canvas (state w).
Proof. cbn. auto. Qed.

End ControlEvents.

(** ** The page as a whole *)

(** Everything that happens to the page, once the frames are in
    [state.images]: the animation frames of the browser, the controls, the
    reset button, and the end of [handleFiles]. *)
Inductive Input (F : Type) : Type :=
| Tick (timestamp : num F)
| User (c : Control F)
| ResetClick
| FilesLoaded.

Arguments ResetClick {F}.
Arguments FilesLoaded {F}.

Section Session.
Context {F : Type} {C : Carrier F} {M : MathOps F}.

Definition event (i : Input F) : Event F :=
  match i with
  | Tick t => Frame t
  | User c => Act (control c)
  | ResetClick => Reset
  | FilesLoaded => Loaded
  end.

(** What the page does with a sequence of inputs. *)
Definition session (inputs : list (Input F)) : act (Browser F) :=
  run (map event inputs).

Lemma event_tame i : tame (event i).
Proof. destruct i; cbn [event tame]; try exact I. apply control_tame. Qed.

Lemma event_orderly i : orderly (event i).
Proof. destruct i; cbn [event orderly]; try exact I. apply control_plain. Qed.

(** An animation frame comes between two loads of files. *)
Definition loads_paced (inputs : list (Input F)) : bool :=
  paced false (map event inputs).

(** The page has one timeline.  From a settled timeline, whatever the
    user does and whenever the animation frames come, at most one callback
    of the loop waits, provided an animation frame comes between two loads
    of files. *)
Theorem session_one_timeline inputs b :
  settled b -> loads_paced inputs = true ->
  (List.length (callbacks (session inputs b)) <= 1)%nat.
Proof.
  intros Hb Hp. apply run_one_timeline; try assumption.
  apply Forall_forall. intros e [i [<- _]]%in_map_iff. apply event_tame.
Qed.

(** Every frame is painted on a plain context.  Once the matrix of the
    context is the identity and nothing is saved, it is so after every
    sequence of inputs: the premise of the theorems on [renderFrame] holds
    whenever the page paints. *)
Theorem session_plain inputs b :
  plain (world b) -> plain (world (session inputs b)).
Proof.
  intros Hp. apply run_plain; try assumption.
  apply Forall_forall. intros e [i [<- _]]%in_map_iff. apply event_orderly.
Qed.

End Session.

Section Slider.
Context {F : Type} {C : Carrier F} {M : MathOps F}.

(** The listener of the zoom slider stores a hundredth of the integer the
    value of the slider is read as, whether it repaints or not. *)
Lemma onZoomInput_stores (value : num F) (w : World F) :
  zoom (state (onZoomInput value w)) = (parseInt value / ofZ 100)%num.
Proof.
  unfold onZoomInput, andThen. set (w1 := on_state _ w).
  destruct (negb _ && _); [|reflexivity].
  destruct (renderFrame_frame (currentFrame (state w1)) (state w1)) as (_ & Hz' & _).
  cbn [on_state state]. now rewrite Hz'.
Qed.

End Slider.

Section RealControls.
Context {M : MathOps R} {L : MathLaws M}.
Local Open Scope R_scope.

Lemma event_showing (i : Input R) : i <> ResetClick -> showing (event i).
Proof.
  destruct i as [t|c| |]; cbn; auto. intros _ w.
  destruct (control_frame c w) as (Hi & Hc & _). auto.
Qed.

(** The index of the current frame stays an index.  With frames loaded
    and the index valid, it is valid after every sequence of inputs that
    does not reset the page. *)
Theorem session_valid_frame inputs (b : Browser R) :
  Forall (fun i => i <> ResetClick) inputs ->
  images (state (world b)) <> [] -> valid_frame (state (world b)) ->
  valid_frame (state (world (session inputs b))) /\
  images (state (world (session inputs b))) = images (state (world b)).
Proof.
  intros Hin Hne Hv. apply run_valid_frame; try assumption.
  apply Forall_forall. intros e [i [<- Hi]]%in_map_iff. apply event_showing.
  now apply (Forall_forall (fun i => i <> ResetClick) inputs).
Qed.

(** ** The zoom slider and [autoFitZoom] *)

(** The listener of the zoom slider stores a hundredth of the value. *)
Lemma onZoomInput_zoom (n : Z) (w : World R) :
  zoom (state (onZoomInput (Fin (IZR n)) w)) = Fin (IZR n / 100).
Proof. rewrite onZoomInput_stores, parseInt_int. apply ndiv_fin. lra. Qed.

(** [autoFitZoom] and the slider agree: the value [autoFitZoom] writes
    to the slider, read back by the listener of the slider, is the zoom
    [autoFitZoom] stored. *)
Theorem autoFitZoom_onZoomInput (w : World R) :
  images (state w) <> [] -> width (canvas (state w)) <> 0%N ->
  Forall measured_item (images (state w)) ->
  let w' := autoFitZoom w in
  zoom (state (onZoomInput (zoomRange_value (elements w')) w')) = zoom (state w').
Proof.
  intros Hne HW Hm w'. subst w'.
  destruct (autoFitZoom_hundredths w Hne HW Hm) as (n & _ & Hz & Hs).
  rewrite Hs, Hz. apply onZoomInput_zoom.
Qed.

(** ** The rate *)

(** A change of the rate between two animation frames neither skips a
    frame nor shows one twice: after the change and the next animation
    frame the current frame is the one it was or its successor. *)
Theorem speed_change_keeps_order (b : Browser R) cb k v t :
  callbacks b = [cb] -> isPlaying (state (world b)) = true ->
  currentFrame (state (world b)) = ofNat k ->
  (k < List.length (images (state (world b))))%nat ->
  let st' := state (world (session [User (SpeedInput v); Tick t] b)) in
  fps st' = parseInt v /\
  (currentFrame st' = ofNat k \/
   currentFrame st' = ofNat (S k mod List.length (images (state (world b))))).
Proof.
  intros Hcb Hp Hk Hlt st'. subst st'. unfold session. cbn [map event control].
  rewrite !run_cons. cbn [step run forEach fold_left].
  set (b1 := on_world (onSpeedInput v) b).
  assert (Hcb1 : callbacks b1 = [cb]) by exact Hcb.
  assert (Hp1 : isPlaying (state (world b1)) = true) by exact Hp.
  assert (Hk1 : currentFrame (state (world b1)) = ofNat k) by exact Hk.
  assert (Hlt1 : (k < List.length (images (state (world b1))))%nat) by exact Hlt.
  rewrite (animationFrame_single t b1 Hcb1 Hp1).
  cbn [world state set_animationId fps currentFrame].
  destruct (due (lastTime cb) t (state (world b1))).
  - destruct (advance_frame (state (world b1))) as (_ & _ & Hf & _).
    destruct (advance_next _ Hk1 Hlt1) as [Hn _].
    rewrite Hf. split; [reflexivity | right; exact Hn].
  - split; [reflexivity | left; exact Hk1].
Qed.

End RealControls.

(** ** Scenarios *)

Section ScenarioControls.
Local Open Scope R_scope.

(** A session on the page of scenario A: the frames are loaded, the user
    moves the zoom slider, asks for the fit and changes the rate while the
    frames go by, then resets the page. *)
Definition inputsA : list (Input R) :=
  [FilesLoaded; Tick (Fin 200); User (ZoomInput (Fin 30)); User AutoFit;
   Tick (Fin 400); User (SpeedInput (Fin 2)); Tick (Fin 1000); ResetClick].

Lemma session_one_timeline_witness :
  (List.length (callbacks (session inputsA browserA)) <= 1)%nat.
Proof.
  apply (session_one_timeline (M := StdMath)); [exact browserA_settled | reflexivity].
Defined.

Lemma session_plain_witness : plain (world (session inputsA browserA)).
Proof. apply (session_plain (M := StdMath)). split; reflexivity. Defined.

Lemma session_valid_frame_witness :
  let inputs := [FilesLoaded; Tick (Fin 200); User AutoFit; Tick (Fin 400)] in
  valid_frame (state (world (session inputs browserA))) /\
  images (state (world (session inputs browserA))) = images (state (world browserA)).
Proof.
  apply (session_valid_frame (M := StdMath));
    [repeat (apply Forall_cons; [discriminate|]); apply Forall_nil
    | discriminate | exists 0%nat; split; [reflexivity | cbn; lia]].
Defined.

Lemma autoFitZoom_onZoomInput_witness :
  let w' := autoFitZoom worldA in
  zoom (state (onZoomInput (zoomRange_value (elements w')) w')) = zoom (state w').
Proof.
  apply (autoFitZoom_onZoomInput (L := StdMathLaws) worldA);
    [discriminate | discriminate | exact stateA_measured].
Defined.

Lemma speed_change_keeps_order_witness :
  let b := startPlayback browserA in
  let st' := state (world (session [User (SpeedInput (Fin 2)); Tick (Fin 200)] b)) in
  fps st' = parseInt (Fin 2) /\
  (currentFrame st' = ofNat 0 \/
   currentFrame st' = ofNat (1 mod List.length (images (state (world b))))).
Proof.
  apply (speed_change_keeps_order (M := StdMath) (startPlayback browserA)
           (cb := {| handle := 1; lastTime := ofZ 0 |}) (k := 0));
    [reflexivity | reflexivity | reflexivity | cbn; lia].
Defined.

End ScenarioControls.
