(* ===== verification/Contract.v ===== *)
(** * Contract: what the specification asks, and the code as its refinement

    The specification describes the core of the page by four contracts:
    the geometry of a face from two clusters of landmarks
    ([computeFaceGeometry]), the transform of a frame ([buildTransform], with
    the letterbox for a frame without geometry), the largest zoom at which
    no frame is cut ([autoFit]), and the sequencer that shows the frames at a
    rate.  The first three are stated here over the real numbers, with the
    failures the specification names as values, and without reference to
    the page; the sequencer has a file of its own.

    The theorems relate script.js to them.  An abstraction reads a frame of
    [state.images] as a frame record and the canvas with the zoom as a
    viewport; on the inputs for which a contract does not fail the code
    computes what the contract says: [renderFrame] paints every point of the
    image where the transform of the contract puts it, and [autoFitZoom]
    stores the zoom of the contract.  Where the contract fails or the two
    part, the theorems of [Render] and [AutoFit] say what the code does
    instead. *)

From Stdlib Require Import ZArith Reals Zfloor Lra Lia Bool List String.
From S2P Require Import Prelude.
From S2P Require Import Carrier.
From S2P Require Import JsNumber.
From S2P Require Import MathLib.
From S2P Require Import Canvas.
From S2P Require Import Geometry.
From S2P Require Import AppState.
From S2P Require Import Render.
From S2P Require Import AutoFit.
From S2P Require Import Playback.
From S2P Require Import Controls.
Import ListNotations.

Set Implicit Arguments.

(** ** The contracts *)

(** The failures of the specification. *)
Inductive Failure : Type :=
| InvalidLandmarks
| DegenerateGeometry
| InfeasibleFit.

Inductive Result (A : Type) : Type :=
| Ok (a : A)
| Err (e : Failure).

Arguments Err {A}.

(** Eyes-center, angle of the eye line and eye distance. *)
Record FaceGeometry : Type := {
  geoCenter : R * R;
  geoAngle : R;
  geoDistance : R
}.

(** An image by its size, with the geometry of its face or without. *)
Record FrameRecord : Type := {
  frameWidth : R;
  frameHeight : R;
  geometry : option FaceGeometry
}.

Record ViewportConfig : Type := {
  canvasWidth : R;
  canvasHeight : R;
  viewZoom : R
}.

(** A bound on the scale, or none. *)
Definition Bound : Type := option R.

Section Contracts.
Context {M : MathOps R}.
Local Open Scope R_scope.
Implicit Types v : ViewportConfig.
Implicit Types g : FaceGeometry.
Implicit Types f : FrameRecord.

(** *** Landmark geometry (4.1) *)

Definition centroid (points : list (R * R)) : Result (R * R) :=
  match points with
  | [] => Err InvalidLandmarks
  | _ => Ok (mean points)
  end.

Definition computeFaceGeometry (leftEyePoints rightEyePoints : list (R * R))
    : Result FaceGeometry :=
  match centroid leftEyePoints, centroid rightEyePoints with
  | Ok l, Ok r =>
      Ok {| geoCenter := ((fst l + fst r) / 2, (snd l + snd r) / 2);
            geoAngle := Fatan2 (snd r - snd l) (fst r - fst l);
            geoDistance := Fsqrt ((fst r - fst l) * (fst r - fst l) +
                                  (snd r - snd l) * (snd r - snd l)) |}
  | Err e, _ => Err e
  | _, Err e => Err e
  end.

(** *** Frame transform builder (4.2) *)

Definition viewTargetX v : R := canvasWidth v * (5 / 10).

Definition viewTargetY v : R := canvasHeight v * (4 / 10).

Definition viewScale g v : R := canvasWidth v * viewZoom v / geoDistance g.

(** [T(target) o Scale(s) o Rotate(-angle) o T(-eyesCenter)]; a geometry
    whose eye distance is at most [eps] is degenerate. *)
Definition buildTransform (eps : R) g v : Result (Matrix R) :=
  if Rltb eps (geoDistance g) then
    Ok (mat_mul (mat_translate (viewTargetX v) (viewTargetY v))
          (mat_mul (mat_scale (viewScale g v) (viewScale g v))
             (mat_mul (mat_rotate (- geoAngle g))
                (mat_translate (- fst (geoCenter g)) (- snd (geoCenter g))))))
  else Err DegenerateGeometry.

(** The letterbox: the largest uniform scale at which the image is inside
    the canvas, the image centred. *)
Definition letterboxScale v f : R :=
  Rmin (canvasWidth v / frameWidth f) (canvasHeight v / frameHeight f).

Definition letterbox v f : Matrix R :=
  mat_mul
    (mat_translate ((canvasWidth v - frameWidth f * letterboxScale v f) / 2)
                   ((canvasHeight v - frameHeight f * letterboxScale v f) / 2))
    (mat_scale (letterboxScale v f) (letterboxScale v f)).

(** The transform of a frame: the one of its geometry, and the letterbox
    when the frame has none or [buildTransform] fails. *)
Definition frameTransform (eps : R) v f : Matrix R :=
  match geometry f with
  | Some g =>
      match buildTransform eps g v with
      | Ok m => m
      | Err _ => letterbox v f
      end
  | None => letterbox v f
  end.

(** *** Auto-fit solver (4.3) *)

(** Step 2: the bound one corner puts on the scale along one axis. *)
Definition axisBound (extent target rot : R) : Bound :=
  if Rltb 0 rot then Some ((extent - target) / rot)
  else if Rltb rot 0 then Some (- target / rot)
  else None.

(** The smaller of two bounds. *)
Definition tighter (a b : Bound) : Bound :=
  match a, b with
  | Some x, Some y => Some (Rmin x y)
  | Some x, None => Some x
  | None, _ => b
  end.

Definition frameCorners f : list (R * R) :=
  [(0, 0); (frameWidth f, 0); (frameWidth f, frameHeight f); (0, frameHeight f)].

(** Steps 1 and 2: the two bounds of a corner. *)
Definition cornerBounds v g (corner : R * R) : list Bound :=
  let relX := fst corner - fst (geoCenter g) in
  let relY := snd corner - snd (geoCenter g) in
  let rotX := relX * Fcos (- geoAngle g) - relY * Fsin (- geoAngle g) in
  let rotY := relX * Fsin (- geoAngle g) + relY * Fcos (- geoAngle g) in
  [axisBound (canvasWidth v) (viewTargetX v) rotX;
   axisBound (canvasHeight v) (viewTargetY v) rotY].

(** Step 3: the smallest of the eight bounds. *)
Definition imageScale v f g : Bound :=
  fold_left tighter (flat_map (cornerBounds v g) (frameCorners f)) None.

(** Step 4: the scale in the unit of the zoom. *)
Definition imageZoom v f g : Bound :=
  option_map (fun scale => scale * geoDistance g / canvasWidth v) (imageScale v f g).

(** The bound of a frame: none for a frame without geometry or with a
    degenerate one. *)
Definition frameZoom (eps : R) v f : Bound :=
  match geometry f with
  | Some g => if Rltb eps (geoDistance g) then imageZoom v f g else None
  | None => None
  end.

(** Step 5: the smallest bound over the frames. *)
Definition globalZoom (eps : R) v (frames : list FrameRecord) : Bound :=
  fold_left tighter (map (frameZoom eps v) frames) None.

Definition zoomMin : R := 1 / 10.

Definition zoomMax : R := 1.

Definition margin : R := 95 / 100.

(** Down to the step of the slider, then into its range. *)
Definition granular (zoom : R) : R := IZR (Zfloor (zoom * 100)) / 100.

Definition clamp (zoom : R) : R := Rmax zoomMin (Rmin zoomMax zoom).

(** The zoom of the solver: the configured maximum when no frame bounds
    it; else the largest zoom of the range that the frames allow, with the
    margin, at the step of the slider, in the range of the slider; a bound
    that is not positive is no usable bound. *)
Definition autoFit (eps : R) v (frames : list FrameRecord) : Result R :=
  match globalZoom eps v frames with
  | None => Ok zoomMax
  | Some z =>
      if Rltb 0 z then Ok (clamp (granular (Rmin zoomMax z * margin)))
      else Err InfeasibleFit
  end.

End Contracts.

(** ** How the page is read *)

Section Abstraction.
Context {M : MathOps R}.
Local Open Scope R_scope.

(** The geometry of the face of a detection; a cluster without points gives
    none, and the frame is treated as one without geometry. *)
Definition geometryOf (lm : Landmarks R) : option FaceGeometry :=
  match computeFaceGeometry (eyesL lm) (eyesR lm) with
  | Ok g => Some g
  | Err _ => None
  end.

(** The frame record an element of [state.images] stands for. *)
Definition recordOf (item : Item R) : FrameRecord :=
  {| frameWidth := imgW (original item);
     frameHeight := imgH (original item);
     geometry := match detections item with
                 | Some d => geometryOf (landmarks d)
                 | None => None
                 end |}.

(** The frame as [renderFrame] is asked to show it: without its geometry
    when the eyes are not to be aligned. *)
Definition shownRecord (alignEyes : bool) (item : Item R) : FrameRecord :=
  if alignEyes then recordOf item
  else {| frameWidth := imgW (original item);
          frameHeight := imgH (original item);
          geometry := None |}.

Definition viewportOf (cv : Canvas R) (zoom : R) : ViewportConfig :=
  {| canvasWidth := canvasW cv; canvasHeight := canvasH cv; viewZoom := zoom |}.

End Abstraction.

(** ** The solver on a viewport with a size *)

Section Feasibility.
Context {M : MathOps R}.
Local Open Scope R_scope.
Implicit Types a b m : Bound.

(** A bound that leaves room for a scale above zero. *)
Definition posBound b : Prop :=
  match b with
  | Some x => 0 < x
  | None => True
  end.

Lemma tighter_positive a b : posBound a -> posBound b -> posBound (tighter a b).
Proof. destruct a as [x|], b as [y|]; cbn; auto. intros. now apply Rmin_glb_lt. Qed.

Lemma fold_tighter_positive bs :
  forall m, posBound m -> Forall posBound bs -> posBound (fold_left tighter bs m).
Proof.
  induction bs as [|b bs IH]; intros m Hm Hbs; [assumption|].
  inversion_clear Hbs. cbn. apply IH; auto using tighter_positive.
Qed.

Lemma tighter_bounded a b : a <> None \/ b <> None -> tighter a b <> None.
Proof. destruct a, b; cbn; intuition discriminate. Qed.

Lemma fold_tighter_bounded bs :
  forall m, m <> None \/ Exists (fun b => b <> None) bs ->
            fold_left tighter bs m <> None.
Proof.
  induction bs as [|b bs IH]; intros m [Hm|Hex]; cbn; try assumption.
  - inversion Hex.
  - apply IH. left. apply tighter_bounded. now left.
  - inversion_clear Hex; apply IH; [left; apply tighter_bounded|]; now right.
Qed.

(** A target strictly inside the extent bounds the scale above zero,
    whichever side the corner is on. *)
Lemma axisBound_positive extent target rot :
  0 < target < extent -> posBound (axisBound extent target rot).
Proof.
  intros [Ht Hte]. unfold axisBound.
  destruct (Rltb_spec 0 rot); [|destruct (Rltb_spec rot 0)]; cbn; [| |exact I].
  - apply Rdiv_lt_0_compat; lra.
  - replace (- target / rot) with (target / - rot) by (field; lra).
    apply Rdiv_lt_0_compat; lra.
Qed.

Lemma clamp_range z : zoomMin <= clamp z <= zoomMax.
Proof.
  unfold clamp, zoomMin, zoomMax. split; [apply Rmax_l|].
  apply Rmax_lub; [lra | apply Rmin_l].
Qed.

Section Sized.
Variable v : ViewportConfig.
Hypothesis HW : 0 < canvasWidth v.
Hypothesis HH : 0 < canvasHeight v.

Lemma cornerBounds_positive g c : Forall posBound (cornerBounds v g c).
Proof.
  unfold cornerBounds, viewTargetX, viewTargetY.
  repeat constructor; apply axisBound_positive; lra.
Qed.

Lemma imageScale_positive f g : posBound (imageScale v f g).
Proof.
  unfold imageScale. apply fold_tighter_positive; [exact I|].
  apply Forall_flat_map, Forall_forall. intros c _. apply cornerBounds_positive.
Qed.

Lemma frameZoom_positive eps f : 0 <= eps -> posBound (frameZoom eps v f).
Proof.
  intros He. unfold frameZoom, imageZoom. destruct (geometry f) as [g|]; [|exact I].
  destruct (Rltb_spec eps (geoDistance g)) as [Hd|]; [|exact I].
  pose proof (imageScale_positive f g) as Hp.
  destruct (imageScale v f g) as [k|]; [|exact I].
  cbn in *. apply Rdiv_lt_0_compat; nra.
Qed.

Lemma globalZoom_positive eps frames : 0 <= eps -> posBound (globalZoom eps v frames).
Proof.
  intros He. apply fold_tighter_positive; [exact I|].
  apply Forall_map, Forall_forall. intros f _. now apply frameZoom_positive.
Qed.

(** On a viewport with a size the solver does not fail, whatever the
    frames are, and its zoom is in the range of the slider: the bounds of
    step 2 are positive, as the specification remarks. *)
Theorem autoFit_feasible eps frames :
  0 <= eps ->
  exists z, autoFit eps v frames = Ok z /\ zoomMin <= z <= zoomMax.
Proof.
  intros He. unfold autoFit. pose proof (globalZoom_positive frames He) as Hp.
  destruct (globalZoom eps v frames) as [z|].
  - cbn in Hp. rewrite Rltb_true by assumption.
    eexists. split; [reflexivity | apply clamp_range].
  - exists zoomMax. split; [reflexivity | unfold zoomMin, zoomMax; lra].
Qed.

End Sized.

End Feasibility.

(** ** The geometry and the transform *)

Section TransformRefinement.
Context {M : MathOps R} {L : MathLaws M}.
Local Open Scope R_scope.
Implicit Types Lp Rp : list (R * R).

(** On two clusters with points the contract gives the geometry, and the
    [const]s of [renderFrame] are its fields. *)
Lemma computeFaceGeometry_flm Lp Rp :
  Lp <> [] -> Rp <> [] ->
  computeFaceGeometry Lp Rp =
  Ok {| geoCenter := eyeMid Lp Rp; geoAngle := eyeAngle Lp Rp;
        geoDistance := eyeDist Lp Rp |}.
Proof. intros HL HR. destruct Lp, Rp; try contradiction; reflexivity. Qed.

(** The [const]s of [renderFrame] and of [autoFitZoom] implement the
    landmark geometry.  On two clusters with points the contract does not
    fail, and [eyesCenter], [angle] and [currentEyesDist] are the centre,
    the angle and the distance of the geometry it returns: the midpoint of
    the two centroids, the angle of the line from the left one to the right
    one, and their distance. *)
Theorem geometry_refines Lp Rp :
  Lp <> [] -> Rp <> [] ->
  exists g, computeFaceGeometry Lp Rp = Ok g /\
    eyesCenter (flm Lp Rp) = fpt (geoCenter g) /\
    angle (flm Lp Rp) = Fin (geoAngle g) /\
    currentEyesDist (flm Lp Rp) = Fin (geoDistance g).
Proof.
  intros HL HR. eexists. split; [now apply computeFaceGeometry_flm|].
  cbn [geoCenter geoAngle geoDistance].
  now rewrite eyesCenter_fin, angle_fin, currentEyesDist_fin.
Qed.

(** The contract fails on a cluster without points, where [getCentroid]
    returns a pair of [NaN]. *)
Lemma computeFaceGeometry_invalid Lp Rp :
  Lp = [] \/ Rp = [] -> computeFaceGeometry Lp Rp = Err InvalidLandmarks.
Proof. intros [-> | ->]; [reflexivity | now destruct Lp]. Qed.

Lemma geometryOf_measured (lm : Landmarks R) :
  measured lm ->
  geometryOf lm =
  Some {| geoCenter := eyeMid (eyesL lm) (eyesR lm);
          geoAngle := eyeAngle (eyesL lm) (eyesR lm);
          geoDistance := eyeDist (eyesL lm) (eyesR lm) |}.
Proof.
  intros (_ & HL & HR)%measured_flm. unfold geometryOf.
  now rewrite computeFaceGeometry_flm.
Qed.

(** The matrix of the contract is the matrix of the four calls. *)
Lemma buildTransform_frameMatrix Lp Rp cv z :
  mean Lp <> mean Rp ->
  buildTransform 0
    {| geoCenter := eyeMid Lp Rp; geoAngle := eyeAngle Lp Rp;
       geoDistance := eyeDist Lp Rp |} (viewportOf cv z) =
  Ok (frameMatrix Lp Rp cv z).
Proof.
  intros He. unfold buildTransform. cbn [geoDistance].
  now rewrite Rltb_true by now apply eyeDist_pos.
Qed.

(** The letterbox of the contract puts a point of the image where the
    destination rectangle of [drawImage] puts it. *)
Lemma letterbox_apply cv z (item : Item R) (al : bool) q :
  geometry (shownRecord al item) = None ->
  mat_apply (frameTransform 0 (viewportOf cv z) (shownRecord al item)) q =
  ((canvasW cv - imgW (original item) * fitS cv (original item)) / 2
     + fitS cv (original item) * fst q,
   (canvasH cv - imgH (original item) * fitS cv (original item)) / 2
     + fitS cv (original item) * snd q).
Proof.
  intros Hg. unfold frameTransform. rewrite Hg.
  assert (Hw : frameWidth (shownRecord al item) = imgW (original item))
    by now destruct al.
  assert (Hh : frameHeight (shownRecord al item) = imgH (original item))
    by now destruct al.
  unfold letterbox, letterboxScale, fitS, mat_apply. rewrite Hw, Hh.
  cbn. runfold. f_equal; ring.
Qed.

(** The frame as it is shown has a geometry exactly when the eyes are to
    be aligned and the detector found a face with points. *)
Lemma shownRecord_aligned (item : Item R) d :
  detections item = Some d -> measured (landmarks d) ->
  geometry (shownRecord true item) =
  Some {| geoCenter := eyeMid (eyesL (landmarks d)) (eyesR (landmarks d));
          geoAngle := eyeAngle (eyesL (landmarks d)) (eyesR (landmarks d));
          geoDistance := eyeDist (eyesL (landmarks d)) (eyesR (landmarks d)) |}.
Proof. intros Hd Hm. cbn. rewrite Hd. now apply geometryOf_measured. Qed.

Lemma shownRecord_plain (st : State R) (item : Item R) :
  alignEyes st = false \/ detections item = None ->
  geometry (shownRecord (alignEyes st) item) = None.
Proof. intros [-> | H]; [reflexivity|]. destruct (alignEyes st); cbn; now rewrite ?H. Qed.

Section Frame.
Variables (st : State R) (i : nat) (item : Item R) (z : R).
Hypothesis Hitem : nth_error (images st) i = Some item.
Hypothesis Husable : usable (original item) = true.
Hypothesis Hmeasured : measured_item item.
Hypothesis Hzoom : zoom st = Fin z.
Hypothesis Hctm : ctm (ctx (canvas st)) = mat_id.

(** The aligned branch paints under the matrix of [buildTransform]. *)
Lemma renderFrame_buildTransform d :
  alignEyes st = true -> detections item = Some d ->
  mean (eyesL (landmarks d)) <> mean (eyesR (landmarks d)) ->
  exists p, top_paint (renderFrame (ofNat i) st) = Some p /\
    forall q, paint_at p q =
      mat_apply (frameTransform 0 (viewportOf (canvas st) z)
                   (shownRecord (alignEyes st) item)) q.
Proof.
  intros Hal Hd He. unfold measured_item in Hmeasured. rewrite Hd in Hmeasured.
  destruct Hmeasured as [_ Hm]. destruct (measured_flm Hm) as (Hlm & HL & HR).
  assert (Hi : nth_error (images st) i =
               Some {| original := original item;
                       detections := Some {| landmarks :=
                         flm (eyesL (landmarks d)) (eyesR (landmarks d)) |} |})
    by (rewrite Hitem, <- Hlm; destruct item as [img dd]; cbn in *; subst dd;
        now destruct d).
  eexists. split; [eapply renderFrame_aligned_top; eassumption|].
  intros q. rewrite paint_at_drawImage3 by assumption.
  unfold frameTransform. rewrite Hal, (shownRecord_aligned _ Hd Hm).
  now rewrite buildTransform_frameMatrix.
Qed.

(** The other branch paints the letterbox. *)
Lemma renderFrame_letterbox :
  alignEyes st = false \/ detections item = None ->
  exists p, top_paint (renderFrame (ofNat i) st) = Some p /\
    forall q, paint_at p q =
      mat_apply (frameTransform 0 (viewportOf (canvas st) z)
                   (shownRecord (alignEyes st) item)) q.
Proof.
  intros Hcase. pose proof (renderFrame_centered_top _ _ Hitem Hcase Husable Hctm) as Ht.
  cbn zeta in Ht. eexists. split; [exact Ht|].
  intros q. unfold paint_at. rewrite paint_point_scaled by assumption.
  now rewrite letterbox_apply by now apply shownRecord_plain.
Qed.

(** The two branches together, for the files that paint with
    [renderFrame]. *)
Lemma renderFrame_shown :
  apart_item item ->
  exists p, top_paint (renderFrame (ofNat i) st) = Some p /\
    forall q, paint_at p q =
      mat_apply (frameTransform 0 (viewportOf (canvas st) z)
                   (shownRecord (alignEyes st) item)) q.
Proof.
  intros Ha. destruct (alignEyes st) eqn:Hal, (detections item) as [d|] eqn:Hd;
    rewrite <- ?Hal; try (apply renderFrame_letterbox; auto; fail).
  apply renderFrame_buildTransform with d; try assumption.
  unfold apart_item in Ha. now rewrite Hd in Ha.
Qed.

(** C4: [renderFrame] implements the frame transform builder.  For a
    frame of [state.images] whose image has a size and whose detection, if
    it has one, has points in both clusters and two eye centres that
    differ, the image is painted, point by point, where the transform of
    the contract puts it: under [T(target) o Scale(s) o Rotate(-angle) o
    T(-eyesCenter)] when the eyes are to be aligned and a face was found,
    under the letterbox otherwise. *)
Theorem renderFrame_refines_frameTransform :
  apart_item item ->
  exists p, top_paint (renderFrame (ofNat i) st) = Some p /\
    forall q, paint_at p q =
      mat_apply (frameTransform 0 (viewportOf (canvas st) z)
                   (shownRecord (alignEyes st) item)) q.
Proof. exact renderFrame_shown. Qed.

End Frame.

End TransformRefinement.

(** ** The solver *)

Section SolverRefinement.
Context {M : MathOps R} {L : MathLaws M}.
Local Open Scope R_scope.
Implicit Types Lp Rp : list (R * R).
Implicit Types m : Bound.

(** A bound as the number the code holds: [Infinity] for none. *)
Definition ext m : num R :=
  match m with
  | Some x => Fin x
  | None => PInf
  end.

(** A zoom capped by a bound. *)
Definition capped (z : R) m : R :=
  match m with
  | Some x => Rmin z x
  | None => z
  end.

Lemma Math_min_ext m x : Math_min (ext m) (Fin x) = ext (tighter m (Some x)).
Proof. destruct m as [y|]; [apply Math_min_fin | reflexivity]. Qed.

(** The two [if ... else if] of an axis take the bound of step 2. *)
Lemma boundAxis_tighter E T r m :
  boundAxis (Fin E) (Fin T) (Fin r) (ext m) = ext (tighter m (axisBound E T r)).
Proof.
  unfold boundAxis, axisBound, ngtb. change (ofZ 0) with (@Fin R 0).
  rewrite !nltb_fin. cbn [nsub nneg]. runfold.
  destruct (Rltb_spec 0 r) as [Hr|Hr]; [|destruct (Rltb_spec r 0) as [Hr'|Hr']].
  - rewrite ndiv_fin by lra. apply Math_min_ext.
  - rewrite ndiv_fin by lra. apply Math_min_ext.
  - now destruct m.
Qed.

Lemma boundCorner_tighter cv z g (p : R * R) m :
  boundCorner cv (fpt (geoCenter g)) (Fin (Fcos (- geoAngle g)))
    (Fin (Fsin (- geoAngle g))) (fpt p) (ext m) =
  ext (fold_left tighter (cornerBounds (viewportOf cv z) g p) m).
Proof.
  unfold boundCorner, cornerBounds. rewrite andThen_apply, targetX_fin, targetY_fin.
  cbn [fpt px py nsub nmul nadd fst snd fold_left]. runfold.
  change (ofN (width cv)) with (Fin (canvasW cv)).
  change (ofN (height cv)) with (Fin (canvasH cv)).
  now rewrite !boundAxis_tighter.
Qed.

Lemma fold_left_flat_map {A B S : Type} (f : S -> B -> S) (g : A -> list B) xs :
  forall s, fold_left f (flat_map g xs) s =
            fold_left (fun s x => fold_left f (g x) s) xs s.
Proof.
  induction xs as [|x xs IH]; intros s; [reflexivity|].
  cbn [flat_map]. now rewrite fold_left_app, IH.
Qed.

(** Step 3: [maxScaleForThisImage] after the loop over the corners is the
    smallest of the eight bounds. *)
Lemma maxScaleForThisImage_imageScale cv z (item : Item R) Lp Rp :
  Lp <> [] -> Rp <> [] ->
  let g := {| geoCenter := eyeMid Lp Rp; geoAngle := eyeAngle Lp Rp;
              geoDistance := eyeDist Lp Rp |} in
  maxScaleForThisImage cv (original item) (flm Lp Rp) =
  ext (imageScale (viewportOf cv z) (recordOf item) g).
Proof.
  intros HL HR g. unfold maxScaleForThisImage, imageScale.
  rewrite eyesCenter_fin, angle_fin, corners_fin, forEach_map by assumption.
  rewrite fold_left_flat_map. unfold forEach. change (@PInf R) with (ext None).
  change (frameCorners (recordOf item)) with (cornersR (original item)).
  change (Math_cos (- Fin (eyeAngle Lp Rp))%num) with (Fin (Fcos (- geoAngle g))).
  change (Math_sin (- Fin (eyeAngle Lp Rp))%num) with (Fin (Fsin (- geoAngle g))).
  change (eyeMid Lp Rp) with (geoCenter g).
  generalize (@None R). induction (cornersR (original item)) as [|p ps IH]; intros m;
    [reflexivity|].
  cbn [fold_left]. rewrite (boundCorner_tighter cv z g p m). apply IH.
Qed.

(** Step 4: [safeZoom] is the bound in the unit of the zoom. *)
Lemma safeZoom_imageZoom cv z (item : Item R) Lp Rp :
  Lp <> [] -> Rp <> [] -> width cv <> 0%N -> mean Lp <> mean Rp ->
  let g := {| geoCenter := eyeMid Lp Rp; geoAngle := eyeAngle Lp Rp;
              geoDistance := eyeDist Lp Rp |} in
  safeZoom cv (original item) (flm Lp Rp) =
  ext (imageZoom (viewportOf cv z) (recordOf item) g).
Proof.
  intros HL HR HW He g. unfold safeZoom, imageZoom.
  rewrite (maxScaleForThisImage_imageScale cv z item HL HR), currentEyesDist_fin by assumption.
  fold g. pose proof (canvasW_pos _ HW) as Hw. pose proof (eyeDist_pos He) as Hd.
  change (ofN (width cv)) with (Fin (canvasW cv)).
  destruct (imageScale _ _ g) as [k|]; cbn [ext option_map nmul geoDistance viewportOf canvasWidth].
  - runfold. apply ndiv_fin. lra.
  - cbn. runfold. rcases. cbn. runfold. now rcases.
Qed.

Lemma Math_min_capped x m : Math_min (Fin x) (ext m) = Fin (capped x m).
Proof. destruct m as [y|]; [apply Math_min_fin | reflexivity]. Qed.

Lemma capped_tighter x a b : capped (capped x a) b = capped x (tighter a b).
Proof. destruct a as [y|], b as [y'|]; cbn; try reflexivity. now rewrite Rmin_assoc. Qed.

Lemma canvasH_pos cv : height cv <> 0%N -> 0 < canvasH cv.
Proof. intros H. apply IZR_lt. lia. Qed.

(** The lines after the loops: the margin and the floor, then the range. *)
Lemma finalZoom_granular x : finalZoom (Fin x) = Fin (granular (x * margin)).
Proof. apply finalZoom_fin. Qed.

Lemma clampedZoom_clamp x : clampedZoom (Fin x) = Fin (clamp x).
Proof.
  unfold clampedZoom. change (ofZ 1) with (@Fin R 1).
  change (dec 1 10) with (@Fin R (1 / 10)). now rewrite Math_min_fin, Math_max_fin.
Qed.

Section Frames.
Variables (cv : Canvas R) (z : R).
Hypothesis HW : width cv <> 0%N.

(** The callback of [state.images.forEach] takes the bound of step 4 into
    the running minimum, and skips a frame without a detection. *)
Lemma fitItem_frameZoom (item : Item R) x :
  measured_item item -> apart_item item ->
  fitItem cv item (Fin x) =
  Fin (capped x (frameZoom 0 (viewportOf cv z) (recordOf item))).
Proof.
  unfold fitItem, measured_item, apart_item, frameZoom. cbn [recordOf geometry].
  destruct (detections item) as [d|]; [|reflexivity].
  intros [Hu Hm] Ha. destruct (measured_flm Hm) as (E & HL & HR).
  rewrite (geometryOf_measured Hm). cbn [geoDistance].
  rewrite Rltb_true by now apply eyeDist_pos.
  now rewrite <- Math_min_capped, <- (safeZoom_imageZoom cv z item HL HR HW Ha), <- E.
Qed.

(** A frame with a detection does bound the zoom. *)
Lemma frameZoom_bounded (item : Item R) :
  measured_item item -> apart_item item -> detections item <> None ->
  frameZoom 0 (viewportOf cv z) (recordOf item) <> None.
Proof.
  unfold measured_item, apart_item, frameZoom. cbn [recordOf geometry].
  destruct (detections item) as [d|]; [|contradiction].
  intros [Hu Hm] Ha _. destruct (measured_flm Hm) as (E & HL & HR).
  rewrite (geometryOf_measured Hm). cbn [geoDistance].
  rewrite Rltb_true by now apply eyeDist_pos.
  destruct (maxScaleForThisImage_fin cv (original item) HL HR Hu) as (k & Hk & _).
  rewrite (maxScaleForThisImage_imageScale cv z item HL HR) in Hk.
  unfold imageZoom. now destruct (imageScale _ _ _).
Qed.

Variable items : list (Item R).
Hypothesis Hmeasured : Forall measured_item items.
Hypothesis Hapart : Forall apart_item items.

Lemma forEach_fitItem b :
  forEach items (fitItem cv) (Fin (capped 1 b)) =
  Fin (capped 1 (fold_left tighter
                   (map (frameZoom 0 (viewportOf cv z)) (map recordOf items)) b)).
Proof.
  revert b. induction items as [|item is' IH]; intros b; [reflexivity|].
  inversion_clear Hmeasured. inversion_clear Hapart.
  rewrite forEach_cons. cbn [map fold_left].
  rewrite fitItem_frameZoom, capped_tighter by assumption. now apply IH.
Qed.

(** Step 5: [minSafeZoom] after the loop over the frames is the global
    bound, from 1 down. *)
Lemma minSafeZoom_globalZoom :
  minSafeZoom cv items =
  Fin (capped 1 (globalZoom 0 (viewportOf cv z) (map recordOf items))).
Proof. apply (forEach_fitItem None). Qed.

Lemma globalZoom_bounded :
  Exists (fun item => detections item <> None) items ->
  globalZoom 0 (viewportOf cv z) (map recordOf items) <> None.
Proof.
  intros Hex. apply fold_tighter_bounded. right.
  rewrite map_map. apply Exists_exists. apply Exists_exists in Hex as (item & Hin & Hd).
  exists (frameZoom 0 (viewportOf cv z) (recordOf item)).
  split; [apply in_map_iff; eauto|].
  rewrite Forall_forall in Hmeasured, Hapart. apply frameZoom_bounded; auto.
Qed.

End Frames.

(** C5: [autoFitZoom] implements the auto-fit solver.  On a canvas with a
    size, over frames whose detections have points in both clusters and
    two eye centres that differ, one frame at least with a detection, the
    solver of the specification does not fail, and the zoom [autoFitZoom]
    stores is the zoom it returns: the smallest of the bounds of the
    frames, capped at 1, times the margin, down to a hundredth, in the
    range of the slider. *)
Theorem autoFitZoom_refines_autoFit (w : World R) (z : R) :
  width (canvas (state w)) <> 0%N -> height (canvas (state w)) <> 0%N ->
  Forall measured_item (images (state w)) ->
  Forall apart_item (images (state w)) ->
  Exists (fun item => detections item <> None) (images (state w)) ->
  exists fit,
    autoFit 0 (viewportOf (canvas (state w)) z) (map recordOf (images (state w)))
      = Ok fit /\
    zoom (state (autoFitZoom w)) = Fin fit.
Proof.
  intros HW HH Hm Ha Hex.
  assert (Hne : images (state w) <> []) by (intros E; rewrite E in Hex; inversion Hex).
  destruct (autoFitZoom_frame w Hne) as (_ & -> & _).
  unfold fittedZoom, autoFit.
  rewrite (minSafeZoom_globalZoom _ z HW Hm Ha), finalZoom_granular, clampedZoom_clamp.
  pose proof (globalZoom_bounded (canvas (state w)) z Hm Ha Hex) as Hb.
  pose proof (globalZoom_positive (viewportOf (canvas (state w)) z)
                (canvasW_pos _ HW) (canvasH_pos _ HH)
                (map recordOf (images (state w))) (Rle_refl 0)) as Hp.
  destruct (globalZoom _ _ _) as [k|]; [|contradiction].
  cbn in Hp. rewrite Rltb_true by assumption. eexists. split; reflexivity.
Qed.

End SolverRefinement.

(** ** Scenario A under the contracts *)

Section ScenarioContract.
Local Open Scope R_scope.

Lemma geometry_refines_witness :
  exists g, computeFaceGeometry [(400, 500)] [(600, 500)] = Ok g /\
    eyesCenter lmA1 = fpt (geoCenter g) /\
    angle lmA1 = Fin (geoAngle g) /\
    currentEyesDist lmA1 = Fin (geoDistance g).
Proof.
  apply (geometry_refines (M := StdMath) (Lp := [(400, 500)]) (Rp := [(600, 500)]));
    discriminate.
Defined.

Lemma renderFrame_refines_frameTransform_witness :
  exists p, top_paint (renderFrame (ofNat 0) stateA) = Some p /\
    forall q, paint_at p q =
      mat_apply (frameTransform 0 (viewportOf (canvas stateA) (25 / 100))
                   (shownRecord (alignEyes stateA) (itemA lmA1))) q.
Proof.
  apply (renderFrame_refines_frameTransform (L := StdMathLaws) stateA 0
           (item := itemA lmA1) (z := 25 / 100));
    [reflexivity | reflexivity
    | apply measured_item_flm; reflexivity || discriminate
    | reflexivity | reflexivity
    | apply apart_item_flm; exact eyesA1].
Defined.

Lemma autoFitZoom_refines_autoFit_witness :
  exists fit,
    autoFit 0 (viewportOf (canvas (state worldA)) (25 / 100))
      (map recordOf (images (state worldA))) = Ok fit /\
    zoom (state (autoFitZoom worldA)) = Fin fit.
Proof.
  apply (autoFitZoom_refines_autoFit (L := StdMathLaws) worldA (25 / 100));
    [discriminate | discriminate | exact stateA_measured | exact stateA_apart
    | apply Exists_cons_hd; discriminate].
Defined.

End ScenarioContract.
