(* ===== verification/Export.v ===== *)
(** * Export: the two exporters, and the page with its pending tasks

    [exportGif] and [exportMp4] of script.js.  Both pause the player, paint
    the frames one after the other on the canvas of the page, and restart the
    player when they are done if it was running.  [exportGif] paints all
    frames in one task and hands a copy of each to the encoder; the encoder
    then works on its own and calls back when it has finished.  [exportMp4]
    records the canvas and waits on a timer after each frame, so other
    events of the page come between its frames.

    What the page waits for is kept as a list of tasks, each with the
    variables its continuation captured; an event of the page resumes one of
    them.  The encoder of gif.js is modelled by the frames handed to it, the
    recorder by the frames the canvas shows while it records, by the
    types it says it supports, from which [exportMp4] chooses the type and
    the name of the file, and by the pieces of the recording it delivers:
    each is an event of the page with its bytes, which the handler of
    [dataavailable] pushes to the array [chunks] of its call unless it is
    empty, and [onstop] offers the array as one blob. *)

From Stdlib Require Import ZArith Reals Zfloor Lra Lia Bool List String RelationClasses.
From S2P Require Import Prelude.
From S2P Require Import Carrier.
From S2P Require Import JsNumber.
From S2P Require Import MathLib.
From S2P Require Import Canvas.
From S2P Require Import Geometry.
From S2P Require Import AppState.
From S2P Require Import Render.
From S2P Require Import AutoFit.
From S2P Require Import Playback.
From S2P Require Import Controls.
Import ListNotations.

Set Implicit Arguments.

(** A frame handed to the encoder with [copy: true]: what the canvas showed
    at that moment, and the delay before the next frame. *)
Record GifFrame (F : Type) : Type := {
  picture : list (Paint F);
  delay : num F
}.

(** The object [new GIF({width, height, ...})] with the frames added. *)
Record Gif (F : Type) : Type := {
  gif_width : N;
  gif_height : N;
  gif_frames : list (GifFrame F)
}.

(** The data of a blob: its bytes.  [blob.size] is their number. *)
Definition Blob : Type := list Byte.byte.

(** What the page waits for: the encoder of a GIF at work; the timer of
    iteration [i] of the loop of [exportMp4]; the recorder that was told to
    stop.  Each with the [wasPlaying] of its call, and the two of
    [exportMp4] with its array [chunks]. *)
Inductive Task (F : Type) : Type :=
| GifRendering (gif : Gif F) (wasPlaying : bool)
| VideoWaiting (i : nat) (timeout : num F) (wasPlaying : bool) (chunks : list Blob)
| VideoStopping (wasPlaying : bool) (chunks : list Blob).

Arguments VideoStopping {F}.

(** A file the page offers for download, under the name of its link: the
    GIF the encoder has rendered, or the recording, a blob of its type with
    its bytes. *)
Inductive Download (F : Type) : Type :=
| GifFile (gif : Gif F) (name : string)
| VideoFile (mimeType : string) (name : string) (data : Blob).

Arguments VideoFile {F}.

(** What the page asks of [MediaRecorder]: whether it records a type. *)
Class Recorder : Type := { isTypeSupported : string -> bool }.

Record Page (F : Type) : Type := {
  browser : Browser F;
  tasks : list (Task F);
  downloads : list (Download F)
}.

Section Exporters.
Context {F : Type} {C : Carrier F} {M : MathOps F} {Rec : Recorder}.
Local Open Scope num_scope.

Definition on_browser (f : act (Browser F)) : act (Page F) := fun p =>
  {| browser := f (browser p); tasks := tasks p; downloads := downloads p |}.

(** [gif.addFrame(state.canvas, { delay, copy: true })]. *)
Definition addFrame (cv : Canvas F) (delay : num F) : act (Gif F) := fun gif =>
  {| gif_width := gif_width gif; gif_height := gif_height gif;
     gif_frames := gif_frames gif ++ [{| picture := painted (ctx cv); delay := delay |}] |}.

(** The body of the loop of [exportGif]. *)
Definition addFrames (i : nat) : act (World F * Gif F) := fun '(w, gif) =>
  let w := on_state (renderFrame (ofNat i)) w in
  let gif := addFrame (canvas (state w)) (ofZ 1000 / fps (state w)) gif in
  let progress :=
    Math_round (ofNat i / ofNat (List.length (images (state w))) * ofZ 50) in
  (showLoading "Adding frames..." progress w, gif).

(** [const wasPlaying = state.isPlaying; state.isPlaying = false;
    if (state.animationId) cancelAnimationFrame(state.animationId)]. *)
Definition pausePlayback (b : Browser F) : bool * Browser F :=
  let wasPlaying := isPlaying (state (world b)) in
  (wasPlaying, cancelPending (on_world (on_state (set_isPlaying false)) b)).

(** [hideLoading(); if (wasPlaying) startPlayback()]: the end of the
    handlers [finished] and [onstop] and of the two [catch] blocks. *)
Definition exportDone (wasPlaying : bool) : act (Browser F) := fun b =>
  let b := on_world hideLoading b in
  if wasPlaying then startPlayback b else b.

(** [exportGif()] up to [gif.render()].  [available] says whether the
    encoder could be built; when it could not, the [catch] block runs. *)
Definition exportGif (available : bool) : act (Page F) := fun p =>
  if (List.length (images (state (world (browser p)))) =? 0)%nat then p
  else
    let b := on_world (showLoading "Generating GIF..." 0) (browser p) in
    let (wasPlaying, b) := pausePlayback b in
    if available then
      let gif := {| gif_width := width (canvas (state (world b)));
                    gif_height := height (canvas (state (world b)));
                    gif_frames := [] |} in
      let (w, gif) :=
        forUpTo (List.length (images (state (world b)))) addFrames (world b, gif) in
      {| browser := on_world (fun _ => w) b;
         tasks := tasks p ++ [GifRendering gif wasPlaying];
         downloads := downloads p |}
    else
      {| browser := exportDone wasPlaying b; tasks := tasks p; downloads := downloads p |}.

(** The handler of the encoder's event [progress]. *)
Definition onGifProgress (p : num F) : act (World F) :=
  showLoading "Rendering GIF..." (ofZ 50 + Math_round (p * ofZ 50)).

(** One turn of the loop of [exportMp4], from its test to its [await], or
    to [mediaRecorder.stop()] when the test fails. *)
Definition videoTurn (i : nat) (wasPlaying : bool) (chunks : list Blob) (b : Browser F) :
    Browser F * Task F :=
  if (i <? List.length (images (state (world b))))%nat then
    let b := on_world (on_state (renderFrame (ofNat i))) b in
    (b, VideoWaiting i (ofZ 1000 / fps (state (world b))) wasPlaying chunks)
  else (b, VideoStopping wasPlaying chunks).

(** [exportMp4()] up to its first [await].  [supported] says whether the
    recorder could be built; when it could not, the [catch] block runs. *)
Definition exportMp4 (supported : bool) : act (Page F) := fun p =>
  if (List.length (images (state (world (browser p)))) =? 0)%nat then p
  else
    let b := on_world (showLoading1 "Generating Video...") (browser p) in
    let (wasPlaying, b) := pausePlayback b in
    if supported then
      let (b, task) := videoTurn 0 wasPlaying [] b in
      {| browser := b; tasks := tasks p ++ [task]; downloads := downloads p |}
    else
      {| browser := exportDone wasPlaying b; tasks := tasks p; downloads := downloads p |}.

(** [mimeType] and [ext] of [exportMp4]: MP4 when the recorder supports it,
    else WebM with H.264 under the extension of MP4, else WebM with VP9. *)
Definition videoType : string * string :=
  if isTypeSupported "video/mp4" then ("video/mp4", "mp4")%string
  else if isTypeSupported "video/webm;codecs=h264"
  then ("video/webm;codecs=h264", "mp4")%string
  else ("video/webm;codecs=vp9", "webm")%string.

(** [new Blob(chunks, ...)]: the bytes of the chunks, one after the
    other. *)
Definition newBlob (chunks : list Blob) : Blob := List.concat chunks.

(** The recording [data] under the type chosen and the name
    [face-timelapse.${ext}]. *)
Definition recording (data : Blob) : Download F :=
  VideoFile (fst videoType) ("face-timelapse." ++ snd videoType)%string data.

(** What the link of [onstop] offers: the chunks as one blob. *)
Definition videoFile (chunks : list Blob) : Download F := recording (newBlob chunks).

(** [if (e.data.size > 0) chunks.push(e.data)]. *)
Definition pushChunk (data : Blob) (chunks : list Blob) : list Blob :=
  if (0 <? List.length data)%nat then chunks ++ [data] else chunks.

(** [mediaRecorder.ondataavailable] of the call that waits as task [k]:
    the recorder delivers a piece of the recording. *)
Definition dataAvailable (k : nat) (data : Blob) : act (Page F) := fun p =>
  match nth_error (tasks p) k with
  | Some (VideoWaiting i timeout wasPlaying chunks) =>
      {| browser := browser p;
         tasks := putAt k (VideoWaiting i timeout wasPlaying (pushChunk data chunks)) (tasks p);
         downloads := downloads p |}
  | Some (VideoStopping wasPlaying chunks) =>
      {| browser := browser p;
         tasks := putAt k (VideoStopping wasPlaying (pushChunk data chunks)) (tasks p);
         downloads := downloads p |}
  | _ => p
  end.

(** The page goes on with task [k]: the encoder has finished and the handler
    of [finished] runs; the timer of the loop of [exportMp4] fires and the
    loop goes to its next turn; the recorder has stopped and [onstop]
    runs. *)
Definition resume (k : nat) : act (Page F) := fun p =>
  match nth_error (tasks p) k with
  | None => p
  | Some (GifRendering gif wasPlaying) =>
      {| browser := exportDone wasPlaying (browser p);
         tasks := dropAt k (tasks p);
         downloads := downloads p ++ [GifFile gif "face-timelapse.gif"] |}
  | Some (VideoWaiting i _ wasPlaying chunks) =>
      let (b, task) := videoTurn (S i) wasPlaying chunks (browser p) in
      {| browser := b; tasks := putAt k task (tasks p); downloads := downloads p |}
  | Some (VideoStopping wasPlaying chunks) =>
      {| browser := exportDone wasPlaying (browser p);
         tasks := dropAt k (tasks p);
         downloads := downloads p ++ [videoFile chunks] |}
  end.

(** [mediaRecorder.stop()] throws in the call that waits as task [k], when
    its loop has shown the last frame: the [catch] block of [exportMp4]
    runs, and no file is offered. *)
Definition stopFailed (k : nat) : act (Page F) := fun p =>
  match nth_error (tasks p) k with
  | Some (VideoWaiting i _ wasPlaying _) =>
      if (S i <? List.length (images (state (world (browser p)))))%nat then p
      else
        {| browser := exportDone wasPlaying (browser p);
           tasks := dropAt k (tasks p);
           downloads := downloads p |}
  | _ => p
  end.

(** The encoder of task [k] reports its progress. *)
Definition progressed (k : nat) (p : num F) : act (Page F) := fun pg =>
  match nth_error (tasks pg) k with
  | Some (GifRendering _ _) => on_browser (on_world (onGifProgress p)) pg
  | _ => pg
  end.

End Exporters.

(** Everything that happens to the page: the inputs of the player and of
    the controls, the two export buttons, and the events of the tasks. *)
Inductive PageEvent (F : Type) : Type :=
| Browse (i : Input F)
| ExportGifClick (available : bool)
| ExportMp4Click (supported : bool)
| Progress (k : nat) (p : num F)
| Resume (k : nat)
| StopFailed (k : nat)
| DataAvailable (k : nat) (data : Blob).

Arguments ExportGifClick {F}.
Arguments ExportMp4Click {F}.
Arguments Resume {F}.
Arguments StopFailed {F}.
Arguments DataAvailable {F}.

Section PageEvents.
Context {F : Type} {C : Carrier F} {M : MathOps F} {Rec : Recorder}.

Definition pageStep (e : PageEvent F) : act (Page F) :=
  match e with
  | Browse i => on_browser (step (event i))
  | ExportGifClick available => exportGif available
  | ExportMp4Click supported => exportMp4 supported
  | Progress k p => progressed k p
  | Resume k => resume k
  | StopFailed k => stopFailed k
  | DataAvailable k data => dataAvailable k data
  end.

Definition pageRun (es : list (PageEvent F)) : act (Page F) := forEach es pageStep.

(** A piece of the recording for the task that waits first. *)
Definition DataAvailable0 (data : Blob) : PageEvent F := DataAvailable 0 data.

End PageEvents.

(** ** What the exporters do *)

Section ExportFacts.
Context {F : Type} {C : Carrier F} {M : MathOps F} {Rec : Recorder}.
Local Open Scope num_scope.
Implicit Types b : Browser F.
Implicit Types p : Page F.
Implicit Types st : State F.

(** The player's own fields of the state. *)
Definition same_player st st' : Prop :=
  isPlaying st' = isPlaying st /\ currentFrame st' = currentFrame st /\
  animationId st' = animationId st.

Lemma cancelPending_on_world f b :
  keeps_timeline f -> cancelPending (on_world f b) = on_world f (cancelPending b).
Proof.
  intros Hf. unfold cancelPending. cbn [on_world world]. rewrite Hf.
  now destruct (animationId _) as [[|n]|].
Qed.

Lemma pausePlayback_spec b :
  pausePlayback b =
  (isPlaying (state (world b)),
   on_world (on_state (set_isPlaying false)) (cancelPending b)).
Proof. unfold pausePlayback. now rewrite cancelPending_on_world by now intros w. Qed.

(** The frames [fs] are shots of the frames [a], [a + 1], ... taken in states
    with the setup of [st]. *)
Inductive shots st : nat -> list (GifFrame F) -> Prop :=
| shots_nil a : shots st a []
| shots_cons a st' fs :
    same_setup st st' -> shots st (S a) fs ->
    shots st a ({| picture := painted (ctx (canvas (renderFrame (ofNat a) st')));
                   delay := ofZ 1000 / fps st |} :: fs).

Lemma shots_setup st st1 a fs : same_setup st st1 -> shots st1 a fs -> shots st a fs.
Proof.
  intros Hs H. induction H as [a|a st' fs Hs' _ IH]; [constructor|].
  replace (fps st1) with (fps st) by (symmetry; apply Hs).
  constructor; [now transitivity st1 | exact IH].
Qed.

Lemma shots_nth st a fs j fr :
  shots st a fs -> nth_error fs j = Some fr ->
  exists st', same_setup st st' /\
    fr = {| picture := painted (ctx (canvas (renderFrame (ofNat (a + j)) st')));
            delay := ofZ 1000 / fps st |}.
Proof.
  intros H. revert j. induction H as [a|a st' fs Hs _ IH]; intros [|j] Hj; try discriminate.
  - injection Hj as <-. exists st'. now rewrite Nat.add_0_r.
  - rewrite Nat.add_succ_r. now apply IH.
Qed.

Lemma addFrames_turn i (w : World F) gif :
  let r := addFrames i (w, gif) in
  same_setup (state w) (state (fst r)) /\ same_player (state w) (state (fst r)) /\
  gif_frames (snd r) = gif_frames gif ++
    [{| picture := painted (ctx (canvas (renderFrame (ofNat i) (state w))));
        delay := ofZ 1000 / fps (state w) |}] /\
  gif_width (snd r) = gif_width gif /\ gif_height (snd r) = gif_height gif.
Proof.
  cbn. pose proof (renderFrame_frame (ofNat i) (state w)) as Hf. cbn zeta in Hf.
  split; [apply renderFrame_same_setup|]. unfold same_player.
  replace (fps (renderFrame (ofNat i) (state w))) with (fps (state w)) by (symmetry; apply Hf).
  tauto.
Qed.

Lemma addFrames_loop k : forall a (w : World F) gif,
  let r := forEach (seq a k) addFrames (w, gif) in
  same_setup (state w) (state (fst r)) /\ same_player (state w) (state (fst r)) /\
  gif_width (snd r) = gif_width gif /\ gif_height (snd r) = gif_height gif /\
  exists fs, gif_frames (snd r) = gif_frames gif ++ fs /\ shots (state w) a fs /\
             List.length fs = k.
Proof.
  induction k as [|k IH]; intros a w gif r.
  - subst r. cbn. repeat split; try reflexivity. exists []. rewrite app_nil_r.
    repeat split. constructor.
  - subst r. cbn [seq]. rewrite forEach_cons.
    destruct (addFrames_turn a w gif) as (Hs & Hp & Hg & Hw & Hh).
    destruct (addFrames a (w, gif)) as [w1 gif1]. cbn [fst snd] in *.
    destruct (IH (S a) w1 gif1) as (Hs' & Hp' & Hw' & Hh' & fs & Hfs & Hsh & Hlen).
    split; [now transitivity (state w1)|].
    split; [unfold same_player in *; intuition congruence|].
    split; [congruence|]. split; [congruence|].
    eexists (_ :: fs). rewrite Hfs, Hg, <- app_assoc. split; [reflexivity|].
    split; [|cbn; now rewrite Hlen].
    constructor; [reflexivity | now apply shots_setup with (st1 := state w1)].
Qed.


(** [exportGif] on a page with frames, the encoder at hand: the player is
    paused, the encoder has a shot of every frame and works. *)
Lemma exportGif_spec p :
  let st := state (world (browser p)) in
  images st <> [] ->
  exists w gif,
    exportGif true p =
    {| browser := {| world := w; callbacks := callbacks (cancelPending (browser p));
                     nextHandle := nextHandle (browser p) |};
       tasks := tasks p ++ [GifRendering gif (isPlaying st)];
       downloads := downloads p |} /\
    same_setup st (state w) /\ isPlaying (state w) = false /\
    currentFrame (state w) = currentFrame st /\ animationId (state w) = animationId st /\
    gif_width gif = width (canvas st) /\ gif_height gif = height (canvas st) /\
    shots st 0 (gif_frames gif) /\
    List.length (gif_frames gif) = List.length (images st).
Proof.
  intros st Hne. unfold exportGif. fold st.
  destruct (List.length (images st) =? 0)%nat eqn:E;
    [apply Nat.eqb_eq, length_zero_iff_nil in E; contradiction|].
  rewrite pausePlayback_spec, cancelPending_on_world by now intros w.
  cbn [on_world world callbacks nextHandle].
  rewrite !cancelPending_world, ?cancelPending_nextHandle. unfold forUpTo.
  set (w0 := on_state (set_isPlaying false) _).
  match goal with |- context [forEach _ addFrames (w0, ?g)] =>
    destruct (addFrames_loop (List.length (images st)) 0 w0 g)
      as (Hs & (Hp & Hc & Ha) & Hw & Hh & fs & Hfs & Hsh & Hlen);
    change (images (state w0)) with (images st);
    destruct (forEach _ addFrames (w0, g)) as [w' gif']
  end.
  cbn [fst snd gif_frames gif_width gif_height app] in *.
  assert (H0 : same_setup st (state w0)) by (repeat split).
  exists w', gif'. rewrite Hfs.
  split; [unfold on_world; cbn; now rewrite cancelPending_nextHandle|].
  split; [now transitivity (state w0)|]. repeat split; try assumption.
  now apply shots_setup with (st1 := state w0).
Qed.


Lemma videoTurn_spec i wp cs b :
  videoTurn i wp cs b =
  if (i <? List.length (images (state (world b))))%nat
  then (on_world (on_state (renderFrame (ofNat i))) b,
        VideoWaiting i (ofZ 1000 / fps (state (world b))) wp cs)
  else (b, VideoStopping wp cs).
Proof.
  unfold videoTurn. destruct (_ <? _)%nat; [|reflexivity]. cbn [on_world world on_state state].
  pose proof (renderFrame_frame (ofNat i) (state (world b))) as Hf. cbn zeta in Hf.
  now replace (fps (renderFrame _ _)) with (fps (state (world b))) by (symmetry; apply Hf).
Qed.

(** [exportMp4] on a page with frames, the recorder at hand: the player is
    paused, the first frame is on the canvas and the timer runs. *)
Lemma exportMp4_spec p :
  let st := state (world (browser p)) in
  images st <> [] ->
  exportMp4 true p =
  {| browser :=
       on_world (on_state (set_isPlaying false ;; renderFrame (ofNat 0)))%act
         (on_world (showLoading1 "Generating Video...") (cancelPending (browser p)));
     tasks := tasks p ++ [VideoWaiting 0 (ofZ 1000 / fps st) (isPlaying st) []];
     downloads := downloads p |}.
Proof.
  intros st Hne. unfold exportMp4. fold st.
  destruct (List.length (images st) =? 0)%nat eqn:E;
    [apply Nat.eqb_eq, length_zero_iff_nil in E; contradiction|].
  rewrite pausePlayback_spec, cancelPending_on_world, videoTurn_spec by now intros w.
  cbn [on_world world on_state state showLoading1 showLoading on_elements set_isPlaying
       images fps isPlaying].
  rewrite cancelPending_world. fold st.
  destruct (images st) as [|x xs]; [contradiction|]. reflexivity.
Qed.

(** ** The export and the player keep apart *)

Definition paused p : Prop := isPlaying (state (world (browser p))) = false.

(** At most one task is pending, and while one is the player is paused. *)
Definition exclusive p : Prop :=
  (List.length (tasks p) <= 1)%nat /\ (tasks p <> [] -> paused p).

(** The events that the page takes one export at a time: no export starts
    and no files arrive while a task is pending. *)
Definition apart p (e : PageEvent F) : Prop :=
  match e with
  | Browse FilesLoaded | ExportGifClick _ | ExportMp4Click _ => tasks p = []
  | _ => True
  end.

Inductive reachable (p0 : Page F) : Page F -> Prop :=
| reach_start : reachable p0 p0
| reach_step p e : reachable p0 p -> apart p e -> reachable p0 (pageStep e p).

Lemma resetApp_paused b : isPlaying (state (world (resetApp b))) = false.
Proof. unfold resetApp. cbn. now rewrite cancelPending_world. Qed.

Lemma step_paused (i : Input F) b :
  i <> FilesLoaded -> isPlaying (state (world b)) = false ->
  isPlaying (state (world (step (event i) b))) = false.
Proof.
  intros Hi Hp. destruct i as [t|c| |]; cbn [event step].
  - now rewrite animationFrame_stopped.
  - cbn [on_world world]. destruct (control_frame c (world b)) as (_ & _ & -> & _).
    exact Hp.
  - apply resetApp_paused.
  - contradiction.
Qed.

Lemma renderFrame_isPlaying index st :
  isPlaying (renderFrame index st) = isPlaying st.
Proof. apply renderFrame_frame. Qed.

Lemma renderFrame_currentFrame index st :
  currentFrame (renderFrame index st) = currentFrame st.
Proof. apply renderFrame_frame. Qed.

Lemma videoTurn_paused i wp cs b :
  isPlaying (state (world (fst (videoTurn i wp cs b)))) = isPlaying (state (world b)).
Proof.
  rewrite videoTurn_spec. destruct (_ <? _)%nat; [|reflexivity].
  cbn [fst on_world world on_state state]. apply renderFrame_frame.
Qed.

Lemma exportGif_exclusive a p : tasks p = [] -> exclusive (exportGif a p).
Proof.
  intros Ht. destruct (images (state (world (browser p)))) as [|x xs] eqn:E.
  - unfold exportGif. rewrite E. cbn. split; rewrite Ht; [cbn; lia | contradiction].
  - destruct a.
    + destruct (exportGif_spec p) as (w & gif & -> & _ & Hp & _); [now rewrite E|].
      rewrite Ht. split; [cbn; lia | intros _; exact Hp].
    + unfold exportGif. rewrite E. cbn [List.length Nat.eqb].
      destruct (pausePlayback _) as [wp b]. cbn [tasks]. rewrite Ht.
      split; [cbn; lia | contradiction].
Qed.

Lemma exportMp4_exclusive a p : tasks p = [] -> exclusive (exportMp4 a p).
Proof.
  intros Ht. destruct (images (state (world (browser p)))) as [|x xs] eqn:E.
  - unfold exportMp4. rewrite E. cbn. split; rewrite Ht; [cbn; lia | contradiction].
  - destruct a.
    + rewrite exportMp4_spec by now rewrite E. rewrite Ht. split; [cbn; lia|].
      intros _. unfold paused, andThen. cbn [browser on_world world on_state state].
      now rewrite renderFrame_isPlaying.
    + unfold exportMp4. rewrite E. cbn [List.length Nat.eqb].
      destruct (pausePlayback _) as [wp b]. cbn [tasks]. rewrite Ht.
      split; [cbn; lia | contradiction].
Qed.

Lemma resume_exclusive k p : exclusive p -> exclusive (resume k p).
Proof.
  intros [Hl Hp]. unfold resume.
  destruct (nth_error (tasks p) k) as [t|] eqn:E; [|now split].
  destruct (tasks p) as [|t0 [|t1 ts]] eqn:Et; [now destruct k| |cbn in Hl; lia].
  destruct k as [|k]; [|now destruct k]. cbn in E. injection E as ->.
  destruct t as [gif wp|i d wp cs|wp cs]; cbn [dropAt putAt firstn skipn app tasks];
    try (split; [cbn; lia | contradiction]).
  pose proof (videoTurn_paused (S i) wp cs (browser p)) as Hv.
  destruct (videoTurn (S i) wp cs (browser p)) as [b t]. cbn [fst tasks] in *.
  split; [cbn; lia|]. intros _. unfold paused. cbn [browser]. rewrite Hv. now apply Hp.
Qed.

Lemma stopFailed_exclusive k p : exclusive p -> exclusive (stopFailed k p).
Proof.
  intros [Hl Hp]. unfold stopFailed.
  destruct (nth_error (tasks p) k) as [[gif wp|i d wp cs|wp cs]|] eqn:E; try now split.
  destruct (_ <? _)%nat; [now split|].
  assert (Hk : (k < List.length (tasks p))%nat) by (apply nth_error_Some; congruence).
  pose proof (length_dropAt (tasks p) Hk) as Hd.
  assert (Ht : dropAt k (tasks p) = []) by (apply length_zero_iff_nil; lia).
  cbn [tasks]. rewrite Ht. split; [cbn; lia | contradiction].
Qed.

(** A piece of the recording changes the array of its call and nothing
    else: the page, the files offered and the number of tasks stay. *)
Lemma dataAvailable_shell k data p :
  browser (dataAvailable k data p) = browser p /\
  downloads (dataAvailable k data p) = downloads p /\
  List.length (tasks (dataAvailable k data p)) = List.length (tasks p).
Proof.
  unfold dataAvailable.
  destruct (nth_error (tasks p) k) as [[gif wp|i d wp cs|wp cs]|] eqn:E; auto;
    cbn [browser downloads tasks]; repeat split;
    apply length_putAt, nth_error_Some; congruence.
Qed.

Lemma dataAvailable_exclusive k data p : exclusive p -> exclusive (dataAvailable k data p).
Proof.
  destruct (dataAvailable_shell k data p) as (Hb & _ & Hl).
  intros [Hx Hp]. unfold exclusive, paused. rewrite Hb, Hl. split; [exact Hx|].
  intros Ht. apply Hp. intros E. apply Ht, length_zero_iff_nil. now rewrite Hl, E.
Qed.

Lemma pageStep_exclusive e p : exclusive p -> apart p e -> exclusive (pageStep e p).
Proof.
  intros Hx Ha. destruct e as [i|a|a|k v|k|k|k data]; cbn [pageStep apart] in *;
    try (now apply stopFailed_exclusive); try (now apply dataAvailable_exclusive).
  - destruct Hx as [Hl Hp]. split; [exact Hl|]. cbn [on_browser tasks]. intros Ht.
    apply step_paused; [|now apply Hp]. intros ->. contradiction.
  - now apply exportGif_exclusive.
  - now apply exportMp4_exclusive.
  - unfold progressed. destruct (nth_error _ _) as [[ | | ]|]; exact Hx.
  - now apply resume_exclusive.
Qed.


Lemma reachable_exclusive p0 p : exclusive p0 -> reachable p0 p -> exclusive p.
Proof. intros H0 H. induction H; auto using pageStep_exclusive. Qed.

(** The export and the player never paint together.  On a page that
    takes one export at a time and loads no files while one is pending, the
    player is paused whenever a task is pending, and an animation frame
    that comes then changes nothing of the page. *)
Theorem export_suspends_playback p0 p t :
  exclusive p0 -> reachable p0 p -> tasks p <> [] ->
  paused p /\ world (animationFrame t (browser p)) = world (browser p).
Proof.
  intros H0 Hr Ht. destruct (reachable_exclusive H0 Hr) as [_ Hp].
  specialize (Hp Ht). split; [exact Hp|]. now rewrite animationFrame_stopped.
Qed.

(** ** The frames of the video *)

(** Only animation frames come between the timers of the loop. *)
Definition undisturbed (es : list (PageEvent F)) : bool :=
  forallb (fun e => match e with
                    | Resume 0 | Browse (Tick _) | DataAvailable 0 _ => true
                    | _ => false
                    end) es.

(** How many times a task was resumed. *)
Definition timers (es : list (PageEvent F)) : nat :=
  List.length (filter (fun e => match e with Resume _ => true | _ => false end) es).

(** The pieces the recorder delivers, in the order of their events. *)
Definition heard (es : list (PageEvent F)) : list Blob :=
  flat_map (fun e => match e with DataAvailable _ data => [data] | _ => [] end) es.

(** The array [chunks] after the pieces [ds] were delivered to it. *)
Definition pushChunks (ds : list Blob) : act (list Blob) := forEach ds pushChunk.

(** The loop of [exportMp4] waits in turn [i] with the chunks [cs]: the
    player is paused and the canvas shows frame [i]. *)
Definition filming st (wp : bool) (i : nat) (cs : list Blob) p : Prop :=
  tasks p = [VideoWaiting i (ofZ 1000 / fps st) wp cs] /\ paused p /\
  same_setup st (state (world (browser p))) /\
  currentFrame (state (world (browser p))) = currentFrame st /\
  exists st', same_setup st st' /\
    painted (ctx (canvas (state (world (browser p))))) =
    painted (ctx (canvas (renderFrame (ofNat i) st'))).

(** An empty piece is dropped, every other is kept: the blob made of the
    chunks holds every byte delivered, in order. *)
Lemma newBlob_pushChunk data cs : newBlob (pushChunk data cs) = newBlob cs ++ data.
Proof.
  unfold pushChunk, newBlob. destruct data as [|x data]; cbn [List.length Nat.ltb Nat.leb].
  - now rewrite app_nil_r.
  - rewrite concat_app. cbn [List.concat]. now rewrite app_nil_r.
Qed.

Lemma newBlob_pushChunks ds : forall cs,
  newBlob (pushChunks ds cs) = newBlob cs ++ List.concat ds.
Proof.
  unfold pushChunks. induction ds as [|d ds IH]; intros cs;
    [rewrite forEach_nil; cbn; now rewrite app_nil_r|].
  rewrite forEach_cons, IH, newBlob_pushChunk. cbn [List.concat]. now rewrite app_assoc.
Qed.

(** No chunk of the array is empty. *)
Lemma pushChunk_nonempty data cs :
  Forall (fun c => c <> []) cs -> Forall (fun c => c <> []) (pushChunk data cs).
Proof.
  intros H. unfold pushChunk. destruct data as [|x data]; [exact H|].
  apply Forall_app. split; [exact H|]. now repeat constructor.
Qed.

Lemma filming_tick st wp i cs p t :
  filming st wp i cs p -> filming st wp i cs (pageStep (Browse (Tick t)) p).
Proof.
  intros (Ht & Hp & Hs & Hc). unfold filming, paused in *.
  cbn [pageStep on_browser browser tasks event step].
  now rewrite animationFrame_stopped.
Qed.

(** The timer fires before the last frame: the loop shows the next one and
    waits again. *)
Lemma timer_filming st wp i cs p :
  filming st wp i cs p -> (S i < List.length (images st))%nat ->
  pageStep (Resume 0) p =
  {| browser := on_world (on_state (renderFrame (ofNat (S i)))) (browser p);
     tasks := [VideoWaiting (S i) (ofZ 1000 / fps st) wp cs];
     downloads := downloads p |}.
Proof.
  intros (Ht & _ & Hs & _) Hi. cbn [pageStep]. unfold resume. rewrite Ht.
  cbn [nth_error]. rewrite videoTurn_spec.
  replace (images (state (world (browser p)))) with (images st) by (symmetry; apply Hs).
  replace (fps (state (world (browser p)))) with (fps st) by (symmetry; apply Hs).
  apply Nat.ltb_lt in Hi. now rewrite Hi.
Qed.

(** A piece of the recording arrives: it is pushed, and the loop waits as
    before. *)
Lemma filming_data st wp i cs p data :
  filming st wp i cs p ->
  filming st wp i (pushChunk data cs) (pageStep (DataAvailable 0 data) p).
Proof.
  intros (Ht & Hrest). unfold filming, paused in *. cbn [pageStep]. unfold dataAvailable.
  rewrite Ht. cbn [nth_error putAt tasks browser]. split; [reflexivity | exact Hrest].
Qed.

Lemma filming_timer st wp i cs p :
  filming st wp i cs p -> (S i < List.length (images st))%nat ->
  filming st wp (S i) cs (pageStep (Resume 0) p).
Proof.
  intros Hf Hi. rewrite (timer_filming Hf Hi). destruct Hf as (_ & Hp & Hs & Hc & _).
  unfold filming, paused in *. cbn [browser tasks on_world world on_state state].
  rewrite renderFrame_isPlaying, renderFrame_currentFrame.
  split; [reflexivity|]. split; [exact Hp|].
  split; [transitivity (state (world (browser p))); auto using renderFrame_same_setup|].
  split; [exact Hc|]. now exists (state (world (browser p))).
Qed.

Lemma filming_run es : forall st wp i cs p,
  filming st wp i cs p -> undisturbed es = true ->
  (i + timers es < List.length (images st))%nat ->
  filming st wp (i + timers es) (pushChunks (heard es) cs) (pageRun es p).
Proof.
  unfold pageRun, timers, pushChunks.
  induction es as [|e es IH]; intros st wp i cs p Hf Hu Hi;
    [now rewrite forEach_nil, Nat.add_0_r|].
  rewrite forEach_cons. cbn [undisturbed forallb] in Hu. apply andb_prop in Hu as [He Hu].
  destruct e as [[t| | |]| | | |[|k]| |[|k] data]; try discriminate;
    cbn [filter List.length heard flat_map app] in *.
  - apply IH; auto using filming_tick.
  - rewrite Nat.add_succ_r in *. apply (IH st wp (S i)); auto.
    apply filming_timer; [exact Hf | lia].
  - fold (heard es). rewrite forEach_cons. apply IH; auto using filming_data.
Qed.

Lemma exportMp4_filming p :
  let st := state (world (browser p)) in
  tasks p = [] -> images st <> [] -> filming st (isPlaying st) 0 [] (exportMp4 true p).
Proof.
  intros st Ht Hne. rewrite exportMp4_spec by assumption. fold st. unfold filming, paused.
  rewrite Ht. unfold andThen. cbn [tasks browser app on_world world on_state state].
  rewrite renderFrame_isPlaying, renderFrame_currentFrame, cancelPending_world. fold st.
  set (st0 := set_isPlaying false _).
  assert (H0 : same_setup st st0) by (repeat split).
  split; [reflexivity|]. split; [reflexivity|].
  split; [transitivity st0; auto using renderFrame_same_setup|].
  split; [reflexivity|]. now exists st0.
Qed.


(** ** The end of an export *)

(** The page at rest: the timeline is fresh, no callback waits and the
    player is paused. *)
Definition idle b : Prop :=
  fresh b /\ quiet b /\ isPlaying (state (world b)) = false.

Lemma idle_tick t b : idle b -> idle (animationFrame t b) /\ world (animationFrame t b) = world b.
Proof.
  intros ((H0 & _ & Hid) & Hq & Hp). rewrite animationFrame_stopped by assumption.
  repeat split; auto.
Qed.

(** Animation frames and nothing else. *)
Definition ticks (ts : list (num F)) : list (PageEvent F) :=
  map (fun t => Browse (Tick t)) ts.

Lemma idle_ticks ts p :
  idle (browser p) ->
  let p' := pageRun (ticks ts) p in
  idle (browser p') /\ world (browser p') = world (browser p) /\
  tasks p' = tasks p /\ downloads p' = downloads p.
Proof.
  unfold pageRun. revert p. induction ts as [|t ts IH]; intros p Hi;
    [cbn [ticks map]; rewrite forEach_nil; cbn zeta; auto|].
  cbn [ticks map]. fold (ticks ts). rewrite forEach_cons.
  cbn [pageStep event step]. destruct (idle_tick t Hi) as [Hi' Hw].
  destruct (IH (on_browser (animationFrame t) p) Hi') as (Hi'' & Hw' & Ht & Hd).
  cbn zeta. rewrite Hw', Ht, Hd. auto.
Qed.

(** After an export that found a settled timeline the page is at rest. *)
Lemma exportGif_idle p :
  settled (browser p) -> images (state (world (browser p))) <> [] ->
  idle (browser (exportGif true p)).
Proof.
  intros Hs Hne. destruct (exportGif_spec p Hne) as (w & gif & -> & _ & Hp & _ & Ha & _).
  pose proof (cancelPending_settled Hs) as Hq. destruct Hs as [(H0 & _ & Hid) _].
  unfold idle, fresh, quiet, known in *. cbn [browser world callbacks nextHandle].
  rewrite Hq, Ha. repeat split; auto.
Qed.

(** [exportDone] on a page at rest: the overlay goes, and the player starts
    again from the first frame when it was running. *)
Lemma exportDone_idle wp b :
  idle b ->
  let b' := exportDone wp b in
  loadingOverlay_hidden (elements (world b')) = true /\
  isPlaying (state (world b')) = wp /\
  images (state (world b')) = images (state (world b)) /\
  if wp then started b' /\ currentFrame (state (world b')) = ofZ 0
  else quiet b' /\ currentFrame (state (world b')) = currentFrame (state (world b)).
Proof.
  intros (Hf & Hq & Hp) b'. subst b'. unfold exportDone.
  assert (Hs : settled (on_world hideLoading b))
    by (apply on_world_settled; [now intros w | split; auto]).
  destruct wp; [|cbn; auto].
  destruct (startPlayback_started Hs) as (Hst & Hpl & Hc & Hi).
  rewrite startPlayback_spec in *. cbn in *. auto.
Qed.


(** C27: the round of a GIF export.  Whatever animation frames come while
    the encoder works, when it has finished the page offers the GIF with a
    frame for every image, the overlay is gone, and the player runs again
    from the first frame, with one loop, exactly when it ran before. *)
Theorem exportGif_restores_player p ts :
  let st := state (world (browser p)) in
  let p' := pageRun (ExportGifClick true :: ticks ts ++ [Resume 0]) p in
  tasks p = [] -> settled (browser p) -> images st <> [] ->
  tasks p' = [] /\
  (exists gif, downloads p' = downloads p ++ [GifFile gif "face-timelapse.gif"] /\
               List.length (gif_frames gif) = List.length (images st)) /\
  loadingOverlay_hidden (elements (world (browser p'))) = true /\
  isPlaying (state (world (browser p'))) = isPlaying st /\
  images (state (world (browser p'))) = images st /\
  if isPlaying st
  then started (browser p') /\ currentFrame (state (world (browser p'))) = ofZ 0
  else quiet (browser p') /\ currentFrame (state (world (browser p'))) = currentFrame st.
Proof.
  intros st p' Ht Hs Hne. subst p'. unfold pageRun.
  rewrite forEach_cons, forEach_app, forEach_cons, forEach_nil. cbn [pageStep].
  pose proof (exportGif_idle p Hs Hne) as Hi.
  destruct (exportGif_spec p Hne) as (w & gif & E & Hsame & _ & Hc & _ & _ & _ & _ & Hlen).
  destruct (idle_ticks ts _ Hi) as (Hi' & Hw & Htk & Hd). fold (pageRun (ticks ts) (exportGif true p)) in *.
  set (p1 := pageRun (ticks ts) (exportGif true p)) in *.
  rewrite E in Hw, Htk, Hd. cbn [browser world tasks downloads] in Hw, Htk, Hd.
  unfold resume. rewrite Htk, Ht. cbn [app nth_error dropAt firstn skipn tasks downloads browser].
  destruct (exportDone_idle (isPlaying st) Hi') as (Ho & Hp & Him & Hrest).
  rewrite Hw in Him, Hrest. destruct Hsame as (Hims & _).
  split; [reflexivity|]. split; [exists gif; now rewrite Hd|].
  subst st. split; [exact Ho|]. split; [exact Hp|]. split; [now rewrite Him|].
  destruct (isPlaying _); [exact Hrest|]. now rewrite <- Hc.
Qed.


Lemma resume_last_turn p i d wp cs :
  tasks p = [VideoWaiting i d wp cs] ->
  (List.length (images (state (world (browser p)))) <= S i)%nat ->
  resume 0 p =
  {| browser := browser p; tasks := [VideoStopping wp cs]; downloads := downloads p |}.
Proof.
  intros Ht Hn. unfold resume. rewrite Ht. cbn [nth_error]. rewrite videoTurn_spec.
  apply Nat.ltb_ge in Hn. now rewrite Hn.
Qed.

(** The recording is named and typed WebM only when the recorder has
    neither MP4 nor WebM with H.264; in every other case its name ends in
    [.mp4]. *)
Lemma videoType_webm :
  snd videoType = "webm"%string <->
  isTypeSupported "video/mp4" = false /\
  isTypeSupported "video/webm;codecs=h264" = false.
Proof.
  unfold videoType.
  destruct (isTypeSupported "video/mp4"), (isTypeSupported "video/webm;codecs=h264");
    cbn; intuition discriminate.
Qed.

(** The type the recorder is built with is one it was asked about and
    supports, or the default, which it was not asked about. *)
Lemma videoType_supported :
  isTypeSupported (fst videoType) = true \/ fst videoType = "video/webm;codecs=vp9"%string.
Proof.
  unfold videoType.
  destruct (isTypeSupported "video/mp4") eqn:E1; [now left|].
  destruct (isTypeSupported "video/webm;codecs=h264") eqn:E2; [now left | now right].
Qed.

(** The file made of the chunks that were kept holds every byte that was
    delivered. *)
Lemma videoFile_pushChunks ds es :
  videoFile (F := F) (pushChunks ds (pushChunks es [])) =
  recording (List.concat (es ++ ds)).
Proof.
  unfold videoFile. now rewrite !newBlob_pushChunks, concat_app.
Qed.

Lemma resume_stopped p wp cs :
  tasks p = [VideoStopping wp cs] ->
  resume 0 p =
  {| browser := exportDone wp (browser p); tasks := [];
     downloads := downloads p ++ [videoFile cs] |}.
Proof. intros Ht. unfold resume. now rewrite Ht. Qed.

(** When the recorder cannot be stopped the export ends in its [catch]
    block: nothing is pending, no file is offered, the overlay is hidden
    and the player runs again exactly when it ran before the export. *)
Theorem exportMp4_stop_fails p i d wp cs :
  tasks p = [VideoWaiting i d wp cs] -> paused p ->
  (List.length (images (state (world (browser p)))) <= S i)%nat ->
  let p' := pageStep (StopFailed 0) p in
  tasks p' = [] /\ downloads p' = downloads p /\
  loadingOverlay_hidden (elements (world (browser p'))) = true /\
  isPlaying (state (world (browser p'))) = wp.
Proof.
  intros Ht Hp Hn. cbn [pageStep]. unfold stopFailed. rewrite Ht. cbn [nth_error].
  apply Nat.ltb_ge in Hn. rewrite Hn. cbn [tasks downloads browser dropAt firstn skipn app].
  unfold exportDone. destruct wp; [rewrite startPlayback_spec|]; cbn; auto.
Qed.

Lemma exportDone_playing b :
  world (exportDone true b) =
  on_state (set_isPlaying true ;; set_currentFrame (ofZ 0))%act (hideLoading (world b)).
Proof. unfold exportDone. now rewrite startPlayback_spec. Qed.

Lemma idle_render index b :
  idle b -> idle (on_world (on_state (renderFrame index)) b).
Proof.
  intros ((H0 & Hall & Hid) & Hq & Hp). unfold idle, fresh, quiet, known in *.
  cbn [on_world world on_state state callbacks nextHandle].
  destruct (renderFrame_frame index (state (world b))) as (_ & _ & _ & -> & _ & _ & -> & _).
  auto.
Qed.

(** While the loop of [exportMp4] waits, a page at rest stays at rest and
    offers nothing new. *)
Lemma filming_idle es : forall st wp i cs p,
  filming st wp i cs p -> idle (browser p) -> undisturbed es = true ->
  (i + timers es < List.length (images st))%nat ->
  idle (browser (pageRun es p)) /\ downloads (pageRun es p) = downloads p.
Proof.
  unfold pageRun, timers.
  induction es as [|e es IH]; intros st wp i cs p Hf Hi Hu Hn; [now rewrite forEach_nil|].
  rewrite forEach_cons. cbn [undisturbed forallb] in Hu. apply andb_prop in Hu as [He Hu].
  destruct e as [[t| | |]| | | |[|k]| |[|k] data]; try discriminate;
    cbn [filter List.length] in *.
  - assert (Hi' : idle (browser (pageStep (Browse (Tick t)) p))) by now apply idle_tick.
    exact (IH st wp i cs _ (filming_tick t Hf) Hi' Hu Hn).
  - rewrite Nat.add_succ_r in Hn.
    assert (Hlt : (S i < List.length (images st))%nat) by lia.
    assert (Hi' : idle (browser (pageStep (Resume 0) p)))
      by (rewrite (timer_filming Hf Hlt); now apply idle_render).
    destruct (IH st wp (S i) cs _ (filming_timer Hf Hlt) Hi' Hu Hn) as [Hi'' Hd].
    split; [exact Hi''|]. now rewrite Hd, (timer_filming Hf Hlt).
  - destruct (dataAvailable_shell 0 data p) as (Hb & Hd & _).
    destruct (IH st wp i _ _ (filming_data data Hf)) as [Hi' Hd']; auto;
      [cbn [pageStep]; now rewrite Hb|].
    split; [exact Hi'|]. cbn [pageStep] in *. now rewrite Hd', Hd.
Qed.

Lemma exportMp4_idle p :
  settled (browser p) -> images (state (world (browser p))) <> [] ->
  idle (browser (exportMp4 true p)).
Proof.
  intros Hs Hne. rewrite exportMp4_spec by assumption. cbn [browser].
  change (idle (on_world (on_state (renderFrame (ofNat 0)))
    (on_world (on_state (set_isPlaying false))
       (on_world (showLoading1 "Generating Video...") (cancelPending (browser p)))))).
  apply idle_render.
  pose proof (cancelPending_settled Hs) as Hq. destruct Hs as [Hf _].
  apply fresh_cancelPending in Hf. destruct Hf as (H0 & Hall & Hid).
  unfold idle, fresh, quiet, known in *. cbn. auto.
Qed.

(** The recorder was told to stop: the pieces it still delivers are pushed
    to the array. *)
Lemma stopping_data ds : forall p wp cs,
  tasks p = [VideoStopping wp cs] ->
  pageRun (map DataAvailable0 ds) p =
  {| browser := browser p; tasks := [VideoStopping wp (pushChunks ds cs)];
     downloads := downloads p |}.
Proof.
  unfold pageRun, pushChunks, DataAvailable0.
  induction ds as [|d ds IH]; intros p wp cs Ht;
    [rewrite !forEach_nil; destruct p; cbn in *; now subst|].
  cbn [map]. rewrite !forEach_cons. cbn [pageStep].
  rewrite (IH _ wp (pushChunk d cs)); unfold dataAvailable; now rewrite Ht.
Qed.

(** C28: the round of a video export.  When the timer has fired once for
    every frame and the recorder has stopped, the page offers the video,
    which holds every byte the recorder delivered, while the loop ran and
    after it was told to stop, in the order of delivery; the overlay is
    gone, and the player runs again from the first frame, with one loop,
    exactly when it ran before. *)
Theorem exportMp4_restores_player p es ds :
  let st := state (world (browser p)) in
  let p' := pageRun (ExportMp4Click true ::
                     es ++ Resume 0 :: map DataAvailable0 ds ++ [Resume 0]) p in
  tasks p = [] -> settled (browser p) -> undisturbed es = true ->
  S (timers es) = List.length (images st) ->
  tasks p' = [] /\
  downloads p' = downloads p ++ [recording (List.concat (heard es ++ ds))] /\
  loadingOverlay_hidden (elements (world (browser p'))) = true /\
  isPlaying (state (world (browser p'))) = isPlaying st /\
  images (state (world (browser p'))) = images st /\
  if isPlaying st
  then started (browser p') /\ currentFrame (state (world (browser p'))) = ofZ 0
  else quiet (browser p') /\ currentFrame (state (world (browser p'))) = currentFrame st.
Proof.
  intros st p' Ht Hs Hu Hn. subst p'. unfold pageRun.
  rewrite forEach_cons, forEach_app, forEach_cons, forEach_app, forEach_cons, forEach_nil.
  cbn [pageStep]. fold (pageRun es (exportMp4 true p)).
  assert (Hne : images st <> []) by (intros E; rewrite E in Hn; discriminate).
  assert (Hlt : (0 + timers es < List.length (images st))%nat) by (rewrite <- Hn; lia).
  pose proof (exportMp4_filming p Ht Hne) as Hf.
  destruct (filming_idle es Hf (exportMp4_idle p Hs Hne) Hu Hlt) as [Hi Hd].
  destruct (filming_run es Hf Hu Hlt) as (Htk & _ & (Him & _) & Hc & _).
  set (p2 := pageRun es (exportMp4 true p)) in *. cbn [Nat.add] in Htk.
  rewrite (resume_last_turn p2 Htk) by (rewrite Him; fold st; lia).
  fold (pageRun (map DataAvailable0 ds)). erewrite stopping_data by reflexivity.
  rewrite resume_stopped with (wp := isPlaying st) (cs := pushChunks ds (pushChunks (heard es) []))
    by reflexivity.
  cbn [browser tasks downloads].
  destruct (exportDone_idle (isPlaying st) Hi) as (Ho & Hp & Him' & Hrest).
  rewrite Hd, exportMp4_spec by assumption. cbn [downloads]. subst st.
  split; [reflexivity|]. split; [now rewrite videoFile_pushChunks|]. split; [exact Ho|].
  split; [exact Hp|]. split; [now rewrite Him'|].
  destruct (isPlaying _); [exact Hrest|]. now rewrite <- Hc.
Qed.

(** ** What the export does not guard against *)

(** C35: nothing keeps the end of [handleFiles] from starting the player
    while the loop of [exportMp4] is waiting for its timer: the player then
    paints on the canvas that is being recorded. *)
Theorem load_during_export p :
  let p' := pageRun [ExportMp4Click true; Browse FilesLoaded] p in
  images (state (world (browser p))) <> [] ->
  tasks p' <> [] /\ isPlaying (state (world (browser p'))) = true.
Proof.
  intros p' Hne. subst p'. unfold pageRun. rewrite !forEach_cons, forEach_nil.
  cbn [pageStep event step]. rewrite exportMp4_spec by assumption.
  cbn [on_browser tasks browser]. split; [now destruct (tasks p)|].
  unfold handleFiles_finish, andThen.
  cbn [on_world world on_state state].
  destruct (renderFrame_frame (ofNat 0) (set_isPlaying false
    (state (showLoading1 "Generating Video..." (world (cancelPending (browser p))))))) as (Hi & _).
  cbn zeta in Hi. rewrite Hi, cancelPending_world. cbn [set_isPlaying images showLoading1
    showLoading on_elements state].
  destruct (images (state (world (browser p)))) as [|x xs]; [contradiction|].
  now rewrite startPlayback_spec.
Qed.

(** Nor does anything keep a second export from starting while the first
    is pending.  The second finds the player paused and will not restart
    it; the first to end restarts it, while the other still records. *)
Theorem export_during_export p :
  let st := state (world (browser p)) in
  let p' := pageRun [ExportGifClick true; ExportMp4Click true; Resume 0] p in
  tasks p = [] -> images st <> [] -> isPlaying st = true ->
  (exists d, tasks p' = [VideoWaiting 0 d false []]) /\
  isPlaying (state (world (browser p'))) = true.
Proof.
  intros st p' Ht Hne Hp. subst p'. unfold pageRun. rewrite !forEach_cons, forEach_nil.
  cbn [pageStep].
  destruct (exportGif_spec p) as (w & gif & -> & Hs & Hpl & _); [exact Hne|].
  fold st. rewrite Ht, Hp. cbn [app].
  rewrite exportMp4_spec by (cbn [browser world]; destruct Hs as [-> _]; exact Hne).
  cbn [browser world tasks app]. rewrite Hpl. unfold resume. cbn [tasks nth_error dropAt
    firstn skipn app browser]. split; [eauto|]. now rewrite exportDone_playing.
Qed.

(** C36: a reset while the loop of [exportMp4] waits ends the loop at the
    next timer, and the end of the export starts the player again, on a page
    that is back at the upload and has no frames. *)
Theorem reset_during_export p :
  let st := state (world (browser p)) in
  let p' := pageRun [ExportMp4Click true; Browse ResetClick; Resume 0; Resume 0] p in
  tasks p = [] -> images st <> [] -> isPlaying st = true ->
  tasks p' = [] /\ isPlaying (state (world (browser p'))) = true /\
  images (state (world (browser p'))) = [] /\
  editorSection_hidden (elements (world (browser p'))) = true.
Proof.
  intros st p' Ht Hne Hp. subst p'. unfold pageRun. rewrite !forEach_cons, forEach_nil.
  cbn [pageStep event step]. rewrite exportMp4_spec by assumption. fold st.
  rewrite Ht, Hp. cbn [app]. unfold on_browser. cbn [browser tasks downloads].
  match goal with |- context [resume 0 (resume 0 ?q)] =>
    rewrite (@resume_last_turn q 0 (ofZ 1000 / fps st)%num true []);
      [|reflexivity | cbn [browser]; rewrite resetApp_world; cbn; lia]
  end.
  rewrite resume_stopped with (wp := true) (cs := []) by reflexivity. cbn [browser tasks].
  rewrite exportDone_playing, resetApp_world. cbn. auto.
Qed.

(** The zoom slider moved while the loop of [exportMp4] waits for its
    timer: the listener finds the player paused and paints
    [state.currentFrame], at the new zoom, on the canvas that is being
    recorded; the frames still to come are painted at the new zoom. *)
Theorem zoom_during_export p v :
  let st := state (world (browser p)) in
  let p' := pageRun [ExportMp4Click true; Browse (User (ZoomInput v))] p in
  images st <> [] ->
  tasks p' <> [] /\
  zoom (state (world (browser p'))) = (parseInt v / ofZ 100)%num /\
  exists st1, images st1 = images st /\ zoom st1 = (parseInt v / ofZ 100)%num /\
    canvas (state (world (browser p'))) = canvas (renderFrame (currentFrame st) st1).
Proof.
  intros st p' Hne. subst p'. unfold pageRun. rewrite !forEach_cons, forEach_nil.
  cbn [pageStep event step control]. rewrite exportMp4_spec by assumption. fold st.
  cbn [on_browser tasks browser]. split; [now destruct (tasks p)|].
  unfold onZoomInput, andThen. cbn [on_world world on_state state].
  set (st0 := renderFrame (ofNat 0) _).
  assert (H0 : images st0 = images st /\ isPlaying st0 = false /\
               currentFrame st0 = currentFrame st).
  { subst st0. rewrite renderFrame_isPlaying, renderFrame_currentFrame.
    destruct (renderFrame_frame (ofNat 0) (set_isPlaying false
      (state (showLoading1 "Generating Video..." (world (cancelPending (browser p)))))))
      as (-> & _). cbn [set_isPlaying images isPlaying currentFrame].
    unfold showLoading1, showLoading. cbn [on_elements state].
    now rewrite cancelPending_world. }
  destruct H0 as (Hi & Hp & Hc). cbn [set_zoom isPlaying images]. rewrite Hp, Hi.
  destruct (images st) as [|x xs] eqn:E; [contradiction|].
  cbn [negb andb List.length Nat.ltb Nat.leb].
  cbn [on_state state set_zoom currentFrame]. rewrite Hc.
  split; [now rewrite (proj1 (proj2 (renderFrame_frame _ _)))|].
  exists (set_zoom (parseInt v / ofZ 100)%num st0). cbn [set_zoom images zoom].
  repeat split. exact Hi.
Qed.

(** The speed slider moved while the loop of [exportMp4] waits for its
    timer: the stream was captured at the rate the export found, and the
    timers that follow wait [1000 / fps] at the new rate, so the frames of
    one video stay on the canvas for different times. *)
Theorem speed_during_export p v :
  let st := state (world (browser p)) in
  let p1 := pageStep (ExportMp4Click true) p in
  let p' := pageRun [Browse (User (SpeedInput v)); Resume 0] p1 in
  tasks p = [] -> (1 < List.length (images st))%nat ->
  tasks p1 = [VideoWaiting 0 (ofZ 1000 / fps st)%num (isPlaying st) []] /\
  tasks p' = [VideoWaiting 1 (ofZ 1000 / parseInt v)%num (isPlaying st) []].
Proof.
  intros st p1 p' Ht Hn. subst p' p1. unfold pageRun. rewrite !forEach_cons, forEach_nil.
  assert (Hne : images st <> []) by (intros E; rewrite E in Hn; cbn in Hn; lia).
  cbn [pageStep event step control]. rewrite exportMp4_spec by assumption. fold st.
  rewrite Ht. cbn [tasks app]. split; [reflexivity|].
  unfold on_browser. cbn [tasks browser downloads].
  unfold resume. cbn [tasks nth_error browser]. rewrite videoTurn_spec.
  unfold onSpeedInput, andThen.
  cbn [on_world world on_state state on_elements set_fps images fps].
  destruct (renderFrame_frame (ofNat 0) (set_isPlaying false
    (state (showLoading1 "Generating Video..." (world (cancelPending (browser p)))))))
    as (-> & _). cbn [set_isPlaying images]. unfold showLoading1, showLoading.
  cbn [on_elements state]. rewrite cancelPending_world. fold st.
  apply Nat.ltb_lt in Hn. rewrite Hn. reflexivity.
Qed.

End ExportFacts.

(** ** The arrays of chunks *)

Section Recordings.
Context {F : Type} {C : Carrier F} {M : MathOps F} {Rec : Recorder}.
Implicit Types p : Page F.

(** The array [chunks] of the call a task stands for; the encoder of a GIF
    has none. *)
Definition chunksOf (t : Task F) : list Blob :=
  match t with
  | VideoWaiting _ _ _ cs | VideoStopping _ cs => cs
  | GifRendering _ _ => []
  end.

(** No chunk that is kept is empty. *)
Definition solid (t : Task F) : Prop := Forall (fun c => c <> []) (chunksOf t).

Definition chunked p : Prop := Forall solid (tasks p).

Lemma solid_videoTurn i wp cs b :
  Forall (fun c => c <> []) cs -> solid (snd (videoTurn i wp cs b)).
Proof. intros H. rewrite videoTurn_spec. now destruct (_ <? _)%nat. Qed.

Lemma chunked_add p (t : Task F) : chunked p -> chunksOf t = [] -> Forall solid (tasks p ++ [t]).
Proof.
  intros H E. apply Forall_app. split; [exact H|]. repeat constructor.
  unfold solid. rewrite E. constructor.
Qed.

Lemma exportGif_chunked a p : chunked p -> chunked (exportGif a p).
Proof.
  intros H. unfold exportGif. destruct (_ =? _)%nat; [exact H|].
  destruct (pausePlayback _) as [wp b]. destruct a; [|exact H].
  destruct (forUpTo _ _ _) as [w gif]. now apply chunked_add.
Qed.

Lemma exportMp4_chunked a p : chunked p -> chunked (exportMp4 a p).
Proof.
  intros H. unfold exportMp4. destruct (_ =? _)%nat; [exact H|].
  destruct (pausePlayback _) as [wp b]. destruct a; [|exact H].
  rewrite videoTurn_spec. unfold chunked.
  destruct (_ <? _)%nat; now apply chunked_add.
Qed.

Lemma resume_chunked k p : chunked p -> chunked (resume k p).
Proof.
  intros H. unfold resume.
  destruct (nth_error (tasks p) k) as [[gif wp|i d wp cs|wp cs]|] eqn:E;
    try exact H; try (now apply Forall_dropAt).
  pose proof (solid_videoTurn (S i) wp (browser p) (Forall_nth_error _ H E)) as Hs.
  destruct (videoTurn _ _ _ _) as [b t]. now apply Forall_putAt.
Qed.

Lemma stopFailed_chunked k p : chunked p -> chunked (stopFailed k p).
Proof.
  intros H. unfold stopFailed.
  destruct (nth_error (tasks p) k) as [[gif wp|i d wp cs|wp cs]|]; try exact H.
  destruct (_ <? _)%nat; [exact H | now apply Forall_dropAt].
Qed.

(** The guard of [ondataavailable] keeps the empty pieces out. *)
Lemma dataAvailable_chunked k data p : chunked p -> chunked (dataAvailable k data p).
Proof.
  intros H. unfold dataAvailable.
  destruct (nth_error (tasks p) k) as [[gif wp|i d wp cs|wp cs]|] eqn:E; try exact H;
    apply Forall_putAt; try exact H;
    apply pushChunk_nonempty, (Forall_nth_error _ H E).
Qed.

Lemma pageStep_chunked (e : PageEvent F) p : chunked p -> chunked (pageStep e p).
Proof.
  destruct e as [i|a|a|k x|k|k|k data]; cbn [pageStep]; intros H;
    auto using exportGif_chunked, exportMp4_chunked, resume_chunked, stopFailed_chunked,
      dataAvailable_chunked.
  unfold progressed. now destruct (nth_error _ _) as [[]|].
Qed.

(** A piece goes to the array of the call it was recorded for, and to no
    other: two recordings under way do not mix. *)
Lemma dataAvailable_other k j data p :
  j <> k -> nth_error (tasks (dataAvailable k data p)) j = nth_error (tasks p) j.
Proof.
  intros H. unfold dataAvailable.
  destruct (nth_error (tasks p) k) as [[gif wp|i d wp cs|wp cs]|] eqn:E; try reflexivity;
    apply nth_error_putAt_other; eauto using nth_error_Some_lt.
Qed.

Lemma dataAvailable_pushes k data p (t : Task F) :
  nth_error (tasks p) k = Some t ->
  exists t', nth_error (tasks (dataAvailable k data p)) k = Some t' /\
    chunksOf t' = match t with
                  | GifRendering _ _ => []
                  | _ => pushChunk data (chunksOf t)
                  end.
Proof.
  intros E. pose proof (nth_error_Some_lt _ _ E) as Hk. unfold dataAvailable. rewrite E.
  destruct t as [gif wp|i d wp cs|wp cs]; cbn [tasks];
    rewrite ?nth_error_putAt by exact Hk; eauto.
Qed.

End Recordings.

Section RealExport.
Context {M : MathOps R} {L : MathLaws M} {Rec : Recorder}.
Local Open Scope R_scope.

(** Alignment is on, the zoom is a number, the context is plain, and every
    face that was detected was measured, with its eyes apart. *)
Definition aligned_setup (st : State R) : Prop :=
  alignEyes st = true /\ (exists z, zoom st = Fin z) /\
  ctm (ctx (canvas st)) = mat_id /\
  Forall measured_item (images st) /\ Forall apart_item (images st).

(** In every state with the setup of [st], frame [i] is painted with its
    eyes on the target of [st]. *)
Lemma shot_on_target st st' i item d :
  same_setup st st' -> aligned_setup st ->
  nth_error (images st) i = Some item -> detections item = Some d ->
  exists p, top_paint (renderFrame (ofNat i) st') = Some p /\
            eyes_on_target (canvas st) (zoom st) (landmarks d) p.
Proof.
  intros Hs (Ha & [z Hz] & Hc & Hm & Hp) Hi Hd.
  pose proof (Forall_nth_error _ Hm Hi) as Hmi.
  pose proof (Forall_nth_error _ Hp Hi) as Hpi.
  unfold measured_item, apart_item in *. rewrite Hd in *. destruct Hmi as [Hu Hmd].
  destruct (measured_flm Hmd) as (Hlm & HL & HR).
  destruct (same_setup_target Hs) as (Htx & Hty & Hdd).
  destruct Hs as (Him & Hz' & Ha' & _ & _ & _ & Hc' & _).
  assert (Hi' : nth_error (images st') i =
    Some {| original := original item;
            detections := Some {| landmarks := flm (eyesL (landmarks d)) (eyesR (landmarks d)) |} |}).
  { rewrite Him, Hi, <- Hlm. destruct item as [o [dd|]]; [|discriminate].
    cbn in Hd. injection Hd as ->. now destruct d. }
  rewrite <- Ha' in Ha. rewrite <- Hz' in Hz. rewrite <- Hc' in Hc.
  destruct (renderFrame_eyes_on_target st' i Hi' Ha Hz HL HR Hpi Hu Hc) as (p & Htop & He).
  exists p. split; [exact Htop|]. unfold eyes_on_target in *.
  now rewrite Hlm, <- Htx, <- Hty, <- Hdd.
Qed.

(** The encoder has a frame for every image of [st], of the size of the
    canvas, each with the delay [1000 / fps], and the frame of an image with
    a detection shows that image on top with its eyes on the target. *)
Definition films_aligned (st : State R) (gif : Gif R) : Prop :=
  gif_width gif = width (canvas st) /\ gif_height gif = height (canvas st) /\
  List.length (gif_frames gif) = List.length (images st) /\
  forall i item d,
    nth_error (images st) i = Some item -> detections item = Some d ->
    exists fr pt,
      nth_error (gif_frames gif) i = Some fr /\ delay fr = (ofZ 1000 / fps st)%num /\
      hd_error (picture fr) = Some pt /\
      eyes_on_target (canvas st) (zoom st) (landmarks d) pt.

Lemma exportGif_films (p : Page R) :
  let st := state (world (browser p)) in
  images st <> [] -> aligned_setup st ->
  exists gif,
    tasks (exportGif true p) = tasks p ++ [GifRendering gif (isPlaying st)] /\
    films_aligned st gif.
Proof.
  intros st Hne Hal.
  destruct (exportGif_spec p Hne) as (w & gif & -> & _ & _ & _ & _ & Hw & Hh & Hsh & Hlen).
  exists gif. cbn [tasks]. unfold films_aligned. repeat split; try assumption.
  intros i item d Hi Hd.
  destruct (nth_error (gif_frames gif) i) as [fr|] eqn:Hfr;
    [|apply nth_error_None in Hfr; apply nth_error_Some_lt in Hi; fold st in Hlen; lia].
  destruct (shots_nth _ Hsh Hfr) as (st' & Hs & ->). cbn [Nat.add] in *.
  destruct (shot_on_target _ Hs Hal Hi Hd) as (pt & Hpt & He).
  eexists _, pt. split; [reflexivity|]. cbn [delay picture]. split; [reflexivity|]. split; [exact Hpt | exact He].
Qed.

(** C11: the GIF shows the faces eye on eye.  When every face was measured,
    the encoder gets one frame for every image, in the order of the images,
    each with the delay [1000 / fps], and on top of the frame of an image with
    a detection is that image with its two eyes on the target line, the same
    two points in every frame. *)
Theorem exportGif_frames_aligned (p : Page R) :
  let st := state (world (browser p)) in
  images st <> [] -> aligned_setup st ->
  exists gif,
    tasks (exportGif true p) = tasks p ++ [GifRendering gif (isPlaying st)] /\
    gif_width gif = width (canvas st) /\ gif_height gif = height (canvas st) /\
    List.length (gif_frames gif) = List.length (images st) /\
    forall i item d,
      nth_error (images st) i = Some item -> detections item = Some d ->
      exists fr pt,
        nth_error (gif_frames gif) i = Some fr /\ delay fr = (ofZ 1000 / fps st)%num /\
        hd_error (picture fr) = Some pt /\
        eyes_on_target (canvas st) (zoom st) (landmarks d) pt.
Proof. exact (exportGif_films p). Qed.


(** C21: the video shows the faces eye on eye, one frame per timer.
    Whatever animation frames come between, after [k] timers the loop waits
    in turn [k] with the timeout [1000 / fps], and the canvas that is being
    recorded shows image [k] with its two eyes on the target line. *)
Theorem exportMp4_shows_frames (p : Page R) es :
  let st := state (world (browser p)) in
  let p' := pageRun (ExportMp4Click true :: es) p in
  tasks p = [] -> aligned_setup st -> undisturbed es = true ->
  (timers es < List.length (images st))%nat ->
  tasks p' = [VideoWaiting (timers es) (ofZ 1000 / fps st)%num (isPlaying st)
                (pushChunks (heard es) [])] /\
  forall item d,
    nth_error (images st) (timers es) = Some item -> detections item = Some d ->
    exists pt, top_paint (state (world (browser p'))) = Some pt /\
               eyes_on_target (canvas st) (zoom st) (landmarks d) pt.
Proof.
  intros st p' Ht Hal Hu Hn. subst p'. unfold pageRun. rewrite forEach_cons.
  cbn [pageStep]. fold (pageRun es (exportMp4 true p)).
  assert (Hne : images st <> []) by (intros E; rewrite E in Hn; cbn in Hn; lia).
  destruct (filming_run es (exportMp4_filming p Ht Hne) Hu Hn)
    as (Htk & _ & _ & _ & st' & Hs & Hpt).
  cbn [Nat.add] in *. split; [exact Htk|]. intros item d Hi Hd.
  destruct (shot_on_target _ Hs Hal Hi Hd) as (pt & Htop & He).
  exists pt. split; [|exact He]. unfold top_paint in *. now rewrite Hpt.
Qed.

End RealExport.

(** ** The fit and the export together *)

Section FitAndExport.
Context {M : MathOps R} {L : MathLaws M} {Rec : Recorder}.
Local Open Scope R_scope.

(** In every state with the setup of [st], frame [i] is painted under the
    transformation that places it in [st]. *)
Lemma shot_at st st' i img Lp Rp z :
  same_setup st st' -> alignEyes st = true -> zoom st = Fin z ->
  ctm (ctx (canvas st)) = mat_id ->
  nth_error (images st) i =
    Some {| original := img; detections := Some {| landmarks := flm Lp Rp |} |} ->
  usable img = true -> Lp <> [] -> Rp <> [] -> mean Lp <> mean Rp ->
  exists p, top_paint (renderFrame (ofNat i) st') = Some p /\
    forall q, paint_at p q =
              place (canvas st) Lp Rp (canvasW (canvas st) * z / eyeDist Lp Rp) q.
Proof.
  intros (Him & Hz' & Ha' & _ & Hw & Hh & Hc' & _) Ha Hz Hc Hi Hu HL HR He.
  rewrite <- Him in Hi. rewrite <- Ha' in Ha. rewrite <- Hz' in Hz. rewrite <- Hc' in Hc.
  eexists. split; [exact (renderFrame_aligned_top st' i Hi Ha Hz HL HR He Hu Hc)|].
  intros q. rewrite paint_at_drawImage3 by assumption. unfold frameMatrix, place.
  rewrite alignMatrix_apply. unfold canvasW, canvasH. now rewrite Hw, Hh.
Qed.

(** A paint operation that places the points of the image as [place] does
    shows the eyes on the target. *)
Lemma place_eyes_on_target cv z Lp Rp pt :
  Lp <> [] -> Rp <> [] -> mean Lp <> mean Rp ->
  (forall q, paint_at pt q = place cv Lp Rp (canvasW cv * z / eyeDist Lp Rp) q) ->
  eyes_on_target cv (Fin z) (flm Lp Rp) pt.
Proof.
  intros HL HR Heyes Hat. unfold eyes_on_target, place in *.
  rewrite leftEyeCenter_fin, rightEyeCenter_fin, !pt_val_fpt, !Hat by assumption.
  rewrite (alignPoint_eye_line _ _ _ (eyeDist_nonzero Heyes) (eyeMid_left Lp Rp)).
  rewrite (alignPoint_eye_line _ _ _ (eyeDist_nonzero Heyes) (eyeMid_right Lp Rp)).
  rewrite targetX_fin, targetY_fin, desiredEyesDist_fin. cbn [nval].
  split; f_equal; field.
Qed.

Section Fitted.
Variables (p : Page R) (w : World R).
Hypothesis Hpage : world (browser p) = w.
Hypothesis HW : width (canvas (state w)) <> 0%N.
Hypothesis Hmeasured : Forall measured_item (images (state w)).
Hypothesis Hapart : Forall apart_item (images (state w)).
Hypothesis Halign : alignEyes (state w) = true.
Hypothesis Hctm : ctm (ctx (canvas (state w))) = mat_id.
Hypothesis Hlow :
  nle (dec 1 10) (finalZoom (minSafeZoom (canvas (state w)) (images (state w)))).

(** C10: the GIF made after an automatic fit shows every face whole and eye
    on eye.  When the clamp to the range of the slider did not raise the
    zoom, the frame of the GIF for an image with a detection shows that
    image with its two eyes on the target line, and every point of the image
    inside the canvas: nothing is cut. *)
Theorem autoFit_then_exportGif i img Lp Rp :
  let p' := pageRun [Browse (User AutoFit); ExportGifClick true] p in
  nth_error (images (state w)) i =
    Some {| original := img; detections := Some {| landmarks := flm Lp Rp |} |} ->
  exists gif wp fr pt,
    tasks p' = tasks p ++ [GifRendering gif wp] /\
    nth_error (gif_frames gif) i = Some fr /\ hd_error (picture fr) = Some pt /\
    eyes_on_target (canvas (state w)) (fittedZoom (state w)) (flm Lp Rp) pt /\
    forall u v, 0 <= u <= imgW img -> 0 <= v <= imgH img ->
                inside (canvas (state w)) (paint_at pt (u, v)).
Proof.
  intros p' Hi. subst p'. unfold pageRun. rewrite !forEach_cons, forEach_nil.
  cbn [pageStep event step control]. set (p1 := on_browser (on_world autoFitZoom) p).
  assert (Hne : images (state w) <> []) by (intros E; rewrite E in Hi; now destruct i).
  destruct (autoFitZoom_frame w Hne) as (Him & Hz & Ha & Hw' & Hh' & Hc).
  destruct (detected_item _ Hmeasured Hapart Hi) as (Hus & HL & HR & Heyes).
  destruct (fittedZoom_fits w i HW Hmeasured Hapart Hi Hlow) as (z & Ez & Hfit).
  assert (Hw1 : world (browser p1) = autoFitZoom w) by (cbn; now rewrite Hpage).
  assert (Hne1 : images (state (world (browser p1))) <> []) by now rewrite Hw1, Him.
  destruct (exportGif_spec p1 Hne1) as (w' & gif & -> & _ & _ & _ & _ & _ & _ & Hsh & Hlen).
  rewrite Hw1 in *. cbn [tasks browser on_browser] in *.
  destruct (nth_error (gif_frames gif) i) as [fr|] eqn:Hfr;
    [|apply nth_error_None in Hfr; apply nth_error_Some_lt in Hi;
      rewrite Hlen, Him in Hfr; lia].
  destruct (shots_nth _ Hsh Hfr) as (st' & Hs & Efr). cbn [Nat.add] in Efr.
  rewrite Halign in Ha. rewrite Ez in Hz. rewrite Hctm in Hc. rewrite <- Him in Hi.
  destruct (shot_at i Hs Ha Hz Hc Hi Hus HL HR Heyes) as (pt & Hpt & Hat).
  assert (EW : canvasW (canvas (state (autoFitZoom w))) = canvasW (canvas (state w)))
    by (unfold canvasW; now rewrite Hw').
  assert (EH : canvasH (canvas (state (autoFitZoom w))) = canvasH (canvas (state w)))
    by (unfold canvasH; now rewrite Hh').
  unfold place in Hat. rewrite EW, EH in Hat.
  exists gif, (isPlaying (state (autoFitZoom w))), fr, pt.
  split; [reflexivity|]. split; [exact Hfr|]. split; [now rewrite Efr|].
  split; [rewrite Ez; now apply place_eyes_on_target|].
  intros u v Hu Hv. rewrite Hat. exact (fits_whole_image Hfit Hu Hv).
Qed.

End Fitted.
End FitAndExport.

(** ** The exporters on the page of scenario A *)

(** A browser that records WebM with H.264 and no MP4. *)
Definition h264Recorder : Recorder :=
  {| isTypeSupported := fun t => String.eqb t "video/webm;codecs=h264" |}.

Section ScenarioExport.
Local Open Scope R_scope.
#[local] Existing Instance h264Recorder.

(** In such a browser the recording is a WebM file under the name of an
    MP4. *)
Example videoFile_h264 :
  @videoFile R h264Recorder [] = VideoFile "video/webm;codecs=h264" "face-timelapse.mp4" [].
Proof. reflexivity. Qed.

(** The page of scenario A, nothing pending, and the same page with the
    player running. *)
Definition siteA : Page R := {| browser := browserA; tasks := []; downloads := [] |}.

Definition siteA_playing : Page R :=
  {| browser := startPlayback browserA; tasks := []; downloads := [] |}.

Lemma stateA_aligned : aligned_setup stateA.
Proof.
  split; [reflexivity|]. split; [now exists (25 / 100)|]. split; [reflexivity|].
  split; [exact stateA_measured | exact stateA_apart].
Qed.

Lemma exportGif_frames_aligned_witness :
  let st := state (world (browser siteA)) in
  exists gif,
    tasks (exportGif true siteA) = tasks siteA ++ [GifRendering gif (isPlaying st)] /\
    gif_width gif = width (canvas st) /\ gif_height gif = height (canvas st) /\
    List.length (gif_frames gif) = List.length (images st) /\
    forall i item d,
      nth_error (images st) i = Some item -> detections item = Some d ->
      exists fr pt,
        nth_error (gif_frames gif) i = Some fr /\ delay fr = (ofZ 1000 / fps st)%num /\
        hd_error (picture fr) = Some pt /\
        eyes_on_target (canvas st) (zoom st) (landmarks d) pt.
Proof.
  apply (exportGif_frames_aligned (L := StdMathLaws) siteA);
    [discriminate | exact stateA_aligned].
Defined.

Lemma siteA_exporting : tasks (pageStep (ExportMp4Click true) siteA) <> [].
Proof. cbn [pageStep]. rewrite exportMp4_spec by discriminate. discriminate. Qed.

Lemma export_suspends_playback_witness :
  let p := pageStep (ExportMp4Click true) siteA in
  paused p /\ world (animationFrame (Fin 200) (browser p)) = world (browser p).
Proof.
  apply (export_suspends_playback (M := StdMath) (p0 := siteA));
    [split; [cbn; lia | intros H; now elim H]
    | apply reach_step; [apply reach_start | reflexivity]
    | exact siteA_exporting].
Defined.

Lemma exportMp4_shows_frames_witness :
  let st := state (world (browser siteA)) in
  let es := [Browse (Tick (Fin 100)); Resume 0] in
  let p' := pageRun (ExportMp4Click true :: es) siteA in
  tasks p' = [VideoWaiting (timers es) (ofZ 1000 / fps st)%num (isPlaying st)
                (pushChunks (heard es) [])] /\
  forall item d,
    nth_error (images st) (timers es) = Some item -> detections item = Some d ->
    exists pt, top_paint (state (world (browser p'))) = Some pt /\
               eyes_on_target (canvas st) (zoom st) (landmarks d) pt.
Proof.
  apply (exportMp4_shows_frames (L := StdMathLaws) siteA);
    [reflexivity | exact stateA_aligned | reflexivity | cbn; lia].
Defined.

Lemma exportGif_restores_player_witness :
  let st := state (world (browser siteA)) in
  let p' := pageRun (ExportGifClick true :: ticks [Fin 100] ++ [Resume 0]) siteA in
  tasks p' = [] /\
  (exists gif, downloads p' = downloads siteA ++ [GifFile gif "face-timelapse.gif"] /\
               List.length (gif_frames gif) = List.length (images st)) /\
  loadingOverlay_hidden (elements (world (browser p'))) = true /\
  isPlaying (state (world (browser p'))) = isPlaying st /\
  images (state (world (browser p'))) = images st /\
  if isPlaying st
  then started (browser p') /\ currentFrame (state (world (browser p'))) = ofZ 0
  else quiet (browser p') /\ currentFrame (state (world (browser p'))) = currentFrame st.
Proof.
  apply (exportGif_restores_player (M := StdMath) siteA);
    [reflexivity | exact browserA_settled | discriminate].
Defined.

Lemma exportMp4_restores_player_witness :
  let st := state (world (browser siteA)) in
  let es := [DataAvailable 0 [Byte.x01; Byte.x02]; Resume 0; DataAvailable 0 []] in
  let ds := [[Byte.x03]] in
  let p' := pageRun (ExportMp4Click true ::
                     es ++ Resume 0 :: map DataAvailable0 ds ++ [Resume 0]) siteA in
  tasks p' = [] /\
  downloads p' = downloads siteA ++ [recording (List.concat (heard es ++ ds))] /\
  loadingOverlay_hidden (elements (world (browser p'))) = true /\
  isPlaying (state (world (browser p'))) = isPlaying st /\
  images (state (world (browser p'))) = images st /\
  if isPlaying st
  then started (browser p') /\ currentFrame (state (world (browser p'))) = ofZ 0
  else quiet (browser p') /\ currentFrame (state (world (browser p'))) = currentFrame st.
Proof.
  apply (exportMp4_restores_player (M := StdMath) siteA);
    [reflexivity | exact browserA_settled | reflexivity | reflexivity].
Defined.

Lemma load_during_export_witness :
  let p' := pageRun [ExportMp4Click true; Browse FilesLoaded] siteA in
  tasks p' <> [] /\ isPlaying (state (world (browser p'))) = true.
Proof. apply (load_during_export (M := StdMath) siteA). discriminate. Defined.

Lemma zoom_during_export_witness :
  let st := state (world (browser siteA)) in
  let p' := pageRun [ExportMp4Click true; Browse (User (ZoomInput (Fin 30)))] siteA in
  tasks p' <> [] /\
  zoom (state (world (browser p'))) = (parseInt (Fin 30) / ofZ 100)%num /\
  exists st1, images st1 = images st /\ zoom st1 = (parseInt (Fin 30) / ofZ 100)%num /\
    canvas (state (world (browser p'))) = canvas (renderFrame (currentFrame st) st1).
Proof. apply (zoom_during_export (M := StdMath) siteA). discriminate. Defined.

Lemma reset_during_export_witness :
  let p' :=
    pageRun [ExportMp4Click true; Browse ResetClick; Resume 0; Resume 0] siteA_playing in
  tasks p' = [] /\ isPlaying (state (world (browser p'))) = true /\
  images (state (world (browser p'))) = [] /\
  editorSection_hidden (elements (world (browser p'))) = true.
Proof.
  apply (reset_during_export (M := StdMath) siteA_playing);
    [reflexivity | discriminate | reflexivity].
Defined.

Lemma autoFit_then_exportGif_witness :
  let p' := pageRun [Browse (User AutoFit); ExportGifClick true] siteA in
  exists gif wp fr pt,
    tasks p' = tasks siteA ++ [GifRendering gif wp] /\
    nth_error (gif_frames gif) 0 = Some fr /\ hd_error (picture fr) = Some pt /\
    eyes_on_target (canvas (state worldA)) (fittedZoom (state worldA))
      (flm [(400, 500)] [(600, 500)]) pt /\
    forall u v, 0 <= u <= imgW imgA -> 0 <= v <= imgH imgA ->
                inside (canvas (state worldA)) (paint_at pt (u, v)).
Proof.
  apply (@autoFit_then_exportGif StdMath StdMathLaws h264Recorder siteA worldA eq_refl);
    [discriminate | exact stateA_measured | exact stateA_apart | reflexivity
    | reflexivity | exact stateA_low | reflexivity].
Defined.

End ScenarioExport.
