(* ===== verification/Ingest.v ===== *)
(** * Ingest: [handleFiles]

    The function takes the files the user chose, keeps the images among
    them, and for each in turn waits for the decoder and for the face
    detector before it adds the frame to [state.images]; at the end it sizes
    the canvas and starts the player.  What the decoder and the detector
    make of a file is not computed by script.js: in the model every file
    comes with its outcome.  Section Collaborators derives the outcome from
    what the converter, the decoder and the detector answer: the [try]
    block of a turn, with the exceptions its [catch] swallows.

    The function is [async]: between two of its steps the browser runs
    whatever else is due, in particular the animation frames of a player
    that is still running.  The steps are actions of the page, and a load is
    the list of its steps with animation frames woven in. *)

From Stdlib Require Import ZArith Reals Lra Lia Bool List String Ascii DecimalString.
From Stdlib Require Import RelationClasses Morphisms.
From S2P Require Import Prelude.
From S2P Require Import Carrier.
From S2P Require Import JsNumber.
From S2P Require Import MathLib.
From S2P Require Import Canvas.
From S2P Require Import Geometry.
From S2P Require Import AppState.
From S2P Require Import Render.
From S2P Require Import Playback.
Import ListNotations.

Set Implicit Arguments.

(** ** Strings *)

(** [s.toLowerCase()] on the letters of ASCII. *)
Definition lowerAscii (c : ascii) : ascii :=
  let n := nat_of_ascii c in
  if (65 <=? n)%nat && (n <=? 90)%nat then ascii_of_nat (n + 32) else c.

Fixpoint toLowerCase (s : string) : string :=
  match s with
  | EmptyString => EmptyString
  | String c s => String (lowerAscii c) (toLowerCase s)
  end.

Definition startsWith (s prefix : string) : bool := String.prefix prefix s.

Definition endsWith (s suffix : string) : bool :=
  let n := String.length s in
  let m := String.length suffix in
  (m <=? n)%nat && String.eqb (substring (n - m) m s) suffix.

(** A number inside a template literal. *)
Definition natString (n : nat) : string := NilZero.string_of_uint (Nat.to_uint n).

(** ** Files *)

(** A [File] by what [handleFiles] reads of it. *)
Record File : Type := {
  file_type : string;
  file_name : string
}.

(** What [heic2any], [loadImage] and [detectFace] make of a file: an image
    with the detection, which is absent when no face was found, or an
    exception in one of them. *)
Inductive Outcome (F : Type) : Type :=
| Processed (img : Image) (detections : option (Detections F))
| Failed.

Arguments Failed {F}.

Definition isHeic (f : File) : bool :=
  endsWith (toLowerCase (file_name f)) ".heic" ||
  endsWith (toLowerCase (file_name f)) ".heif".

(** The predicate of [Array.from(fileList).filter]. *)
Definition accepted (f : File) : bool :=
  startsWith (file_type f) "image/" || isHeic f.

(** ** The decoder, the detector and the converter *)

(** A promise that is settled: fulfilled with a value, or rejected. *)
Inductive Settled (A : Type) : Type :=
| Fulfilled (a : A)
| Rejected.

Arguments Rejected {A}.

(** What [heic2any] resolves to: a blob, or an array of blobs for a file
    that holds several images. *)
Inductive Converted (B : Type) : Type :=
| OneBlob (b : B)
| Blobs (bs : list B).

Section Collaborators.
Context {F : Type}.

(** The libraries the source calls, by what they answer: the blob of a
    file, the converter of HEIC files, the decoder of the browser behind
    [new Image], and face-api.js. *)
Variable Blob : Type.
Variable blobOf : File -> Blob.
Variable heic2any : Blob -> Settled (Converted Blob).
Variable decode : Blob -> Settled Image.
Variable detect : Image -> Settled (option (Detections F)).

(** The variable [fileToProcess] after the conversion: the file itself,
    or the blob of the converter, the first one of an array ([undefined]
    when the array is empty); a failure of the converter is thrown again. *)
Definition fileToProcess (file : File) : Settled (option Blob) :=
  if isHeic file then
    match heic2any (blobOf file) with
    | Fulfilled (OneBlob b) => Fulfilled (Some b)
    | Fulfilled (Blobs bs) => Fulfilled (nth_error bs 0)
    | Rejected => Rejected
    end
  else Fulfilled (Some (blobOf file)).

(** [loadImage(file)]: the promise is fulfilled by [onload] and rejected by
    [onerror]; [URL.createObjectURL(undefined)] throws, which rejects it. *)
Definition loadImage (file : option Blob) : Settled Image :=
  match file with
  | Some blob => decode blob
  | None => Rejected
  end.

(** [detectFace(img)]: the detection, which is [undefined] when no face is
    found. *)
Definition detectFace (img : Image) : Settled (option (Detections F)) := detect img.

(** The [try] block of a turn of the loop of [handleFiles]: the three
    awaits in their order; the [catch] block swallows the exception of the
    first that fails. *)
Definition processFile (file : File) : Outcome F :=
  match fileToProcess file with
  | Rejected => Failed
  | Fulfilled blob =>
      match loadImage blob with
      | Rejected => Failed
      | Fulfilled img =>
          match detectFace img with
          | Rejected => Failed
          | Fulfilled detections => Processed img detections
          end
      end
  end.


End Collaborators.

Section Ingest.
Context {F : Type} {C : Carrier F} {M : MathOps F}.
Local Open Scope num_scope.
Local Open Scope string_scope.

(** ** [init] *)

(** [init] up to its first [await].  The two assignments before it make
    [state.canvas] and [state.ctx] the canvas of the page and its context,
    which the model keeps as one object. *)
Definition init_start : act (World F) := showLoading1 "Loading AI models...".

(** [init] once the two networks of the detector are loaded. *)
Definition init_loaded : act (World F) :=
  (on_state (set_isModelLoaded true) ;; hideLoading)%act.

(** The [catch] block of [init]. *)
Definition init_failed : act (World F) :=
  showLoading1 "Error loading AI models. Please refresh.".

(** The end of the chain of [fetch]: the address of the worker script. *)
Definition init_worker (url : string) : act (World F) :=
  on_state (set_gifWorkerBlob (Some url)).

(** ** [handleFiles] *)

Definition chosen (fileList : list (File * Outcome F)) : list (File * Outcome F) :=
  filter (fun fo => accepted (fst fo)) fileList.

(** Does [handleFiles] get past its two early returns. *)
Definition proceeds (fileList : list (File * Outcome F)) (w : World F) : bool :=
  isModelLoaded (state w) && negb (List.length (chosen fileList) =? 0)%nat.

(** [handleFiles] up to its loop. *)
Definition handleFiles_start (fileList : list (File * Outcome F)) : act (World F) := fun w =>
  if negb (isModelLoaded (state w)) then w
  else
    let files := chosen fileList in
    if (List.length files =? 0)%nat then w
    else
      (showLoading1 ("Processing " ++ natString (List.length files) ++ " images...") ;;
       on_elements (set_sections true false) ;;
       on_state (set_images []))%act w.

(** A turn of the loop up to its first [await]: the two messages. *)
Definition handleFiles_turn (n i : nat) (file : File) : act (World F) := fun w =>
  let progress := Math_round (ofNat i / ofNat n * ofZ 100) in
  let w :=
    showLoading ("Processing image " ++ natString (i + 1) ++ " of " ++ natString n ++ "...")
      progress w in
  if isHeic file
  then showLoading ("Converting HEIC image " ++ natString (i + 1) ++ "...") progress w
  else w.

(** The rest of the turn: [state.images.push] when the image was decoded
    and the detector returned, nothing after an exception. *)
Definition handleFiles_push (o : Outcome F) : act (World F) :=
  match o with
  | Processed img d =>
      on_state (fun st => set_images (images st ++ [{| original := img; detections := d |}]) st)
  | Failed => skip
  end.

(** The files with their indices in the loop. *)
Definition turns (fileList : list (File * Outcome F)) : list (nat * (File * Outcome F)) :=
  combine (seq 0 (List.length (chosen fileList))) (chosen fileList).

Definition handleFiles_body (n : nat) (t : nat * (File * Outcome F)) : act (World F) :=
  (handleFiles_turn n (fst t) (fst (snd t)) ;; handleFiles_push (snd (snd t)))%act.

(** [handleFiles] when nothing else happens while it waits. *)
Definition handleFiles (fileList : list (File * Outcome F)) : act (Browser F) := fun b =>
  if proceeds fileList (world b) then
    let n := List.length (chosen fileList) in
    let b := on_world (handleFiles_start fileList) b in
    let b := on_world (forEach (turns fileList) (handleFiles_body n)) b in
    handleFiles_finish b
  else b.

(** The steps of a load that gets past the early returns, as events of the
    page, without the last. *)
Definition loading (fileList : list (File * Outcome F)) : list (Event F) :=
  Act (handleFiles_start fileList) ::
  flat_map (fun t => [Act (handleFiles_turn (List.length (chosen fileList)) (fst t)
                             (fst (snd t)));
                      Act (handleFiles_push (snd (snd t)))])
    (turns fileList).

(** The frames a list of outcomes gives. *)
Definition framesOf (files : list (File * Outcome F)) : list (Item F) :=
  flat_map (fun fo => match snd fo with
                      | Processed img d => [{| original := img; detections := d |}]
                      | Failed => []
                      end) files.

End Ingest.

(** [es] is [base] with animation frames woven in. *)
Inductive woven {F : Type} : list (Event F) -> list (Event F) -> Prop :=
| woven_nil : woven [] []
| woven_frame t es base : woven es base -> woven (Frame t :: es) base
| woven_step e es base : woven es base -> woven (e :: es) (e :: base).

(** ** The shell of the page *)

Section Shell.
Context {F : Type} {C : Carrier F} {M : MathOps F}.
Implicit Types w : World F.
Implicit Types b : Browser F.
Implicit Types fileList : list (File * Outcome F).

(** The part of the page a load works on: the frames, the flag of the
    detector, and the nodes.  The player and the canvas are outside it. *)
Definition same_shell w w' : Prop :=
  images (state w') = images (state w) /\
  isModelLoaded (state w') = isModelLoaded (state w) /\
  elements w' = elements w.

#[export] Instance same_shell_equiv : Equivalence same_shell.
Proof.
  split.
  - intros w. now repeat split.
  - intros w w' (H1 & H2 & H3). now repeat split.
  - intros w1 w2 w3 (H1 & H2 & H3) (H4 & H5 & H6). unfold same_shell.
    repeat split; congruence.
Qed.

(** An action of the page works on the shell alone when it is a morphism
    of [same_shell]. *)

#[export] Instance on_elements_shell (f : act (Elements F)) : Proper (same_shell ==> same_shell) (on_elements f).
Proof. intros w w' (H1 & H2 & H3). unfold same_shell. cbn. now rewrite H3. Qed.

#[export] Instance andThen_shell (f g : act (World F)) :
  Proper (same_shell ==> same_shell) f -> Proper (same_shell ==> same_shell) g ->
  Proper (same_shell ==> same_shell) (f ;; g)%act.
Proof. intros Hf Hg w w' H. unfold andThen. now apply Hg, Hf. Qed.

#[export] Instance set_images_shell (l : list (Item F)) : Proper (same_shell ==> same_shell) (on_state (set_images l)).
Proof. intros w w' (H1 & H2 & H3). unfold same_shell. cbn. auto. Qed.

#[export] Instance handleFiles_start_shell fileList : Proper (same_shell ==> same_shell) (handleFiles_start fileList).
Proof.
  intros w w' H. unfold handleFiles_start.
  replace (isModelLoaded (state w')) with (isModelLoaded (state w)) by (symmetry; apply H).
  destruct (negb _); [exact H|]. destruct (_ =? _)%nat; [exact H|].
  unfold showLoading1, showLoading. apply andThen_shell; try typeclasses eauto. exact H.
Qed.

#[export] Instance handleFiles_turn_shell n i file : Proper (same_shell ==> same_shell) (handleFiles_turn n i file).
Proof.
  intros w w' H. unfold handleFiles_turn, showLoading.
  destruct (isHeic file); repeat apply on_elements_shell; exact H.
Qed.

#[export] Instance handleFiles_push_shell o : Proper (same_shell ==> same_shell) (handleFiles_push o).
Proof.
  intros w w' (H1 & H2 & H3). destruct o as [img d|]; [|now repeat split].
  unfold same_shell. cbn. rewrite H1. auto.
Qed.

Lemma renderFrame_isModelLoaded index (st : State F) :
  isModelLoaded (renderFrame index st) = isModelLoaded st.
Proof. unfold renderFrame. now destruct (array_get _ _). Qed.

(** An animation frame leaves the shell alone. *)
Lemma animationFrame_shell t b : same_shell (world b) (world (animationFrame t b)).
Proof.
  unfold animationFrame.
  apply forEach_invariant with (P := fun b' => same_shell (world b) (world b'));
    [|reflexivity].
  intros cb b' _ H. etransitivity; [exact H|]. clear H.
  destruct (isPlaying (state (world b'))) eqn:E;
    [rewrite loop_playing by assumption | now rewrite loop_stopped].
  unfold same_shell. cbn [world state elements set_animationId images isModelLoaded].
  destruct (due _ _ _); [|now repeat split].
  unfold advance. cbn [set_currentFrame images isModelLoaded].
  rewrite renderFrame_isModelLoaded. split; [apply renderFrame_frame | now split].
Qed.

Definition shell_event (e : Event F) : Prop :=
  match e with Act f => Proper (same_shell ==> same_shell) f | _ => False end.

(** The animation frames woven into a load do not change what it does to
    the shell. *)
Lemma woven_shell es base :
  woven es base -> Forall shell_event base ->
  forall b b', same_shell (world b) (world b') ->
  same_shell (world (run es b)) (world (run base b')).
Proof.
  induction 1 as [|t es base _ IH|e es base _ IH]; intros Hb b b' Hs.
  - exact Hs.
  - rewrite run_cons. apply IH; [exact Hb|]. cbn [step].
    now rewrite <- (animationFrame_shell t b).
  - rewrite !run_cons. apply Forall_cons_iff in Hb as [He Hb].
    destruct e as [| | | |f]; try contradiction. apply IH; [exact Hb|]. now apply He.
Qed.


(** ** A load that nothing interrupts *)

Lemma run_acts {A} (f g : A -> act (World F)) (ts : list A) b :
  run (flat_map (fun t => [Act (f t); Act (g t)]) ts) b =
  on_world (forEach ts (fun t => f t ;; g t)%act) b.
Proof.
  revert b. induction ts as [|t ts IH]; intros b; [now destruct b as [[]]|].
  cbn [flat_map app]. rewrite !run_cons, IH. cbn [step]. unfold on_world.
  cbn [world callbacks nextHandle]. now rewrite forEach_cons.
Qed.

Lemma run_loading fileList b :
  run (loading fileList) b =
  on_world (handleFiles_start fileList ;;
            forEach (turns fileList)
              (handleFiles_body (List.length (chosen fileList))))%act b.
Proof. unfold loading. now rewrite run_cons, run_acts. Qed.

Lemma loading_shell fileList : Forall shell_event (loading fileList).
Proof.
  unfold loading. apply Forall_cons; [apply handleFiles_start_shell|].
  apply Forall_flat_map, Forall_forall. intros t _.
  repeat apply Forall_cons; try apply Forall_nil; cbn; typeclasses eauto.
Qed.

Lemma map_snd_combine {A B} (l : list A) (l' : list B) :
  List.length l = List.length l' -> map snd (combine l l') = l'.
Proof.
  revert l'. induction l as [|x l IH]; intros [|y l'] H; try discriminate; [reflexivity|].
  cbn. f_equal. apply IH. now injection H.
Qed.

Lemma turns_files fileList : map snd (turns fileList) = chosen fileList.
Proof. apply map_snd_combine, length_seq. Qed.

(** The sections of the page, which only the start of a load writes. *)
Definition sections w : bool * bool :=
  (uploadSection_hidden (elements w), editorSection_hidden (elements w)).

Lemma showLoading_keeps text progress w :
  state (showLoading text progress w) = state w /\
  sections (showLoading text progress w) = sections w.
Proof.
  unfold showLoading, on_elements, sections. cbn [state elements].
  now destruct (_ >=? _)%num.
Qed.

Lemma handleFiles_turn_keeps n i file w :
  state (handleFiles_turn n i file w) = state w /\
  sections (handleFiles_turn n i file w) = sections w.
Proof.
  unfold handleFiles_turn. destruct (isHeic file);
    repeat match goal with
           | |- context [showLoading ?t ?p ?w] =>
               destruct (showLoading_keeps t p w) as [-> ->]
           end; auto.
Qed.

Lemma handleFiles_body_spec n t w :
  let w' := handleFiles_body n t w in
  images (state w') = images (state w) ++ framesOf [snd t] /\ sections w' = sections w.
Proof.
  unfold handleFiles_body, andThen, framesOf. destruct t as [i [f o]].
  cbn [fst snd flat_map].
  destruct (handleFiles_turn_keeps n i f w) as [Hs Hx]. rewrite <- Hs, <- Hx.
  destruct o as [img d|]; cbn [handleFiles_push]; [now rewrite app_nil_r|].
  unfold skip. now rewrite app_nil_r.
Qed.

Lemma framesOf_cons (x : File * Outcome F) l :
  framesOf (x :: l) = framesOf [x] ++ framesOf l.
Proof. unfold framesOf. cbn [flat_map]. now rewrite app_nil_r. Qed.

Lemma handleFiles_loop_spec n ts : forall w,
  let w' := forEach ts (handleFiles_body n) w in
  images (state w') = images (state w) ++ framesOf (map snd ts) /\ sections w' = sections w.
Proof.
  induction ts as [|t ts IH]; intros w; [cbn; now rewrite app_nil_r|].
  rewrite forEach_cons. destruct (handleFiles_body_spec n t w) as [Hi Hs].
  destruct (IH (handleFiles_body n t w)) as [Hi' Hs']. cbn zeta.
  cbn [map]. now rewrite Hi', Hs', Hi, Hs, <- app_assoc, <- framesOf_cons.
Qed.

(** What the steps of a load leave when the function got past its early
    returns: the frames of the files that could be processed, in the order
    of the files, and the editor in place of the upload. *)
Lemma loading_spec fileList b :
  proceeds fileList (world b) = true ->
  let w' := world (run (loading fileList) b) in
  images (state w') = framesOf (chosen fileList) /\ sections w' = (true, false).
Proof.
  intros Hp. rewrite run_loading. cbn [on_world world]. unfold andThen.
  destruct (handleFiles_loop_spec (List.length (chosen fileList)) (turns fileList)
              (handleFiles_start fileList (world b))) as [Hi Hs].
  cbn zeta. rewrite Hi, Hs, turns_files. unfold proceeds in Hp.
  apply andb_prop in Hp as [Hl Hn]. unfold handleFiles_start. rewrite Hl.
  cbn [negb]. destruct (_ =? _)%nat; [discriminate|]. auto.
Qed.


(** ** A load with animation frames woven in *)

Lemma woven_loading fileList es b :
  proceeds fileList (world b) = true -> woven es (loading fileList) ->
  let w' := world (run es b) in
  images (state w') = framesOf (chosen fileList) /\ sections w' = (true, false).
Proof.
  intros Hp Hw. destruct (loading_spec fileList b Hp) as [Hi Hs].
  destruct (woven_shell Hw (loading_shell fileList) b b) as (Hi' & _ & He);
    [reflexivity|].
  cbn zeta. unfold sections in *. now rewrite <- Hi', <- He in *.
Qed.

(** An action that leaves the handle of the waiting callback alone. *)
Definition timeline_act (e : Event F) : Prop :=
  match e with Act f => keeps_timeline f | _ => False end.

Lemma loading_acts fileList : Forall timeline_act (loading fileList).
Proof.
  unfold loading. apply Forall_cons.
  - intros w. unfold handleFiles_start. destruct (negb _); [reflexivity|].
    now destruct (_ =? _)%nat.
  - apply Forall_flat_map, Forall_forall. intros [i [f o]] _.
    repeat apply Forall_cons; try apply Forall_nil; intros w; cbn [fst snd].
    + now destruct (handleFiles_turn_keeps (List.length (chosen fileList)) i f w) as [-> _].
    + now destruct o.
Qed.

(** A load with its animation frames is a sequence of events of the kind
    the timeline allows, with one start of the player, at its end. *)
Lemma woven_paced (es base : list (Event F)) :
  woven es base -> Forall timeline_act base ->
  Forall tame (es ++ [Loaded]) /\ paced false (es ++ [Loaded]) = true.
Proof.
  induction 1 as [|t es base _ IH|e es base _ IH]; intros Hb.
  - split; [now repeat constructor | reflexivity].
  - destruct (IH Hb) as [Ht Hp]. split; [now constructor | exact Hp].
  - apply Forall_cons_iff in Hb as [He Hb]. destruct (IH Hb) as [Ht Hp].
    destruct e as [t| | | |f]; try contradiction. split; [now constructor | exact Hp].
Qed.

(** What the end of [handleFiles] leaves of the page. *)
Lemma handleFiles_finish_page b :
  let b' := handleFiles_finish b in
  images (state (world b')) = images (state (world b)) /\
  match images (state (world b)) with
  | first :: _ =>
      isPlaying (state (world b')) = true /\ currentFrame (state (world b')) = ofZ 0 /\
      width (canvas (state (world b'))) = img_width (original first) /\
      height (canvas (state (world b'))) = img_height (original first) /\
      loadingOverlay_hidden (elements (world b')) = true /\
      sections (world b') = sections (world b)
  | [] =>
      isPlaying (state (world b')) = false /\ sections (world b') = (false, true)
  end.
Proof.
  cbn zeta. unfold handleFiles_finish.
  destruct (images (state (world b))) as [|first rest] eqn:E.
  - rewrite resetApp_world. cbn. auto.
  - rewrite startPlayback_spec. cbn. auto 10.
Qed.

(** What a load leaves.  Whatever animation frames come while
    [handleFiles] waits for the decoder and the detector, at its end
    [state.images] holds the frames of the files that could be processed, in
    the order of the files, and at most one callback of the player waits.
    With a frame, the player runs from the first one on a canvas of the size
    of the first image, the overlay is hidden and the page shows the editor;
    with none, the player is stopped and the page shows the upload. *)
Theorem handleFiles_loads fileList es b :
  let items := framesOf (chosen fileList) in
  let b' := run (es ++ [Loaded]) b in
  proceeds fileList (world b) = true -> woven es (loading fileList) -> settled b ->
  images (state (world b')) = items /\
  (List.length (callbacks b') <= 1)%nat /\
  match items with
  | first :: _ =>
      isPlaying (state (world b')) = true /\ currentFrame (state (world b')) = ofZ 0 /\
      width (canvas (state (world b'))) = img_width (original first) /\
      height (canvas (state (world b'))) = img_height (original first) /\
      loadingOverlay_hidden (elements (world b')) = true /\
      sections (world b') = (true, false)
  | [] =>
      isPlaying (state (world b')) = false /\ sections (world b') = (false, true)
  end.
Proof.
  intros items b' Hp Hw Hs. subst items b'.
  destruct (woven_paced Hw (loading_acts fileList)) as [Ht Hpc].
  split; [|split; [now apply run_one_timeline|]];
    rewrite run_app, run_cons; cbn [step run forEach fold_left];
    destruct (woven_loading b Hp Hw) as [Hi Hx];
    destruct (handleFiles_finish_page (run es b)) as [Hi' Hm];
    rewrite Hi in *; [exact Hi'|].
  destruct (framesOf (chosen fileList)); [exact Hm|]. now rewrite <- Hx.
Qed.

(** Before the detector is loaded, and when no file is an image,
    [handleFiles] returns at once and changes nothing. *)
Theorem handleFiles_returns_early fileList b :
  proceeds fileList (world b) = false -> handleFiles fileList b = b.
Proof. intros H. unfold handleFiles. now rewrite H. Qed.

(** [handleFiles] with nothing woven in is the sequence of its steps
    followed by its end. *)
Theorem handleFiles_uninterrupted fileList b :
  proceeds fileList (world b) = true ->
  handleFiles fileList b = run (loading fileList ++ [Loaded]) b.
Proof.
  intros H. unfold handleFiles. rewrite H, run_app, run_loading.
  now destruct b as [[] ? ?].
Qed.


(** ** Files that arrive while the player runs *)

(** The player stands still: the index is [NaN]. *)
Definition frozen b : Prop := currentFrame (state (world b)) = NaN.

Lemma advance_frozen (st : State F) :
  currentFrame st = NaN -> advance st = st.
Proof.
  intros H. unfold advance, renderFrame. rewrite H, array_get_NaN. cbn zeta.
  rewrite H. cbn. destruct st. cbn in *. now subst.
Qed.

Lemma loop_frozen lt t b :
  frozen b -> frozen (loop lt t b) /\
              canvas (state (world (loop lt t b))) = canvas (state (world b)).
Proof.
  intros H. destruct (isPlaying (state (world b))) eqn:E;
    [rewrite loop_playing by assumption | now rewrite loop_stopped].
  unfold frozen in *. cbn [world state set_animationId currentFrame canvas].
  destruct (due _ _ _); rewrite ?advance_frozen; auto.
Qed.

Lemma animationFrame_frozen t b :
  frozen b -> frozen (animationFrame t b) /\
              canvas (state (world (animationFrame t b))) = canvas (state (world b)).
Proof.
  intros H. unfold animationFrame.
  apply forEach_invariant with
    (P := fun b' => frozen b' /\ canvas (state (world b')) = canvas (state (world b)));
    [|now split].
  intros cb b' _ [Hf Hc]. destruct (loop_frozen (lastTime cb) t Hf) as [Hf' Hc'].
  split; [exact Hf' | congruence].
Qed.

(** An action that leaves the player and the canvas alone. *)
Definition backstage (e : Event F) : Prop :=
  match e with
  | Act f => forall w, currentFrame (state (f w)) = currentFrame (state w) /\
                       canvas (state (f w)) = canvas (state w)
  | _ => False
  end.

Lemma loading_backstage fileList : Forall backstage (loading fileList).
Proof.
  unfold loading. apply Forall_cons.
  - intros w. unfold handleFiles_start. destruct (negb _); [now split|].
    now destruct (_ =? _)%nat.
  - apply Forall_flat_map, Forall_forall. intros [i [f o]] _.
    repeat apply Forall_cons; try apply Forall_nil; intros w; cbn [fst snd].
    + now destruct (handleFiles_turn_keeps (List.length (chosen fileList)) i f w) as [-> _].
    + now destruct o.
Qed.

Lemma woven_frozen (es base : list (Event F)) :
  woven es base -> Forall backstage base ->
  forall b, frozen b ->
  frozen (run es b) /\ canvas (state (world (run es b))) = canvas (state (world b)).
Proof.
  induction 1 as [|t es base _ IH|e es base _ IH]; intros Hb b Hf; [now split| |].
  - rewrite run_cons. cbn [step]. destruct (animationFrame_frozen t Hf) as [Hf' Hc].
    destruct (IH Hb _ Hf') as [Hf'' Hc']. split; [exact Hf'' | congruence].
  - apply Forall_cons_iff in Hb as [He Hb]. destruct e as [| | | |f]; try contradiction.
    rewrite run_cons. cbn [step]. destruct (He (world b)) as [Hc1 Hc2].
    destruct (IH Hb (on_world f b)) as [Hf' Hc]; [unfold frozen in *; cbn; congruence|].
    split; [exact Hf'|]. rewrite Hc. exact Hc2.
Qed.

End Shell.

Section RealIngest.
Context {M : MathOps R}.
Local Open Scope R_scope.

(** C37: files that arrive while the player runs.  [handleFiles] empties
    [state.images] and lets the player run: the first frame that is due
    sets [state.currentFrame] to [NaN], and until the load ends no animation
    frame paints, although frames are added to [state.images]. *)
Theorem load_freezes_player fileList (b : Browser R) cb t es :
  let b' := run (Act (handleFiles_start fileList) :: Frame t :: es) b in
  proceeds fileList (world b) = true ->
  isPlaying (state (world b)) = true -> callbacks b = [cb] ->
  due (lastTime cb) t (state (world b)) = true ->
  woven es (tl (loading fileList)) ->
  frozen b' /\ canvas (state (world b')) = canvas (state (world b)).
Proof.
  intros b' Hp Hpl Hcb Hdue Hw. subst b'. rewrite !run_cons. cbn [step].
  set (b1 := on_world (handleFiles_start fileList) b).
  assert (Hst : state (world b1) = set_images [] (state (world b))).
  { subst b1. cbn [on_world world]. unfold handleFiles_start.
    apply andb_prop in Hp as [Hl Hn]. rewrite Hl. cbn [negb].
    now destruct (_ =? _)%nat. }
  assert (Hb1 : frozen (animationFrame t b1) /\
                canvas (state (world (animationFrame t b1))) = canvas (state (world b))).
  { rewrite (animationFrame_single t b1 Hcb) by now rewrite Hst.
    unfold frozen, due in *. rewrite Hst. cbn [fps set_images]. rewrite Hdue.
    cbn [world state set_animationId currentFrame canvas].
    rewrite advance_no_frames by reflexivity. split; [reflexivity|].
    unfold advance, renderFrame. cbn [images set_images].
    unfold array_get. now destruct (nindex _) as [[|k]|]. }
  destruct Hb1 as [Hf Hc].
  pose proof (loading_backstage fileList) as Hb. unfold loading in Hb, Hw.
  apply Forall_cons_iff in Hb as [_ Hb]. cbn [tl] in Hw.
  destruct (woven_frozen Hw Hb Hf) as [Hf' Hc']. split; [exact Hf' | congruence].
Qed.

End RealIngest.

(** ** What comes of a file *)

Section CollaboratorFacts.
Context {F : Type} {C : Carrier F} {M : MathOps F}.
Variable Blob : Type.
Variable blobOf : File -> Blob.
Variable heic2any : Blob -> Settled (Converted Blob).
Variable decode : Blob -> Settled Image.
Variable detect : Image -> Settled (option (Detections F)).

Let process := processFile blobOf heic2any decode detect.

(** A file gives a frame exactly when the converter, if it is asked, the
    decoder and the detector all answer; the frame is the image of the
    decoder with the detection of the detector. *)
Lemma processFile_Processed file img d :
  process file = Processed img d <->
  exists blob, fileToProcess blobOf heic2any file = Fulfilled (Some blob) /\
               decode blob = Fulfilled img /\ detect img = Fulfilled d.
Proof.
  unfold process, processFile, loadImage, detectFace.
  destruct (fileToProcess _ _ _) as [[blob|]|]; split;
    try discriminate; try (intros (b & [=] & _); fail).
  - destruct (decode blob) as [img'|] eqn:Ei; [|discriminate].
    destruct (detect img') as [d'|] eqn:Ed; [|discriminate].
    intros [= <- <-]. now exists blob.
  - intros (b & [= <-] & -> & ->). reflexivity.
Qed.

(** A file that is no HEIC image is decoded as it is: the converter is not
    asked. *)
Lemma fileToProcess_plain file :
  isHeic file = false ->
  fileToProcess blobOf heic2any file = Fulfilled (Some (blobOf file)).
Proof. intros H. unfold fileToProcess. now rewrite H. Qed.

(** A HEIC image that the converter cannot convert gives no frame,
    whatever the decoder would make of it. *)
Lemma processFile_unconverted file :
  isHeic file = true -> heic2any (blobOf file) = Rejected -> process file = Failed.
Proof. intros H E. unfold process, processFile, fileToProcess. now rewrite H, E. Qed.

(** So does one that the converter answers with an empty array:
    [convertedBlob[0]] is [undefined], and [loadImage] throws. *)
Lemma processFile_empty_array file :
  isHeic file = true -> heic2any (blobOf file) = Fulfilled (Blobs []) ->
  process file = Failed.
Proof. intros H E. unfold process, processFile, fileToProcess. now rewrite H, E. Qed.






End CollaboratorFacts.

Section InitFacts.
Context {F : Type} {C : Carrier F} {M : MathOps F}.

Lemma woven_refl (es : list (Event F)) : woven es es.
Proof. induction es; constructor; assumption. Qed.

(** Until [init] has loaded the detector no file is taken, and after its
    [catch] block none ever is: the overlay stays, with the request to
    refresh. *)
Lemma init_failed_blocks fileList (b : Browser F) :
  isModelLoaded (state (world b)) = false ->
  let b' := on_world (init_start ;; init_failed)%act b in
  loadingOverlay_hidden (elements (world b')) = false /\
  handleFiles fileList b' = b'.
Proof.
  intros H. cbn zeta. unfold init_start, init_failed, andThen, showLoading1.
  split.
  - unfold showLoading at 1. cbn [on_world world on_elements elements].
    now destruct (_ >=? _)%num.
  - apply handleFiles_returns_early. unfold proceeds. cbn [on_world world].
    now rewrite !(proj1 (showLoading_keeps _ _ _)), H.
Qed.

Lemma init_loaded_ready (w : World F) :
  isModelLoaded (state (init_loaded w)) = true /\
  loadingOverlay_hidden (elements (init_loaded w)) = true.
Proof. now split. Qed.

End InitFacts.

Section ScenarioIngest.
Local Open Scope R_scope.
Local Open Scope string_scope.

Example accepted_examples :
  accepted {| file_type := "image/png"; file_name := "a.png" |} = true /\
  accepted {| file_type := ""; file_name := "IMG_0001.HEIC" |} = true /\
  accepted {| file_type := ""; file_name := "scan.heif" |} = true /\
  accepted {| file_type := "application/pdf"; file_name := "a.pdf" |} = false /\
  accepted {| file_type := "text/plain"; file_name := "heic" |} = false.
Proof. now vm_compute. Qed.

(** Four files: a photograph with a face, a text, a HEIC image that cannot
    be converted, and a photograph in which no face is found. *)
Definition filesA : list (File * Outcome R) :=
  [({| file_type := "image/jpeg"; file_name := "a.jpg" |},
    Processed imgA (Some {| landmarks := lmA1 |}));
   ({| file_type := "text/plain"; file_name := "notes.txt" |}, Failed);
   ({| file_type := ""; file_name := "b.HEIC" |}, Failed);
   ({| file_type := "image/png"; file_name := "c.png" |}, Processed imgB None)].

(** The page of scenario A once [init] has loaded the detector. *)
Definition browserL : Browser R := on_world init_loaded browserA.

Lemma browserL_settled : settled browserL.
Proof.
  split; [|now left]. split; [discriminate|]. split; [apply Forall_nil | exact I].
Qed.

Example chosen_filesA :
  map (fun fo => file_name (fst fo)) (chosen filesA) = ["a.jpg"; "b.HEIC"; "c.png"] /\
  framesOf (chosen filesA) = [itemA lmA1; {| original := imgB; detections := None |}].
Proof. split; reflexivity. Qed.

(** The load of [filesA] with an animation frame after its first step. *)
Definition loadA : list (Event R) :=
  Act (handleFiles_start filesA) :: Frame (Fin 100) :: tl (loading filesA).

Lemma loadA_woven : woven loadA (loading filesA).
Proof. unfold loadA, loading. cbn [tl]. apply woven_step, woven_frame, woven_refl. Qed.

Lemma handleFiles_loads_witness :
  let items := framesOf (chosen filesA) in
  let b' := run (loadA ++ [Loaded]) browserL in
  images (state (world b')) = items /\
  (List.length (callbacks b') <= 1)%nat /\
  match items with
  | first :: _ =>
      isPlaying (state (world b')) = true /\ currentFrame (state (world b')) = ofZ 0 /\
      width (canvas (state (world b'))) = img_width (original first) /\
      height (canvas (state (world b'))) = img_height (original first) /\
      loadingOverlay_hidden (elements (world b')) = true /\
      sections (world b') = (true, false)
  | [] =>
      isPlaying (state (world b')) = false /\ sections (world b') = (false, true)
  end.
Proof.
  apply (handleFiles_loads (M := StdMath) (fileList := filesA) (es := loadA) (b := browserL));
    [reflexivity | exact loadA_woven | exact browserL_settled].
Defined.

Lemma handleFiles_returns_early_witness :
  handleFiles filesA browserA = browserA.
Proof. apply handleFiles_returns_early. reflexivity. Defined.

Lemma handleFiles_uninterrupted_witness :
  handleFiles filesA browserL =
  run (loading filesA ++ [Loaded]) browserL.
Proof. apply handleFiles_uninterrupted. reflexivity. Defined.

Lemma load_freezes_player_witness :
  let b := startPlayback browserL in
  let b' := run (Act (handleFiles_start filesA) :: Frame (Fin 200) ::
                 tl (loading filesA)) b in
  frozen b' /\ canvas (state (world b')) = canvas (state (world b)).
Proof.
  apply (@load_freezes_player StdMath filesA (startPlayback browserL)
           {| handle := 1; lastTime := ofZ 0 |} (Fin 200) (tl (loading filesA)));
    [reflexivity | reflexivity | reflexivity | | apply woven_refl].
  cbn [lastTime]. change (ofZ 0) with (@Fin R 0).
  rewrite due_fin with (f := 10) by (reflexivity || lra). apply Rltb_true. lra.
Defined.



End ScenarioIngest.
