(* ===== verification/App.v ===== *)
(** * App: the page from [init] to the download

    Everything script.js reacts to, in one system: the awaits of [init], the
    four listeners of the upload ([dragover], [dragleave], [drop], [change]),
    the calls of [handleFiles] that wait for the decoder and the detector,
    and, through the events of the page of [Export], the player, the
    controls and the two exporters.

    A call of [handleFiles] that waits is kept with its files and the index
    of its loop, as the exports are kept with what their continuations
    captured; an event resumes it.  The theorems relate this system to the
    events of the player in [Playback] and to the list of steps of a load in
    [Ingest], and show that from [init] on the player is paused while an
    export is pending.  [Timeline], [Typing] and [Liveness] state what else
    holds of it whatever the order of the events: that one loop of the
    player runs, the kind of value every field of [state] holds, and that
    every pending load and export ends. *)

From Stdlib Require Import ZArith Reals Zfloor Lra Lia Bool List String.
From Stdlib Require Import RelationClasses Morphisms.
From S2P Require Import Prelude.
From S2P Require Import Carrier.
From S2P Require Import JsNumber.
From S2P Require Import MathLib.
From S2P Require Import Canvas.
From S2P Require Import Geometry.
From S2P Require Import AppState.
From S2P Require Import Render.
From S2P Require Import AutoFit.
From S2P Require Import Playback.
From S2P Require Import Controls.
From S2P Require Import Export.
From S2P Require Import Ingest.
Import ListNotations.

Set Implicit Arguments.

(** A call of [handleFiles] that waits in a turn of its loop: its constant
    [files], each with what the decoder and the detector will make of it,
    and its variable [i]. *)
Record Load (F : Type) : Type := {
  load_files : list (File * Outcome F);
  load_turn : nat
}.

(** The page with the loads that wait. *)
Record App (F : Type) : Type := {
  page : Page F;
  loads : list (Load F)
}.

(** Everything that happens: the two networks of the detector are loaded,
    or one of them failed; the script of the encoder's workers is fetched;
    the user drags files over the drop zone, away from it, drops them on it
    or chooses them in the file input; an event of the page; the decoder
    and the detector are through with the file a load waits for. *)
Inductive AppEvent (F : Type) : Type :=
| ModelsLoaded
| ModelsFailed
| WorkerFetched (url : string)
| DragOver
| DragLeave
| Drop (fileList : list (File * Outcome F))
| Change (fileList : list (File * Outcome F))
| OnPage (e : PageEvent F)
| LoadStep (k : nat).

Arguments ModelsLoaded {F}.
Arguments ModelsFailed {F}.
Arguments WorkerFetched {F}.
Arguments DragOver {F}.
Arguments DragLeave {F}.
Arguments LoadStep {F}.

Section Listeners.
Context {F : Type} {C : Carrier F} {M : MathOps F} {Rec : Recorder}.

Definition on_page (f : act (Page F)) : act (App F) := fun a =>
  {| page := f (page a); loads := loads a |}.

(** An action on the two global objects, as an action of the whole. *)
Definition on_globals (f : act (World F)) : act (App F) :=
  on_page (on_browser (on_world f)).

(** [init] up to its first [await], on the page as the markup gives it:
    [state] as declared, around the canvas of the page. *)
Definition init (cv : Canvas F) (markup : Elements F) : App F :=
  {| page :=
       {| browser :=
            {| world := init_start {| state := state_init cv; elements := markup |};
               callbacks := []; nextHandle := 1 |};
          tasks := []; downloads := [] |};
     loads := [] |}.

(** The listeners of [dragover] and [dragleave]. *)
Definition onDragOver : act (World F) := on_elements (set_dragOver true).

Definition onDragLeave : act (World F) := on_elements (set_dragOver false).

(** The first statements of turn [i] of the loop of a load, up to its
    [await]. *)
Definition loadTurn (files : list (File * Outcome F)) (i : nat) : act (World F) :=
  match nth_error files i with
  | Some (file, _) => handleFiles_turn (List.length files) i file
  | None => skip
  end.

(** [handleFiles(fileList)] up to its first [await]: nothing after one of
    the early returns, else the call waits in the first turn of its loop. *)
Definition startLoad (fileList : list (File * Outcome F)) : act (App F) := fun a =>
  if proceeds fileList (world (browser (page a))) then
    let files := chosen fileList in
    {| page := on_browser (on_world (handleFiles_start fileList ;; loadTurn files 0)%act)
                 (page a);
       loads := loads a ++ [{| load_files := files; load_turn := 0 |}] |}
  else a.

(** The listeners of [drop] and of [change]. *)
Definition onDrop (fileList : list (File * Outcome F)) : act (App F) :=
  (on_globals onDragLeave ;; startLoad fileList)%act.

Definition onChange (fileList : list (File * Outcome F)) : act (App F) :=
  startLoad fileList.

(** Load [k] goes on: the rest of its turn, then the next turn up to its
    [await], or, after the last file, the end of [handleFiles]. *)
Definition loadStep (k : nat) : act (App F) := fun a =>
  match nth_error (loads a) k with
  | None => a
  | Some l =>
      let files := load_files l in
      let i := load_turn l in
      match nth_error files i with
      | None => a
      | Some (_, o) =>
          let p := on_browser (on_world (handleFiles_push o)) (page a) in
          if (S i <? List.length files)%nat then
            {| page := on_browser (on_world (loadTurn files (S i))) p;
               loads := putAt k {| load_files := files; load_turn := S i |} (loads a) |}
          else
            {| page := on_browser handleFiles_finish p; loads := dropAt k (loads a) |}
      end
  end.

(** What the page does with an event: the continuations of [init], the
    listeners that [setupEventListeners] installs, and the continuations of
    the loads. *)
Definition appStep (e : AppEvent F) : act (App F) :=
  match e with
  | ModelsLoaded => on_globals init_loaded
  | ModelsFailed => on_globals init_failed
  | WorkerFetched url => on_globals (init_worker url)
  | DragOver => on_globals onDragOver
  | DragLeave => on_globals onDragLeave
  | Drop fileList => onDrop fileList
  | Change fileList => onChange fileList
  | OnPage e => on_page (pageStep e)
  | LoadStep k => loadStep k
  end.

Definition appRun (es : list (AppEvent F)) : act (App F) := forEach es appStep.

(** The events of the player that an event amounts to, in the state it
    comes in.  The exports are not events of the player. *)
Definition loadActs (l : Load F) : list (Event F) :=
  match nth_error (load_files l) (load_turn l) with
  | None => []
  | Some (_, o) =>
      [Act (handleFiles_push o);
       if (S (load_turn l) <? List.length (load_files l))%nat
       then Act (loadTurn (load_files l) (S (load_turn l)))
       else Loaded]
  end.

Definition startActs (fileList : list (File * Outcome F)) (a : App F) : list (Event F) :=
  if proceeds fileList (world (browser (page a)))
  then [Act (handleFiles_start fileList); Act (loadTurn (chosen fileList) 0)]
  else [].

Definition trace (a : App F) (e : AppEvent F) : list (Event F) :=
  match e with
  | ModelsLoaded => [Act init_loaded]
  | ModelsFailed => [Act init_failed]
  | WorkerFetched url => [Act (init_worker url)]
  | DragOver => [Act onDragOver]
  | DragLeave => [Act onDragLeave]
  | Drop fileList => Act onDragLeave :: startActs fileList (on_globals onDragLeave a)
  | Change fileList => startActs fileList a
  | OnPage (Browse i) => [event i]
  | OnPage _ => []
  | LoadStep k =>
      match nth_error (loads a) k with Some l => loadActs l | None => [] end
  end.

Fixpoint traces (a : App F) (es : list (AppEvent F)) : list (Event F) :=
  match es with
  | [] => []
  | e :: es => trace a e ++ traces (appStep e a) es
  end.

(** The events that leave the exporters alone. *)
Definition browsing (e : AppEvent F) : bool :=
  match e with
  | OnPage (Browse _) => true
  | OnPage _ => false
  | _ => true
  end.

End Listeners.

(** ** The page and the events of the player *)

Section Refinement.
Context {F : Type} {C : Carrier F} {M : MathOps F} {Rec : Recorder}.
Implicit Types a : App F.
Implicit Types files fileList : list (File * Outcome F).

Lemma appRun_cons (e : AppEvent F) es a : appRun (e :: es) a = appRun es (appStep e a).
Proof. reflexivity. Qed.

Lemma appRun_app (es es' : list (AppEvent F)) a :
  appRun (es ++ es') a = appRun es' (appRun es a).
Proof. apply forEach_app. Qed.

Lemma startLoad_trace fileList a :
  browser (page (startLoad fileList a)) = run (startActs fileList a) (browser (page a)).
Proof.
  unfold startLoad, startActs. now destruct (proceeds _ _).
Qed.

Lemma loadStep_trace k a :
  browser (page (loadStep k a)) =
  run (match nth_error (loads a) k with Some l => loadActs l | None => [] end)
    (browser (page a)).
Proof.
  unfold loadStep, loadActs. destruct (nth_error (loads a) k) as [l|]; [|reflexivity].
  destruct (nth_error (load_files l) (load_turn l)) as [[file o]|]; [|reflexivity].
  now destruct (_ <? _)%nat.
Qed.

(** An event that leaves the exporters alone does to the browser what its
    events of the player do. *)
Lemma appStep_trace e a :
  browsing e = true ->
  browser (page (appStep e a)) = run (trace a e) (browser (page a)).
Proof.
  destruct e as [| |url| | |fileList|fileList|[i|?|?|? ?|?|?|? ?]|k]; try discriminate;
    intros _; try reflexivity.
  - cbn [appStep trace]. unfold onDrop, andThen. now rewrite startLoad_trace.
  - apply startLoad_trace.
  - apply loadStep_trace.
Qed.

Lemma appRun_traces es : forall a,
  forallb browsing es = true ->
  browser (page (appRun es a)) = run (traces a es) (browser (page a)).
Proof.
  induction es as [|e es IH]; intros a H; [reflexivity|].
  apply andb_prop in H as [He Hes].
  rewrite appRun_cons, IH by assumption. cbn [traces].
  now rewrite run_app, appStep_trace.
Qed.

(** ** A load, step by step *)

(** The events while the page serves one load that has [n] files to go:
    animation frames, and [n] times the decoder and the detector coming
    back, the last time as the last event. *)
Inductive serving : nat -> list (AppEvent F) -> Prop :=
| serving_last : serving 1 [LoadStep 0]
| serving_tick t es n : serving n es -> serving n (OnPage (Browse (Tick t)) :: es)
| serving_step es n : serving (S n) es -> serving (S (S n)) (LoadStep 0 :: es).

(** The steps of [handleFiles] that are still to come when it waits in
    turn [i]. *)
Definition remaining files (i : nat) : list (Event F) :=
  match nth_error files i with
  | None => []
  | Some (_, o) =>
      Act (handleFiles_push o) ::
      flat_map (fun t => [Act (handleFiles_turn (List.length files) (fst t) (fst (snd t)));
                          Act (handleFiles_push (snd (snd t)))])
        (skipn (S i) (combine (seq 0 (List.length files)) files))
  end.

Lemma loading_remaining fileList :
  chosen fileList <> [] ->
  loading fileList =
  Act (handleFiles_start fileList) :: Act (loadTurn (chosen fileList) 0) ::
  remaining (chosen fileList) 0.
Proof.
  unfold loading, turns, remaining, loadTurn.
  destruct (chosen fileList) as [|[file o] files]; [contradiction | reflexivity].
Qed.

Lemma remaining_step files i file o :
  nth_error files i = Some (file, o) -> (S i < List.length files)%nat ->
  remaining files i =
  Act (handleFiles_push o) :: Act (loadTurn files (S i)) :: remaining files (S i).
Proof.
  intros Hi Hlt. unfold remaining at 1. rewrite Hi. f_equal.
  destruct (nth_error files (S i)) as [[file' o']|] eqn:E;
    [|apply nth_error_None in E; lia].
  rewrite (skipn_nth_error (S i) (combine _ files) (x := (S i, (file', o'))))
    by now apply nth_error_combine_seq.
  unfold remaining, loadTurn. rewrite E. reflexivity.
Qed.

Lemma remaining_last files i file o :
  nth_error files i = Some (file, o) -> S i = List.length files ->
  remaining files i = [Act (handleFiles_push o)].
Proof.
  intros Hi Hn. unfold remaining. rewrite Hi, skipn_all2; [reflexivity|].
  rewrite length_combine, length_seq. lia.
Qed.

(** Serving a load to its end is the rest of its steps, with the animation
    frames woven in, and then its end. *)
Lemma serving_woven n es :
  serving n es ->
  forall a files i, loads a = [{| load_files := files; load_turn := i |}] ->
    (i + n = List.length files)%nat ->
    loads (appRun es a) = [] /\
    exists wes, traces a es = wes ++ [Loaded] /\ woven wes (remaining files i).
Proof.
  induction 1 as [|t es n _ IH|es n _ IH]; intros a files i Hl Hn.
  - destruct (nth_error files i) as [[file o]|] eqn:E; [|apply nth_error_None in E; lia].
    cbn [appRun forEach fold_left appStep traces trace]. unfold loadStep, loadActs.
    rewrite Hl. cbn [nth_error load_files load_turn]. rewrite E.
    replace (S i <? List.length files)%nat with false by (symmetry; apply Nat.ltb_ge; lia).
    split; [reflexivity|]. exists [Act (handleFiles_push o)].
    split; [reflexivity|]. rewrite (remaining_last _ E) by lia. apply woven_refl.
  - rewrite appRun_cons. destruct (IH (appStep (OnPage (Browse (Tick t))) a) files i Hl Hn)
      as (Hl' & wes & Ht & Hw).
    split; [exact Hl'|]. exists (Frame t :: wes). cbn [traces trace event app].
    rewrite Ht. split; [reflexivity | now constructor].
  - destruct (nth_error files i) as [[file o]|] eqn:E; [|apply nth_error_None in E; lia].
    assert (Hlt : (S i <? List.length files)%nat = true) by (apply Nat.ltb_lt; lia).
    assert (Hs : loads (appStep (LoadStep 0) a) =
                 [{| load_files := files; load_turn := S i |}]).
    { cbn [appStep]. unfold loadStep. rewrite Hl. cbn [nth_error load_files load_turn].
      now rewrite E, Hlt. }
    rewrite appRun_cons. destruct (IH _ files (S i) Hs) as (Hl' & wes & Ht & Hw); [lia|].
    split; [exact Hl'|].
    exists (Act (handleFiles_push o) :: Act (loadTurn files (S i)) :: wes).
    cbn [traces trace]. unfold loadActs. rewrite Hl. cbn [nth_error load_files load_turn].
    rewrite E, Hlt, Ht. split; [reflexivity|].
    rewrite (remaining_step _ E) by (apply Nat.ltb_lt, Hlt). now repeat constructor.
Qed.

Lemma serving_browsing n es : serving n es -> forallb browsing es = true.
Proof. induction 1; cbn; auto. Qed.

Lemma proceeds_chosen fileList (w : World F) :
  proceeds fileList w = true -> chosen fileList <> [].
Proof.
  intros [_ H]%andb_prop E. rewrite E in H. discriminate.
Qed.

Lemma startLoad_loads fileList a :
  proceeds fileList (world (browser (page a))) = true ->
  loads (startLoad fileList a) =
  loads a ++ [{| load_files := chosen fileList; load_turn := 0 |}].
Proof. intros H. unfold startLoad. now rewrite H. Qed.

(** The choice of files and the service of the load are, for the browser,
    the steps of [handleFiles] with the animation frames woven in. *)
Lemma load_woven fileList es a :
  loads a = [] -> proceeds fileList (world (browser (page a))) = true ->
  serving (List.length (chosen fileList)) es ->
  let a' := appRun (Change fileList :: es) a in
  loads a' = [] /\
  exists wes, woven wes (loading fileList) /\
              browser (page a') = run (wes ++ [Loaded]) (browser (page a)).
Proof.
  intros Hl Hp Hs a'. subst a'. rewrite appRun_cons. cbn [appStep]. unfold onChange.
  destruct (serving_woven Hs (startLoad fileList a) (files := chosen fileList) (i := 0))
    as (Hl' & wes & Ht & Hw); [now rewrite startLoad_loads, Hl | reflexivity|].
  split; [exact Hl'|].
  exists (Act (handleFiles_start fileList) :: Act (loadTurn (chosen fileList) 0) :: wes).
  split.
  - rewrite (loading_remaining fileList) by exact (proceeds_chosen _ _ Hp).
    now repeat constructor.
  - rewrite appRun_traces, Ht, startLoad_trace by exact (serving_browsing Hs).
    unfold startActs. rewrite Hp. now rewrite <- run_app.
Qed.

(** C24: a load, from the choice of the files to the player.  The user
    chooses files, of which at least one is an image, on a page whose
    detector is loaded and where no load waits.  Whatever animation frames
    come while the decoder and the detector work on one file after the
    other, when they are through with the last, no load waits,
    [state.images] holds the frames of the files that could be processed, in
    the order of the files, and at most one callback of the player waits.
    With a frame, the player runs from the first one on a canvas of the size
    of the first image, the overlay is hidden and the page shows the editor;
    with none, the player is stopped and the page shows the upload. *)
Theorem load_ends fileList es a :
  let items := framesOf (chosen fileList) in
  let a' := appRun (Change fileList :: es) a in
  let b' := browser (page a') in
  loads a = [] -> proceeds fileList (world (browser (page a))) = true ->
  settled (browser (page a)) -> serving (List.length (chosen fileList)) es ->
  loads a' = [] /\ images (state (world b')) = items /\
  (List.length (callbacks b') <= 1)%nat /\
  match items with
  | first :: _ =>
      isPlaying (state (world b')) = true /\ currentFrame (state (world b')) = ofZ 0 /\
      width (canvas (state (world b'))) = img_width (original first) /\
      height (canvas (state (world b'))) = img_height (original first) /\
      loadingOverlay_hidden (elements (world b')) = true /\
      sections (world b') = (true, false)
  | [] =>
      isPlaying (state (world b')) = false /\ sections (world b') = (false, true)
  end.
Proof.
  intros items a' b' Hl Hp Hb Hs. subst items a' b'.
  destruct (load_woven fileList a Hl Hp Hs) as (Hl' & wes & Hw & ->).
  split; [exact Hl'|]. exact (handleFiles_loads Hp Hw Hb).
Qed.

Lemma showLoading_dragOver text progress (w : World F) :
  dropZone_dragOver (elements (showLoading text progress w)) =
  dropZone_dragOver (elements w).
Proof. unfold showLoading. cbn. now destruct (_ >=? _)%num. Qed.

Lemma startLoad_dragOver fileList a :
  dropZone_dragOver (elements (world (browser (page (startLoad fileList a))))) =
  dropZone_dragOver (elements (world (browser (page a)))).
Proof.
  unfold startLoad. destruct (proceeds _ _) eqn:E; [|reflexivity].
  apply andb_prop in E as [El En%negb_true_iff].
  cbn [page on_browser browser on_world world].
  unfold andThen, loadTurn, handleFiles_start, handleFiles_turn, showLoading1.
  rewrite El, En. cbn [negb].
  destruct (nth_error _ _) as [[file o]|]; [destruct (isHeic file)|];
    unfold andThen, skip; rewrite ?showLoading_dragOver;
    cbn [on_state on_elements elements set_sections dropZone_dragOver];
    apply showLoading_dragOver.
Qed.

(** Files dropped on the drop zone are files chosen in the file input,
    after the mark of the zone is taken away; the load does not put it
    back. *)
Lemma onDrop_unmarks fileList a :
  onDrop fileList a = onChange fileList (on_globals onDragLeave a) /\
  dropZone_dragOver (elements (world (browser (page (onDrop fileList a))))) = false.
Proof. split; [reflexivity|]. unfold onDrop, andThen. now rewrite startLoad_dragOver. Qed.

End Refinement.

(** ** The exports, the loads and the player keep apart *)

Section Apart.
Context {F : Type} {C : Carrier F} {M : MathOps F} {Rec : Recorder}.
Implicit Types a : App F.

(** Is the next step of load [k] its last. *)
Definition finishing a (k : nat) : bool :=
  match nth_error (loads a) k with
  | Some l => negb (S (load_turn l) <? List.length (load_files l))%nat
  | None => false
  end.

(** The events the page takes in turn: no export starts while another is
    pending, and no load ends while an export is pending. *)
Definition in_turn a (e : AppEvent F) : Prop :=
  match e with
  | OnPage e => apart (page a) e
  | LoadStep k => finishing a k = true -> tasks (page a) = []
  | _ => True
  end.

Inductive reached (a0 : App F) : App F -> Prop :=
| reached_start : reached a0 a0
| reached_step a e : reached a0 a -> in_turn a e -> reached a0 (appStep e a).

Lemma loadTurn_state files i (w : World F) : state (loadTurn files i w) = state w.
Proof.
  unfold loadTurn. destruct (nth_error files i) as [[file o]|]; [|reflexivity].
  apply handleFiles_turn_keeps.
Qed.

Lemma handleFiles_start_isPlaying fileList (w : World F) :
  isPlaying (state (handleFiles_start fileList w)) = isPlaying (state w).
Proof.
  unfold handleFiles_start. destruct (negb _); [reflexivity|].
  now destruct (_ =? _)%nat.
Qed.

(** An action on the two global objects that leaves the flag of the
    player alone leaves the exports and the player apart. *)
Lemma exclusive_on_world (f : act (World F)) (p : Page F) :
  (forall w, isPlaying (state (f w)) = isPlaying (state w)) ->
  exclusive p -> exclusive (on_browser (on_world f) p).
Proof.
  intros Hf [Hl Hp]. split; [exact Hl|]. intros Ht. unfold paused.
  cbn [on_browser browser on_world world]. rewrite Hf. now apply Hp.
Qed.

Lemma startLoad_exclusive fileList a :
  exclusive (page a) -> exclusive (page (startLoad fileList a)).
Proof.
  intros H. unfold startLoad. destruct (proceeds _ _); [|exact H].
  apply exclusive_on_world; [|exact H]. intros w. unfold andThen.
  now rewrite loadTurn_state, handleFiles_start_isPlaying.
Qed.

Lemma loadStep_exclusive k a :
  exclusive (page a) -> in_turn a (LoadStep k) -> exclusive (page (loadStep k a)).
Proof.
  intros H Ht. cbn [in_turn] in Ht. unfold finishing in Ht. unfold loadStep.
  destruct (nth_error (loads a) k) as [l|]; [|exact H].
  destruct (nth_error _ _) as [[file o]|]; [|exact H].
  destruct (_ <? _)%nat; cbn [page].
  - apply exclusive_on_world; [intros w; now rewrite loadTurn_state|].
    apply exclusive_on_world; [|exact H]. intros w. now destruct o.
  - specialize (Ht eq_refl). split; cbn [on_browser tasks]; rewrite Ht; [cbn; lia | contradiction].
Qed.

Lemma appStep_exclusive e a :
  exclusive (page a) -> in_turn a e -> exclusive (page (appStep e a)).
Proof.
  intros H Ht. destruct e as [| |url| | |fileList|fileList|e|k]; cbn [appStep];
    try (apply exclusive_on_world; [now intros w | exact H]).
  - unfold onDrop, andThen. apply startLoad_exclusive.
    apply exclusive_on_world; [now intros w | exact H].
  - now apply startLoad_exclusive.
  - now apply pageStep_exclusive.
  - now apply loadStep_exclusive.
Qed.

(** A list of events, each taken in turn. *)
Fixpoint in_turns a (es : list (AppEvent F)) : Prop :=
  match es with
  | [] => True
  | e :: es => in_turn a e /\ in_turns (appStep e a) es
  end.

Lemma reached_run es : forall a0 a,
  reached a0 a -> in_turns a es -> reached a0 (appRun es a).
Proof.
  induction es as [|e es IH]; intros a0 a Hr Ht; [exact Hr|].
  destruct Ht as [He Hes]. rewrite appRun_cons. apply IH; [|exact Hes].
  now apply reached_step.
Qed.

Lemma reached_exclusive a0 a : exclusive (page a0) -> reached a0 a -> exclusive (page a).
Proof. intros H0 H. induction H; auto using appStep_exclusive. Qed.

(** C14: the export and the player never paint together.  From [init]
    on, on a page that starts no export while another is pending and ends
    no load while an export is pending, whatever else happens, the player
    is paused whenever an export is pending, and an animation frame that
    comes then changes nothing of the page. *)
Theorem exports_suspend_playback cv markup a t :
  reached (init cv markup) a -> tasks (page a) <> [] ->
  paused (page a) /\
  world (animationFrame t (browser (page a))) = world (browser (page a)).
Proof.
  intros Hr Ht. destruct (reached_exclusive (a0 := init cv markup)) with (a := a) as [_ Hp];
    [split; [cbn; lia | contradiction] | exact Hr|].
  specialize (Hp Ht). split; [exact Hp|]. now rewrite animationFrame_stopped.
Qed.

End Apart.

(** ** Scenarios *)

Section ScenarioApp.
#[local] Existing Instance h264Recorder.
Local Open Scope R_scope.
Local Open Scope string_scope.

(** The page as its markup gives it: the upload shown, the editor and the
    overlay hidden, the rate at 10, the zoom slider at 25, the eyes
    aligned. *)
Definition markupA : Elements R :=
  {| uploadSection_hidden := false; editorSection_hidden := true;
     dropZone_dragOver := false;
     fileInput_value := EmptyString; loadingOverlay_hidden := true;
     loadingText := EmptyString; progressBarContainer_hidden := true;
     progressBar_width := Fin 0; speedValue := Fin 10; zoomRange_value := Fin 25;
     alignEyesBtn_active := true; noAlignBtn_active := false |}.

(** The page around the canvas of scenario A, once the detector is
    loaded. *)
Definition appA : App R := appStep ModelsLoaded (init canvasA markupA).

Lemma appA_settled : settled (browser (page appA)).
Proof.
  split; [|now left]. split; [discriminate|]. split; [apply Forall_nil | exact I].
Qed.

(** The decoder and the detector come back three times, animation frames
    in between. *)
Definition serviceA : list (AppEvent R) :=
  [OnPage (Browse (Tick (Fin 100))); LoadStep 0; LoadStep 0;
   OnPage (Browse (Tick (Fin 300))); LoadStep 0].

Lemma serviceA_serving : serving 3 serviceA.
Proof. unfold serviceA. repeat constructor. Qed.

Lemma load_ends_witness :
  let items := framesOf (chosen filesA) in
  let a' := appRun (Change filesA :: serviceA) appA in
  let b' := browser (page a') in
  loads a' = [] /\ images (state (world b')) = items /\
  (List.length (callbacks b') <= 1)%nat /\
  match items with
  | first :: _ =>
      isPlaying (state (world b')) = true /\ currentFrame (state (world b')) = ofZ 0 /\
      width (canvas (state (world b'))) = img_width (original first) /\
      height (canvas (state (world b'))) = img_height (original first) /\
      loadingOverlay_hidden (elements (world b')) = true /\
      sections (world b') = (true, false)
  | [] =>
      isPlaying (state (world b')) = false /\ sections (world b') = (false, true)
  end.
Proof.
  apply (load_ends (M := StdMath) filesA (es := serviceA) appA);
    [reflexivity | reflexivity | exact appA_settled | exact serviceA_serving].
Defined.

(** The detector is loaded, the files are chosen and processed, and the
    user exports the video. *)
Definition exportingA : list (AppEvent R) :=
  [ModelsLoaded; Change filesA; LoadStep 0; OnPage (Browse (Tick (Fin 100)));
   LoadStep 0; LoadStep 0; OnPage (ExportMp4Click true)].

Lemma exportingA_in_turns : in_turns (init canvasA markupA) exportingA.
Proof. cbn [in_turns exportingA in_turn apart]. repeat split; reflexivity. Qed.

Lemma exports_suspend_playback_witness :
  let a := appRun exportingA (init canvasA markupA) in
  paused (page a) /\
  world (animationFrame (Fin 200) (browser (page a))) = world (browser (page a)).
Proof.
  apply (exports_suspend_playback (M := StdMath) (cv := canvasA) (markup := markupA)).
  - apply reached_run; [apply reached_start | exact exportingA_in_turns].
  - intros E. apply (f_equal (@List.length _)) in E. vm_compute in E. discriminate E.
Defined.

End ScenarioApp.
