(* ===== verification/Timeline.v ===== *)
(** * Timeline: one loop of the player, whatever the page does

    [startPlayback] requests an animation frame for its closure [loop] and
    does not keep the handle of that first request; [loop] keeps the handle
    of every request it makes itself.  What cancels the player
    ([startPlayback], [resetApp], the pause of an export) can therefore
    cancel a loop that has run once, and cannot cancel one that has just
    been started.

    This file follows the callbacks that wait through every event of the
    document: the controls, the loads, the two exports with their
    continuations.  It names the events that start the player ([starts]),
    states the pace the page has to keep (an animation frame comes between
    two of them, [keeps_pace]), and shows that at this pace at most one
    callback waits at any time, from [init] on. *)

From Stdlib Require Import ZArith Reals Lia Bool List String.
From S2P Require Import Prelude.
From S2P Require Import Carrier.
From S2P Require Import JsNumber.
From S2P Require Import MathLib.
From S2P Require Import Canvas.
From S2P Require Import Geometry.
From S2P Require Import AppState.
From S2P Require Import Render.
From S2P Require Import AutoFit.
From S2P Require Import Playback.
From S2P Require Import Controls.
From S2P Require Import Export.
From S2P Require Import Ingest.
From S2P Require Import App.
Import ListNotations.

Set Implicit Arguments.

Section Pace.
Context {F : Type} {C : Carrier F} {M : MathOps F} {Rec : Recorder}.
Implicit Types a : App F.
Implicit Types p : Page F.
Implicit Types b : Browser F.

(** Does the export that task [k] stands for restart the player when it
    ends: it is at its end, and the player ran when it began. *)
Definition restarts p (k : nat) : bool :=
  match nth_error (tasks p) k with
  | Some (GifRendering _ wasPlaying) | Some (VideoStopping wasPlaying _) => wasPlaying
  | _ => false
  end.

(** Does the [catch] block of the export that task [k] stands for restart
    the player when the recorder cannot be stopped. *)
Definition aborts p (k : nat) : bool :=
  match nth_error (tasks p) k with
  | Some (VideoWaiting i _ wasPlaying _) =>
      negb (S i <? List.length (images (state (world (browser p)))))%nat && wasPlaying
  | _ => false
  end.

(** The events on which the page may call [startPlayback]: the end of a
    load, the end of an export that paused a running player, and an export
    of a running player that fails, at once or at its end. *)
Definition starts a (e : AppEvent F) : bool :=
  match e with
  | OnPage (Browse FilesLoaded) => true
  | OnPage (ExportGifClick available) | OnPage (ExportMp4Click available) =>
      negb available && isPlaying (state (world (browser (page a))))
  | OnPage (Resume k) => restarts (page a) k
  | OnPage (StopFailed k) => aborts (page a) k
  | LoadStep k => finishing a k
  | _ => false
  end.

(** Has the player been started since the last animation frame, after
    [e]. *)
Definition afterStart (started : bool) a (e : AppEvent F) : bool :=
  if starts a e then true
  else match e with OnPage (Browse (Tick _)) => false | _ => started end.

(** The events keep the pace of the animation frames: none starts the
    player when it has been started since the last animation frame. *)
Fixpoint keeps_pace (started : bool) a (es : list (AppEvent F)) : bool :=
  match es with
  | [] => true
  | e :: es =>
      negb (starts a e && started) && keeps_pace (afterStart started a e) (appStep e a) es
  end.

(** What is known of the callbacks: at most one waits, and when the player
    has not been started since the last animation frame, the one that waits
    is the one [state.animationId] names. *)
Definition timeline (started : bool) b : Prop := if started then loose b else settled b.

(** A function of the browser that starts nothing keeps what is known of
    the callbacks. *)
Definition calm (f : act (Browser F)) : Prop := forall started b,
  timeline started b -> timeline started (f b).

End Pace.

(** ** What each function does to the callbacks *)

Section PaceFacts.
Context {F : Type} {C : Carrier F} {M : MathOps F} {Rec : Recorder}.
Implicit Types a : App F.
Implicit Types p : Page F.
Implicit Types b : Browser F.

Lemma timeline_loose started b : timeline started b -> loose b.
Proof. destruct started; [auto | apply settled_loose]. Qed.

Lemma timeline_callbacks started b :
  timeline started b -> (List.length (callbacks b) <= 1)%nat.
Proof.
  intros [_ [Hq|[cb Hcb]]]%timeline_loose; [unfold quiet in Hq; rewrite Hq | rewrite Hcb];
    cbn; lia.
Qed.

(** Less is known once the player may have been started. *)
Lemma timeline_weaken (x started : bool) b :
  timeline started b -> timeline (x || started) b.
Proof. destruct x; [apply timeline_loose | auto]. Qed.

(** What is known depends on the callbacks, the next handle and
    [state.animationId] only. *)
Lemma timeline_same started b b' :
  callbacks b' = callbacks b -> nextHandle b' = nextHandle b ->
  animationId (state (world b')) = animationId (state (world b)) ->
  timeline started b -> timeline started b'.
Proof.
  intros Hc Hn Hi.
  unfold timeline, loose, settled, fresh, quiet, single, tracked, known.
  rewrite Hc, Hn, Hi. now destruct started.
Qed.

Lemma calm_on_world (f : act (World F)) : keeps_timeline f -> calm (on_world f).
Proof. intros Hf [] b; [now apply on_world_loose | now apply on_world_settled]. Qed.

Lemma calm_cancelPending : calm (@cancelPending F).
Proof.
  intros [] b H; [now apply cancelPending_loose|].
  split; [apply fresh_cancelPending, H | left; now apply cancelPending_settled].
Qed.

Lemma calm_resetApp : calm (@resetApp F).
Proof.
  intros [] b H; [now apply resetApp_loose|].
  destruct (resetApp_settled H) as (Hq & Hf & _). split; auto.
Qed.

(** The pause of an export cancels what it can and starts nothing. *)
Lemma calm_pausePlayback : calm (fun b => snd (pausePlayback b)).
Proof.
  intros started b H. rewrite pausePlayback_spec. cbn [snd].
  apply calm_on_world; [now intros w|]. now apply calm_cancelPending.
Qed.

(** The end of an export starts the player when it ran before: on a
    timeline that [state.animationId] holds, one callback waits after
    it. *)
Lemma exportDone_timeline (wp started : bool) b :
  timeline started b -> (wp = true -> started = false) ->
  timeline (wp || started) (exportDone wp b).
Proof.
  intros H Hs. unfold exportDone. destruct wp; cbn [orb].
  - rewrite (Hs eq_refl) in H. apply started_loose, startPlayback_started.
    now apply (calm_on_world (f := hideLoading)) with (started := false).
  - now apply calm_on_world.
Qed.

Lemma renderFrame_animationId index (st : State F) :
  animationId (renderFrame index st) = animationId st.
Proof. apply renderFrame_frame. Qed.

Lemma handleFiles_start_animationId fileList (w : World F) :
  animationId (state (handleFiles_start fileList w)) = animationId (state w).
Proof.
  unfold handleFiles_start. destruct (negb _); [reflexivity|]. now destruct (_ =? _)%nat.
Qed.

(** [exportGif]: the pause, then the frames for the encoder, which leave
    the callbacks alone; when the encoder cannot be built, the end of the
    export at once. *)
Lemma exportGif_timeline (available started : bool) p :
  let x := negb available && isPlaying (state (world (browser p))) in
  timeline started (browser p) -> (x = true -> started = false) ->
  timeline (x || started) (browser (exportGif available p)).
Proof.
  intros x H Hs. destruct (images (state (world (browser p)))) as [|item items] eqn:E.
  - unfold exportGif. rewrite E. now apply timeline_weaken.
  - destruct available; subst x; cbn [negb andb orb] in *.
    + destruct (exportGif_spec p) as (w & gif & -> & _ & _ & _ & Ha & _); [now rewrite E|].
      apply timeline_same with (cancelPending (browser p)); cbn [browser callbacks nextHandle world];
        rewrite ?cancelPending_nextHandle, ?cancelPending_world; auto.
      now apply calm_cancelPending.
    + unfold exportGif. rewrite E. cbn [List.length Nat.eqb].
      rewrite (surjective_pairing (pausePlayback _)). cbn [browser].
      apply exportDone_timeline; [|exact Hs].
      apply calm_pausePlayback, calm_on_world; [now intros w | exact H].
Qed.

Lemma exportMp4_timeline (supported started : bool) p :
  let x := negb supported && isPlaying (state (world (browser p))) in
  timeline started (browser p) -> (x = true -> started = false) ->
  timeline (x || started) (browser (exportMp4 supported p)).
Proof.
  intros x H Hs. destruct (images (state (world (browser p)))) as [|item items] eqn:E.
  - unfold exportMp4. rewrite E. now apply timeline_weaken.
  - destruct supported; subst x; cbn [negb andb orb] in *.
    + rewrite exportMp4_spec by now rewrite E. cbn [browser].
      apply calm_on_world;
        [intros w; cbn [on_state state]; unfold andThen; now rewrite renderFrame_animationId|].
      apply calm_on_world; [now intros w|]. now apply calm_cancelPending.
    + unfold exportMp4. rewrite E. cbn [List.length Nat.eqb].
      rewrite (surjective_pairing (pausePlayback _)). cbn [browser].
      apply exportDone_timeline; [|exact Hs].
      apply calm_pausePlayback, calm_on_world; [now intros w | exact H].
Qed.

(** A continuation of an export: a turn of the loop paints and starts
    nothing; the end restarts the player when it ran before. *)
Lemma resume_timeline k (started : bool) p :
  timeline started (browser p) -> (restarts p k = true -> started = false) ->
  timeline (restarts p k || started) (browser (resume k p)).
Proof.
  intros H Hs. unfold resume, restarts in *.
  destruct (nth_error (tasks p) k) as [[gif wp|i d wp cs|wp cs]|]; cbn [browser orb];
    try (now apply exportDone_timeline); try exact H.
  rewrite videoTurn_spec. destruct (_ <? _)%nat; cbn [browser]; [|exact H].
  apply calm_on_world; [intros w; apply renderFrame_animationId | exact H].
Qed.

Lemma stopFailed_timeline k (started : bool) p :
  timeline started (browser p) -> (aborts p k = true -> started = false) ->
  timeline (aborts p k || started) (browser (stopFailed k p)).
Proof.
  intros H Hs. unfold stopFailed, aborts in *.
  destruct (nth_error (tasks p) k) as [[gif wp|i d wp cs|wp cs]|]; cbn [browser orb]; try exact H.
  destruct (_ <? _)%nat; cbn [negb andb orb browser] in *; [exact H|].
  now apply exportDone_timeline.
Qed.

Lemma progressed_timeline k x (started : bool) p :
  timeline started (browser p) -> timeline started (browser (progressed k x p)).
Proof.
  intros H. unfold progressed. destruct (nth_error _ _) as [[ | | ]|]; try exact H.
Qed.

(** A call of [handleFiles] up to its first [await] writes nothing of the
    player. *)
Lemma startLoad_timeline fileList (started : bool) a :
  timeline started (browser (page a)) ->
  timeline started (browser (page (startLoad fileList a))).
Proof.
  intros H. unfold startLoad. destruct (proceeds _ _); [|exact H].
  apply calm_on_world; [|exact H]. intros w. unfold andThen.
  now rewrite loadTurn_state, handleFiles_start_animationId.
Qed.

(** A continuation of a load: the frame is pushed, and after the last
    file the player is started. *)
Lemma loadStep_timeline k (started : bool) a :
  timeline started (browser (page a)) -> (finishing a k = true -> started = false) ->
  timeline (finishing a k || started) (browser (page (loadStep k a))).
Proof.
  intros H Hs. unfold loadStep, finishing in *.
  destruct (nth_error (loads a) k) as [l|]; [|exact H].
  destruct (nth_error _ _) as [[file o]|]; [|now apply timeline_weaken].
  assert (Hp : forall s, timeline s (browser (page a)) ->
                         timeline s (on_world (handleFiles_push o) (browser (page a))))
    by (intros s; apply calm_on_world; intros w; now destruct o).
  destruct (_ <? _)%nat; cbn [negb orb page browser on_browser] in *.
  - apply calm_on_world; [intros w; now rewrite loadTurn_state | now apply Hp].
  - rewrite (Hs eq_refl) in H. now apply handleFiles_finish_loose, (Hp false).
Qed.

(** An input of the player: an animation frame leaves the callback that
    waits in the hands of [state.animationId]; the controls and the reset
    start nothing. *)
Lemma browse_timeline (i : Input F) (started : bool) b :
  timeline started b ->
  (match i with FilesLoaded => started = false | _ => True end) ->
  timeline (match i with Tick _ => false | FilesLoaded => true | _ => started end)
    (step (event i) b).
Proof.
  intros H Hs. pose proof (step_paced (event i) b started (event_tame i) H) as Hp.
  destruct i; cbn [event] in *; apply Hp; auto.
Qed.

Lemma pageStep_timeline (e : PageEvent F) (started : bool) a :
  timeline started (browser (page a)) ->
  (starts a (OnPage e) = true -> started = false) ->
  timeline (afterStart started a (OnPage e)) (browser (pageStep e (page a))).
Proof.
  intros H Hs. unfold afterStart.
  destruct e as [i|av|av|k x|k|k|k data]; cbn [pageStep starts] in *.
  - apply (browse_timeline i) in H; [|destruct i; auto]. now destruct i.
  - destruct (_ && _) eqn:E; [rewrite (Hs eq_refl) in *|];
      apply (exportGif_timeline av) in H; rewrite ?E in *; auto.
  - destruct (_ && _) eqn:E; [rewrite (Hs eq_refl) in *|];
      apply (exportMp4_timeline av) in H; rewrite ?E in *; auto.
  - now apply progressed_timeline.
  - destruct (restarts _ _) eqn:E; [rewrite (Hs eq_refl) in *|];
      apply (resume_timeline k) in H; rewrite ?E in *; auto.
  - destruct (aborts _ _) eqn:E; [rewrite (Hs eq_refl) in *|];
      apply (stopFailed_timeline k) in H; rewrite ?E in *; auto.
  - now rewrite (proj1 (dataAvailable_shell k data (page a))).
Qed.

(** Every event of the document, at the pace of the animation frames. *)
Lemma appStep_timeline (e : AppEvent F) (started : bool) a :
  timeline started (browser (page a)) -> starts a e && started = false ->
  timeline (afterStart started a e) (browser (page (appStep e a))).
Proof.
  intros H Hs.
  assert (Hs' : starts a e = true -> started = false)
    by (intros E; rewrite E in Hs; exact Hs).
  destruct e as [| |url| | |fileList|fileList|e|k]; try (now apply pageStep_timeline);
    unfold afterStart; cbn [appStep starts] in *;
    try (apply calm_on_world; [now intros w | exact H]).
  - unfold onDrop, andThen. apply startLoad_timeline.
    apply calm_on_world; [now intros w | exact H].
  - now apply startLoad_timeline.
  - destruct (finishing a k) eqn:E; [rewrite (Hs' eq_refl) in *|];
      apply (loadStep_timeline k) in H; rewrite ?E in *; auto.
Qed.

Lemma appRun_timeline es : forall (started : bool) a,
  timeline started (browser (page a)) -> keeps_pace started a es = true ->
  loose (browser (page (appRun es a))).
Proof.
  induction es as [|e es IH]; intros started a H Hp; [now apply timeline_loose with started|].
  cbn [keeps_pace] in Hp. apply andb_prop in Hp as [Hs%negb_true_iff Hp].
  rewrite appRun_cons. apply (IH (afterStart started a e)); [|exact Hp].
  now apply appStep_timeline.
Qed.

Lemma init_settled cv markup : settled (browser (page (init cv markup))).
Proof.
  split; [|now left]. split; [discriminate|]. split; [apply Forall_nil | exact I].
Qed.

(** C13: the page has one timeline.  From [init] on, whatever the user
    does, whichever files load and whichever exports run and in whatever
    order, at most one callback of the player waits for the next animation
    frame, as long as an animation frame comes between two events that
    start the player (the end of a load, the end of an export that paused
    it, an export that fails at once). *)
Theorem app_one_timeline cv markup es :
  keeps_pace false (init cv markup) es = true ->
  (List.length (callbacks (browser (page (appRun es (init cv markup))))) <= 1)%nat.
Proof.
  intros Hp. apply timeline_callbacks with (started := true).
  apply appRun_timeline with (started := false); [apply init_settled | exact Hp].
Qed.

End PaceFacts.

(** ** Scenarios *)

Section ScenarioTimeline.
#[local] Existing Instance h264Recorder.
Local Open Scope R_scope.

(** The files of scenario A are dropped on the page and load, and the
    player starts; the user resets the page and, an animation frame later,
    chooses the files again; the player starts again and is exported to
    video. *)
Definition dayA : list (AppEvent R) :=
  [ModelsLoaded; DragOver; Drop filesA; OnPage (Browse (Tick (Fin 16)));
   LoadStep 0; LoadStep 0; LoadStep 0;
   OnPage (Browse ResetClick); OnPage (Browse (Tick (Fin 33)));
   Change filesA; LoadStep 0; LoadStep 0; LoadStep 0;
   OnPage (ExportMp4Click true)].

Lemma app_one_timeline_witness :
  (List.length (callbacks (browser (page (appRun dayA (init canvasA markupA))))) <= 1)%nat.
Proof.
  apply (app_one_timeline (M := StdMath) canvasA markupA dayA). reflexivity.
Defined.

(** Without the animation frame the end of the export finds the callback
    of the first start still waiting, and two loops run. *)
Example two_timelines :
  let hasty := [ModelsLoaded; Drop filesA; LoadStep 0; LoadStep 0; LoadStep 0;
                OnPage (ExportGifClick false)] in
  keeps_pace false (init canvasA markupA) hasty = false /\
  List.length (callbacks (browser (page (appRun hasty (init canvasA markupA))))) = 2%nat.
Proof. split; reflexivity. Qed.

End ScenarioTimeline.
