(* ===== verification/Typing.v ===== *)
(** * Typing: what the fields of [state] and of the page hold

    JavaScript gives the fields of [state] no type.  The program means
    [state.fps] to be a whole number of frames per second within the range
    of its slider, [state.zoom] a share of the width of the canvas within
    the range of its slider, [state.currentFrame] an index, the width of the
    progress bar a percentage, and it means the page to show the settings
    that [state] holds.  This file states that as an invariant of the page
    and proves that every listener and every continuation keeps it, provided
    the sliders, the decoder, the detector and the encoder deliver values of
    their kind. *)

From Stdlib Require Import ZArith Reals Zfloor Lra Lia Bool List String.
From Stdlib Require Import RelationClasses Morphisms.
From S2P Require Import Prelude.
From S2P Require Import Carrier.
From S2P Require Import JsNumber.
From S2P Require Import MathLib.
From S2P Require Import Canvas.
From S2P Require Import Geometry.
From S2P Require Import AppState.
From S2P Require Import Render.
From S2P Require Import AutoFit.
From S2P Require Import Playback.
From S2P Require Import Controls.
From S2P Require Import Export.
From S2P Require Import Ingest.
From S2P Require Import App.
Import ListNotations.

Set Implicit Arguments.

(** ** The kinds of value *)

Section Kinds.
Local Open Scope R_scope.
Implicit Types a : num R.

(** An index, or [NaN]. *)
Definition is_index a : Prop := a = NaN \/ exists k : nat, a = ofNat k.

(** A whole number of frames per second, from 1 to 60. *)
Definition is_rate a : Prop := exists f : Z, a = Fin (IZR f) /\ (1 <= f <= 60)%Z.

(** A whole number of hundredths, from 0.10 to 1. *)
Definition is_zoom a : Prop := exists n : Z, a = Fin (IZR n / 100) /\ (10 <= n <= 100)%Z.

(** A whole number from 0 to 100. *)
Definition is_percent a : Prop := exists n : Z, a = Fin (IZR n) /\ (0 <= n <= 100)%Z.

(** A share: a number from 0 to 1. *)
Definition is_share a : Prop := exists x, a = Fin x /\ 0 <= x <= 1.

(** A frame as the decoder and the detector deliver it: an image that has
    a width and a height, and, when a face was found, two clusters of
    finite points. *)
Definition decoded (item : Item R) : Prop :=
  usable (original item) = true /\
  match detections item with
  | Some d => measured (landmarks d)
  | None => True
  end.

Definition sound_file (fo : File * Outcome R) : Prop :=
  match snd fo with
  | Processed img d => decoded {| original := img; detections := d |}
  | Failed => True
  end.

(** The page is well formed: the settings are of their kind, the index is
    an index, every frame is as the decoder and the detector deliver it, the
    canvas has a size and its context is as the render functions expect it,
    and the page shows the settings that [state] holds. *)
Record wellformed (w : World R) : Prop := {
  wf_fps : is_rate (fps (state w));
  wf_zoom : is_zoom (zoom (state w));
  wf_index : is_index (currentFrame (state w));
  wf_images : Forall decoded (images (state w));
  wf_width : width (canvas (state w)) <> 0%N;
  wf_height : height (canvas (state w)) <> 0%N;
  wf_plain : plain w;
  wf_progress : is_percent (progressBar_width (elements w));
  wf_speed : speedValue (elements w) = fps (state w);
  wf_align : alignEyesBtn_active (elements w) = alignEyes (state w);
  wf_noAlign : noAlignBtn_active (elements w) = negb (alignEyes (state w))
}.

(** What [wellformed] reads of the nodes of the page. *)
Definition shown (e : Elements R) : num R * num R * bool * bool :=
  (progressBar_width e, speedValue e, alignEyesBtn_active e, noAlignBtn_active e).

Lemma decoded_measured (items : list (Item R)) :
  Forall decoded items -> Forall measured_item items.
Proof.
  apply Forall_impl. intros item [Hu Hd]. unfold measured_item.
  now destruct (detections item).
Qed.

Lemma is_percent_ge a : is_percent a -> (a >=? 0)%num = true.
Proof.
  intros (n & -> & Hn & _). apply IZR_le in Hn. unfold ngeb, nleb. cbn. runfold.
  now rewrite Rltb_false.
Qed.

Lemma minus_one_lt : (ofZ (-1) >=? 0)%num = false :> bool.
Proof. unfold ngeb, nleb. cbn. runfold. now rewrite Rltb_true by lra. Qed.

End Kinds.

(** ** The actions on the two global objects *)

Section Actions.
Context {M : MathOps R} {L : MathLaws M} {Rec : Recorder}.
Local Open Scope R_scope.
Implicit Types w : World R.
Implicit Types st : State R.

(** An action on the state that keeps the setup keeps the page well formed
    when the index it leaves is one. *)
Lemma wf_on_state (f : act (State R)) w :
  same_setup (state w) (f (state w)) -> is_index (currentFrame (f (state w))) ->
  wellformed w -> wellformed (on_state f w).
Proof.
  intros (Hi & Hz & Ha & Hf & Hw & Hh & Hm & Hs) Hc []. constructor; unfold plain in *;
    cbn [on_state state elements]; rewrite ?Hi, ?Hz, ?Ha, ?Hf, ?Hw, ?Hh, ?Hm, ?Hs; assumption.
Qed.

(** An action on the nodes that keeps what is shown keeps the page well
    formed. *)
Lemma wf_on_elements (f : act (Elements R)) w :
  shown (f (elements w)) = shown (elements w) ->
  wellformed w -> wellformed (on_elements f w).
Proof.
  intros H []. injection H as Hp Hs Ha Hn.
  constructor; cbn [on_elements state elements]; rewrite ?Hp, ?Hs, ?Ha, ?Hn; assumption.
Qed.

Lemma wf_renderFrame index w : wellformed w -> wellformed (on_state (renderFrame index) w).
Proof.
  intros H. apply wf_on_state; [apply renderFrame_same_setup | | exact H].
  rewrite renderFrame_currentFrame. apply H.
Qed.

(** The overlay: a progress that is a percentage, or none. *)
Lemma wf_showLoading text progress w :
  is_percent progress \/ (progress >=? 0)%num = false ->
  wellformed w -> wellformed (showLoading text progress w).
Proof.
  intros Hp Hw. unfold showLoading. destruct (progress >=? 0)%num eqn:E.
  - destruct Hp as [Hp|Hp]; [|discriminate]. destruct Hw. now constructor.
  - now apply wf_on_elements.
Qed.

Lemma wf_showLoading1 text w : wellformed w -> wellformed (showLoading1 text w).
Proof. apply wf_showLoading. right. exact minus_one_lt. Qed.

Lemma wf_hideLoading w : wellformed w -> wellformed (hideLoading w).
Proof. now apply wf_on_elements. Qed.

(** The loop of the player moves the index to an index, or to [NaN] when
    there is no frame. *)
Lemma advance_index st : is_index (currentFrame st) -> is_index (currentFrame (advance st)).
Proof.
  intros H. unfold advance. cbn [set_currentFrame currentFrame].
  destruct (renderFrame_frame (currentFrame st) st) as (-> & _ & _ & _ & -> & _).
  destruct H as [->|[k ->]]; [now left|]. rewrite nadd_ofNat_1.
  destruct (List.length (images st)) as [|n] eqn:E.
  - left. apply nrem_zero.
  - right. exists (S k mod S n)%nat. now apply nrem_nat.
Qed.

Lemma advance_same_setup st : same_setup st (advance st).
Proof.
  unfold advance. etransitivity; [apply (renderFrame_same_setup (currentFrame st))|].
  repeat split.
Qed.

Lemma wf_advance w : wellformed w -> wellformed (on_state advance w).
Proof.
  intros H. apply wf_on_state; [apply advance_same_setup | | exact H].
  apply advance_index, H.
Qed.

End Actions.

(** ** The player and the controls *)

Section Player.
Context {M : MathOps R} {L : MathLaws M} {Rec : Recorder}.
Local Open Scope R_scope.
Implicit Types b : Browser R.
Implicit Types w : World R.

Definition wf_browser b : Prop := wellformed (world b).

Lemma wf_cancelPending b : wf_browser b -> wf_browser (cancelPending b).
Proof. unfold wf_browser. now rewrite cancelPending_world. Qed.

Lemma wf_flag (v : bool) w : wellformed w -> wellformed (on_state (set_isPlaying v) w).
Proof. intros H. apply wf_on_state; [repeat split | apply H | exact H]. Qed.

Lemma wf_loop lt t b : wf_browser b -> wf_browser (loop lt t b).
Proof.
  intros H. destruct (isPlaying (state (world b))) eqn:E;
    [rewrite loop_playing by assumption | now rewrite loop_stopped].
  unfold wf_browser. cbn [world].
  change {| state := set_animationId ?i ?s; elements := ?e |}
    with (on_state (set_animationId i) {| state := s; elements := e |}).
  apply wf_on_state; [repeat split | |]; cbn [state set_animationId currentFrame].
  - destruct (due _ _ _); [apply advance_index|]; apply H.
  - destruct (due _ _ _); [apply (wf_advance H)|].
    unfold wf_browser in H. destruct (world b). exact H.
Qed.

Lemma wf_animationFrame t b : wf_browser b -> wf_browser (animationFrame t b).
Proof.
  intros H. unfold animationFrame. apply forEach_invariant; [|exact H].
  intros cb b' _. apply wf_loop.
Qed.

Lemma wf_startPlayback b : wf_browser b -> wf_browser (startPlayback b).
Proof.
  intros H. rewrite startPlayback_spec. unfold wf_browser. cbn [world].
  apply wf_on_state; [repeat split | right; now exists 0%nat | exact H].
Qed.

Lemma wf_resetApp b : wf_browser b -> wf_browser (resetApp b).
Proof.
  intros []. unfold wf_browser. rewrite resetApp_world. constructor; cbn; auto.
Qed.

Lemma wf_handleFiles_finish b : wf_browser b -> wf_browser (handleFiles_finish b).
Proof.
  intros H. unfold handleFiles_finish.
  destruct (images (state (world b))) as [|firstItem items] eqn:E; [now apply wf_resetApp|].
  apply wf_startPlayback. unfold wf_browser, andThen. cbn [on_world world].
  apply wf_hideLoading. pose proof (wf_images H) as Hi. rewrite E in Hi.
  apply Forall_cons_iff in Hi as [[[Hw Hh]%andb_prop _] _].
  destruct H. constructor; cbn; try assumption.
  - intros Hz. rewrite Hz in Hw. discriminate.
  - intros Hz. rewrite Hz in Hh. discriminate.
  - now split.
Qed.

(** What the sliders deliver: a whole number within their range. *)
Definition sound_control (c : Control R) : Prop :=
  match c with
  | SpeedInput v => is_rate v
  | ZoomInput v => exists n : Z, v = Fin (IZR n) /\ (10 <= n <= 100)%Z
  | _ => True
  end.

Lemma wf_onSpeedInput v w : is_rate v -> wellformed w -> wellformed (onSpeedInput v w).
Proof.
  intros (f & -> & Hf) []. unfold onSpeedInput, andThen.
  constructor; cbn -[parseInt]; rewrite ?parseInt_int; try assumption; try reflexivity.
  now exists f.
Qed.

Lemma wf_onZoomInput (n : Z) w :
  (10 <= n <= 100)%Z -> wellformed w -> wellformed (onZoomInput (Fin (IZR n)) w).
Proof.
  intros Hn Hw. unfold onZoomInput, andThen.
  set (w1 := on_state (set_zoom _) w). assert (H1 : wellformed w1).
  { destruct Hw. subst w1. constructor; try assumption. cbn [on_state state set_zoom zoom].
    exists n. split; [|exact Hn]. rewrite parseInt_int. apply ndiv_fin. lra. }
  destruct (negb _ && _); [now apply wf_renderFrame | exact H1].
Qed.

Lemma wf_setAlignMode align w : wellformed w -> wellformed (setAlignMode align w).
Proof. intros []. now constructor. Qed.

(** [autoFitZoom] stores a zoom of its kind: the frames are measured and
    the canvas has a width. *)
Lemma fittedZoom_kind w : wellformed w -> is_zoom (fittedZoom (state w)).
Proof.
  intros H. destruct (fittedZoom_fin (state w) (wf_width H) (decoded_measured (wf_images H)))
    as (m & _ & Hm & ->).
  destruct (finalZ_bounds Hm) as [Hz _]. exists (Z.max 10 (finalZ m)). split; [reflexivity | lia].
Qed.

Lemma wf_autoFitZoom w : wellformed w -> wellformed (autoFitZoom w).
Proof.
  intros Hw. unfold autoFitZoom. destruct (_ =? _)%nat; [exact Hw|]. unfold andThen.
  apply wf_showLoading1 with (text := "Calculating optimal zoom..."%string) in Hw.
  set (w1 := showLoading1 _ w) in *.
  assert (H2 : wellformed (on_elements
                 (set_zoomRange_value (Math_round (fittedZoom (state w1) * ofZ 100)%num))
                 (on_state (set_zoom (fittedZoom (state w1))) w1))).
  { apply wf_on_elements; [reflexivity|]. pose proof (fittedZoom_kind Hw) as Hz.
    destruct Hw. now constructor. }
  apply wf_hideLoading in H2. set (w3 := hideLoading _) in *.
  destruct (isPlaying (state w3)); [exact H2 | now apply wf_renderFrame].
Qed.

Lemma wf_control c w : sound_control c -> wellformed w -> wellformed (control c w).
Proof.
  destruct c as [v|v|align|]; cbn [sound_control control].
  - apply wf_onSpeedInput.
  - intros (n & -> & Hn). now apply wf_onZoomInput.
  - intros _. apply wf_setAlignMode.
  - intros _. apply wf_autoFitZoom.
Qed.

End Player.

(** ** The exporters *)

Section Exporting.
Context {M : MathOps R} {L : MathLaws M} {Rec : Recorder}.
Local Open Scope R_scope.
Implicit Types b : Browser R.
Implicit Types p : Page R.
Implicit Types w : World R.

Lemma wf_pausePlayback b : wf_browser b -> wf_browser (snd (pausePlayback b)).
Proof.
  intros H. rewrite pausePlayback_spec. unfold wf_browser. cbn [snd on_world world].
  rewrite cancelPending_world. now apply wf_flag.
Qed.

Lemma wf_exportDone wp b : wf_browser b -> wf_browser (exportDone wp b).
Proof.
  intros H. unfold exportDone.
  destruct wp; [apply wf_startPlayback|]; unfold wf_browser; cbn [on_world world];
    now apply wf_hideLoading.
Qed.

Lemma wf_addFrames i w (gif : Gif R) :
  (i < List.length (images (state w)))%nat -> wellformed w ->
  let w' := fst (addFrames i (w, gif)) in
  wellformed w' /\ images (state w') = images (state w).
Proof.
  intros Hi Hw. cbn zeta. unfold addFrames. cbn [fst on_state state].
  split; [|rewrite (proj1 (showLoading_keeps _ _ _)); apply renderFrame_frame].
  apply wf_showLoading; [|now apply wf_renderFrame]. left. cbn [on_state state].
  destruct (renderFrame_frame (ofNat i) (state w)) as (-> & _).
  destruct (Math_round_ratio (s := 50) Hi) as (z & -> & Hz); [lia|]. exists z. split; [reflexivity | lia].
Qed.

Lemma wf_addFrames_loop n w (gif : Gif R) :
  (n <= List.length (images (state w)))%nat -> wellformed w ->
  wellformed (fst (forUpTo n addFrames (w, gif))).
Proof.
  intros Hn Hw. unfold forUpTo.
  apply (forEach_invariant
           (fun r => wellformed (fst r) /\ images (state (fst r)) = images (state w)));
    [|now split].
  intros i [w1 gif1] [_ Hi]%in_seq [H1 E]. cbn [fst] in H1, E.
  destruct (wf_addFrames (i := i) gif1 (w := w1)) as [H2 E2]; [rewrite E; lia | exact H1|].
  split; [exact H2 | now rewrite E2].
Qed.

Lemma wf_videoTurn i wp cs b :
  wf_browser b -> wf_browser (fst (videoTurn i wp cs b)).
Proof.
  intros H. rewrite videoTurn_spec. destruct (_ <? _)%nat; [|exact H].
  unfold wf_browser. cbn [fst on_world world]. now apply wf_renderFrame.
Qed.

Definition wf_page p : Prop := wf_browser (browser p).

Lemma wf_exportGif available p : wf_page p -> wf_page (exportGif available p).
Proof.
  intros H. unfold exportGif. destruct (_ =? _)%nat; [exact H|].
  rewrite pausePlayback_spec. cbn zeta iota.
  set (b := on_world _ (cancelPending _)). assert (Hb : wf_browser b).
  { subst b. unfold wf_browser. cbn [on_world world]. rewrite cancelPending_world.
    apply wf_flag, wf_showLoading; [|exact H]. left. exists 0%Z. split; [reflexivity | lia]. }
  destruct available; [|now apply wf_exportDone].
  match goal with |- context [forUpTo ?n addFrames ?r] =>
    pose proof (wf_addFrames_loop (n := n) (snd r) (w := fst r) (Nat.le_refl _) Hb) as Hl;
    cbn [fst snd] in Hl; destruct (forUpTo n addFrames r) as [w' gif']
  end.
  exact Hl.
Qed.

Lemma wf_exportMp4 supported p : wf_page p -> wf_page (exportMp4 supported p).
Proof.
  intros H. unfold exportMp4. destruct (_ =? _)%nat; [exact H|].
  rewrite pausePlayback_spec. cbn zeta iota.
  set (b := on_world _ (cancelPending _)). assert (Hb : wf_browser b).
  { subst b. unfold wf_browser. cbn [on_world world]. rewrite cancelPending_world.
    now apply wf_flag, wf_showLoading1. }
  destruct supported; [|now apply wf_exportDone].
  pose proof (wf_videoTurn 0 (isPlaying (state (world (on_world
    (showLoading1 "Generating Video...") (browser p))))) [] Hb) as Hv.
  now destruct (videoTurn _ _ _ _).
Qed.

Lemma wf_resume k p : wf_page p -> wf_page (resume k p).
Proof.
  intros H. unfold resume. destruct (nth_error _ _) as [[gif wp|i d wp cs|wp cs]|]; try exact H.
  - now apply wf_exportDone.
  - pose proof (wf_videoTurn (S i) wp cs H) as Hv. now destruct (videoTurn _ _ _ _).
  - now apply wf_exportDone.
Qed.

Lemma wf_stopFailed k p : wf_page p -> wf_page (stopFailed k p).
Proof.
  intros H. unfold stopFailed. destruct (nth_error _ _) as [[gif wp|i d wp cs|wp cs]|]; try exact H.
  destruct (_ <? _)%nat; [exact H | now apply wf_exportDone].
Qed.

Lemma wf_progressed k x p : is_share x -> wf_page p -> wf_page (progressed k x p).
Proof.
  intros (y & -> & Hy) H. unfold progressed.
  destruct (nth_error _ _) as [[gif wp|i d wp cs|wp cs]|]; try exact H.
  unfold wf_page, wf_browser, onGifProgress. cbn [on_browser browser on_world world].
  apply wf_showLoading; [|exact H]. left.
  destruct (Math_round_share (s := 50) Hy) as (z & -> & Hz); [lia|].
  exists (50 + z)%Z. split; [|lia]. cbn [ofZ nadd]. runfold. now rewrite plus_IZR.
Qed.

(** The events of the page that deliver values of their kind. *)
Definition sound_page (e : PageEvent R) : Prop :=
  match e with
  | Browse (User c) => sound_control c
  | Progress _ x => is_share x
  | _ => True
  end.

Lemma wf_pageStep e p : sound_page e -> wf_page p -> wf_page (pageStep e p).
Proof.
  destruct e as [[t|c| |]|available|supported|k x|k|k|k data];
    cbn [sound_page pageStep]; intros He H.
  - now apply wf_animationFrame.
  - unfold wf_page, wf_browser. cbn. now apply wf_control.
  - now apply wf_resetApp.
  - now apply wf_handleFiles_finish.
  - now apply wf_exportGif.
  - now apply wf_exportMp4.
  - now apply wf_progressed.
  - now apply wf_resume.
  - now apply wf_stopFailed.
  - unfold wf_page. now rewrite (proj1 (dataAvailable_shell k data p)).
Qed.

End Exporting.

(** ** The loads, and the page as a whole *)

Section Whole.
Context {M : MathOps R} {L : MathLaws M} {Rec : Recorder}.
Local Open Scope R_scope.
Implicit Types a : App R.
Implicit Types w : World R.
Implicit Types fileList files : list (File * Outcome R).

(** A load that waits has a file to wait for, and its files come out as
    the decoder and the detector deliver them. *)
Definition sound_load (l : Load R) : Prop :=
  (load_turn l < List.length (load_files l))%nat /\ Forall sound_file (load_files l).

Definition tidy a : Prop := wf_page (page a) /\ Forall sound_load (loads a).

(** The events that deliver values of their kind. *)
Definition sound (e : AppEvent R) : Prop :=
  match e with
  | Drop fileList | Change fileList => Forall sound_file fileList
  | OnPage e => sound_page e
  | _ => True
  end.

Lemma wf_handleFiles_start fileList w :
  wellformed w -> wellformed (handleFiles_start fileList w).
Proof.
  intros H. unfold handleFiles_start. destruct (negb _); [exact H|].
  destruct (_ =? _)%nat; [exact H|]. unfold andThen.
  match goal with |- context [showLoading1 ?t w] =>
    apply (wf_showLoading1 t) in H; set (w1 := showLoading1 t w) in *
  end.
  destruct H. constructor; cbn; auto.
Qed.

Lemma wf_handleFiles_turn n i file w :
  (i < n)%nat -> wellformed w -> wellformed (handleFiles_turn n i file w).
Proof.
  intros Hi H. unfold handleFiles_turn.
  destruct (Math_round_ratio (s := 100) Hi) as (z & -> & Hz); [lia|].
  assert (Hp : is_percent (Fin (IZR z))) by now exists z.
  destruct (isHeic file); repeat apply wf_showLoading; auto.
Qed.

Lemma wf_loadTurn files i w : wellformed w -> wellformed (loadTurn files i w).
Proof.
  intros H. unfold loadTurn. destruct (nth_error files i) as [[file o]|] eqn:E; [|exact H].
  apply wf_handleFiles_turn; [|exact H]. apply nth_error_Some. congruence.
Qed.

Lemma wf_handleFiles_push file o w :
  sound_file (file, o) -> wellformed w -> wellformed (handleFiles_push o w).
Proof.
  intros Ho []. destruct o as [img d|]; [|now constructor].
  constructor; cbn; auto. apply Forall_app. split; [assumption | now constructor].
Qed.

Lemma sound_chosen fileList : Forall sound_file fileList -> Forall sound_file (chosen fileList).
Proof.
  intros H. apply Forall_forall. intros fo [Hin _]%filter_In.
  now apply (proj1 (Forall_forall _ _) H).
Qed.

Lemma tidy_on_globals (f : act (World R)) a :
  (forall w, wellformed w -> wellformed (f w)) -> tidy a -> tidy (on_globals f a).
Proof. intros Hf [Hp Hl]. split; [apply Hf, Hp | exact Hl]. Qed.

Lemma tidy_startLoad fileList a :
  Forall sound_file fileList -> tidy a -> tidy (startLoad fileList a).
Proof.
  intros Hs [Hp Hl]. unfold startLoad. destruct (proceeds _ _) eqn:E; [|now split].
  split.
  - unfold wf_page, wf_browser, andThen. cbn. now apply wf_loadTurn, wf_handleFiles_start.
  - cbn [loads]. apply Forall_app. split; [exact Hl|]. constructor; [|constructor].
    split; [|now apply sound_chosen]. cbn [load_turn load_files].
    pose proof (proceeds_chosen _ _ E). destruct (chosen fileList); [contradiction | cbn; lia].
Qed.

Lemma tidy_loadStep k a : tidy a -> tidy (loadStep k a).
Proof.
  intros [Hp Hl]. unfold loadStep. destruct (nth_error (loads a) k) as [l|] eqn:El; [|now split].
  destruct (Forall_nth_error _ Hl El) as [Hi Hs].
  destruct (nth_error (load_files l) (load_turn l)) as [[file o]|] eqn:Ef; [|now split].
  assert (Hw : wellformed (handleFiles_push o (world (browser (page a)))))
    by (eapply wf_handleFiles_push; [exact (Forall_nth_error _ Hs Ef) | exact Hp]).
  destruct (_ <? _)%nat eqn:E.
  - split; [now apply wf_loadTurn|]. cbn [loads]. apply Forall_putAt; [|exact Hl].
    split; [now apply Nat.ltb_lt | exact Hs].
  - split; [now apply wf_handleFiles_finish | now apply Forall_dropAt].
Qed.

Lemma tidy_appStep e a : sound e -> tidy a -> tidy (appStep e a).
Proof.
  destruct e as [| |url| | |fileList|fileList|e|k]; cbn [sound appStep]; intros He H.
  - apply tidy_on_globals; [|exact H]. intros w Hw. apply wf_hideLoading.
    destruct Hw. now constructor.
  - apply tidy_on_globals; [|exact H]. intros w. apply wf_showLoading1.
  - apply tidy_on_globals; [|exact H]. intros w []. now constructor.
  - apply tidy_on_globals; [|exact H]. intros w. now apply wf_on_elements.
  - apply tidy_on_globals; [|exact H]. intros w. now apply wf_on_elements.
  - apply tidy_startLoad; [exact He|]. apply tidy_on_globals; [|exact H].
    intros w. now apply wf_on_elements.
  - now apply tidy_startLoad.
  - destruct H as [Hp Hl]. split; [now apply wf_pageStep | exact Hl].
  - now apply tidy_loadStep.
Qed.

(** The page as [init] leaves it is well formed when the markup shows the
    settings [state] is declared with, the canvas has a size and nothing
    has transformed its context yet. *)
Definition sound_markup (cv : Canvas R) (markup : Elements R) : Prop :=
  width cv <> 0%N /\ height cv <> 0%N /\
  (ctm (ctx cv) = mat_id /\ saved (ctx cv) = []) /\
  is_percent (progressBar_width markup) /\
  speedValue markup = ofZ 10 /\
  alignEyesBtn_active markup = true /\ noAlignBtn_active markup = false.

Lemma tidy_init cv markup : sound_markup cv markup -> tidy (init cv markup).
Proof.
  intros (Hw & Hh & Hc & Hp & Hs & Ha & Hn). split; [|constructor].
  unfold wf_page, wf_browser. cbn [init page browser world]. apply wf_showLoading1.
  constructor; cbn; auto.
  - exists 10%Z. split; [reflexivity | lia].
  - exists 25%Z. split; [reflexivity | lia].
  - right. now exists 0%nat.
Qed.

(** Sound events keep the page tidy, however many. *)
Lemma appRun_tidy es a : Forall sound es -> tidy a -> tidy (appRun es a).
Proof.
  intros Hes. apply (forEach_invariant tidy es appStep).
  intros e a' Hin. apply tidy_appStep. now apply (proj1 (Forall_forall _ _) Hes).
Qed.

(** C17: the fields keep their kind.  On a page whose markup shows the
    settings [state] is declared with, whatever happens and in whatever
    order, as long as the sliders deliver whole numbers within their ranges,
    the decoder images that have a size, the detector finite points and the
    encoder a progress between 0 and 1: [state.fps] is a whole number from 1
    to 60, [state.zoom] a whole number of hundredths from 0.10 to 1,
    [state.currentFrame] an index or [NaN], every frame is as the decoder
    and the detector delivered it, the canvas has a size and its context
    the identity for matrix with nothing saved, the progress bar a whole
    percentage from 0 to 100, and the page shows the rate and the alignment
    that [state] holds. *)
Theorem app_wellformed cv markup es :
  sound_markup cv markup -> Forall sound es ->
  wellformed (world (browser (page (appRun es (init cv markup))))).
Proof. intros Hm Hes. now apply appRun_tidy, tidy_init. Qed.

(** ** The recordings *)

Lemma appStep_chunked (e : AppEvent R) a : chunked (page a) -> chunked (page (appStep e a)).
Proof.
  intros H. destruct e as [| |url| | |fileList|fileList|e|k]; cbn [appStep]; try exact H.
  - unfold onDrop, andThen, startLoad. now destruct (proceeds _ _).
  - unfold onChange, startLoad. now destruct (proceeds _ _).
  - now apply pageStep_chunked.
  - unfold loadStep. destruct (nth_error (loads a) k) as [l|]; [|exact H].
    destruct (nth_error _ _) as [[file o]|]; [|exact H]. now destruct (_ <? _)%nat.
Qed.

(** From [init] on, whatever happens: no chunk that a recording under way
    has kept is empty. *)
Theorem app_chunks_solid cv markup (es : list (AppEvent R)) :
  chunked (page (appRun es (init cv markup))).
Proof.
  apply (forEach_invariant (fun a => chunked (page a)) es appStep);
    [intros e a _; apply appStep_chunked | constructor].
Qed.

End Whole.

(** ** Scenarios *)

Section ScenarioTyping.
#[local] Existing Instance h264Recorder.
Local Open Scope R_scope.

Lemma filesA_sound : Forall sound_file filesA.
Proof.
  pose proof stateA_measured as Hm. apply Forall_cons_iff in Hm as [[_ Hm] _].
  unfold filesA. repeat (apply Forall_cons; [|]); try apply Forall_nil;
    cbn [sound_file snd]; try exact I; (split; [reflexivity | assumption || exact I]).
Qed.

(** A session from the start of the page: the detector is loaded, files
    are dragged over the zone and dropped, the decoder and the detector
    work through them while frames go by; the user moves the zoom slider,
    asks for the fit, slows the player down, exports a GIF and a video, and
    resets the page. *)
Definition visitTyped : list (AppEvent R) :=
  [ModelsLoaded; WorkerFetched "blob:worker"; DragOver; Drop filesA;
   LoadStep 0; OnPage (Browse (Tick (Fin 100))); LoadStep 0; LoadStep 0;
   OnPage (Browse (Tick (Fin 300))); OnPage (Browse (User (ZoomInput (Fin 30))));
   OnPage (Browse (User AutoFit)); OnPage (Browse (User (SpeedInput (Fin 2))));
   OnPage (Browse (User (AlignMode false)));
   OnPage (ExportGifClick true); OnPage (Progress 0 (Fin (1 / 2))); OnPage (Resume 0);
   OnPage (ExportMp4Click true); OnPage (Resume 0); OnPage (Resume 0); OnPage (Resume 0);
   OnPage (Browse ResetClick)].

Lemma sessionA_sound : Forall sound visitTyped.
Proof.
  unfold visitTyped.
  repeat match goal with |- Forall sound (_ :: _) => apply Forall_cons end;
    try apply Forall_nil; try exact I; cbn [sound sound_page sound_control].
  - exact filesA_sound.
  - exists 30%Z. split; [reflexivity | lia].
  - exists 2%Z. split; [reflexivity | lia].
  - exists (1 / 2). split; [reflexivity | lra].
Qed.

Lemma markupA_sound : sound_markup canvasA markupA.
Proof.
  repeat split; try discriminate. exists 0%Z. split; [reflexivity | lia].
Qed.

Lemma app_wellformed_witness :
  wellformed (world (browser (page (appRun visitTyped (init canvasA markupA))))).
Proof.
  apply (app_wellformed (M := StdMath) (L := StdMathLaws));
    [exact markupA_sound | exact sessionA_sound].
Defined.

End ScenarioTyping.
