(* ===== verification/Liveness.v ===== *)
(** * Liveness: what the page waits for comes to an end

    A load waits for the decoder and the detector once per file, an export
    to video for its timer once per frame and then for the recorder, an
    export to GIF for the encoder.  The events that serve them are not in
    the hands of the program; what the program decides is how often each
    has to come.  This file gives the measure of the work that is pending,
    shows that no animation frame, no report of progress and no service of
    another task adds to it, that every service takes from it, and concludes
    that a schedule which keeps serving the oldest load and the oldest
    export, whatever else it serves in between, leaves nothing pending. *)

From Stdlib Require Import ZArith Reals Lia Bool List String.
From S2P Require Import Prelude.
From S2P Require Import Carrier.
From S2P Require Import JsNumber.
From S2P Require Import MathLib.
From S2P Require Import Canvas.
From S2P Require Import Geometry.
From S2P Require Import AppState.
From S2P Require Import Render.
From S2P Require Import AutoFit.
From S2P Require Import Playback.
From S2P Require Import Controls.
From S2P Require Import Export.
From S2P Require Import Ingest.
From S2P Require Import App.
Import ListNotations.

Set Implicit Arguments.

Section Measure.
Context {F : Type} {C : Carrier F} {M : MathOps F} {Rec : Recorder}.
Implicit Types a : App F.
Implicit Types p : Page F.
Implicit Types b : Browser F.

(** Nothing is pending. *)
Definition at_rest a : Prop := tasks (page a) = [] /\ loads a = [].

(** Every load that waits has a file to wait for. *)
Definition alive a : Prop :=
  Forall (fun l => (load_turn l < List.length (load_files l))%nat) (loads a).

(** The events that are not the user's: animation frames, the reports and
    the end of the encoder, the timers of the video, the pieces the
    recorder delivers and its end or its failure to stop, and the decoder
    and the detector coming back. *)
Definition internal (e : AppEvent F) : bool :=
  match e with
  | OnPage (Browse (Tick _)) | OnPage (Progress _ _) | OnPage (Resume _)
  | OnPage (StopFailed _) | OnPage (DataAvailable _ _) | LoadStep _ => true
  | _ => false
  end.

(** The events other than a recorder that cannot be stopped. *)
Definition faultless (e : AppEvent F) : bool :=
  match e with
  | OnPage (StopFailed _) => false
  | _ => true
  end.

(** Does the event serve something that waits. *)
Definition serves a (e : AppEvent F) : bool :=
  match e with
  | OnPage (Resume k) => (k <? List.length (tasks (page a)))%nat
  | LoadStep k => (k <? List.length (loads a))%nat
  | _ => false
  end.

(** The files a load has still to go through. *)
Definition steps_left (l : Load F) : nat := List.length (load_files l) - load_turn l.

(** The events a task still waits for, when [state.images] will never hold
    more than [frames] frames: the encoder or the recorder once; the timer
    once for every frame still to show, and then the recorder. *)
Definition turns_left (frames : nat) (t : Task F) : nat :=
  match t with
  | VideoWaiting i _ _ _ => 2 + (frames - S i)
  | _ => 1
  end.

Definition frames_now a : nat := List.length (images (state (world (browser (page a))))).

Definition steps_ahead a : nat := list_sum (map steps_left (loads a)).

(** The frames [state.images] holds and those the loads may still add. *)
Definition frames_ahead a : nat := frames_now a + steps_ahead a.

(** The work that is pending. *)
Definition rank a : nat :=
  steps_ahead a + list_sum (map (turns_left (frames_ahead a)) (tasks (page a))).

(** A round of a schedule: events that are not the user's, among them a
    service of the oldest export and a service of the oldest load. *)
Definition round (es : list (AppEvent F)) : Prop :=
  forallb internal es = true /\ In (OnPage (Resume 0)) es /\ In (LoadStep 0) es.

End Measure.

(** ** The measure goes down *)

Section Variant.
Context {F : Type} {C : Carrier F} {M : MathOps F} {Rec : Recorder}.
Implicit Types a : App F.
Implicit Types p : Page F.
Implicit Types b : Browser F.

Lemma turns_left_mono fr fr' (t : Task F) :
  (fr' <= fr)%nat -> (turns_left fr' t <= turns_left fr t)%nat.
Proof. destruct t; cbn; lia. Qed.

Lemma animationFrame_images t b :
  images (state (world (animationFrame t b))) = images (state (world b)).
Proof. apply (animationFrame_shell t b). Qed.

Lemma exportDone_images wp b :
  images (state (world (exportDone wp b))) = images (state (world b)).
Proof. unfold exportDone. destruct wp; [rewrite startPlayback_spec|]; reflexivity. Qed.

Lemma ltb_nth_error {A} (xs : list A) k x :
  nth_error xs k = Some x -> (k <? List.length xs)%nat = true.
Proof. intros H. apply Nat.ltb_lt. eauto using nth_error_Some_lt. Qed.

Lemma ltb_nth_error_None {A} (xs : list A) k :
  nth_error xs k = None -> (k <? List.length xs)%nat = false.
Proof. intros H. apply Nat.ltb_ge. now apply nth_error_None. Qed.

(** A task that is resumed has one event less to wait for, or more than
    one less; the frames stay. *)
Lemma resume_turns k p fr :
  (List.length (images (state (world (browser p)))) <= fr)%nat ->
  let p' := resume k p in
  images (state (world (browser p'))) = images (state (world (browser p))) /\
  (list_sum (map (turns_left fr) (tasks p')) +
   (if (k <? List.length (tasks p))%nat then 1 else 0) <=
   list_sum (map (turns_left fr) (tasks p)))%nat.
Proof.
  intros Hfr. cbn zeta. unfold resume. destruct (nth_error (tasks p) k) as [t|] eqn:E;
    [rewrite (ltb_nth_error _ _ E) | rewrite (ltb_nth_error_None _ _ E); split; [reflexivity | lia]].
  destruct t as [gif wp|i d wp cs|wp cs].
  - cbn [browser tasks]. split; [apply exportDone_images|].
    rewrite (list_sum_dropAt (turns_left fr) _ _ E). cbn. lia.
  - rewrite videoTurn_spec.
    destruct (S i <? _)%nat eqn:Ei; cbn [browser tasks];
      (split; [try reflexivity; apply renderFrame_frame|]);
      match goal with |- context [putAt k ?t' _] =>
        pose proof (list_sum_putAt (turns_left fr) k (tasks p) t' E) as Hs
      end; cbn [turns_left] in Hs; [apply Nat.ltb_lt in Ei|]; lia.
  - cbn [browser tasks]. split; [apply exportDone_images|].
    rewrite (list_sum_dropAt (turns_left fr) _ _ E). cbn. lia.
Qed.

(** A recorder that cannot be stopped ends its export, and changes
    nothing when it is not the turn of the recorder. *)
Lemma stopFailed_turns k p fr :
  let p' := stopFailed k p in
  images (state (world (browser p'))) = images (state (world (browser p))) /\
  (list_sum (map (turns_left fr) (tasks p')) <=
   list_sum (map (turns_left fr) (tasks p)))%nat.
Proof.
  cbn zeta. unfold stopFailed.
  destruct (nth_error (tasks p) k) as [[gif wp|i d wp cs|wp cs]|] eqn:E; try (split; [reflexivity | lia]).
  destruct (_ <? _)%nat; [split; [reflexivity | lia]|]. cbn [browser tasks].
  split; [apply exportDone_images|]. rewrite (list_sum_dropAt (turns_left fr) _ _ E). lia.
Qed.

(** A piece of a recording changes nothing of what the page waits for. *)
Lemma dataAvailable_turns k data p fr :
  list_sum (map (turns_left fr) (tasks (dataAvailable k data p))) =
  list_sum (map (turns_left fr) (tasks p)).
Proof.
  unfold dataAvailable.
  destruct (nth_error (tasks p) k) as [[gif wp|i d wp cs|wp cs]|] eqn:E; try reflexivity;
    cbn [tasks];
    match goal with |- context [putAt k ?t' _] =>
      pose proof (list_sum_putAt (turns_left fr) k (tasks p) t' E) as Hs
    end; cbn [turns_left] in Hs; lia.
Qed.

(** The events of the page that are not the user's. *)
Lemma pageStep_turns e a fr :
  internal (OnPage e) = true ->
  (List.length (images (state (world (browser (page a))))) <= fr)%nat ->
  let p' := pageStep e (page a) in
  images (state (world (browser p'))) = images (state (world (browser (page a)))) /\
  (list_sum (map (turns_left fr) (tasks p')) + (if serves a (OnPage e) then 1 else 0) <=
   list_sum (map (turns_left fr) (tasks (page a))))%nat.
Proof.
  destruct e as [[t| | |]|?|?|k x|k|k|k data]; try discriminate; intros _ Hfr;
    cbn [pageStep serves].
  - cbn [on_browser tasks browser]. split; [apply animationFrame_images | lia].
  - unfold progressed.
    destruct (nth_error _ _) as [[]|]; cbn [on_browser tasks browser on_world world];
      (split; [|lia]); reflexivity.
  - now apply resume_turns.
  - rewrite Nat.add_0_r. apply stopFailed_turns.
  - rewrite (proj1 (dataAvailable_shell k data (page a))), dataAvailable_turns.
    split; [reflexivity | lia].
Qed.

Lemma push_length (o : Outcome F) (w : World F) :
  (List.length (images (state (handleFiles_push o w))) <= S (List.length (images (state w))))%nat.
Proof.
  destruct o as [img d|]; cbn [handleFiles_push on_state state set_images images];
    [rewrite length_app; cbn [List.length] | unfold skip]; lia.
Qed.

(** A step of a load: the tasks stay, the load has one file less to go
    through, and [state.images] has at most one frame more. *)
Lemma loadStep_spec k a l :
  nth_error (loads a) k = Some l -> (load_turn l < List.length (load_files l))%nat ->
  let a' := loadStep k a in
  tasks (page a') = tasks (page a) /\ (frames_now a' <= S (frames_now a))%nat /\
  S (steps_ahead a') = steps_ahead a /\ (alive a -> alive a').
Proof.
  intros El Hi. cbn zeta. unfold loadStep, frames_now, steps_ahead, alive. rewrite El.
  destruct (nth_error (load_files l) (load_turn l)) as [[file o]|] eqn:Ef;
    [|apply nth_error_None in Ef; lia].
  pose proof (push_length o (world (browser (page a)))) as Hp.
  destruct (_ <? _)%nat eqn:E; cbn [page loads tasks on_browser browser on_world world].
  - rewrite loadTurn_state. apply Nat.ltb_lt in E.
    match goal with |- context [putAt k ?l' _] =>
      pose proof (list_sum_putAt steps_left k (loads a) l' El) as Hs
    end.
    unfold steps_left in Hs at 2 4. cbn [load_files load_turn] in Hs.
    repeat split; [exact Hp | lia | now apply Forall_putAt].
  - rewrite (proj1 (handleFiles_finish_page _)). apply Nat.ltb_ge in E.
    pose proof (list_sum_dropAt steps_left k (loads a) El) as Hs. unfold steps_left in Hs at 3.
    repeat split; [exact Hp | lia | now apply Forall_dropAt].
Qed.

Lemma sum_turns_mono fr fr' (ts : list (Task F)) :
  (fr' <= fr)%nat ->
  (list_sum (map (turns_left fr') ts) <= list_sum (map (turns_left fr) ts))%nat.
Proof. intros H. apply list_sum_le. intros t. now apply turns_left_mono. Qed.

(** The variant: an event that is not the user's adds nothing to the work
    that is pending, and takes from it when it serves. *)
Lemma rank_step e a :
  alive a -> internal e = true ->
  alive (appStep e a) /\
  (rank (appStep e a) + (if serves a e then 1 else 0) <= rank a)%nat.
Proof.
  intros Ha He. destruct e as [| | | | | | |e|k]; try discriminate.
  - destruct (pageStep_turns e a (fr := frames_ahead a) He) as [Hi Hs];
      [unfold frames_ahead, frames_now; lia|].
    split; [exact Ha|]. unfold rank, frames_ahead, frames_now, steps_ahead in *.
    cbn [appStep on_page page loads]. rewrite Hi. lia.
  - cbn [appStep serves]. destruct (nth_error (loads a) k) as [l|] eqn:El.
    + rewrite (ltb_nth_error _ _ El).
      destruct (loadStep_spec k a El (Forall_nth_error _ Ha El)) as (Ht & Hf & Hs & Hal).
      split; [auto|]. unfold rank. rewrite Ht.
      pose proof (@sum_turns_mono (frames_ahead a) (frames_ahead (loadStep k a))
                    (tasks (page a))) as Hm.
      unfold frames_ahead in *. lia.
    + rewrite (ltb_nth_error_None _ _ El). unfold loadStep. rewrite El.
      split; [exact Ha | lia].
Qed.

Lemma rank_run es : forall a,
  alive a -> forallb internal es = true ->
  alive (appRun es a) /\ (rank (appRun es a) <= rank a)%nat.
Proof.
  induction es as [|e es IH]; intros a Ha H; [now split|].
  apply andb_prop in H as [He Hes]. rewrite appRun_cons.
  destruct (rank_step e Ha He) as [Ha' Hr]. destruct (IH _ Ha' Hes) as [Ha'' Hr'].
  split; [exact Ha''|]. destruct (serves a e); lia.
Qed.

(** What holds of the page and is kept by every event of a kind is kept
    by a list of events of that kind. *)
Lemma kept_run (kind : AppEvent F -> bool) (kept : App F -> Prop) es :
  (forall e a, kind e = true -> kept a -> kept (appStep e a)) ->
  forall a, forallb kind es = true -> kept a -> kept (appRun es a).
Proof.
  intros Hk. induction es as [|e es IH]; intros a H Ha; [exact Ha|].
  apply andb_prop in H as [He Hes]. rewrite appRun_cons. apply IH; auto.
Qed.

(** Only the user adds an export or a load. *)
Lemma no_task_step e a :
  internal e = true -> tasks (page a) = [] -> tasks (page (appStep e a)) = [].
Proof.
  destruct e as [| | | | | | |[[t| | |]|?|?|k x|k|k|k data]|k]; try discriminate; intros _ H;
    cbn [appStep on_page page pageStep on_browser tasks]; try exact H.
  - unfold progressed. rewrite H. now destruct k.
  - unfold resume. rewrite H. now destruct k.
  - unfold stopFailed. rewrite H. now destruct k.
  - unfold dataAvailable. rewrite H. now destruct k.
  - unfold loadStep. destruct (nth_error (loads a) k) as [l|]; [|exact H].
    destruct (nth_error _ _) as [[file o]|]; [|exact H]. now destruct (_ <? _)%nat.
Qed.

Lemma no_load_step e a : internal e = true -> loads a = [] -> loads (appStep e a) = [].
Proof.
  destruct e as [| | | | | | |e|k]; try discriminate; intros _ H; [exact H|].
  cbn [appStep]. unfold loadStep. rewrite H. now destruct k.
Qed.

(** A list of events that holds a service of what is oldest in a queue
    leaves the queue empty, or less work than there was. *)
Lemma round_serves (e : AppEvent F) (empty : App F -> Prop) :
  internal e = true ->
  (forall a, serves a e = true \/ empty a) ->
  (forall e' a, internal e' = true -> empty a -> empty (appStep e' a)) ->
  forall es a, alive a -> forallb internal es = true -> In e es ->
  empty (appRun es a) \/ (rank (appRun es a) < rank a)%nat.
Proof.
  intros He Hserve Hkeep es a Ha Hes (es1 & es2 & ->)%in_split.
  rewrite forallb_app in Hes. apply andb_prop in Hes as [H1 H2].
  apply andb_prop in H2 as [_ H2]. rewrite appRun_app, appRun_cons.
  destruct (rank_run es1 Ha H1) as [Ha1 Hr1]. set (a1 := appRun es1 a) in *.
  destruct (rank_step e Ha1 He) as [Ha2 Hr2]. destruct (rank_run es2 Ha2 H2) as [_ Hr3].
  destruct (Hserve a1) as [Hs|Hem].
  - right. rewrite Hs in Hr2. lia.
  - left. apply (kept_run internal); auto.
Qed.

Lemma round_progress es a :
  alive a -> round es -> at_rest (appRun es a) \/ (rank (appRun es a) < rank a)%nat.
Proof.
  intros Ha (Hi & Ht & Hl).
  destruct (round_serves (OnPage (Resume 0)) (fun a => tasks (page a) = []) eq_refl)
    with (es := es) (a := a) as [H1|H1]; auto using no_task_step.
  { intros a'. cbn. destruct (tasks (page a')); auto. }
  destruct (round_serves (LoadStep 0) (fun a => loads a = []) eq_refl)
    with (es := es) (a := a) as [H2|H2]; auto using no_load_step.
  { intros a'. cbn. destruct (loads a'); auto. }
  left. now split.
Qed.

Lemma rank_zero a : alive a -> rank a = 0%nat <-> at_rest a.
Proof.
  intros Ha. unfold rank, steps_ahead, at_rest. split.
  - intros H. destruct (loads a) as [|l ls] eqn:El.
    + destruct (tasks (page a)) as [|t ts]; [now split|].
      cbn in H. destruct t; cbn in H; lia.
    + unfold alive in Ha. rewrite El in Ha. apply Forall_cons_iff in Ha as [Hl _].
      unfold list_sum in H. cbn [map fold_right] in H.
      unfold steps_left in H at 1. lia.
  - now intros [-> ->].
Qed.

(** Every export delivers one file, unless its recorder cannot be
    stopped: what is pending and what is delivered make the same number
    before and after an event that is not the user's, or one less after a
    recorder that could not be stopped. *)
Definition deliveries a : nat :=
  List.length (downloads (page a)) + List.length (tasks (page a)).

Lemma resume_deliveries k p :
  (List.length (downloads (resume k p)) + List.length (tasks (resume k p)) =
   List.length (downloads p) + List.length (tasks p))%nat.
Proof.
  unfold resume. destruct (nth_error (tasks p) k) as [t|] eqn:E; [|reflexivity].
  pose proof (nth_error_Some_lt _ _ E) as Hk.
  destruct t as [gif wp|i d wp cs|wp cs]; [| destruct (videoTurn _ _ _ _) |];
    cbn [downloads tasks]; rewrite ?length_app, ?length_dropAt, ?length_putAt by assumption;
    cbn [List.length]; lia.
Qed.

Lemma stopFailed_deliveries k p :
  (List.length (downloads (stopFailed k p)) + List.length (tasks (stopFailed k p)) <=
   List.length (downloads p) + List.length (tasks p))%nat.
Proof.
  unfold stopFailed. destruct (nth_error (tasks p) k) as [[gif wp|i d wp cs|wp cs]|] eqn:E; try lia.
  destruct (_ <? _)%nat; [lia|]. cbn [downloads tasks].
  rewrite length_dropAt by eauto using nth_error_Some_lt. lia.
Qed.

Lemma deliveries_step e a :
  internal e = true -> faultless e = true -> deliveries (appStep e a) = deliveries a.
Proof.
  unfold deliveries.
  destruct e as [| | | | | | |[[t| | |]|?|?|k x|k|?|k data]|k]; try discriminate; intros _ _;
    cbn [appStep on_page page pageStep on_browser tasks downloads]; try reflexivity.
  - unfold progressed. now destruct (nth_error _ _) as [[]|].
  - apply resume_deliveries.
  - destruct (dataAvailable_shell k data (page a)) as (_ & -> & ->). reflexivity.
  - unfold loadStep. destruct (nth_error (loads a) k) as [l|]; [|reflexivity].
    destruct (nth_error _ _) as [[file o]|]; [|reflexivity]. now destruct (_ <? _)%nat.
Qed.

Lemma deliveries_le e a : internal e = true -> (deliveries (appStep e a) <= deliveries a)%nat.
Proof.
  intros He. destruct (faultless e) eqn:Hf; [now rewrite deliveries_step|].
  destruct e as [| | | | | | |[| | | | |k|]|]; try discriminate. apply stopFailed_deliveries.
Qed.

(** The files offered at rest: at most one for every export, and one for
    every export when every recorder could be stopped. *)
Lemma deliveries_run es a :
  forallb internal es = true ->
  (deliveries (appRun es a) <= deliveries a)%nat /\
  (forallb faultless es = true -> deliveries (appRun es a) = deliveries a).
Proof.
  intros Hi. split.
  - apply (kept_run internal (fun x => (deliveries x <= deliveries a)%nat)); auto.
    intros e x He Hx. pose proof (deliveries_le e x He). lia.
  - intros Hf.
    apply (kept_run (fun e => internal e && faultless e) (fun x => deliveries x = deliveries a));
      [| |reflexivity].
    + intros e x [He Hfe]%andb_prop Hx. now rewrite deliveries_step.
    + clear a. induction es as [|e es IH]; [reflexivity|]. cbn [forallb] in *.
      apply andb_prop in Hi as [-> Hi]. apply andb_prop in Hf as [-> Hf]. now apply IH.
Qed.

Lemma rounds_internal (rounds : list (list (AppEvent F))) :
  Forall round rounds -> forallb internal (List.concat rounds) = true.
Proof.
  induction 1 as [|es rounds [He _] _ IH]; [reflexivity|].
  cbn [List.concat]. now rewrite forallb_app, He, IH.
Qed.

(** C22: what the page waits for comes to an end.  A schedule made of
    rounds, each of which serves the oldest export and the oldest load, in
    whatever order and with whatever animation frames, reports of the
    encoder, recorders that cannot be stopped and services of other tasks
    in between, leaves no export and no load pending, provided it has as
    many rounds as the work that is pending: the timers and the callbacks
    of the decoder, of the detector, of the encoder and of the recorder
    that the loads and the exports still need, at most one per file of a
    load, one per frame of a video and one more for the recorder.  It has
    then offered at most one file for every export that was, and one for
    every export when every recorder could be stopped. *)
Theorem fair_schedule_ends (rounds : list (list (AppEvent F))) a :
  let a' := appRun (List.concat rounds) a in
  let exports := (List.length (downloads (page a)) + List.length (tasks (page a)))%nat in
  alive a -> Forall round rounds -> (rank a <= List.length rounds)%nat ->
  at_rest a' /\
  (List.length (downloads (page a')) <= exports)%nat /\
  (forallb faultless (List.concat rounds) = true ->
   List.length (downloads (page a')) = exports).
Proof.
  intros a' exports Ha Hr Hn.
  assert (Hrest : at_rest a'); [|split; [exact Hrest|]].
  - subst a'. revert a exports Ha Hn. induction Hr as [|es rounds He _ IH]; intros a _ Ha Hn.
    + change (at_rest a). apply rank_zero; [exact Ha|]. change (rank a <= 0)%nat in Hn. lia.
    + cbn [List.concat]. rewrite appRun_app.
      destruct (rank_run es Ha (proj1 He)) as [Ha' _].
      change (rank a <= S (List.length rounds))%nat in Hn. apply IH; [exact Ha'|].
      destruct (round_progress Ha He) as [Hrest|Hlt]; [|lia].
      apply (rank_zero Ha') in Hrest. lia.
  - destruct (deliveries_run (List.concat rounds) a (rounds_internal Hr)) as [Hle Heq]. fold a' in Hle, Heq.
    unfold deliveries in Hle, Heq. rewrite (proj1 Hrest) in Hle, Heq.
    cbn [List.length] in Hle, Heq. subst exports. split; [lia|].
    intros Hf. specialize (Heq Hf). lia.
Qed.

End Variant.

(** ** Scenarios *)

Section ScenarioLiveness.
#[local] Existing Instance h264Recorder.
Local Open Scope R_scope.

(** The page of scenario A while an export to video waits for the timer of
    its first frame, an export to GIF for the encoder, and a load of the
    three images of [filesA] for the decoder of the second. *)
Definition appW : App R :=
  {| page := {| browser := browserA;
                tasks := [VideoWaiting 0 (Fin 100) false [];
                          GifRendering {| gif_width := 1000; gif_height := 1000;
                                          gif_frames := [] |} false];
                downloads := [] |};
     loads := [{| load_files := chosen filesA; load_turn := 1 |}] |}.

(** The timer, an animation frame, then the decoder and the detector. *)
Definition roundW : list (AppEvent R) :=
  [OnPage (Resume 0); OnPage (Browse (Tick (Fin 16))); LoadStep 0].

Lemma roundW_round : round roundW.
Proof. split; [reflexivity|]. cbn. auto. Qed.

Lemma fair_schedule_ends_witness :
  let a' := appRun (List.concat (repeat roundW 8)) appW in
  let exports := (List.length (downloads (page appW)) + List.length (tasks (page appW)))%nat in
  at_rest a' /\
  (List.length (downloads (page a')) <= exports)%nat /\
  (forallb faultless (List.concat (repeat roundW 8)) = true ->
   List.length (downloads (page a')) = exports).
Proof.
  apply (fair_schedule_ends (M := StdMath) (rounds := repeat roundW 8) (a := appW)).
  - repeat constructor.
  - repeat (apply Forall_cons; [exact roundW_round|]). apply Forall_nil.
  - vm_compute. lia.
Defined.

(** The export to video of [appW] alone, at its last frame: the recorder
    cannot be stopped, the export is over and no file is offered. *)
Example recorder_fails_no_file :
  let a := {| page := {| browser := browserA;
                         tasks := [VideoWaiting 1 (Fin 100) false []];
                         downloads := [] |};
              loads := [] |} in
  let a' := appStep (M := StdMath) (OnPage (StopFailed 0)) a in
  at_rest a' /\ downloads (page a') = [] /\ rank a = 2%nat.
Proof. repeat split. Qed.

End ScenarioLiveness.
