(* ===== verification/Sequencer.v ===== *)
(** * Sequencer: the playback contract, and the player as its refinement

    The specification describes the player as a sequencer: a frame index,
    a rate in frames per second, a flag, and the time of the last frame
    shown; a tick shows the current frame and moves to the next, the first
    after the last, when a whole interval has gone by.  [Sequencer] is that
    state, [tick], [start], [stop], [setFps] and [setFrame] are its
    operations, and a [Command] is one of them as the page can ask for it.

    The page has the sequencer in pieces: the index, the rate and the flag
    in [state], the time of the last frame in the closure of [loop] that
    waits in the browser.  [plays] relates the two, and the theorems say
    that the relation is a simulation: [startPlayback] is [start], the
    pause of the exporters is [stop], the listener of the speed slider is
    [setFps] and an animation frame is [tick], as long as no animation
    frame comes exactly one interval after the last frame shown and no
    player is started or stopped between [startPlayback] and the next
    animation frame.  On that instant the two part: the contract shows the
    frame, [loop] waits. *)

From Stdlib Require Import ZArith Reals Lra Lia Bool List String.
From S2P Require Import Prelude.
From S2P Require Import Carrier.
From S2P Require Import JsNumber.
From S2P Require Import MathLib.
From S2P Require Import Canvas.
From S2P Require Import AppState.
From S2P Require Import Geometry.
From S2P Require Import Render.
From S2P Require Import AutoFit.
From S2P Require Import Playback.
From S2P Require Import Controls.
From S2P Require Import Contract.
From S2P Require Import Export.
Import ListNotations.

Set Implicit Arguments.

(** ** The contract *)

Record Sequencer : Type := {
  seqIndex : nat;
  seqCount : nat;
  seqFps : positive;
  seqRunning : bool;
  seqLast : R
}.

Inductive Command : Type :=
| DoStart
| DoStop
| DoSetFps (n : positive)
| DoTick (now : R).

Section Operations.
Local Open Scope R_scope.
Implicit Types s : Sequencer.

Definition rate s : R := IZR (Z.pos (seqFps s)).

(** [1000 / fps] milliseconds. *)
Definition interval s : R := 1000 / rate s.

(** The sequence starts at its first frame, the clock at 0. *)
Definition start s : Sequencer :=
  {| seqIndex := 0; seqCount := seqCount s; seqFps := seqFps s;
     seqRunning := true; seqLast := 0 |}.

Definition stop s : Sequencer :=
  {| seqIndex := seqIndex s; seqCount := seqCount s; seqFps := seqFps s;
     seqRunning := false; seqLast := seqLast s |}.

Definition setFps (n : positive) s : Sequencer :=
  {| seqIndex := seqIndex s; seqCount := seqCount s; seqFps := n;
     seqRunning := seqRunning s; seqLast := seqLast s |}.

(** An index outside the frames is taken to the last frame. *)
Definition setFrame (index : nat) s : Sequencer :=
  {| seqIndex := Nat.min index (seqCount s - 1); seqCount := seqCount s;
     seqFps := seqFps s; seqRunning := seqRunning s; seqLast := seqLast s |}.

(** The elapsed time since the last frame shown is at least the interval. *)
Definition elapsed (now : R) s : bool := negb (Rltb (now - seqLast s) (interval s)).

(** The frame a tick shows, if it shows one. *)
Definition frameShown (now : R) s : option nat :=
  if seqRunning s && elapsed now s then Some (seqIndex s) else None.

Definition tick (now : R) s : Sequencer :=
  match frameShown now s with
  | Some index =>
      {| seqIndex := S index mod seqCount s; seqCount := seqCount s;
         seqFps := seqFps s; seqRunning := seqRunning s; seqLast := now |}
  | None => s
  end.

Definition exec (c : Command) s : Sequencer :=
  match c with
  | DoStart => start s
  | DoStop => stop s
  | DoSetFps n => setFps n s
  | DoTick now => tick now s
  end.

Definition execAll (cs : list Command) s : Sequencer := fold_left (fun s c => exec c s) cs s.

(** No tick comes exactly one interval after the last frame shown, and a
    tick comes between a start and the next start or stop.  The flag says
    whether the sequence was started since the last tick. *)
Fixpoint regular (afterStart : bool) (cs : list Command) s : Prop :=
  match cs with
  | [] => True
  | c :: cs =>
      match c with
      | DoTick now => (seqRunning s = true -> now - seqLast s <> interval s) /\
                      regular false cs (exec c s)
      | DoStart => afterStart = false /\ regular true cs (exec c s)
      | DoStop => afterStart = false /\ regular false cs (exec c s)
      | DoSetFps _ => regular afterStart cs (exec c s)
      end
  end.

Lemma rate_pos s : 0 < rate s.
Proof. apply IZR_lt. lia. Qed.

Lemma interval_pos s : 0 < interval s.
Proof. apply Rdiv_lt_0_compat; [lra | apply rate_pos]. Qed.

(** ** The contract alone *)

(** The index of a sequencer with frames is the index of a frame, and no
    operation takes it outside. *)
Definition inRange s : Prop := (seqIndex s < seqCount s)%nat.

Lemma exec_inRange c s : inRange s -> inRange (exec c s).
Proof.
  unfold inRange. destruct c as [| |n|now]; cbn [exec start stop setFps seqIndex seqCount];
    try lia.
  unfold tick. destruct (frameShown now s); cbn [seqIndex seqCount]; [|lia].
  intros H. apply Nat.mod_upper_bound. lia.
Qed.

Lemma setFrame_inRange index s : (0 < seqCount s)%nat -> inRange (setFrame index s).
Proof. unfold inRange. cbn. lia. Qed.

(** A tick shows at most the current frame, and moves by one when it does:
    no frame is skipped and none is shown twice by one tick. *)
Lemma tick_next now s :
  match frameShown now s with
  | Some index => index = seqIndex s /\
                  seqIndex (tick now s) = S (seqIndex s) mod seqCount s /\
                  seqLast (tick now s) = now
  | None => tick now s = s
  end.
Proof.
  unfold tick. destruct (frameShown now s) as [index|] eqn:E; [|reflexivity].
  unfold frameShown in E. destruct (_ && _); [|discriminate]. injection E as <-. now cbn.
Qed.

(** A tick leaves the frames, the rate and the flag as they are. *)
Lemma tick_static now s :
  seqRunning (tick now s) = seqRunning s /\ seqCount (tick now s) = seqCount s /\
  rate (tick now s) = rate s.
Proof. unfold tick. now destruct (frameShown now s). Qed.

Lemma tick_due now s :
  seqRunning s = true -> interval s <= now - seqLast s ->
  frameShown now s = Some (seqIndex s) /\
  tick now s = {| seqIndex := S (seqIndex s) mod seqCount s; seqCount := seqCount s;
                  seqFps := seqFps s; seqRunning := true; seqLast := now |}.
Proof.
  intros Hr Hd. unfold tick, frameShown, elapsed. rewrite Hr, Rltb_false by assumption.
  now cbn.
Qed.

Lemma tick_early now s : now - seqLast s < interval s -> frameShown now s = None /\ tick now s = s.
Proof.
  intros Hd. unfold tick, frameShown, elapsed. rewrite Rltb_true by assumption.
  now rewrite andb_false_r.
Qed.

(** A frame is shown again only after the interval: after a frame shown at
    [now] no tick before [now + interval] shows a frame. *)
Lemma tick_waits now now' s :
  frameShown now s <> None -> now' < now + interval s -> frameShown now' (tick now s) = None.
Proof.
  intros Hs Hlt. pose proof (tick_next now s) as H.
  unfold tick in *. destruct (frameShown now s) as [index|]; [clear Hs|contradiction].
  unfold frameShown, elapsed, interval, rate in *. cbn [seqRunning seqLast seqFps].
  rewrite Rltb_true by lra. cbn [negb]. now rewrite andb_false_r.
Qed.

End Operations.

(** ** The player as a sequencer *)

Section Refinement.
Context {M : MathOps R}.
Local Open Scope R_scope.
Implicit Types b : Browser R.
Implicit Types s : Sequencer.

(** What the page does for a command. *)
Definition perform (c : Command) : act (Browser R) :=
  match c with
  | DoStart => startPlayback
  | DoStop => fun b => snd (pausePlayback b)
  | DoSetFps n => on_world (onSpeedInput (Fin (IZR (Z.pos n))))
  | DoTick now => animationFrame (Fin now)
  end.

Definition performAll (cs : list Command) : act (Browser R) := forEach cs perform.

(** The page holds the sequencer: the index, the rate and the flag in
    [state], the time of the last frame in the one callback that waits
    while the player runs. *)
Definition plays b s : Prop :=
  let st := state (world b) in
  fresh b /\ inRange s /\
  isPlaying st = seqRunning s /\
  currentFrame st = ofNat (seqIndex s) /\
  List.length (images st) = seqCount s /\
  fps st = Fin (rate s) /\
  if seqRunning s
  then exists cb, callbacks b = [cb] /\ lastTime cb = Fin (seqLast s)
  else quiet b \/ tracked b.

Lemma plays_intro b s :
  fresh b -> inRange s ->
  isPlaying (state (world b)) = seqRunning s ->
  currentFrame (state (world b)) = ofNat (seqIndex s) ->
  List.length (images (state (world b))) = seqCount s ->
  fps (state (world b)) = Fin (rate s) ->
  (if seqRunning s
   then exists cb, callbacks b = [cb] /\ lastTime cb = Fin (seqLast s)
   else quiet b \/ tracked b) ->
  plays b s.
Proof. unfold plays. tauto. Qed.

(** The timeline is in the hands of [state.animationId], as it is after an
    animation frame; after [startPlayback] it need not be. *)
Definition held (afterStart : bool) b : Prop := afterStart = false -> settled b.

Lemma plays_loose b s : plays b s -> fresh b /\ (quiet b \/ single b).
Proof.
  intros (Hf & _ & _ & _ & _ & _ & Hcb). split; [assumption|].
  destruct (seqRunning s).
  - destruct Hcb as (cb & Hcb & _). right. now exists cb.
  - destruct Hcb as [Hq|(cb & Hcb & _)]; [now left | right; now exists cb].
Qed.

(** Off the instant at which a whole interval has gone by and no more,
    [timestamp - lastTime > interval] is the test of the contract. *)
Lemma due_elapsed b s now :
  plays b s -> now - seqLast s <> interval s ->
  due (Fin (seqLast s)) (Fin now) (state (world b)) = elapsed now s.
Proof.
  intros (_ & _ & _ & _ & _ & Hf & _) Hne. pose proof (rate_pos s) as Hr.
  rewrite due_fin with (f := rate s) by (assumption || lra).
  unfold elapsed. fold (interval s).
  destruct (Rltb_spec (now - seqLast s) (interval s));
    [apply Rltb_false | apply Rltb_true]; cbn [negb]; lra.
Qed.

(** [startPlayback] is [start]. *)
Lemma startPlayback_start b s :
  plays b s -> settled b -> plays (startPlayback b) (start s).
Proof.
  intros (_ & Hr & _ & _ & Hn & Hf & _) Hs.
  destruct (startPlayback_started Hs) as ([Hfr _] & Hp & Hk & Hi).
  pose proof (cancelPending_settled Hs) as Hq. unfold quiet in Hq.
  apply plays_intro; unfold inRange in *; cbn [start seqIndex seqCount seqRunning seqLast];
    rewrite ?Hi; try assumption; try lia.
  - rewrite startPlayback_spec. exact Hf.
  - rewrite startPlayback_spec, Hq. cbn [callbacks app]. eexists. split; reflexivity.
Qed.

(** The pause of the exporters is [stop]. *)
Lemma pausePlayback_stop b s :
  plays b s -> settled b -> plays (snd (pausePlayback b)) (stop s).
Proof.
  intros (Hfr & Hr & _ & Hk & Hn & Hf & _) Hs. rewrite pausePlayback_spec. cbn [snd].
  pose proof (cancelPending_settled Hs) as Hq.
  apply plays_intro; cbn [stop seqRunning on_world world]; rewrite ?cancelPending_world;
    try assumption; try reflexivity.
  - apply fresh_on_world; [now intros w | now apply fresh_cancelPending].
  - now left.
Qed.

(** The listener of the speed slider is [setFps]. *)
Lemma onSpeedInput_setFps b s n :
  plays b s ->
  plays (on_world (onSpeedInput (Fin (IZR (Z.pos n)))) b) (setFps n s).
Proof.
  intros (Hfr & Hr & Hp & Hk & Hn & _ & Hcb).
  apply plays_intro; cbn [setFps seqRunning]; try assumption.
  cbn. apply parseInt_int.
Qed.

Section Tick.
Variables (b : Browser R) (s : Sequencer) (now : R).
Hypothesis Hplays : plays b s.
Hypothesis Hoff : seqRunning s = true -> now - seqLast s <> interval s.

(** An animation frame while the player is stopped. *)
Lemma animationFrame_idle :
  seqRunning s = false ->
  frameShown now s = None /\ world (animationFrame (Fin now) b) = world b /\
  quiet (animationFrame (Fin now) b).
Proof.
  intros Hr. destruct Hplays as (_ & _ & Hp & _). rewrite Hr in Hp.
  rewrite animationFrame_stopped by assumption. unfold frameShown. now rewrite Hr.
Qed.

(** An animation frame while the player runs. *)
Lemma animationFrame_running :
  seqRunning s = true ->
  let st := state (world b) in
  let b' := animationFrame (Fin now) b in
  exists cb', callbacks b' = [cb'] /\
    lastTime cb' = Fin (seqLast (tick now s)) /\
    state (world b') =
    set_animationId (Some (nextHandle b))
      (match frameShown now s with Some _ => advance st | None => st end).
Proof.
  intros Hr st b'. subst st b'. pose proof (due_elapsed Hplays (Hoff Hr)) as Hd.
  destruct Hplays as (_ & _ & Hp & _ & _ & _ & Hcb). rewrite Hr in Hp, Hcb.
  destruct Hcb as (cb & Hcb & Hl). rewrite (animationFrame_single _ b Hcb Hp), Hl, Hd.
  unfold tick, frameShown. rewrite Hr. cbn [andb].
  destruct (elapsed now s); eexists; cbn [callbacks world state lastTime seqLast]; auto.
Qed.

(** What the page holds after an animation frame while the player runs. *)
Lemma animationFrame_running_plays :
  seqRunning s = true -> plays (animationFrame (Fin now) b) (tick now s).
Proof.
  intros Hrun. destruct (animationFrame_running Hrun) as (cb' & Hcb' & Hl' & Hst).
  cbn zeta in Hst. destruct (plays_loose Hplays) as [Hfr Hcase].
  destruct (animationFrame_settled (Fin now) Hfr Hcase) as [Hfr' _].
  destruct Hplays as (_ & Hr & Hp & Hk & Hn & Hf & _).
  destruct (advance_frame (state (world b))) as (Hi & Hp' & Hf' & _).
  destruct (tick_static now s) as (Er & Ec & Ef). pose proof (tick_next now s) as Ht.
  rewrite Hrun in Hp. apply plays_intro; rewrite ?Hst, ?Er, ?Ec, ?Ef, ?Hrun;
    cbn [set_animationId isPlaying currentFrame images fps]; eauto.
  - now apply (exec_inRange (DoTick now)).
  - now destruct (frameShown now s); rewrite ?Hp'.
  - destruct (frameShown now s); [|now rewrite Ht].
    destruct Ht as (_ & -> & _). rewrite <- Hn. apply advance_next; [assumption|].
    unfold inRange in Hr. now rewrite Hn.
  - now destruct (frameShown now s); rewrite ?Hi.
  - now destruct (frameShown now s); rewrite ?Hf'.
Qed.

Lemma animationFrame_running_canvas :
  seqRunning s = true ->
  canvas (state (world (animationFrame (Fin now) b))) =
  match frameShown now s with
  | Some index => canvas (renderFrame (ofNat index) (state (world b)))
  | None => canvas (state (world b))
  end.
Proof.
  intros Hrun. destruct (animationFrame_running Hrun) as (cb' & _ & _ & Hst).
  cbn zeta in Hst. rewrite Hst. cbn [set_animationId canvas].
  destruct Hplays as (_ & Hr & _ & Hk & Hn & _). pose proof (tick_next now s) as Ht.
  destruct (frameShown now s) as [index|]; [|reflexivity]. destruct Ht as (-> & _).
  apply advance_next; [assumption|]. unfold inRange in Hr. now rewrite Hn.
Qed.

(** An animation frame is [tick]; it shows the frame the tick shows, and
    leaves the timeline in the hands of [state.animationId]. *)
Lemma animationFrame_tick :
  let st := state (world b) in
  let b' := animationFrame (Fin now) b in
  plays b' (tick now s) /\ settled b' /\
  canvas (state (world b')) =
  match frameShown now s with
  | Some index => canvas (renderFrame (ofNat index) st)
  | None => canvas st
  end.
Proof.
  intros st b'. subst st b'. destruct (plays_loose Hplays) as [Hfr Hcase].
  pose proof (animationFrame_settled (Fin now) Hfr Hcase) as Hs.
  destruct (sumbool_of_bool (seqRunning s)) as [Hrun|Hrun].
  - auto using animationFrame_running_plays, animationFrame_running_canvas.
  - destruct (animationFrame_idle Hrun) as (Hsh & Hw & Hq).
    pose proof (tick_next now s) as Ht. rewrite Hsh in *. rewrite Ht, Hw.
    split; [|now split]. destruct Hplays as (_ & Hr & Hp & Hk & Hn & Hf & _).
    rewrite Hrun in Hp.
    apply plays_intro; rewrite ?Hw, ?Hrun; try assumption; [apply Hs | now left].
Qed.

End Tick.

(** ** Sequences of commands *)

(** One command: the page follows the contract. *)
Lemma perform_exec c b s (afterStart : bool) :
  plays b s -> held afterStart b -> regular afterStart [c] s ->
  let afterStart' :=
    match c with DoTick _ | DoStop => false | DoStart => true | _ => afterStart end in
  plays (perform c b) (exec c s) /\ held afterStart' (perform c b).
Proof.
  intros Hp Hh Hreg. destruct c as [| |n|now]; cbn [perform exec regular] in *.
  - destruct Hreg as [-> _]. split; [apply startPlayback_start; auto|discriminate].
  - destruct Hreg as [-> _]. split; [apply pausePlayback_stop; auto|].
    intros _. rewrite pausePlayback_spec. cbn [snd].
    apply on_world_settled; [now intros w|]. specialize (Hh eq_refl).
    split; [apply fresh_cancelPending, Hh | left; now apply cancelPending_settled].
  - split; [now apply onSpeedInput_setFps|].
    intros E. apply on_world_settled; [now intros w | now apply Hh].
  - destruct Hreg as [Hoff _]. destruct (animationFrame_tick Hp Hoff) as (H1 & H2 & _).
    split; [exact H1 | now intros _].
Qed.

Lemma regular_head afterStart c cs s :
  regular afterStart (c :: cs) s ->
  regular afterStart [c] s /\
  regular (match c with DoTick _ | DoStop => false | DoStart => true | _ => afterStart end)
    cs (exec c s).
Proof. destruct c; cbn [regular]; tauto. Qed.

Lemma performAll_execAll cs : forall b s (afterStart : bool),
  plays b s -> held afterStart b -> regular afterStart cs s ->
  plays (performAll cs b) (execAll cs s).
Proof.
  induction cs as [|c cs IH]; intros b s a Hp Hh Hreg; [exact Hp|].
  apply regular_head in Hreg as [Hc Hcs].
  destruct (perform_exec c Hp Hh Hc) as [Hp' Hh'].
  unfold performAll. rewrite forEach_cons. cbn [execAll fold_left].
  exact (IH _ _ _ Hp' Hh' Hcs).
Qed.

(** C15: the player implements the sequencer.  From a page that holds a
    sequencer, with its timeline in the hands of [state.animationId],
    every sequence of starts, pauses, inputs of the speed slider and
    animation frames takes the page where the contract takes the
    sequencer: the same flag, the same rate, the same current frame and the
    same time of the last frame shown; provided no animation frame comes
    exactly one interval after the last frame shown, and an animation
    frame comes between [startPlayback] and the next start or pause. *)
Theorem player_refines_sequencer cs b s :
  plays b s -> settled b -> regular false cs s ->
  plays (performAll cs b) (execAll cs s).
Proof. intros Hp Hs. apply performAll_execAll; [exact Hp | now intros _]. Qed.

(** C40: on the instant at which exactly one interval has gone by since
    the last frame shown the contract shows the frame and [loop] does not:
    the animation frame paints nothing, the index stays, and the closure
    keeps the time of the last frame. *)
Theorem animationFrame_on_the_beat b s now :
  plays b s -> seqRunning s = true -> now - seqLast s = interval s ->
  let b' := animationFrame (Fin now) b in
  frameShown now s = Some (seqIndex s) /\
  currentFrame (state (world b')) = ofNat (seqIndex s) /\
  canvas (state (world b')) = canvas (state (world b)) /\
  map (@lastTime R) (callbacks b') = [Fin (seqLast s)].
Proof.
  intros (_ & _ & Hp & Hk & _ & Hf & Hcb) Hr Hbeat b'. subst b'.
  rewrite Hr in Hp, Hcb. destruct Hcb as (cb & Hcb & Hl).
  pose proof (rate_pos s) as Hrate.
  rewrite (animationFrame_single _ b Hcb Hp), Hl.
  rewrite due_fin with (f := rate s) by (assumption || lra). fold (interval s).
  rewrite Rltb_false by lra. split; [apply tick_due; [assumption | lra]|].
  cbn [world state callbacks set_animationId currentFrame canvas map lastTime]. auto.
Qed.

End Refinement.

(** ** The sequencer drives the transform builder *)

Section Shows.
Context {M : MathOps R} {L : MathLaws M}.
Local Open Scope R_scope.
Variables (b : Browser R) (s : Sequencer) (now : R) (index : nat) (item : Item R) (z : R).
Hypothesis Hplays : plays b s.
Hypothesis Hoff : now - seqLast s <> interval s.
Hypothesis Hshown : frameShown now s = Some index.
Hypothesis Hitem : nth_error (images (state (world b))) index = Some item.
Hypothesis Husable : usable (original item) = true.
Hypothesis Hmeasured : measured_item item.
Hypothesis Hapart : apart_item item.
Hypothesis Hzoom : zoom (state (world b)) = Fin z.
Hypothesis Hctm : ctm (ctx (canvas (state (world b)))) = mat_id.

(** C8: the two contracts together.  When a tick of the sequencer shows
    a frame, the animation frame of the page leaves the image of that
    frame on top of the canvas, painted point by point where the frame
    transform of the specification puts it in the viewport of the canvas
    and the zoom. *)
Theorem tick_paints_frameTransform :
  let st := state (world b) in
  exists p, top_paint (state (world (animationFrame (Fin now) b))) = Some p /\
    forall q, paint_at p q =
      mat_apply (frameTransform 0 (viewportOf (canvas st) z)
                   (shownRecord (alignEyes st) item)) q.
Proof.
  intros st. subst st.
  destruct (animationFrame_tick Hplays (fun _ => Hoff)) as (_ & _ & Hc).
  rewrite Hshown in Hc. unfold top_paint at 1. rewrite Hc.
  fold (top_paint (renderFrame (ofNat index) (state (world b)))).
  now apply renderFrame_shown.
Qed.

End Shows.

(** ** Scenario D: the rate changes while the player runs *)

Section ScenarioSequencer.
Local Open Scope R_scope.

(** The sequencer of scenario A before the player starts. *)
Definition sequencerA : Sequencer :=
  {| seqIndex := 0; seqCount := 2; seqFps := 10; seqRunning := false; seqLast := 0 |}.

(** The player starts at 10 frames per second, shows a frame, is slowed
    down to 2, shows the next frame when half a second has gone by, and is
    paused. *)
Definition commandsD : list Command :=
  [DoStart; DoTick 200; DoSetFps 2; DoTick 400; DoTick 800; DoStop].

Lemma browserA_plays : plays browserA sequencerA.
Proof.
  apply plays_intro; try reflexivity; [apply browserA_settled | unfold inRange; cbn; lia|].
  now left.
Qed.

Ltac clock :=
  unfold interval, rate, sequencerA, setFps, start; cbn [seqFps seqLast]; lra.

(** The sequencer after the first frame, and after the second. *)
Definition sequencerD (index : nat) (n : positive) (last : R) : Sequencer :=
  {| seqIndex := index; seqCount := 2; seqFps := n; seqRunning := true; seqLast := last |}.

Lemma commandsD_ticks :
  tick 200 (start sequencerA) = sequencerD 1 10 200 /\
  tick 400 (setFps 2 (sequencerD 1 10 200)) = sequencerD 1 2 200 /\
  tick 800 (sequencerD 1 2 200) = sequencerD 0 2 800.
Proof.
  split; [|split].
  - apply (tick_due (now := 200) (s := start sequencerA)); [reflexivity | clock].
  - apply (tick_early (now := 400) (s := sequencerD 1 2 200)). unfold sequencerD. clock.
  - apply (tick_due (now := 800) (s := sequencerD 1 2 200)); [reflexivity|].
    unfold sequencerD. clock.
Qed.

(** What the contract makes of the commands: the frames 0 and 1 are shown,
    at 200 and at 800; the tick at 400 comes too early for the new rate. *)
Lemma commandsD_exec :
  regular false commandsD sequencerA /\
  execAll commandsD sequencerA =
  {| seqIndex := 0; seqCount := 2; seqFps := 2; seqRunning := false; seqLast := 800 |}.
Proof.
  destruct commandsD_ticks as (E1 & E2 & E3).
  unfold commandsD, execAll. cbn [regular fold_left exec]. rewrite E1, E2, E3.
  repeat split; intros _; unfold sequencerD; clock.
Qed.

Lemma player_refines_sequencer_witness :
  plays (performAll (M := StdMath) commandsD browserA) (execAll commandsD sequencerA).
Proof.
  apply (player_refines_sequencer (M := StdMath) commandsD);
    [exact browserA_plays | exact browserA_settled | exact (proj1 commandsD_exec)].
Defined.

(** The player of scenario A, started, at the instant 100 ms after. *)
Lemma animationFrame_on_the_beat_witness :
  let b' := animationFrame (M := StdMath) (Fin 100) (startPlayback browserA) in
  frameShown 100 (start sequencerA) = Some 0%nat /\
  currentFrame (state (world b')) = ofNat 0 /\
  canvas (state (world b')) = canvas (state (world (startPlayback browserA))) /\
  map (@lastTime R) (callbacks b') = [Fin 0].
Proof.
  apply (animationFrame_on_the_beat (M := StdMath) (b := startPlayback browserA)
           (s := start sequencerA) (now := 100));
    [apply startPlayback_start; [exact browserA_plays | exact browserA_settled]
    | reflexivity | clock].
Defined.

(** The first frame of scenario D. *)
Lemma tick_paints_frameTransform_witness :
  let st := state (world (startPlayback browserA)) in
  exists p, top_paint (state (world (animationFrame (M := StdMath) (Fin 200)
                                       (startPlayback browserA)))) = Some p /\
    forall q, paint_at p q =
      mat_apply (frameTransform 0 (viewportOf (canvas st) (25 / 100))
                   (shownRecord (alignEyes st) (itemA lmA1))) q.
Proof.
  apply (tick_paints_frameTransform (L := StdMathLaws) (b := startPlayback browserA)
           (s := start sequencerA) (now := 200) (index := 0) (item := itemA lmA1)
           (z := 25 / 100));
    [apply startPlayback_start; [exact browserA_plays | exact browserA_settled]
    | clock
    | apply (tick_due (now := 200) (s := start sequencerA)); [reflexivity | clock]
    | reflexivity | reflexivity
    | apply measured_item_flm; reflexivity || discriminate
    | apply apart_item_flm; exact eyesA1
    | reflexivity | reflexivity].
Defined.

End ScenarioSequencer.
