(* ===== verification/Index.v ===== *)
(** * Index: the current frame is a frame

    [state.currentFrame] is read by [renderFrame] as an index into
    [state.images].  The file proves that, from [init] on and whatever
    happens, whenever no call of [handleFiles] waits at an [await] the
    index is the index of a frame, or there is no frame at all.  Nothing is
    asked of the events: every listener and every continuation either
    leaves the frames and the index alone, or moves the index to the next
    frame, or sets it to 0, or empties the list.  While a load waits the
    index can be [NaN] (theorem [load_freezes_player] of Ingest); the end of
    the load sets it to 0. *)

From Stdlib Require Import ZArith Reals Lra Lia Bool List String.
From S2P Require Import Prelude.
From S2P Require Import Carrier.
From S2P Require Import JsNumber.
From S2P Require Import MathLib.
From S2P Require Import Canvas.
From S2P Require Import AppState.
From S2P Require Import Render.
From S2P Require Import AutoFit.
From S2P Require Import Playback.
From S2P Require Import Controls.
From S2P Require Import Export.
From S2P Require Import Ingest.
From S2P Require Import App.
Import ListNotations.

Set Implicit Arguments.

Section Index.
Context {M : MathOps R} {Rec : Recorder}.
Local Open Scope R_scope.
Implicit Types b : Browser R.
Implicit Types p : Page R.
Implicit Types a : App R.

(** The index is the index of a frame, or there is no frame. *)
Definition indexed b : Prop :=
  images (state (world b)) = [] \/ valid_frame (state (world b)).

(** An action of the browser that keeps the index an index. *)
Definition steady (f : act (Browser R)) : Prop := forall b, indexed b -> indexed (f b).

Lemma indexed_same b b' :
  images (state (world b')) = images (state (world b)) ->
  currentFrame (state (world b')) = currentFrame (state (world b)) ->
  indexed b -> indexed b'.
Proof. unfold indexed, valid_frame. now intros -> ->. Qed.

(** The first frame is a frame when there is one. *)
Lemma indexed_first b : currentFrame (state (world b)) = ofNat 0 -> indexed b.
Proof.
  intros H. unfold indexed, valid_frame.
  destruct (images (state (world b))) as [|item items]; [now left | right].
  exists 0%nat. split; [exact H | cbn; lia].
Qed.

Lemma steady_on_world (f : act (World R)) : keeps_frames f -> steady (on_world f).
Proof. intros Hf b. apply indexed_same; apply (Hf (world b)). Qed.

(** ** The player *)

Lemma steady_animationFrame t : steady (animationFrame t).
Proof.
  intros b [He|Hv]; [left | right].
  - now rewrite (proj1 (animationFrame_shell t b)).
  - now apply animationFrame_valid_frame.
Qed.

(** [startPlayback], [resetApp] and the end of [handleFiles] leave an
    index whatever they find. *)
Lemma indexed_startPlayback b : indexed (startPlayback b).
Proof. apply indexed_first. now rewrite startPlayback_spec. Qed.

Lemma indexed_resetApp b : indexed (resetApp b).
Proof. left. now rewrite resetApp_world. Qed.

Lemma indexed_handleFiles_finish b : indexed (handleFiles_finish b).
Proof.
  unfold handleFiles_finish.
  destruct (images _); [apply indexed_resetApp | apply indexed_startPlayback].
Qed.

Lemma keeps_frames_control (c : Control R) : keeps_frames (control c).
Proof. intros w. destruct (control_frame c w) as (Hi & Hc & _). now split. Qed.

Lemma steady_step (e : Event R) :
  match e with Act f => keeps_frames f | _ => True end -> steady (step e).
Proof.
  destruct e as [t| | | |f]; cbn [step]; intros He b H.
  - now apply steady_animationFrame.
  - apply indexed_startPlayback.
  - apply indexed_resetApp.
  - apply indexed_handleFiles_finish.
  - now apply steady_on_world.
Qed.

(** ** The exporters *)

Lemma keeps_frames_renderFrame index : keeps_frames (on_state (renderFrame index)).
Proof. intros w. cbn [on_state state]. split; apply renderFrame_frame. Qed.

Lemma keeps_frames_showLoading text progress : keeps_frames (showLoading text progress).
Proof. intros w. now rewrite (proj1 (showLoading_keeps text progress w)). Qed.

Lemma steady_pausePlayback : steady (fun b => snd (pausePlayback b)).
Proof.
  intros b. rewrite pausePlayback_spec. cbn [snd].
  apply indexed_same; cbn [on_world world]; now rewrite cancelPending_world.
Qed.

Lemma steady_exportDone wp : steady (exportDone wp).
Proof.
  intros b H. unfold exportDone. destruct wp; [apply indexed_startPlayback|].
  now apply (steady_on_world (f := hideLoading)).
Qed.

Lemma steady_videoTurn i wp cs : steady (fun b => fst (videoTurn i wp cs b)).
Proof.
  intros b H. rewrite videoTurn_spec. destruct (_ <? _)%nat; [|exact H].
  cbn [fst]. now apply steady_on_world; [apply keeps_frames_renderFrame|].
Qed.

Definition steady_page (f : act (Page R)) : Prop :=
  forall p, indexed (browser p) -> indexed (browser (f p)).

Lemma steady_exportGif available : steady_page (exportGif available).
Proof.
  intros p H. destruct (images (state (world (browser p)))) as [|item items] eqn:E;
    [unfold exportGif; now rewrite E|].
  destruct available.
  - destruct (exportGif_spec p) as (w & gif & -> & Hs & _ & Hc & _); [now rewrite E|].
    revert H. apply indexed_same; cbn [browser world]; [apply Hs | exact Hc].
  - unfold exportGif. rewrite E. cbn [List.length Nat.eqb].
    rewrite (surjective_pairing (pausePlayback _)). cbn [browser].
    apply steady_exportDone, steady_pausePlayback.
    now apply steady_on_world; [apply keeps_frames_showLoading|].
Qed.

Lemma steady_exportMp4 supported : steady_page (exportMp4 supported).
Proof.
  intros p H. destruct (images (state (world (browser p)))) as [|item items] eqn:E;
    [unfold exportMp4; now rewrite E|].
  unfold exportMp4. rewrite E. cbn [List.length Nat.eqb].
  rewrite (surjective_pairing (pausePlayback _)).
  assert (Hb : indexed (snd (pausePlayback
                 (on_world (showLoading1 "Generating Video...") (browser p))))).
  { apply steady_pausePlayback.
    now apply steady_on_world; [apply keeps_frames_showLoading|]. }
  destruct supported; [|now apply steady_exportDone].
  rewrite (surjective_pairing (videoTurn _ _ _ _)). cbn [browser].
  now apply steady_videoTurn.
Qed.

Lemma steady_resume k : steady_page (resume k).
Proof.
  intros p H. unfold resume.
  destruct (nth_error (tasks p) k) as [[gif wp|i d wp cs|wp cs]|]; cbn [browser];
    try (now apply steady_exportDone); try exact H.
  rewrite (surjective_pairing (videoTurn _ _ _ _)). cbn [browser].
  now apply steady_videoTurn.
Qed.

Lemma steady_stopFailed k : steady_page (stopFailed k).
Proof.
  intros p H. unfold stopFailed.
  destruct (nth_error (tasks p) k) as [[gif wp|i d wp cs|wp cs]|]; try exact H.
  destruct (_ <? _)%nat; [exact H | now apply steady_exportDone].
Qed.

Lemma steady_progressed k x : steady_page (progressed k x).
Proof.
  intros p H. unfold progressed.
  now destruct (nth_error (tasks p) k) as [[gif wp|i d wp cs|wp cs]|].
Qed.

Lemma steady_pageStep (e : PageEvent R) : steady_page (pageStep e).
Proof.
  destruct e as [i|available|supported|k x|k|k|k data]; cbn [pageStep].
  - intros p. cbn [on_browser browser]. apply steady_step.
    destruct i; cbn [event]; try exact I. apply keeps_frames_control.
  - apply steady_exportGif.
  - apply steady_exportMp4.
  - apply steady_progressed.
  - apply steady_resume.
  - apply steady_stopFailed.
  - intros p. now rewrite (proj1 (dataAvailable_shell k data p)).
Qed.

(** ** The document *)

(** When no load waits, the index is an index. *)
Definition rested a : Prop := loads a = [] -> indexed (browser (page a)).

Lemma rested_on_globals (f : act (World R)) a :
  keeps_frames f -> rested a -> rested (on_globals f a).
Proof. intros Hf H E. now apply steady_on_world, H. Qed.

(** A call of [handleFiles] that goes on to its loop waits. *)
Lemma rested_startLoad fileList a : rested a -> rested (startLoad fileList a).
Proof.
  intros H. unfold startLoad. destruct (proceeds _ _); [|exact H].
  intros E. cbn [loads] in E. now destruct (loads a).
Qed.

(** A load that goes on waits again, or ends as [handleFiles] ends. *)
Lemma rested_loadStep k a : rested a -> rested (loadStep k a).
Proof.
  intros H. unfold loadStep. destruct (nth_error (loads a) k) as [l|] eqn:Ek; [|exact H].
  destruct (nth_error (load_files l) (load_turn l)) as [[file o]|]; [|exact H].
  destruct (_ <? _)%nat.
  - intros E. cbn [loads] in E. apply (f_equal (@List.length _)) in E.
    rewrite length_putAt in E by (apply nth_error_Some; congruence).
    apply length_zero_iff_nil in E. rewrite E in Ek. now destruct k.
  - intros _. apply indexed_handleFiles_finish.
Qed.

Lemma rested_appStep (e : AppEvent R) a : rested a -> rested (appStep e a).
Proof.
  intros H.
  destruct e as [| |url| | |fileList|fileList|e|k]; cbn [appStep];
    try (apply rested_on_globals; [|exact H]).
  - intros w. unfold init_loaded, andThen. now cbn.
  - apply keeps_frames_showLoading.
  - now intros w.
  - now intros w.
  - now intros w.
  - apply rested_startLoad. apply rested_on_globals; [now intros w | exact H].
  - now apply rested_startLoad.
  - intros E. apply steady_pageStep. now apply H.
  - now apply rested_loadStep.
Qed.

Lemma rested_appRun es : forall a, rested a -> rested (appRun es a).
Proof.
  induction es as [|e es IH]; intros a H; [exact H|].
  rewrite appRun_cons. now apply IH, rested_appStep.
Qed.

(** C16: the current frame is a frame.  From [init] on, whatever happens
    and in whatever order, whenever no call of [handleFiles] waits for a
    file and [state.images] holds frames, [state.currentFrame] is the
    index of one of them: [renderFrame(state.currentFrame)] finds its
    frame. *)
Theorem app_valid_frame cv markup (es : list (AppEvent R)) :
  let a := appRun es (init cv markup) in
  let st := state (world (browser (page a))) in
  loads a = [] -> images st <> [] -> valid_frame st.
Proof.
  intros a st Hl Hi. subst a st.
  destruct (rested_appRun es (a := init cv markup)) as [He|Hv];
    [intros _; now left | exact Hl | contradiction | exact Hv].
Qed.

End Index.

(** ** A visit *)

Section ScenarioIndex.
#[local] Existing Instance h264Recorder.
Local Open Scope R_scope.

(** The detector is loaded, the files are chosen and processed while an
    animation frame comes, and the player has started. *)
Definition visitA : list (AppEvent R) :=
  [ModelsLoaded; Change filesA; LoadStep 0; OnPage (Browse (Tick (Fin 100)));
   LoadStep 0; LoadStep 0].

Lemma app_valid_frame_witness :
  valid_frame (state (world (browser (page (appRun (M := StdMath) visitA
                                              (init canvasA markupA)))))).
Proof.
  apply (app_valid_frame (M := StdMath) canvasA markupA visitA).
  - vm_compute. reflexivity.
  - intros E. apply (f_equal (@List.length _)) in E. vm_compute in E. discriminate E.
Defined.

End ScenarioIndex.
