(* ===== verification/Screen.v ===== *)
(** * Screen: what the player shows on the pages the document reaches

    The theorems on [renderFrame] ask for a frame at the index, an image
    with a size, clusters with points, a zoom that is a number and a
    context with the identity for matrix; the theorems on [loop] ask for one
    callback.  This file shows that the document keeps all of it by itself:
    from [init] on, the invariants of Typing (the kinds of the values), of
    Index (the current frame is a frame) and of Timeline (one callback)
    hold together, so that on every page the document reaches, an
    animation frame that is due paints the current frame where the frame
    transform of the specification (Contract) puts it, and moves to the
    next frame.  What is asked of the environment: the sliders and the
    libraries deliver values of their kind, an animation frame comes
    between two starts of the player, and the detector does not give the
    same centre to both eyes. *)

From Stdlib Require Import ZArith Reals Lra Lia Bool List String.
From S2P Require Import Prelude.
From S2P Require Import Carrier.
From S2P Require Import JsNumber.
From S2P Require Import MathLib.
From S2P Require Import Canvas.
From S2P Require Import Geometry.
From S2P Require Import AppState.
From S2P Require Import Render.
From S2P Require Import AutoFit.
From S2P Require Import Playback.
From S2P Require Import Controls.
From S2P Require Import Contract.
From S2P Require Import Export.
From S2P Require Import Ingest.
From S2P Require Import App.
From S2P Require Import Timeline.
From S2P Require Import Typing.
From S2P Require Import Index.
Import ListNotations.

Set Implicit Arguments.

Section Screen.
Context {M : MathOps R} {L : MathLaws M} {Rec : Recorder}.
Local Open Scope R_scope.
Implicit Types b : Browser R.
Implicit Types a : App R.

(** The paint operation [p] puts the image of [item] where the frame
    transform of the specification puts it, for the canvas and the
    settings of [st]. *)
Definition as_specified (st : State R) (item : Item R) (p : Paint R) : Prop :=
  exists z, zoom st = Fin z /\
    forall q, paint_at p q =
      mat_apply (frameTransform 0 (viewportOf (canvas st) z)
                   (shownRecord (alignEyes st) item)) q.

(** The three invariants of the document together. *)
Record watched a : Prop := {
  watched_tidy : tidy a;
  watched_rested : rested a;
  watched_loose : loose (browser (page a))
}.

Lemma init_rested cv markup : rested (init cv markup).
Proof. intros _. now left. Qed.

Lemma appRun_watched cv markup (es : list (AppEvent R)) :
  sound_markup cv markup -> Forall sound es ->
  keeps_pace false (init cv markup) es = true ->
  watched (appRun es (init cv markup)).
Proof.
  intros Hm Hes Hp. split.
  - now apply appRun_tidy, tidy_init.
  - apply rested_appRun, init_rested.
  - apply appRun_timeline with (started := false); [apply init_settled | exact Hp].
Qed.

(** A callback that waits on a loose timeline is the only one. *)
Lemma loose_only b cb : loose b -> In cb (callbacks b) -> callbacks b = [cb].
Proof.
  intros [_ [Hq|[cb' Hcb]]] Hin; [unfold quiet in Hq; now rewrite Hq in Hin|].
  rewrite Hcb in Hin |- *. now destruct Hin as [->|[]].
Qed.

(** ** One animation frame on a well-formed page *)

Section Frame.
Variables (b : Browser R) (cb : Callback R) (t : num R).
Hypothesis Hwf : wellformed (world b).
Hypothesis Hvalid : valid_frame (state (world b)).
Hypothesis Hloose : loose b.
Hypothesis Hplaying : isPlaying (state (world b)) = true.
Hypothesis Hcb : In cb (callbacks b).

(** The frame at the index, as the decoder and the detector delivered it. *)
Lemma current_item :
  exists k item, currentFrame (state (world b)) = ofNat k /\
    nth_error (images (state (world b))) k = Some item /\ decoded item.
Proof.
  destruct Hvalid as (k & Hk & Hlt).
  destruct (nth_error (images (state (world b))) k) as [item|] eqn:E;
    [|apply nth_error_None in E; lia].
  exists k, item. repeat split; try assumption;
    apply (proj1 (Forall_forall _ _) (wf_images Hwf)); eauto using nth_error_In.
Qed.

(** An animation frame that is due leaves on the canvas what [renderFrame]
    paints for the current frame, and the next frame becomes the current
    one. *)
Lemma animationFrame_due :
  due (lastTime cb) t (state (world b)) = true ->
  let st := state (world b) in
  let st' := state (world (animationFrame t b)) in
  exists k item,
    currentFrame st = ofNat k /\ nth_error (images st) k = Some item /\
    decoded item /\ canvas st' = canvas (renderFrame (ofNat k) st) /\
    currentFrame st' = ofNat (S k mod List.length (images st)).
Proof.
  intros Hdue st st'. subst st st'.
  destruct current_item as (k & item & Hk & Hitem & Hd).
  assert (Hlt : (k < List.length (images (state (world b))))%nat)
    by (apply nth_error_Some; congruence).
  rewrite (animationFrame_single t b (loose_only cb Hloose Hcb) Hplaying), Hdue.
  destruct (advance_next _ Hk Hlt) as [Hn Hc]. now exists k, item.
Qed.

(** An animation frame that is due shows the current frame as the
    specification asks, and the next frame becomes the current one. *)
Lemma animationFrame_as_specified :
  due (lastTime cb) t (state (world b)) = true ->
  Forall apart_item (images (state (world b))) ->
  let st := state (world b) in
  let st' := state (world (animationFrame t b)) in
  exists k item p,
    currentFrame st = ofNat k /\ nth_error (images st) k = Some item /\
    top_paint st' = Some p /\ as_specified st item p /\
    currentFrame st' = ofNat (S k mod List.length (images st)).
Proof.
  intros Hdue Hapart st st'. subst st st'.
  destruct (animationFrame_due Hdue) as (k & item & Hk & Hitem & [Hu Hd] & Hc & Hn).
  destruct (wf_zoom Hwf) as (n & Hz & _).
  assert (Hm : measured_item item)
    by (unfold measured_item; now destruct (detections item)).
  assert (Ha : apart_item item)
    by (apply (proj1 (Forall_forall _ _) Hapart); eauto using nth_error_In).
  destruct (renderFrame_shown _ k Hitem Hu Hm Hz (proj1 (wf_plain Hwf)) Ha)
    as (p & Hp & Hat).
  exists k, item, p. repeat split; try assumption.
  - unfold top_paint in *. now rewrite Hc.
  - now exists (IZR n / 100).
Qed.

(** An animation frame that is not due paints nothing. *)
Lemma animationFrame_waits :
  due (lastTime cb) t (state (world b)) = false ->
  canvas (state (world (animationFrame t b))) = canvas (state (world b)) /\
  currentFrame (state (world (animationFrame t b))) = currentFrame (state (world b)).
Proof.
  intros Hdue.
  now rewrite (animationFrame_single t b (loose_only cb Hloose Hcb) Hplaying), Hdue.
Qed.

End Frame.

(** C9: the player shows the frames as the specification asks, on every
    page the document reaches.  From [init] on, whatever the user does and
    whichever loads and exports run, provided the sliders and the libraries
    deliver values of their kind and an animation frame comes between two
    starts of the player: when no load waits, there are frames, none of
    them with the same centre for both eyes, and the player runs, an
    animation frame that is due paints the image of the current frame,
    point by point, where the frame transform of the specification puts it
    (aligned on the eyes, or letterboxed), and the next frame, the first
    after the last, becomes the current one. *)
Theorem reached_page_shows_frame cv markup (es : list (AppEvent R)) cb t :
  let a := appRun es (init cv markup) in
  let b := browser (page a) in
  let st := state (world b) in
  let st' := state (world (animationFrame t b)) in
  sound_markup cv markup -> Forall sound es ->
  keeps_pace false (init cv markup) es = true ->
  loads a = [] -> images st <> [] -> Forall apart_item (images st) ->
  isPlaying st = true -> In cb (callbacks b) -> due (lastTime cb) t st = true ->
  exists k item p,
    currentFrame st = ofNat k /\ nth_error (images st) k = Some item /\
    top_paint st' = Some p /\ as_specified st item p /\
    currentFrame st' = ofNat (S k mod List.length (images st)).
Proof.
  intros a b st st' Hm Hes Hp Hl Hne Hap Hpl Hcb Hdue. subst st' st b.
  destruct (appRun_watched Hm Hes Hp) as [[Hwf _] Hr Hlo]. fold a in Hwf, Hr, Hlo.
  apply animationFrame_as_specified with cb; try assumption.
  destruct (Hr Hl) as [He|Hv]; [contradiction | exact Hv].
Qed.

(** ** The exporter on the pages the document reaches *)

(** A well-formed page on which alignment is on has the setup the
    exporters are proved for. *)
Lemma wellformed_setup (w : World R) :
  wellformed w -> alignEyes (state w) = true ->
  Forall apart_item (images (state w)) -> aligned_setup (state w).
Proof.
  intros Hwf Hal Hap. destruct (wf_zoom Hwf) as (n & Hz & _).
  repeat split; eauto using decoded_measured, wf_images. apply (wf_plain Hwf).
Qed.

(** From [init] on, whatever happened before: when the page has frames,
    alignment is on and no frame has the same centre for both eyes, a
    click on the GIF button hands the encoder one frame for every image, in
    their order, and every face is in its frame with the eyes on the
    target. *)
Theorem reached_page_films_aligned cv markup (es : list (AppEvent R)) :
  let p := page (appRun es (init cv markup)) in
  let st := state (world (browser p)) in
  sound_markup cv markup -> Forall sound es ->
  images st <> [] -> alignEyes st = true -> Forall apart_item (images st) ->
  exists gif,
    tasks (exportGif true p) = tasks p ++ [GifRendering gif (isPlaying st)] /\
    films_aligned st gif.
Proof.
  intros p st Hm Hes Hne Hal Hap. subst st p.
  apply exportGif_films; [exact Hne|]. apply wellformed_setup; try assumption.
  now apply appRun_tidy, tidy_init.
Qed.

End Screen.

(** ** The page of scenario A after its first load *)

Section ScenarioScreen.
#[local] Existing Instance h264Recorder.
Local Open Scope R_scope.

Lemma visitA_sound : Forall sound visitA.
Proof.
  unfold visitA.
  repeat match goal with |- Forall sound (_ :: _) => apply Forall_cons end;
    try apply Forall_nil; try exact I. exact filesA_sound.
Qed.

(** The page the visit leaves: the two frames that could be processed, the
    player running at 10 frames per second, its callback waiting since the
    start. *)
Lemma visitA_page :
  let b := browser (page (appRun (M := StdMath) visitA (init canvasA markupA))) in
  images (state (world b)) = [itemA lmA1; {| original := imgB; detections := None |}] /\
  fps (state (world b)) = Fin 10 /\
  callbacks b = [{| handle := 1; lastTime := Fin 0 |}].
Proof. repeat split; vm_compute; reflexivity. Qed.

(** The visit meets what the theorems on the reached pages ask for, with
    an animation frame at 200 ms. *)
Lemma visitA_plays :
  let a := appRun (M := StdMath) visitA (init canvasA markupA) in
  let b := browser (page a) in
  let st := state (world b) in
  let cb := {| handle := 1; lastTime := Fin 0 |} in
  keeps_pace false (init canvasA markupA) visitA = true /\
  loads a = [] /\ images st <> [] /\ Forall apart_item (images st) /\
  isPlaying st = true /\ In cb (callbacks b) /\ due (lastTime cb) (Fin 200) st = true.
Proof.
  destruct visitA_page as (Hi & Hf & Hc). cbn zeta. rewrite Hi, Hc.
  split; [reflexivity|]. split; [vm_compute; reflexivity|].
  split; [discriminate|]. split; [repeat constructor; exact eyesA1|].
  split; [reflexivity|]. split; [now left|].
  cbn [lastTime]. rewrite (due_fin _ _ _ Hf) by lra. apply Rltb_true. lra.
Qed.

(** The first animation frame later than 100 ms shows the first frame,
    aligned on its eyes, and the second frame becomes the current one. *)
Lemma reached_page_shows_frame_witness :
  let b := browser (page (appRun (M := StdMath) visitA (init canvasA markupA))) in
  let st := state (world b) in
  let st' := state (world (animationFrame (Fin 200) b)) in
  exists k item p,
    currentFrame st = ofNat k /\ nth_error (images st) k = Some item /\
    top_paint st' = Some p /\ as_specified st item p /\
    currentFrame st' = ofNat (S k mod List.length (images st)).
Proof.
  destruct visitA_plays as (Hp & Hl & Hne & Hap & Hpl & Hcb & Hdue).
  exact (@reached_page_shows_frame StdMath StdMathLaws _ canvasA markupA visitA _ _
           markupA_sound visitA_sound Hp Hl Hne Hap Hpl Hcb Hdue).
Defined.

End ScenarioScreen.
