(* ===== verification/Picture.v ===== *)
(** * Picture: what is to be seen on the canvas

    The context of Canvas keeps the paint operations in the order they were
    issued.  What is seen at a point of the canvas are the operations that
    cover it, the latest on top, down to the first that hides what is
    below.  The program fills with one colour only, the opaque ["#000"] of
    [renderFrame]; an image may have transparent pixels, so it hides
    nothing.

    [renderFrame] begins with a black rectangle over the whole canvas.  The
    file shows what that is for: after [renderFrame], at every point of the
    canvas, the image of the frame is seen over black where the frame
    transform of the specification puts the image, and black alone
    elsewhere, whatever was painted before.  Nothing of an earlier frame
    shows through, and the bars beside a letterboxed frame are black.  With
    the invariants of the document (Screen) the same holds of every
    animation frame that is due, on every page the document reaches; and
    it holds of every frame of the GIF and of the canvas while the video
    is recorded. *)

From Stdlib Require Import ZArith Reals Lra Lia Bool List String Classical_Prop.
From S2P Require Import Prelude.
From S2P Require Import Carrier.
From S2P Require Import JsNumber.
From S2P Require Import MathLib.
From S2P Require Import Canvas.
From S2P Require Import Geometry.
From S2P Require Import AppState.
From S2P Require Import Render.
From S2P Require Import AutoFit.
From S2P Require Import Playback.
From S2P Require Import Contract.
From S2P Require Import Export.
From S2P Require Import App.
From S2P Require Import Timeline.
From S2P Require Import Typing.
From S2P Require Import Index.
From S2P Require Import Screen.
Import ListNotations.

Set Implicit Arguments.

Section Layers.
Local Open Scope R_scope.

(** The size of the source of a paint operation: the rectangle, or the
    image. *)
Definition extent (p : Paint R) : R * R :=
  match p with
  | FillRect _ _ _ _ w h => (w, h)
  | DrawImage img _ _ _ _ _ => (imgW img, imgH img)
  end.

(** The operation paints on the point [q] of the canvas. *)
Definition covers (p : Paint R) (q : R * R) : Prop :=
  exists u v, 0 <= u <= fst (extent p) /\ 0 <= v <= snd (extent p) /\
              paint_point p u v = q.

(** The operation hides what is below it: a rectangle filled with the
    colour of [renderFrame]. *)
Definition opaque (p : Paint R) : bool :=
  match p with
  | FillRect style _ _ _ _ _ => String.eqb style "#000"
  | DrawImage _ _ _ _ _ _ => false
  end.

(** What is seen at [q] of the operations [ps], the latest first: those
    that cover [q], down to the first opaque one. *)
Inductive seen (q : R * R) : list (Paint R) -> list (Paint R) -> Prop :=
| seen_none : seen q [] []
| seen_miss p ps l : ~ covers p q -> seen q ps l -> seen q (p :: ps) l
| seen_ground p ps : covers p q -> opaque p = true -> seen q (p :: ps) [p]
| seen_layer p ps l :
    covers p q -> opaque p = false -> seen q ps l -> seen q (p :: ps) (p :: l).

(** The rectangle of [clear]. *)
Definition black (cv : Canvas R) : Paint R :=
  FillRect "#000" mat_id 0 0 (canvasW cv) (canvasH cv).

Lemma seen_functional q ps : forall l l', seen q ps l -> seen q ps l' -> l = l'.
Proof.
  induction ps as [|p ps IH]; intros l l' H H'; inversion H; inversion H'; subst;
    try reflexivity; try contradiction; try congruence; auto.
  f_equal. auto.
Qed.

(** Something is seen at every point, be it nothing. *)
Lemma seen_total q ps : exists l, seen q ps l.
Proof.
  induction ps as [|p ps [l IH]]; [exists []; constructor|].
  destruct (classic (covers p q)) as [Hc|Hc]; [|exists l; now constructor].
  destruct (opaque p) eqn:Ho; [exists [p] | exists (p :: l)]; now constructor.
Qed.

Lemma black_covers cv q : inside cv q -> covers (black cv) q.
Proof.
  intros [Hx Hy]. exists (fst q), (snd q). cbn [extent black fst snd paint_point].
  repeat split; try tauto. rewrite mat_apply_id. destruct q. cbn. f_equal; lra.
Qed.

(** An image over an opaque ground that covers the point: the image and
    the ground where the image is, the ground alone elsewhere, and nothing
    of what is below the ground. *)
Lemma seen_over_ground q p g old l :
  opaque p = false -> opaque g = true -> covers g q ->
  seen q (p :: g :: old) l <->
  (covers p q /\ l = [p; g]) \/ (~ covers p q /\ l = [g]).
Proof.
  intros Hp Hg Hc. split.
  - intros H. inversion H as [|? ? ? Hn H'|? ? Hcp Ho|? ? ? Hcp Ho H']; subst;
      try congruence; [right | left]; (split; [assumption|]);
      inversion H'; subst; try contradiction; congruence.
  - intros [[Hcp ->]|[Hn ->]]; [apply seen_layer | apply seen_miss]; auto;
      now apply seen_ground.
Qed.

(** An image over the rectangle of [clear], at a point of the canvas. *)
Lemma seen_frame cv q p old l :
  opaque p = false -> inside cv q ->
  seen q (p :: black cv :: old) l <->
  (covers p q /\ l = [p; black cv]) \/ (~ covers p q /\ l = [black cv]).
Proof. intros Hp Hq. now apply seen_over_ground, black_covers. Qed.

End Layers.

(** ** The picture of a frame *)

Section Frame.
Context {M : MathOps R} {L : MathLaws M}.
Local Open Scope R_scope.
Variables (st : State R) (i : nat) (item : Item R) (z : R).
Hypothesis Hitem : nth_error (images st) i = Some item.
Hypothesis Husable : usable (original item) = true.
Hypothesis Hmeasured : measured_item item.
Hypothesis Hapart : apart_item item.
Hypothesis Hzoom : zoom st = Fin z.
Hypothesis Hctm : ctm (ctx (canvas st)) = mat_id.
Hypothesis Hsize : width (canvas st) <> 0%N /\ height (canvas st) <> 0%N.

(** [renderFrame] adds two operations to the context: the black rectangle
    and, over it, one that draws the image. *)
Lemma renderFrame_two_layers :
  exists p, opaque p = false /\
    painted (ctx (canvas (renderFrame (ofNat i) st))) =
    p :: black (canvas st) :: painted (ctx (canvas st)).
Proof.
  destruct (alignEyes st) eqn:Hal, (detections item) as [d|] eqn:Hd;
    try (eexists; split; [|apply (renderFrame_centered_painted st i Hitem); auto]; reflexivity).
  unfold measured_item, apart_item in *. rewrite Hd in *.
  destruct Hmeasured as [_ Hm]. destruct (measured_flm Hm) as (Hlm & HL & HR).
  assert (Hi : nth_error (images st) i =
               Some {| original := original item;
                       detections := Some {| landmarks :=
                         flm (eyesL (landmarks d)) (eyesR (landmarks d)) |} |})
    by (rewrite Hitem, <- Hlm; destruct item as [img dd]; cbn in *; subst dd;
        now destruct d).
  eexists. split;
    [|exact (renderFrame_aligned_painted st i Hi Hal Hzoom HL HR Hapart Husable Hctm Hsize)].
  reflexivity.
Qed.

(** The upper of the two is the one the specification asks for. *)
Lemma renderFrame_layers :
  exists p, opaque p = false /\ as_specified st item p /\
    top_paint (renderFrame (ofNat i) st) = Some p /\
    painted (ctx (canvas (renderFrame (ofNat i) st))) =
    p :: black (canvas st) :: painted (ctx (canvas st)).
Proof.
  destruct renderFrame_two_layers as (p & Ho & Hp).
  destruct (renderFrame_shown st i Hitem Husable Hmeasured Hzoom Hctm Hapart)
    as (p' & Htop & Hat).
  assert (p' = p) as -> by (unfold top_paint in Htop; rewrite Hp in Htop; now injection Htop).
  exists p. repeat split; try assumption. now exists z.
Qed.

(** C19: [renderFrame] paints the frame and nothing but the frame.  For a
    frame whose image has a size and whose eye centres differ, on a canvas
    with a size and a plain context: at every point of the canvas, what is
    seen after [renderFrame] is the image of the frame over black where the
    frame transform of the specification puts the image, and black alone
    everywhere else, whatever was painted on the canvas before. *)
Theorem renderFrame_repaints :
  let st' := renderFrame (ofNat i) st in
  exists p, top_paint st' = Some p /\ as_specified st item p /\
    forall q l, inside (canvas st) q ->
      (seen q (painted (ctx (canvas st'))) l <->
       (covers p q /\ l = [p; black (canvas st)]) \/
       (~ covers p q /\ l = [black (canvas st)])).
Proof.
  intros st'. subst st'. destruct renderFrame_layers as (p & Ho & Has & Htop & Hp).
  exists p. split; [exact Htop|]. split; [exact Has|].
  intros q l Hq. rewrite Hp. now apply seen_frame.
Qed.

(** A frame that is not aligned leaves black bars: left and right of its
    letterbox, or above and below it, black alone is seen. *)
Theorem renderFrame_bars_black q :
  alignEyes st = false \/ detections item = None ->
  inside (canvas st) q ->
  let s := fitS (canvas st) (original item) in
  let x := (canvasW (canvas st) - imgW (original item) * s) / 2 in
  let y := (canvasH (canvas st) - imgH (original item) * s) / 2 in
  fst q < x \/ x + imgW (original item) * s < fst q \/
  snd q < y \/ y + imgH (original item) * s < snd q ->
  seen q (painted (ctx (canvas (renderFrame (ofNat i) st)))) [black (canvas st)].
Proof.
  intros Hcase Hq s x y Hout.
  rewrite (renderFrame_centered_painted st i Hitem Hcase Husable Hctm Hsize).
  fold s x y.
  apply seen_frame; [reflexivity | assumption |].
  right. split; [|reflexivity].
  intros (u & v & Hu & Hv & E). cbn [extent fst snd] in Hu, Hv.
  rewrite paint_point_scaled in E by assumption. subst q. cbn [fst snd] in Hout.
  destruct (fitS_fit (canvas st) _ Husable) as (H0 & _). fold s in H0. nra.
Qed.

End Frame.

(** ** The picture of a frame in every state with the same setup *)

Section Shots.
Context {M : MathOps R} {L : MathLaws M}.
Local Open Scope R_scope.

(** The operations [ps] show the frame [item] and nothing else: at every
    point of the canvas of [st], the image over black where the frame
    transform of the specification puts it, black alone elsewhere. *)
Definition shows (st : State R) (item : Item R) (ps : list (Paint R)) : Prop :=
  exists p, as_specified st item p /\
    forall q l, inside (canvas st) q ->
      (seen q ps l <->
       (covers p q /\ l = [p; black (canvas st)]) \/
       (~ covers p q /\ l = [black (canvas st)])).

(** What [renderFrame] needs to paint every frame of [st]: a zoom that is
    a number, a plain context, a canvas with a size, frames as the decoder
    and the detector deliver them, none with one centre for both eyes. *)
Definition ready (st : State R) : Prop :=
  (exists z, zoom st = Fin z) /\ ctm (ctx (canvas st)) = mat_id /\
  (width (canvas st) <> 0%N /\ height (canvas st) <> 0%N) /\
  Forall decoded (images st) /\ Forall apart_item (images st).

Lemma layers_shows st item p old :
  opaque p = false -> as_specified st item p ->
  shows st item (p :: black (canvas st) :: old).
Proof. intros Ho Has. exists p. split; [exact Has|]. intros q l Hq. now apply seen_frame. Qed.

Lemma ready_setup st st' : same_setup st st' -> ready st -> ready st'.
Proof.
  intros (Hi & Hz & _ & _ & Hw & Hh & Hc & _) (Hzz & Hctm & Hsz & Hd & Ha).
  unfold ready. now rewrite Hi, Hz, Hw, Hh, Hc.
Qed.

Lemma as_specified_setup st st' item p :
  same_setup st st' -> as_specified st' item p -> as_specified st item p.
Proof.
  intros (_ & Hz & Ha & _ & Hw & Hh & _) (z & Hzz & H). exists z.
  split; [congruence|]. intros q. rewrite H.
  unfold viewportOf, canvasW, canvasH. now rewrite Hw, Hh, Ha.
Qed.

Lemma black_setup st st' : same_setup st st' -> black (canvas st') = black (canvas st).
Proof.
  intros (_ & _ & _ & _ & Hw & Hh & _). unfold black, canvasW, canvasH. now rewrite Hw, Hh.
Qed.

(** In every state with the setup of a ready state, [renderFrame] leaves
    the frame and nothing else to be seen. *)
Lemma shot_shows st st' k item :
  same_setup st st' -> ready st -> nth_error (images st) k = Some item ->
  shows st item (painted (ctx (canvas (renderFrame (ofNat k) st')))).
Proof.
  intros Hs Hr Hitem. pose proof (ready_setup Hs Hr) as ([z Hz] & Hctm & Hsz & Hd & Ha).
  assert (Hitem' : nth_error (images st') k = Some item) by now rewrite (proj1 Hs).
  destruct (Forall_nth_error _ Hd Hitem') as [Hu Hm].
  destruct (renderFrame_layers st' k (item := item) (z := z))
    as (p & Ho & Has & _ & ->); try assumption.
  - unfold measured_item. now destruct (detections item).
  - exact (Forall_nth_error _ Ha Hitem').
  - rewrite (black_setup Hs). eauto using layers_shows, as_specified_setup.
Qed.

End Shots.

(** ** The picture on the pages the document reaches *)

Section Reached.
Context {M : MathOps R} {L : MathLaws M} {Rec : Recorder}.
Local Open Scope R_scope.

Lemma wellformed_ready (w : World R) :
  wellformed w -> Forall apart_item (images (state w)) -> ready (state w).
Proof.
  intros Hwf Hap. destruct (wf_zoom Hwf) as (n & Hz & _).
  repeat split; eauto using wf_images, wf_width, wf_height. apply (wf_plain Hwf).
Qed.

(** From [init] on, whatever happened before: when no load waits, there
    are frames, none of them with the same centre for both eyes, and the
    player runs, an animation frame that is due leaves the current frame
    and nothing else to be seen on the canvas. *)
Theorem reached_page_picture cv markup (es : list (AppEvent R)) cb t :
  let a := appRun es (init cv markup) in
  let b := browser (page a) in
  let st := state (world b) in
  let st' := state (world (animationFrame t b)) in
  sound_markup cv markup -> Forall sound es ->
  keeps_pace false (init cv markup) es = true ->
  loads a = [] -> images st <> [] -> Forall apart_item (images st) ->
  isPlaying st = true -> In cb (callbacks b) -> due (lastTime cb) t st = true ->
  exists k item,
    currentFrame st = ofNat k /\ nth_error (images st) k = Some item /\
    shows st item (painted (ctx (canvas st'))).
Proof.
  intros a b st st' Hm Hes Hp Hl Hne Hap Hpl Hcb Hdue. subst st' st b.
  destruct (appRun_watched Hm Hes Hp) as [[Hwf _] Hr Hlo]. fold a in Hwf, Hr, Hlo.
  assert (Hv : valid_frame (state (world (browser (page a)))))
    by (destruct (Hr Hl) as [He|Hv]; [contradiction | exact Hv]).
  destruct (animationFrame_due cb t Hwf Hv Hlo Hpl Hcb Hdue)
    as (k & item & Hk & Hitem & _ & -> & _).
  exists k, item. repeat split; try assumption.
  apply shot_shows; [reflexivity | now apply wellformed_ready | exact Hitem].
Qed.

(** C12: every frame of the GIF shows its own image and nothing else.  On a
    page with frames, a zoom that is a number, a plain context, a canvas
    with a size and frames whose eye centres differ, aligned or not:
    [exportGif] hands the encoder one frame for every image, and in the
    frame of an image, at every point of the canvas, that image is seen
    over black where the frame transform of the specification puts it and
    black alone elsewhere; nothing of the frame before it, nothing of
    what the canvas showed before the export. *)
Theorem exportGif_pictures (p : Page R) :
  let st := state (world (browser p)) in
  images st <> [] -> ready st ->
  exists gif,
    tasks (exportGif true p) = tasks p ++ [GifRendering gif (isPlaying st)] /\
    List.length (gif_frames gif) = List.length (images st) /\
    forall i item fr,
      nth_error (images st) i = Some item -> nth_error (gif_frames gif) i = Some fr ->
      shows st item (picture fr).
Proof.
  intros st Hne Hr.
  destruct (exportGif_spec p Hne) as (w & gif & -> & _ & _ & _ & _ & _ & _ & Hsh & Hlen).
  exists gif. repeat split; try assumption. intros i item fr Hi Hfr.
  destruct (shots_nth _ Hsh Hfr) as (st' & Hs & ->). cbn [picture Nat.add].
  now apply shot_shows.
Qed.

(** While the video is recorded, after every timer, the canvas the
    recorder films shows the frame of the turn and nothing else. *)
Theorem exportMp4_pictures (p : Page R) es item :
  let st := state (world (browser p)) in
  let p' := pageRun (ExportMp4Click true :: es) p in
  tasks p = [] -> ready st -> undisturbed es = true ->
  nth_error (images st) (timers es) = Some item ->
  shows st item (painted (ctx (canvas (state (world (browser p')))))).
Proof.
  intros st p' Ht Hr Hu Hi. subst p'. unfold pageRun. rewrite forEach_cons.
  cbn [pageStep]. fold (pageRun es (exportMp4 true p)).
  assert (Hn : (timers es < List.length (images st))%nat)
    by (apply nth_error_Some; congruence).
  assert (Hne : images st <> []) by (intros E; rewrite E in Hn; cbn in Hn; lia).
  destruct (filming_run es (exportMp4_filming p Ht Hne) Hu Hn)
    as (_ & _ & _ & _ & st' & Hs & ->).
  now apply shot_shows.
Qed.

End Reached.

(** ** The first frame of scenario A *)

Section ScenarioPicture.
#[local] Existing Instance h264Recorder.
Local Open Scope R_scope.

Lemma renderFrame_repaints_witness :
  let st' := renderFrame (ofNat 0) stateA in
  exists p, top_paint st' = Some p /\ as_specified stateA (itemA lmA1) p /\
    forall q l, inside (canvas stateA) q ->
      (seen q (painted (ctx (canvas st'))) l <->
       (covers p q /\ l = [p; black (canvas stateA)]) \/
       (~ covers p q /\ l = [black (canvas stateA)])).
Proof.
  apply (renderFrame_repaints (L := StdMathLaws) stateA 0 (item := itemA lmA1)
           (z := 25 / 100));
    [reflexivity | reflexivity
    | apply measured_item_flm; reflexivity || discriminate
    | apply apart_item_flm; exact eyesA1
    | reflexivity | reflexivity | split; discriminate].
Defined.

Lemma stateA_ready : ready stateA.
Proof.
  split; [now exists (25 / 100)|]. split; [reflexivity|].
  split; [split; discriminate|]. split; [|exact stateA_apart].
  repeat apply Forall_cons; try apply Forall_nil;
    apply measured_item_flm; reflexivity || discriminate.
Qed.

Lemma exportGif_pictures_witness :
  let st := state (world (browser siteA)) in
  exists gif,
    tasks (exportGif true siteA) = tasks siteA ++ [GifRendering gif (isPlaying st)] /\
    List.length (gif_frames gif) = List.length (images st) /\
    forall i item fr,
      nth_error (images st) i = Some item -> nth_error (gif_frames gif) i = Some fr ->
      shows st item (picture fr).
Proof.
  apply (exportGif_pictures (L := StdMathLaws) siteA); [discriminate | exact stateA_ready].
Defined.

(** After the visit of scenario A, the animation frame at 200 ms leaves
    the first frame over black, and nothing of the loading of the page. *)
Example visitA_picture :
  let b := browser (page (appRun (M := StdMath) visitA (init canvasA markupA))) in
  let st := state (world b) in
  let st' := state (world (animationFrame (Fin 200) b)) in
  exists k item,
    currentFrame st = ofNat k /\ nth_error (images st) k = Some item /\
    shows st item (painted (ctx (canvas st'))).
Proof.
  destruct visitA_plays as (Hp & Hl & Hne & Hap & Hpl & Hcb & Hdue).
  exact (@reached_page_picture StdMath StdMathLaws h264Recorder canvasA markupA visitA _ _
           markupA_sound visitA_sound Hp Hl Hne Hap Hpl Hcb Hdue).
Qed.

End ScenarioPicture.
