(* ===== verification/Doubles.v ===== *)
(** * Doubles: the numbers as the machine has them

    The theorems of the other files are about exact arithmetic.  A
    JavaScript number is a binary64 floating-point number, and every
    operation of the program rounds.  This file makes the model run on
    them: the primitive floats of the kernel are binary64 with the rounding
    of IEEE 754, which is the arithmetic of [+], [-], [*] and [/] in
    ECMAScript, so the instance [DCarrier] of the class [Carrier] turns
    every definition of the development into the computation the browser
    does, rounding included.

    [Math.sqrt], [Math.atan2], [Math.cos] and [Math.sin] are approximated by
    the engine; the class [Engine] states what is assumed of them: the
    square root is the correctly rounded one, and at zero the other three
    return what ECMAScript fixes ([atan2(+0, x) = +0] for positive [x],
    [cos(-0) = 1], [sin(-0) = -0]).  That is all a frame with level eyes
    needs: on such frames every engine computes what the instance
    [LevelMath] computes ([fittedZoom_engine], [renderFrame_engine]), so a
    run on it by [vm_compute] is a theorem about every engine.

    Three results: whatever the rounding, the zoom that [clampedZoom]
    returns is in the range of the slider ([clampedZoom_doubles]); the
    slider and the zoom agree at every position of the slider, although
    [k / 100 * 100] is not [k] for every [k] ([slider_agrees_doubles]); and
    the rounding changes what [autoFitZoom] stores
    ([rounding_lowers_zoom]): for a frame whose exact zoom after the margin
    is 0.57 the product [0.6 * 0.95 * 100] is 56.99999999999999 in doubles,
    [Math.floor] makes it 56 and the function stores 0.56.

    A [Fin] of the model holds a finite double as long as no operation
    overflows; the sizes and coordinates of the scenarios are far from
    that.  [FofZ] is exact below 2^53 in absolute value, and [Math_round],
    which is [floor (x + 0.5)], is [Math.round] of ECMAScript below 2^52
    except at the double just below 0.5.  The order in which the context
    multiplies its matrices is the one of Canvas; the standard does not fix
    it, so the painted positions of the runs are those of the model. *)

From Stdlib Require Import Floats ZArith Uint63 Reals Lra Lia Bool List String.
From S2P Require Import Prelude.
From S2P Require Import Carrier.
From S2P Require Import JsNumber.
From S2P Require Import MathLib.
From S2P Require Import Canvas.
From S2P Require Import Geometry.
From S2P Require Import AppState.
From S2P Require Import Render.
From S2P Require Import AutoFit.
From S2P Require Import Playback.
From S2P Require Import Controls.
Import ListNotations.

Set Implicit Arguments.

(** ** The carrier *)

(** The double of an integer. *)
Definition floatOfZ (z : Z) : float :=
  match z with
  | Z0 => 0%float
  | Zpos _ => of_uint63 (Uint63.of_Z z)
  | Zneg p => (- of_uint63 (Uint63.of_Z (Zpos p)))%float
  end.

(** The greatest integer not above a finite double [(-1)^s * m * 2^e]. *)
Definition floatFloor (x : float) : Z :=
  match Prim2SF x with
  | S754_finite s m e =>
      let n := if s then Zneg m else Zpos m in
      if (0 <=? e)%Z then (n * 2 ^ e)%Z else (n / 2 ^ (- e))%Z
  | _ => 0%Z
  end.

#[export] Instance DCarrier : Carrier float | 20 := {|
  Fzero := 0%float;
  Fone := 1%float;
  Fadd := PrimFloat.add;
  Fsub := PrimFloat.sub;
  Fmul := PrimFloat.mul;
  Fdiv := PrimFloat.div;
  Fopp := PrimFloat.opp;
  Fltb := PrimFloat.ltb;
  Feqb := PrimFloat.eqb;
  FofZ := floatOfZ;
  Ffloor := floatFloor
|}.

(** ** The engine *)

(** What is assumed of the four functions of [Math]. *)
Class Engine (M : MathOps float) : Prop := {
  sqrt_rounded : forall x, Fsqrt x = PrimFloat.sqrt x;
  atan2_level : forall x, PrimFloat.ltb 0 x = true -> Fatan2 0%float x = 0%float;
  cos_zero : Fcos (-0)%float = 1%float;
  sin_zero : Fsin (-0)%float = (-0)%float
}.

(** The engine that knows no more: [NaN] wherever ECMAScript leaves the
    result to the implementation. *)
#[export] Instance LevelMath : MathOps float | 20 := {|
  Fsqrt := PrimFloat.sqrt;
  Fatan2 := fun y x => if PrimFloat.eqb y 0 && PrimFloat.ltb 0 x then y else nan;
  Fcos := fun t => if PrimFloat.eqb t 0 then 1%float else nan;
  Fsin := fun t => if PrimFloat.eqb t 0 then t else nan;
  Fpi := 0x1.921fb54442d18p+1%float
|}.

#[export] Instance LevelEngine : Engine LevelMath.
Proof. split; try reflexivity. intros x Hx. cbn. now rewrite Hx. Qed.

(** ** Frames with level eyes *)

(** The right eye is straight to the right of the left one. *)
Definition level (lm : Landmarks float) : Prop :=
  dy lm = Fin 0%float /\ exists d, dx lm = Fin d /\ PrimFloat.ltb 0 d = true.

Definition levelled (item : Item float) : Prop :=
  match detections item with
  | Some d => level (landmarks d)
  | None => True
  end.

Section Level.
Context {M : MathOps float} {E : Engine M}.
Implicit Types lm : Landmarks float.

Lemma angle_level lm : level lm -> angle lm = Fin 0%float.
Proof.
  intros (Hy & d & Hx & Hd). unfold angle. rewrite Hy, Hx. cbn [Math_atan2].
  now rewrite atan2_level.
Qed.

(** The rotation of a level frame is the identity, whatever the engine. *)
Lemma turn_level lm :
  level lm ->
  Math_cos (- angle lm)%num = Fin 1%float /\ Math_sin (- angle lm)%num = Fin (-0)%float.
Proof.
  intros H. rewrite (angle_level H). cbn [nneg Math_cos Math_sin].
  change (Fopp 0%float) with (-0)%float. now rewrite cos_zero, sin_zero.
Qed.

Lemma currentEyesDist_level lm :
  level lm -> currentEyesDist lm = currentEyesDist (M := LevelMath) lm.
Proof.
  intros (Hy & d & Hx & _). unfold currentEyesDist. rewrite Hy, Hx.
  cbn [nmul nadd Math_sqrt]. now rewrite sqrt_rounded.
Qed.

End Level.

Section Agreement.
Context {M : MathOps float} {E : Engine M}.
Implicit Types lm : Landmarks float.

Lemma maxScaleForThisImage_level cv img lm :
  level lm ->
  maxScaleForThisImage cv img lm = maxScaleForThisImage (M := LevelMath) cv img lm.
Proof.
  intros H. unfold maxScaleForThisImage.
  destruct (turn_level (M := M) H) as [-> ->].
  now destruct (turn_level (M := LevelMath) H) as [-> ->].
Qed.

Lemma safeZoom_level cv img lm :
  level lm -> safeZoom cv img lm = safeZoom (M := LevelMath) cv img lm.
Proof.
  intros H. unfold safeZoom.
  now rewrite maxScaleForThisImage_level, currentEyesDist_level.
Qed.

Lemma fitItem_level cv item a :
  levelled item -> fitItem cv item a = fitItem (M := LevelMath) cv item a.
Proof.
  unfold levelled, fitItem. destruct (detections item); [|reflexivity].
  intros H. now rewrite safeZoom_level.
Qed.

(** The solver on level frames: every engine stores the zoom that
    [LevelMath] computes. *)
Theorem fittedZoom_engine (st : State float) :
  Forall levelled (images st) -> fittedZoom st = fittedZoom (M := LevelMath) st.
Proof.
  intros H. unfold fittedZoom, minSafeZoom. do 2 f_equal.
  apply forEach_ext. intros item a Hin. apply fitItem_level.
  now apply (proj1 (Forall_forall _ _) H).
Qed.

(** The renderer on level frames. *)
Lemma rotate_level lm :
  level lm ->
  rotate (M := M) (- angle lm)%num =
  rotate (M := LevelMath) (- angle (M := LevelMath) lm)%num.
Proof.
  intros H. rewrite (angle_level (M := M) H), (angle_level (M := LevelMath) H).
  cbn [nneg rotate]. change (Fopp 0%float) with (-0)%float. unfold mat_rotate.
  now rewrite (cos_zero (M := M)), (sin_zero (M := M)).
Qed.

Lemma drawAligned_level cv z img lm :
  level lm -> drawAligned cv z img lm = drawAligned (M := LevelMath) cv z img lm.
Proof.
  intros H. unfold drawAligned, eyesScale.
  now rewrite rotate_level, currentEyesDist_level.
Qed.

Lemma drawItem_level cv z align item :
  levelled item -> drawItem cv z align item = drawItem (M := LevelMath) cv z align item.
Proof.
  unfold levelled, drawItem. destruct align, (detections item); try reflexivity.
  intros H. now rewrite drawAligned_level.
Qed.

Theorem renderFrame_engine index (st : State float) :
  Forall levelled (images st) ->
  renderFrame index st = renderFrame (M := LevelMath) index st.
Proof.
  intros H. unfold renderFrame, array_get.
  destruct (nindex index) as [k|]; [|reflexivity].
  destruct (nth_error (images st) k) as [item|] eqn:Ek; [|reflexivity].
  rewrite drawItem_level; [reflexivity|].
  apply (proj1 (Forall_forall _ _) H). eauto using nth_error_In.
Qed.

(** [autoFitZoom] on level frames: what it stores, what it writes to the
    slider and what it paints. *)
Theorem autoFitZoom_engine (w : World float) :
  Forall levelled (images (state w)) ->
  autoFitZoom w = autoFitZoom (M := LevelMath) w.
Proof.
  intros H. unfold autoFitZoom. destruct (_ =? _)%nat; [reflexivity|].
  unfold andThen. rewrite (fittedZoom_engine (state (showLoading1 _ w))) by exact H.
  destruct (isPlaying _); [reflexivity|]. unfold on_state at 1 3.
  rewrite renderFrame_engine; [reflexivity | exact H].
Qed.

End Agreement.

(** ** The range of the slider survives the rounding *)

Section Range.

Definition tenth : float := Fdec 1 10.

(** At least 0.1 and at most 1, as doubles compare. *)
Definition in_range (r : float) : Prop :=
  (r = tenth \/ PrimFloat.ltb tenth r = true) /\ (r = 1%float \/ PrimFloat.ltb r 1 = true).

(** Whatever number the margin and the floor leave, the clamp returns a
    double between 0.1 and 1, or [NaN] for [NaN]. *)
Theorem clampedZoom_doubles (a : num float) :
  isNaN a = false -> exists r, clampedZoom a = Fin r /\ in_range r.
Proof.
  intros Ha. unfold clampedZoom, Math_min, Math_max, in_range.
  change (dec 1 10) with (Fin tenth). change (ofZ 1) with (Fin 1%float).
  assert (H01 : PrimFloat.ltb tenth 1 = true) by reflexivity.
  destruct a as [x| | |]; try discriminate; cbn [isNaN orb nltb Fltb DCarrier].
  - destruct (PrimFloat.ltb x 1) eqn:E1; cbn [isNaN orb nltb Fltb DCarrier].
    + destruct (PrimFloat.ltb tenth x) eqn:E2; eauto 6.
    + rewrite H01. eauto 6.
  - rewrite H01. eauto 6.
  - eauto 6.
Qed.

End Range.

(** ** The slider and the zoom agree on doubles

    [autoFitZoom] stores [k / 100] and writes [Math.round(zoom * 100)] to
    the slider, whose listener stores [parseInt(value) / 100].  In doubles
    [k / 100 * 100] is not always [k]; that the three agree for every
    position of the slider is checked position by position. *)

Section Hundredths.

(** Equality of numbers on doubles, bit by bit. *)
Definition same (a b : num float) : bool :=
  match a, b with
  | Fin x, Fin y => Leibniz.eqb x y
  | PInf, PInf | NInf, NInf | NaN, NaN => true
  | _, _ => false
  end.

(** What the slider and the zoom ask of [k] hundredths: rounded, the zoom
    times 100 is [k]; the listener of the slider reads [k] back as the same
    zoom; the clamp leaves the zoom alone. *)
Definition agrees (k : Z) : bool :=
  same (Math_round (dec k 100 * ofZ 100)%num) (ofZ k) &&
  same (parseInt (ofZ k) / ofZ 100)%num (dec k 100) &&
  same (clampedZoom (dec k 100)) (dec k 100).

(** The positions of the slider. *)
Definition positions : list Z := map Z.of_nat (seq 10 91).

Lemma same_eq a b : same a b = true -> a = b.
Proof.
  destruct a, b; cbn; try discriminate; try reflexivity.
  now intros ->%Leibniz.eqb_spec.
Qed.

Lemma positions_agree : forallb agrees positions = true.
Proof. vm_compute. reflexivity. Qed.

Lemma agrees_range k : (10 <= k <= 100)%Z -> agrees k = true.
Proof.
  intros H. apply (proj1 (forallb_forall agrees positions) positions_agree).
  apply in_map_iff. exists (Z.to_nat k). split; [lia|]. apply in_seq. lia.
Qed.

(** [Math.floor] in the place of [Math.round] would set the slider one
    position too low: [0.57 * 100] is below 57. *)
Example floor_loses_a_position :
  Math_floor (dec 57 100 * ofZ 100)%num = ofZ (F := float) 56 /\
  Math_round (dec 57 100 * ofZ 100)%num = ofZ (F := float) 57.
Proof. split; apply same_eq; vm_compute; reflexivity. Qed.

(** C30: on doubles the slider and the zoom agree.  When the zoom that
    [autoFitZoom] stores is [k] hundredths, for a position [k] of the
    slider, the function sets the slider to [k], although [k / 100 * 100] is
    not always [k] in doubles, and the listener of the slider, run on the
    value the function wrote, stores the very same double. *)
Theorem slider_agrees_doubles (M : MathOps float) (w : World float) (k : Z) :
  let w' := autoFitZoom w in
  images (state w) <> [] -> (10 <= k <= 100)%Z -> zoom (state w') = dec k 100 ->
  zoomRange_value (elements w') = ofZ k /\
  zoom (state (onZoomInput (zoomRange_value (elements w')) w')) = zoom (state w').
Proof.
  intros w' Hne Hk Hz. subst w'.
  destruct (autoFitZoom_elements w Hne) as [_ Hs].
  destruct (autoFitZoom_frame w Hne) as (_ & Hf & _).
  pose proof (agrees_range Hk) as [[Hr Hp]%andb_prop _]%andb_prop.
  assert (Hv : zoomRange_value (elements (autoFitZoom w)) = ofZ k)
    by now rewrite Hs, <- Hf, Hz; apply same_eq.
  split; [exact Hv|].
  rewrite onZoomInput_stores, Hv, Hz. now apply same_eq.
Qed.

End Hundredths.

(** ** Runs *)

Section ScenarioDoubles.

Definition canvasD : Canvas float := {| width := 1000; height := 1000; ctx := ctx_init |}.

(** A frame with one point for each eye, the two level. *)
Definition levelD (img : Image) (x y u : Z) : Item float :=
  {| original := img;
     detections := Some {| landmarks :=
       {| getLeftEye := [fpt (FofZ x, FofZ y)];
          getRightEye := [fpt (FofZ u, FofZ y)] |} |} |}.

Definition pageD : Elements float :=
  {| uploadSection_hidden := true; editorSection_hidden := false;
     dropZone_dragOver := false;
     fileInput_value := EmptyString; loadingOverlay_hidden := true;
     loadingText := EmptyString; progressBarContainer_hidden := true;
     progressBar_width := ofZ 0; speedValue := ofZ 10; zoomRange_value := ofZ 25;
     alignEyesBtn_active := true; noAlignBtn_active := false |}.

Definition worldD (items : list (Item float)) : World float :=
  {| state := set_images items (state_init canvasD); elements := pageD |}.

Ltac levels :=
  cbn [worldD state images set_images];
  repeat match goal with
         | |- Forall _ (_ :: _) => apply Forall_cons
         | |- Forall _ [] => apply Forall_nil
         | |- levelled _ =>
             split; [vm_compute; reflexivity
                    | eexists; split; [vm_compute; reflexivity | reflexivity]]
         end.

(** Scenario A on doubles: the rounding changes nothing; the function
    stores 0.15 and sets the slider to 15, as in exact arithmetic. *)
Example scenario_A_doubles (M : MathOps float) (E : Engine M) :
  let w := autoFitZoom (worldD [levelD imgA 400 500 600; levelD imgA 300 500 500]) in
  zoom (state w) = dec 15 100 /\ zoomRange_value (elements w) = ofZ 15.
Proof. cbn zeta. rewrite autoFitZoom_engine by levels. split; vm_compute; reflexivity. Qed.

(** The eyes of scenario E, 750 pixels apart. *)
Definition worldE : World float := worldD [levelD imgA 100 500 850].

(** C39: the rounding of doubles changes the zoom that [autoFitZoom]
    stores.  For the frame of scenario E the smallest zoom is 0.6 and its
    exact product with the margin is 0.57, which is what the function
    stores in exact arithmetic; in doubles [0.6 * 0.95 * 100] is below 57,
    [Math.floor] returns 56, and every engine stores 0.56 and sets the
    slider to 56. *)
Theorem rounding_lowers_zoom (M : MathOps float) (E : Engine M) :
  let w := autoFitZoom worldE in
  zoom (state w) = dec 56 100 /\ zoomRange_value (elements w) = ofZ 56 /\
  zoom (state (autoFitZoom (lone_world imgA 100 500 850))) = Fin (57 / 100)%R.
Proof.
  cbn zeta. rewrite autoFitZoom_engine by (unfold worldE; levels).
  split; [|split]; [vm_compute; reflexivity .. | apply scenario_E_autoFit].
Qed.

Lemma rounding_lowers_zoom_witness :
  let w := autoFitZoom (M := LevelMath) worldE in
  zoom (state w) = dec 56 100 /\ zoomRange_value (elements w) = ofZ 56 /\
  zoom (state (autoFitZoom (lone_world imgA 100 500 850))) = Fin (57 / 100)%R.
Proof. exact (rounding_lowers_zoom LevelEngine). Defined.

Lemma slider_agrees_doubles_witness :
  let w' := autoFitZoom (M := LevelMath) worldE in
  zoomRange_value (elements w') = ofZ 56 /\
  zoom (state (onZoomInput (zoomRange_value (elements w')) w')) = zoom (state w').
Proof.
  apply (slider_agrees_doubles LevelMath worldE (k := 56));
    [discriminate | lia | vm_compute; reflexivity].
Defined.

(** What the canvas shows, on doubles.  Scenario A at the zoom 0.25: every
    engine paints the eyes of the first frame 250 pixels apart on the line
    of the target, at (375, 400) and (625, 400). *)
Example scenario_A_painted_doubles (M : MathOps float) (E : Engine M) :
  let st := renderFrame (ofZ 0)
              (state (worldD [levelD imgA 400 500 600; levelD imgA 300 500 500])) in
  option_map (fun p => (paint_point p 400 500, paint_point p 600 500)%float)
             (top_paint st) = Some ((375, 400), (625, 400))%float.
Proof. cbn zeta. rewrite renderFrame_engine by levels. vm_compute. reflexivity. Qed.

(** Scenario E after the fit: the eyes are 560 pixels apart around the
    target, and the corners of the image are inside the canvas. *)
Example scenario_E_painted_doubles (M : MathOps float) (E : Engine M) :
  option_map (fun p => (paint_point p 100 500, paint_point p 850 500,
                        paint_point p 0 0, paint_point p 1000 1000)%float)
             (top_paint (state (autoFitZoom worldE))) =
  Some ((220, 400), (780, 400), (0x1.22aaaaaaaaaaap+7, 0x1.aaaaaaaaaaaa0p+4),
        (892, 0x1.82aaaaaaaaaabp+9))%float.
Proof.
  rewrite autoFitZoom_engine by (unfold worldE; levels). vm_compute. reflexivity.
Qed.

End ScenarioDoubles.
